(* ===== verification/_CoqProject ===== *)
-Q . S2P
Prelude.v
Os.v
Text.v
Crypto.v
Concrete.v
CryptoTheorems.v
Protocol.v
ConcreteCodec.v
ProtocolTheorems.v
Config.v
ConfigFacts.v
ConcreteConfig.v
ConfigTheorems.v
PairingUrl.v
Firewall.v
FirewallTheorems.v
Pairing.v
PairingTheorems.v
Network.v
Auth.v
ConcreteAuth.v
NetworkTheorems.v
AuthTheorems.v
PeerIdentity.v
Ble.v
BleTheorems.v
Reception.v
Ipc.v
Sockets.v
Session.v
SessionTheorems.v
SessionGrants.v
ConcreteIpc.v
Jni.v
JniApi.v
JniTheorems.v
Admin.v
AdminTheorems.v
PairingLife.v
Daemon.v
DaemonTheorems.v
CancelBoard.v
Frames.v
Tasks.v
AdminTasks.v
AdminAlone.v
AdminRaces.v
ServeTheorems.v
DaemonLoop.v
DaemonLoopTheorems.v
Locale.v
LocaleTheorems.v
Build.v
GuiIpc.v
Cli.v
ClientTheorems.v
Gui.v
GuiTheorems.v
IpcClient.v
IpcClientTheorems.v
Pam.v
PamTheorems.v
PamSys.v
SourceScan.v
SharedTests.v
WireTests.v
PamTests.v
PamWorker.v
PamWorkerTheorems.v
EndToEnd.v
