(* ===== verification/Prelude.v ===== *)
(** * TapAuth: a verification library for the Rust client

    TapAuth lets a Linux host accept a tap on a paired phone instead of a password.
    This library models the Rust code of the host and proves what makes it correct.

    ** The program and how it is put together

    A host calls the PAM module ([client-pam]), which asks the daemon ([tapauthd])
    over a Unix socket.  The daemon checks that something is paired for the user,
    draws a challenge, and sends a signed and encrypted request to the phones by UDP
    multicast and BLE.  A phone answers with a signed grant or denial, which the
    daemon verifies against the paired servers; its outcome goes back to the module,
    which turns it into a PAM code.  Administration (pairing, removal, settings) comes
    from a configuration tool and a command line over the same socket.  [shared] holds
    what all sides use: cryptography, messages, pairing, configuration, the UDP layer,
    the firewall guard, and the bindings through which the phone's application, which
    is written in Kotlin, uses the same code.

    ** Files

    Foundations:
    - [Prelude]: results, the state and error monad, bytes, big-endian integers,
      tactics and the hint database [tapauth];
    - [Os]: the world of a process: random source, clocks, a file system with modes,
      owners and faults (a call may be refused, a write may be torn);
    - [Text]: decimal numbers and ASCII text.

    Components, each with its theorems in a file of its own:
    - [Crypto], [CryptoTheorems]: [shared/src/crypto.rs] and [crypto/*.rs].  The
      primitives are the class [CryptoOps] with laws [CryptoLaws].
    - [Protocol], [ProtocolTheorems]: [shared/src/protocol/messages.rs], [packet.rs].
      Protobuf is the class [Codec] with its round-trip law [CodecLaws].
    - [Config], [ConfigFacts], [ConfigTheorems]: [shared/src/config.rs],
      [config/toml_config.rs], [tpm.rs].  JSON, TOML and the tpm2 tools are classes.
    - [Pairing], [PairingTheorems]: [shared/src/protocol/pairing.rs], both ends.
    - [PairingUrl]: the URL of the QR code, [shared/src/models.rs].
    - [Firewall], [FirewallTheorems]: [shared/src/firewall.rs].  The programs that are
      run are the class [Commands].
    - [Network], [NetworkTheorems]: [shared/src/network/udp.rs], [discovery.rs]:
      interfaces, local addresses, sending and receiving.
    - [Sockets]: the rest of [shared/src/network]: creation and options of the UDP and
      TCP sockets, as the system calls they make, and the retransmission helper.
    - [Auth], [AuthTheorems]: the exchange over one transport,
      [tapauthd/src/auth_handler.rs] from [authenticate_with_transport] on; the trait
      [Transport] is a class, [transport/udp.rs] its instance.
    - [Ble], [BleTheorems]: [tapauthd/src/transport/ble.rs], a second instance; BlueZ
      answers by a script, devices act at given times.
    - [Jni], [JniApi], [JniTheorems]: [shared/src/jni/*.rs], [error.rs] and
      [jni_api.rs]: conversions and exceptions, then the entry points, over a virtual
      machine ([Jvm]) whose operations may fail.
    - [Reception]: where the packet of a successful exchange came from: a datagram of the
      socket's inbox, or a value a Bluetooth device wrote.
    - [Session], [SessionTheorems], [SessionGrants]: the rest of [auth_handler.rs]: the
      daemon's state, a session's checks, the two transport tasks, cancel, deadline and
      firewall.  [spawn_auth_tasks] runs the exchange of [Auth] over each transport with
      the packet, keys, challenge and servers of the session; the session sees when each
      task ends, in the order of these times.  [SessionEnv] has what the session does not
      control: the datagrams, BlueZ and the devices, how long setting up takes (possibly
      for ever), panics, a cancel, and which branch [select!] takes of several that are
      ready.  What a session does is a log of effects ([AuthEffect]).
    - [Ipc]: messages of [proto/ipc.proto].
    - [PeerIdentity]: [tapauthd/src/peer_identity.rs]: who is calling, and PolKit.
    - [Admin], [AdminTheorems], [PairingLife]: [tapauthd/src/admin_handler.rs]: every
      administrative request, and the pairing in progress as a state machine with its
      two timers.
    - [Frames], [Tasks], [AdminTasks], [AdminAlone], [AdminRaces]: the same requests when
      several run at a time.  [Tasks] has programs whose steps interleave and a small
      logic for them, [AdminTasks] the handlers, the store operations and the reload as
      such programs, [Frames] which files an operation leaves alone; [AdminAlone] relates
      a task to the handler of [Admin], [AdminRaces] has the runs and what they keep.
    - [Daemon], [DaemonTheorems], [ServeTheorems]: [tapauthd/src/main.rs]: framing,
      dispatch, deduplication, cancel registry; [serve] is a connection handled by the
      daemon with the administrative handler of [Admin].
    - [DaemonLoop], [DaemonLoopTheorems]: [main] of [tapauthd/src/main.rs]: start-up and
      the accept loop, whose tasks, timers, failures and signals come in any order.
    - [CancelBoard]: concurrent sessions and their cancels: the registry of [main.rs] and
      the channels of [auth_handler.rs].
    - [GuiIpc], [Cli], [ClientTheorems]: [client-config-gui/src/ipc.rs] and
      [tapauthd/src/bin/tapauth-ipc-cli.rs], over a connection ([Link]) that may fail,
      and connected to [serve].
    - [Locale], [LocaleTheorems]: [shared/src/l10n.rs], [client-config-gui/src/l10n.rs]
      and [client-pam/src/pam_messages.rs]: which language a user gets, and texts.
      Fluent is the class [Fluent], what the build generates is [Tables].
    - [Gui], [GuiTheorems]: [client-config-gui/src/app.rs], [screens.rs], [screens/*.rs],
      [main.rs] and [utils/*.rs].  A screen's [update] gives its new state and a task;
      the running program ([gui_step]) lets the user press what is shown and tasks end
      in any order.  A press refers to the screen as it is when it is handled.
    - [IpcClient], [IpcClientTheorems]: [client-pam/src/ipc_client.rs], over a socket
      that delivers bytes in any pieces.
    - [Pam], [PamTheorems]: [client-pam/src/lib.rs], [pam_logic.rs], [config.rs] and the
      getters of [pam_sys.rs].  The turns of a poll loop are a list of [Tick]s.
    - [PamWorker], [PamWorkerTheorems]: the native password thread of [pam_logic.rs] and
      the thread that waits for it, step by step in any interleaving.
    - [PamSys]: the conversation functions of [pam_sys.rs] over a heap.
    - [PamTests], [SharedTests], [WireTests]: the unit tests of [client-pam] and [shared],
      run on the models; [SourceScan]: the lexer with which a test of [pam_logic.rs] looks for the
      forbidden code in the module's own source.
    - [EndToEnd]: the PAM module and the daemon composed.
    - [Build]: the build scripts of the three crates and their logging.

    [Concrete], [ConcreteCodec], [ConcreteConfig], [ConcreteAuth] and [ConcreteIpc]
    are executable instances of the classes, with their laws; they show that the
    hypotheses of the theorems can hold and make the definitions run.

    ** What the theorems show

    - Soundness of success, layer by layer: [success_needs_grant] for one transport,
      [session_success_sound] for a session, [daemon_success_sound] for a request,
      [pam_success_traced] for the PAM module in a process, and [end_to_end_success]
      for module and daemon together; in a run of the daemon the pairings are those in
      force when the connection was accepted ([loop_success_current]).  From the session
      on, the grant is in a packet that arrived at the daemon's socket or was written by a
      Bluetooth device before the session's deadline ([received]).  Denials are authentic
      too ([denial_needs_signature]), replays are dropped.
    - Administration: only authorised callers change anything
      ([admin_needs_authorization], and over a whole run of the daemon
      [loop_only_admins]); a request through the tool or the command line is a call of
      the handler ([admin_call_transparent]; an answer that is late is a timeout for the
      client, and the change has been made), so settings round-trip and pairings and
      removals reach the running daemon when the store is usable and the key is not in a
      TPM; the slot for a pairing is emptied by its timers and by nothing else.  The configuration tool
      asks for changes only on a press of the button for them, and completes a pairing
      only after its string was confirmed ([gui_requests_asked]).
    - Administration under concurrency: a request that runs alone is the handler
      ([task_alone]); in no interleaving of requests, timers and faults does a device
      become trusted for a user who did not confirm its pairing ([races_add_no_trust]).
    - The tests of the repository hold of the models ([shared_tests_pass],
      [pam_tests_pass]), those of the serialisers for all lawful ones
      ([wire_tests_pass]), and the source scan keeps the lines of what it strips
      ([stripping_keeps_lines]).
    - The phone: its answer, made through the bindings, is accepted
      ([phone_grant_accepted]); it can open and check the daemon's request
      ([phone_reads_request]); the bindings fail with exceptions and return values of
      the declared types ([jni_null_iff_exception], [jni_result_typed]).
    - Availability: an honest grant is accepted over UDP and Bluetooth, over Bluetooth
      even among useless responses; every exchange ends, and so do the wait loops of the
      PAM module at their deadline ([wait_loops_end]); a session ends where setting up its
      firewall guard does ([session_settles]); setting up Bluetooth is bounded
      ([ble_setup_bounded]) and it is torn down once; a cancel is always heard and signals
      exactly its own session, whatever other sessions do ([cancel_exact]); open firewall
      ports are accounted for ([firewall_guarded]).
    - Fail-safe behaviour: [pam_never_ignores], [refusal_is_quiet],
      [failed_start_not_recorded], [read_secure_file_guard], [worker_always_joined].
    - The password thread: unless the thread that waits for it panics, it never uses a
      frame that is gone or the PAM library at the same time as the other thread, and it
      never uses a closed pipe ([password_thread_safe]); after a panic it can
      ([panic_races]).  Where the join returns, the two threads implement the wait of
      [Pam] ([password_thread_refines]); a cancellation that strikes while the thread
      holds a lock can keep the call from ever returning ([cancel_can_deadlock]).  The
      conversation releases what the host allocated once ([conversation_balanced]).
    - The store: pairing operations refine a finite map, keys survive save and load,
      rotation and recovery reset everything and reach the running daemon.
    - Pairing: both sides agree, and the client finishes only on a confirmation of
      the key it sent.
    - Encodings: sealing, signed packets, frames in arbitrary pieces.
    - Behaviour that differs from what the code means or says: any paired phone can
      approve for any user, a TPM-sealed key cannot be loaded, a damaged packet ends
      a UDP exchange, a timeout leaves tasks running, the firewall guard is made outside
      the timeout, a second frame is never read,
      a rotation may keep pairings, pairing a phone again drops its other users, [::1]
      passes the local-address filter, a firewall guard ignores the protocol, a failed
      close leaks its rule, dropping a guard can wait for a lock it holds, settings that
      could not be read can be overwritten, a cancelled wait can end the next pairing, a
      connection accepted before a removal is served without it, a daemon that cannot
      drop its privileges (no such user, or [setgid] or [setuid] refused) serves as root, an entry of the cancel registry outlives its
      session, one of two removals at the same time is lost, a rotation during a pairing
      is undone, a reload that is overtaken brings a removed device back.

    ** Conventions, bounds and fuel

    Integers are [Z] with their wire widths written out where they matter ([u32],
    [i32]); [as] casts that wrap are modulo.  Times are milliseconds.  A function that
    fails keeps the state changes made before the failure.  [auth_loop] takes fuel:
    601 steps plus one per datagram suffice, since each turn without a datagram takes
    at least 200 ms of the 120 s session ([udp_attempt_terminates]); the same holds over
    Bluetooth with one per event of a device ([ble_attempt_terminates]), whose own
    receive loop computes its fuel, one turn per response and per 20 ms.  The readers of
    [IpcClient] take as fuel a bound on the reads that make progress.  A session gives its
    tasks this fuel ([udp_fuel], [ble_fuel]), so that they always end.  The loops of the
    PAM module recurse on the observations they are given; a run that exhausts them is
    still waiting, which is never an answer, and [wait_loops_end] says when it cannot
    happen.

    The threads of [PamWorker] and the loop of [DaemonLoop] have no fuel: they are a
    step relation and a fold over events, so that the theorems hold for every run.
    The loops of [Sockets] take as fuel the turns that fit into their deadline
    ([accept_ends], [retransmit_ends]).  A loop of [SourceScan] has as fuel the number of bytes, of
    which each turn passes one.

    ** Not modelled

    Reads from the phone during a pairing have no timeout in the source.  A call that waits
    for a silent phone does not return; the definitions of [Pairing] and [Admin] describe
    calls that do return, a task of [AdminTasks] that waits takes no further steps, and no
    theorem says that a pairing request is answered.  In [Pam], joining the password
    thread may never return ([pk_joins]); the host's conversation function and
    [pam_get_authtok] are taken to return.  In [Firewall] closing a port under its lock is
    one step, whose temporary strong reference is left out; [drop_self_deadlock] is about
    a finer model that has it.  A press in the configuration tool and its handling are one
    step of [gui_step].

    Layout of the configuration GUI, and the text of log lines; running [protoc] and
    [bindgen]; re-exports; the guards against panics of the bindings, which nothing in
    their bodies reaches.  A task of the daemon's loop is one step, so that requests of
    different connections do not interleave inside a handler; for administrative requests,
    sessions and cancels, which do, see [AdminRaces] and [CancelBoard].  There one call on
    a file is one step: that its system calls mix with those of another request is not
    modelled, only that it may fail or leave a torn file.  Tests of what the
    machine has (interfaces, sockets, a TPM) are not repeated.  That a pairing in the configuration tool shows the
    right texts is proved against an interface ([PairingTexts] of [GuiTheorems]); for the
    daemon's handler it is proved ([daemon_pairing_texts]), not through the framing of a
    connection. *)

From stdpp Require Import base gmap strings list countable.
From Stdlib Require Import Strings.Byte ZArith Lia.

#[global] Open Scope Z_scope.
#[global] Set Default Goal Selector "!".

(** ** Results: Rust's [Result<A, E>]

    The error type comes first so that [result E] is a monad in its value. *)

Inductive result (E A : Type) : Type :=
| Ok (a : A)
| Err (e : E).
Arguments Ok {E A} a.
Arguments Err {E A} e.

#[global] Instance result_ret {E} : MRet (result E) := λ A a, Ok a.
#[global] Instance result_bind {E} : MBind (result E) := λ A B k m,
  match m with Ok a => k a | Err e => Err e end.
#[global] Instance result_fmap {E} : FMap (result E) := λ A B f m,
  match m with Ok a => Ok (f a) | Err e => Err e end.

(** [r.map_err(f)], and the conversion the [?] operator inserts. *)
Definition map_err {E F A} (f : E → F) (m : result E A) : result F A :=
  match m with Ok a => Ok a | Err e => Err (f e) end.

(** [o.ok_or(e)] *)
Definition ok_or {E A} (e : E) (o : option A) : result E A :=
  match o with Some a => Ok a | None => Err e end.

(** [r.ok()] *)
Definition ok {E A} (m : result E A) : option A :=
  match m with Ok a => Some a | Err _ => None end.

(** [r.is_ok()] *)
Definition is_ok {E A} (m : result E A) : bool :=
  match m with Ok _ => true | Err _ => false end.

Lemma map_err_Ok {E F A} (f : E → F) (m : result E A) a :
  map_err f m = Ok a ↔ m = Ok a.
Proof. destruct m; simpl; by split; intros; simplify_eq. Qed.

Lemma ok_or_Ok {E A} (e : E) (o : option A) a : ok_or e o = Ok a ↔ o = Some a.
Proof. destruct o; simpl; by split; intros; simplify_eq. Qed.

Lemma is_ok_true {E A} (m : result E A) : is_ok m = true ↔ ∃ a, m = Ok a.
Proof. destruct m as [a|e]; simpl; split; [by eauto| |done|]; by intros [? ?]. Qed.

(** ** Effectful code: a state and error monad

    A Rust function that touches state and returns [Result<A, E>] is a function
    from the state to the new state and the result; an early return with an
    error keeps the state changes made before it, as in Rust. *)

Definition M (S E A : Type) : Type := S → S * result E A.

#[global] Instance M_ret {S E} : MRet (M S E) := λ A a s, (s, Ok a).
#[global] Instance M_bind {S E} : MBind (M S E) := λ A B k m s,
  match m s with
  | (s', Ok a) => k a s'
  | (s', Err e) => (s', Err e)
  end.

(** A pure [Result] used in effectful code. *)
Definition lift {S E A} (r : result E A) : M S E A := λ s, (s, r).
(** Error conversion in effectful code ([.map_err(..)?]). *)
Definition mapM_err {S E F A} (f : E → F) (m : M S E A) : M S F A := λ s,
  let '(s', r) := m s in (s', map_err f r).
(** [match m { Ok(..) => .., Err(..) => .. }]: run [m] and keep its result as a value. *)
Definition attempt {S E F A} (m : M S E A) : M S F (result E A) := λ s,
  let '(s', r) := m s in (s', Ok r).
Definition get {S E} : M S E S := λ s, (s, Ok s).
Definition gets {S E A} (f : S → A) : M S E A := λ s, (s, Ok (f s)).
Definition modify {S E} (f : S → S) : M S E () := λ s, (f s, Ok ()).
Definition throw {S E A} (e : E) : M S E A := λ s, (s, Err e).

(** The state a run ends in, and its result. *)
Definition state_of {S E A} (m : M S E A) (s : S) : S := (m s).1.
Definition result_of {S E A} (m : M S E A) (s : S) : result E A := (m s).2.

Lemma bind_run {S E A B} (m : M S E A) (k : A → M S E B) s :
  (m ≫= k) s = match m s with
               | (s', Ok a) => k a s'
               | (s', Err e) => (s', Err e)
               end.
Proof. reflexivity. Qed.

Lemma bind_Ok_inv {S E A B} (m : M S E A) (k : A → M S E B) s s' b :
  (m ≫= k) s = (s', Ok b) → ∃ s1 a, m s = (s1, Ok a) ∧ k a s1 = (s', Ok b).
Proof. rewrite bind_run. destruct (m s) as [s1 [a|e]]; naive_solver. Qed.

(** One successful step of a run. *)
Lemma bind_step {S E A B} (m : M S E A) (k : A → M S E B) s s' a :
  m s = (s', Ok a) → (m ≫= k) s = k a s'.
Proof. intros H. by rewrite bind_run, H. Qed.

Lemma bind_fail {S E A B} (m : M S E A) (k : A → M S E B) s s' e :
  m s = (s', Err e) → (m ≫= k) s = (s', Err e).
Proof. intros H. by rewrite bind_run, H. Qed.

Lemma lift_run {S E A} (r r' : result E A) (s : S) : r = r' → lift r s = (s, r').
Proof. by intros ->. Qed.

(** ** Bytes *)

Abbreviation byte := Byte.byte.
Abbreviation bytes := (list Byte.byte).

#[global] Instance byte_eq_dec : EqDecision byte.
Proof.
  refine (λ x y, cast_if (decide (Byte.to_N x = Byte.to_N y))); [|congruence].
  apply (inj Some). by rewrite <-!Byte.of_to_N, e.
Defined.
#[global] Instance byte_countable : Countable byte :=
  inj_countable Byte.to_N Byte.of_N Byte.of_to_N.
#[global] Instance byte_inhabited : Inhabited byte := populate x00.

(** A byte from an integer, truncated as [as u8] truncates. *)
Definition byte_of_Z (z : Z) : byte := default x00 (Byte.of_N (Z.to_N (z mod 256))).
Definition Z_of_byte (b : byte) : Z := Z.of_N (Byte.to_N b).

Lemma Z_of_byte_range b : 0 ≤ Z_of_byte b < 256.
Proof. unfold Z_of_byte. pose proof (Byte.to_N_bounded b). lia. Qed.

Lemma Z_of_byte_of_Z z : Z_of_byte (byte_of_Z z) = z mod 256.
Proof.
  unfold byte_of_Z, Z_of_byte. pose proof (Z.mod_pos_bound z 256 ltac:(lia)) as Hb.
  pose proof (Byte.to_of_N_option_map (Z.to_N (z mod 256))) as Hm.
  rewrite (proj2 (N.leb_le _ _)) in Hm by lia.
  destruct (Byte.of_N _) as [b|] eqn:E; simplify_eq/=. rewrite Hm. lia.
Qed.

Lemma byte_of_Z_of_byte b : byte_of_Z (Z_of_byte b) = b.
Proof.
  unfold byte_of_Z. rewrite Z.mod_small by apply Z_of_byte_range.
  unfold Z_of_byte. by rewrite N2Z.id, Byte.of_to_N.
Qed.

Lemma Z_of_byte_inj b1 b2 : Z_of_byte b1 = Z_of_byte b2 → b1 = b2.
Proof. intros H. by rewrite <-(byte_of_Z_of_byte b1), H, byte_of_Z_of_byte. Qed.

(** ** Big-endian integers: [to_be_bytes] and [from_be_bytes] *)

Fixpoint to_be_bytes (n : nat) (z : Z) : bytes :=
  match n with
  | O => []
  | S n' => byte_of_Z (z / 256 ^ Z.of_nat n') :: to_be_bytes n' z
  end.

Definition from_be_bytes (l : bytes) : Z :=
  foldl (λ acc b, acc * 256 + Z_of_byte b) 0 l.

Lemma length_to_be_bytes n z : length (to_be_bytes n z) = n.
Proof. induction n as [|n IH]; simpl; [done|]. by rewrite IH. Qed.

Lemma foldl_be_acc l acc :
  foldl (λ acc b, acc * 256 + Z_of_byte b) acc l
  = acc * 256 ^ Z.of_nat (length l) + from_be_bytes l.
Proof.
  unfold from_be_bytes. revert acc. induction l as [|b l IH]; intros acc; cbn [foldl length].
  - rewrite Z.pow_0_r. lia.
  - rewrite IH, (IH (0 * 256 + _)), Nat2Z.inj_succ, Z.pow_succ_r by lia. ring.
Qed.

Lemma from_be_bytes_cons b l :
  from_be_bytes (b :: l) = Z_of_byte b * 256 ^ Z.of_nat (length l) + from_be_bytes l.
Proof. unfold from_be_bytes at 1. cbn [foldl]. rewrite foldl_be_acc. lia. Qed.

Lemma from_be_bytes_range l : 0 ≤ from_be_bytes l < 256 ^ Z.of_nat (length l).
Proof.
  induction l as [|b l IH]; [done|]. rewrite from_be_bytes_cons.
  pose proof (Z_of_byte_range b). cbn [length].
  rewrite Nat2Z.inj_succ, Z.pow_succ_r by lia. nia.
Qed.

Lemma from_to_be_bytes n z : 0 ≤ z → from_be_bytes (to_be_bytes n z) = z mod 256 ^ Z.of_nat n.
Proof.
  intros Hz. induction n as [|n IH].
  - simpl. by rewrite Z.pow_0_r, Z.mod_1_r.
  - cbn [to_be_bytes]. rewrite from_be_bytes_cons, length_to_be_bytes, IH, Z_of_byte_of_Z.
    rewrite Nat2Z.inj_succ, Z.pow_succ_r, (Z.mul_comm 256) by lia.
    rewrite (Z.rem_mul_r z) by lia. ring.
Qed.

Lemma from_to_be_bytes_small n z :
  0 ≤ z < 256 ^ Z.of_nat n → from_be_bytes (to_be_bytes n z) = z.
Proof. intros H. rewrite from_to_be_bytes by lia. by apply Z.mod_small. Qed.

Lemma to_from_be_bytes l : to_be_bytes (length l) (from_be_bytes l) = l.
Proof.
  assert (Hgen : ∀ l' a, to_be_bytes (length l') (a * 256 ^ Z.of_nat (length l') + from_be_bytes l') = l').
  { induction l' as [|b l' IH]; intros a; [done|]. cbn [length to_be_bytes].
    pose proof (from_be_bytes_range l') as Hr. pose proof (Z_of_byte_range b).
    rewrite Nat2Z.inj_succ, Z.pow_succ_r, from_be_bytes_cons by lia.
    assert (Hp : 0 < 256 ^ Z.of_nat (length l')) by lia.
    f_equal.
    - apply Z_of_byte_inj. rewrite Z_of_byte_of_Z.
      rewrite <-(Z.div_unique _ _ (a * 256 + Z_of_byte b) (from_be_bytes l')) by nia.
      rewrite Z.add_comm, Z.mod_add by lia. apply Z.mod_small. lia.
    - etrans; [|apply (IH (a * 256 + Z_of_byte b))]. f_equal. ring. }
  specialize (Hgen l 0). by rewrite Z.mul_0_l, Z.add_0_l in Hgen.
Qed.

(** ** Generic list facts *)

Lemma take_app_exact {A} (l k : list A) n : n = length l → take n (l ++ k) = l.
Proof. intros ->. apply take_app_length. Qed.

Lemma drop_app_exact {A} (l k : list A) n : n = length l → drop n (l ++ k) = k.
Proof. intros ->. apply drop_app_length. Qed.

(** [slice.get(..n)] *)
Definition slice_to {A} (n : nat) (l : list A) : option (list A) :=
  if decide (n ≤ length l)%nat then Some (take n l) else None.
(** [slice.get(n..)] *)
Definition slice_from {A} (n : nat) (l : list A) : option (list A) :=
  if decide (n ≤ length l)%nat then Some (drop n l) else None.

Lemma slice_to_app {A} (l k : list A) n : n = length l → slice_to n (l ++ k) = Some l.
Proof.
  intros ->. unfold slice_to. rewrite decide_True by (rewrite length_app; lia).
  by rewrite take_app_length.
Qed.

Lemma slice_from_app {A} (l k : list A) n : n = length l → slice_from n (l ++ k) = Some k.
Proof.
  intros ->. unfold slice_from. rewrite decide_True by (rewrite length_app; lia).
  by rewrite drop_app_length.
Qed.

(** [iter().any(..)] *)
Lemma existsb_elem_of {A} (p : A → bool) (l : list A) :
  existsb p l = true ↔ ∃ x, x ∈ l ∧ p x = true.
Proof. rewrite existsb_exists. by setoid_rewrite list_elem_of_In. Qed.

(** ** Automation *)

Create HintDb tapauth discriminated.
Create Rewrite HintDb tapauth.
#[export] Hint Resolve length_to_be_bytes Z_of_byte_range from_be_bytes_range : tapauth.
#[export] Hint Rewrite @length_app @length_to_be_bytes @map_err_Ok @ok_or_Ok : tapauth.

(** Take a successful run apart at its binds. *)
Ltac inv_bind :=
  repeat match goal with
  | H : (_ ≫= _) _ = (_, Ok _) |- _ =>
      let s := fresh "s" in let a := fresh "a" in let H1 := fresh "Hrun" in
      apply bind_Ok_inv in H as (s & a & H1 & H)
  end.

(** Unfold the monads' operations, so that a run reduces. *)
Ltac munfold :=
  unfold mbind, M_bind, result_bind, mret, M_ret, result_ret,
    lift, throw, mapM_err, attempt, gets, get, modify in *;
  simpl in *.

(** Case on every match in the goal or a hypothesis, discarding absurd branches. *)
Ltac case_all :=
  repeat (case_match; simplify_eq/=; try done).

(** Open existentials and conjunctions, keeping the witnesses' names. *)
Ltac open_ex :=
  repeat match goal with
  | H : ∃ x, _ |- _ => let x' := fresh x in destruct H as [x' H]
  | H : _ ∧ _ |- _ => destruct H
  end.
