(* ===== verification/Os.v ===== *)
(** * The operating system as the code sees it

    Randomness ([getrandom::fill]), the wall clock ([SystemTime::now]), the
    monotonic clock ([Instant::now]), the effective user and the file system
    ([std::fs]) are one record of state, [World], threaded through the effectful
    code.  Failures are part of the state and quantified over by every theorem:
    [w_entropy] is the pool random bytes are drawn from (an exhausted pool is a
    failing [getrandom]), a negative [w_time] is a clock before the epoch, and
    [w_faults] says for each of the next file-system calls whether it works, is
    refused, or (for a write) is torn after some bytes. *)

From stdpp Require Import base gmap strings list.
From Stdlib Require Import Strings.Ascii.
From S2P Require Import Prelude.

(** One file: contents, permission bits and owner. *)
Record file := mkFile {
  f_data : bytes;
  f_mode : Z;
  f_uid : Z;
}.

(** The fate of a file-system call. *)
Inductive fault :=
| Works
| Refused
| Torn (n : nat).  (* a write stops after [n] bytes; any other call is refused *)

Record World := mkWorld {
  w_entropy : bytes;
  w_time : Z;                    (* seconds since the epoch; negative before it *)
  w_clock : Z;                   (* monotonic clock, milliseconds *)
  w_fs : gmap string file;
  w_dirs : gmap string (Z * Z);  (* directory path to its mode and owner *)
  w_faults : list fault;         (* fates of the next calls; then all work *)
  w_euid : Z;
  w_tapauthd : option Z;         (* uid of the tapauthd user, if it exists *)
  w_hostname : option string;
}.

Definition set_entropy (e : bytes) (w : World) : World :=
  mkWorld e (w_time w) (w_clock w) (w_fs w) (w_dirs w) (w_faults w) (w_euid w) (w_tapauthd w) (w_hostname w).
Definition set_fs (f : gmap string file) (w : World) : World :=
  mkWorld (w_entropy w) (w_time w) (w_clock w) f (w_dirs w) (w_faults w) (w_euid w) (w_tapauthd w) (w_hostname w).
Definition set_dirs (d : gmap string (Z * Z)) (w : World) : World :=
  mkWorld (w_entropy w) (w_time w) (w_clock w) (w_fs w) d (w_faults w) (w_euid w) (w_tapauthd w) (w_hostname w).
Definition set_faults (l : list fault) (w : World) : World :=
  mkWorld (w_entropy w) (w_time w) (w_clock w) (w_fs w) (w_dirs w) l (w_euid w) (w_tapauthd w) (w_hostname w).
Definition set_clock (t : Z) (w : World) : World :=
  mkWorld (w_entropy w) (w_time w) t (w_fs w) (w_dirs w) (w_faults w) (w_euid w) (w_tapauthd w) (w_hostname w).

(** ** Randomness and clocks *)

(** [getrandom::fill] of an [n]-byte buffer. *)
Definition getrandom_fill (n : nat) : M World () bytes := λ w,
  if decide (n ≤ length (w_entropy w))%nat
  then (set_entropy (drop n (w_entropy w)) w, Ok (take n (w_entropy w)))
  else (w, Err ()).

(** [SystemTime::now().duration_since(UNIX_EPOCH)], in whole seconds. *)
Definition unix_now : M World () Z := λ w,
  if decide (0 ≤ w_time w) then (w, Ok (w_time w)) else (w, Err ()).

Lemma getrandom_fill_Ok n w w' r :
  getrandom_fill n w = (w', Ok r) →
  length r = n ∧ w' = set_entropy (drop n (w_entropy w)) w ∧ w_entropy w = r ++ drop n (w_entropy w).
Proof.
  unfold getrandom_fill. case_decide; intros; simplify_eq.
  rewrite length_take, take_drop. split; [lia|done].
Qed.

(** ** The file system *)

Inductive io_error :=
| IoNotFound
| IoOther.

(** Every file-system call consults the next fault; none left means it works. *)
Definition fs_fault : World → fault * World := λ w,
  match w_faults w with
  | [] => (Works, w)
  | f :: l => (f, set_faults l w)
  end.

Definition fs_call {A} (k : M World io_error A) : M World io_error A := λ w,
  match fs_fault w with
  | (Works, w') => k w'
  | (_, w') => (w', Err IoOther)
  end.

(** [Path::exists]: any failure to stat the path reads as absence. *)
Definition path_exists {E} (p : string) : M World E bool := λ w,
  match fs_fault w with
  | (Works, w') => (w', Ok (bool_decide (is_Some (w_fs w' !! p))))
  | (_, w') => (w', Ok false)
  end.

(** [fs::metadata] of a file. *)
Definition fs_metadata (p : string) : M World io_error file :=
  fs_call (λ w, (w, ok_or IoNotFound (w_fs w !! p))).

(** [fs::read] *)
Definition fs_read (p : string) : M World io_error bytes :=
  fs_call (λ w, (w, f_data <$> ok_or IoNotFound (w_fs w !! p))).

(** A permission word by its octal digits: [0o644] is [perm 6 4 4]. *)
Definition perm (u g o : Z) : Z := u * 64 + g * 8 + o.

(** Mode of a file [fs::write] creates: [0o666] under the usual umask [0o022]. *)
Definition default_mode : Z := perm 6 4 4.

(** Contents put into a path: an existing file keeps its mode and owner, a new
    one is owned by the caller. *)
Definition put_file (p : string) (d : bytes) (w : World) : World :=
  set_fs (<[p := match w_fs w !! p with
                 | Some f => mkFile d (f_mode f) (f_uid f)
                 | None => mkFile d default_mode (w_euid w)
                 end]> (w_fs w)) w.

(** [fs::write] (and [File::create] with [write_all]): truncate or create, then
    write; a write that fails midway leaves a prefix behind. *)
Definition fs_write (p : string) (d : bytes) : M World io_error () := λ w,
  match fs_fault w with
  | (Works, w') => (put_file p d w', Ok ())
  | (Refused, w') => (w', Err IoOther)
  | (Torn n, w') => (put_file p (take n d) w', Err IoOther)
  end.

(** Only root and the owner change permissions; only root changes ownership. *)
Definition may_chmod (w : World) (owner : Z) : bool :=
  bool_decide (w_euid w = 0) || bool_decide (w_euid w = owner).
Definition may_chown (w : World) : bool := bool_decide (w_euid w = 0).

(** [fs::set_permissions] on a file. *)
Definition fs_set_mode (p : string) (m : Z) : M World io_error () :=
  fs_call (λ w,
    match w_fs w !! p with
    | Some f =>
        if negb (may_chmod w (f_uid f)) then (w, Err IoOther) else
        (set_fs (<[p := mkFile (f_data f) m (f_uid f)]> (w_fs w)) w, Ok ())
    | None => (w, Err IoNotFound)
    end).

(** [libc::chown] on a file. *)
Definition fs_chown (p : string) (u : Z) : M World io_error () :=
  fs_call (λ w,
    match w_fs w !! p with
    | Some f =>
        if negb (may_chown w) then (w, Err IoOther) else
        (set_fs (<[p := mkFile (f_data f) (f_mode f) u]> (w_fs w)) w, Ok ())
    | None => (w, Err IoNotFound)
    end).

(** [fs::remove_file] *)
Definition fs_remove (p : string) : M World io_error () :=
  fs_call (λ w,
    match w_fs w !! p with
    | Some _ => (set_fs (delete p (w_fs w)) w, Ok ())
    | None => (w, Err IoNotFound)
    end).

(** Directories: existence, [create_dir_all], [set_permissions], [chown]. *)
Definition dir_exists {E} (p : string) : M World E bool := λ w,
  match fs_fault w with
  | (Works, w') => (w', Ok (bool_decide (is_Some (w_dirs w' !! p))))
  | (_, w') => (w', Ok false)
  end.

(** Mode of a directory [create_dir_all] creates: [0o777] under umask [0o022]. *)
Definition default_dir_mode : Z := perm 7 5 5.

Definition fs_create_dir (p : string) : M World io_error () :=
  fs_call (λ w,
    match w_dirs w !! p with
    | Some _ => (w, Ok ())
    | None => (set_dirs (<[p := (default_dir_mode, w_euid w)]> (w_dirs w)) w, Ok ())
    end).

Definition fs_dir_metadata (p : string) : M World io_error (Z * Z) :=
  fs_call (λ w, (w, ok_or IoNotFound (w_dirs w !! p))).

Definition fs_dir_set_mode (p : string) (m : Z) : M World io_error () :=
  fs_call (λ w,
    match w_dirs w !! p with
    | Some (_, u) =>
        if negb (may_chmod w u) then (w, Err IoOther) else
        (set_dirs (<[p := (m, u)]> (w_dirs w)) w, Ok ())
    | None => (w, Err IoNotFound)
    end).

Definition fs_dir_chown (p : string) (u : Z) : M World io_error () :=
  fs_call (λ w,
    match w_dirs w !! p with
    | Some (m, _) =>
        if negb (may_chown w) then (w, Err IoOther) else
        (set_dirs (<[p := (m, u)]> (w_dirs w)) w, Ok ())
    | None => (w, Err IoNotFound)
    end).

(** ** Paths *)

(** [Path::join] of a relative component. *)
Definition join (dir name : string) : string := (dir +:+ "/" +:+ name)%string.

Definition last_sep (c : Ascii.ascii) (l : list Ascii.ascii) : option nat :=
  list_find (λ x, x = c) (reverse l) ≫= λ '(i, _), Some (length l - 1 - i)%nat.

(** [Path::parent] of an absolute path with a directory part. *)
Definition parent (p : string) : option string :=
  let l := String.list_ascii_of_string p in
  match last_sep "/"%char l with
  | Some (S i) => Some (String.string_of_list_ascii (take (S i) l))
  | Some 0%nat => Some "/"%string
  | None => Some ""%string
  end.

(** [Path::with_extension]: the part of the file name after its last dot is
    replaced; a leading dot does not start an extension. *)
Definition with_extension (p ext : string) : string :=
  let l := String.list_ascii_of_string p in
  let base := match last_sep "/"%char l with Some i => S i | None => O end in
  let stem := match last_sep "."%char (drop base l) with
              | Some (S i) => take (base + S i) l
              | _ => l
              end in
  (String.string_of_list_ascii stem +:+ "." +:+ ext)%string.

(** ** What a successful call did *)

Lemma fs_fault_run w : ∃ f l, fs_fault w = (f, set_faults l w).
Proof.
  unfold fs_fault. destruct (w_faults w) as [|f l] eqn:E; [|by eauto].
  exists Works, []. f_equal. destruct w; by simplify_eq/=.
Qed.

Lemma fs_call_Ok {A} (k : M World io_error A) w w' a :
  fs_call k w = (w', Ok a) → ∃ l, k (set_faults l w) = (w', Ok a).
Proof.
  unfold fs_call. destruct (fs_fault_run w) as (f & l & ->). destruct f; naive_solver.
Qed.

Lemma fs_write_Ok p d w w' u :
  fs_write p d w = (w', Ok u) → ∃ l, w' = put_file p d (set_faults l w).
Proof.
  unfold fs_write. destruct (fs_fault_run w) as (f & l & ->). destruct f; naive_solver.
Qed.

Lemma path_exists_Ok {E} p w w' (b : bool) :
  path_exists (E := E) p w = (w', Ok b) →
  ∃ l, w' = set_faults l w ∧ (b = true → is_Some (w_fs w !! p)).
Proof.
  unfold path_exists. destruct (fs_fault_run w) as (f & l & ->).
  destruct f; intros; simplify_eq; exists l; split; try done. apply bool_decide_eq_true_1.
Qed.

(** Facts about updating a world twice. *)
Lemma set_fs_fs f g w : set_fs f (set_fs g w) = set_fs f w.
Proof. done. Qed.
Lemma set_dirs_dirs f g w : set_dirs f (set_dirs g w) = set_dirs f w.
Proof. done. Qed.
Lemma set_fs_id w : set_fs (w_fs w) w = w.
Proof. by destruct w. Qed.
#[export] Hint Rewrite set_fs_fs set_dirs_dirs set_fs_id : tapauth.

(** With no fault pending a call runs as it is. *)
Lemma fs_call_quiet {A} (k : M World io_error A) w : w_faults w = [] → fs_call k w = k w.
Proof. intros H. unfold fs_call, fs_fault. by rewrite H. Qed.

Lemma path_exists_quiet {E} p w :
  w_faults w = [] → path_exists (E := E) p w = (w, Ok (bool_decide (is_Some (w_fs w !! p)))).
Proof. intros H. unfold path_exists, fs_fault. by rewrite H. Qed.

Lemma dir_exists_quiet {E} p w :
  w_faults w = [] → dir_exists (E := E) p w = (w, Ok (bool_decide (is_Some (w_dirs w !! p)))).
Proof. intros H. unfold dir_exists, fs_fault. by rewrite H. Qed.

Lemma fs_write_quiet p d w : w_faults w = [] → fs_write p d w = (put_file p d w, Ok ()).
Proof. intros H. unfold fs_write, fs_fault. by rewrite H. Qed.

#[export] Hint Resolve fs_call_Ok fs_write_Ok path_exists_Ok : tapauth.
