(* ===== verification/Text.v ===== *)
(** * Text: Rust's integer formatting and parsing

    [format!("{}", n)], [format!("{:06}", n)] and [str::parse::<uN>()], as the
    standard library defines them for unsigned integers, and the facts the
    components use: printing then parsing gives the number back, and the width
    of a zero-padded number. *)

From stdpp Require Import base gmap strings list.
From Stdlib Require Import Ascii.
From S2P Require Import Prelude.

(** The digit character of [d < 10], and its value. *)
Definition digit_char (d : N) : ascii := ascii_of_N (48 + d).
Definition char_digit (c : ascii) : option N :=
  let n := N_of_ascii c in
  if ((48 <=? n) && (n <=? 57))%N then Some (n - 48)%N else None.

Definition is_digit (c : ascii) : bool := match char_digit c with Some _ => true | None => false end.

(** Decimal digits, most significant first. *)
Fixpoint dec_loop (fuel : nat) (n : N) (acc : list ascii) : list ascii :=
  match fuel with
  | O => acc
  | S f =>
      let acc' := digit_char (n mod 10) :: acc in
      if (n <? 10)%N then acc' else dec_loop f (n / 10) acc'
  end.

(** [format!("{}", n)]; [N.size_nat n] divisions by ten reach zero. *)
Definition dec (n : N) : list ascii := dec_loop (S (N.size_nat n)) n [].

(** The digits of a number, read left to right from an accumulator. *)
Fixpoint dec_value (acc : N) (l : list ascii) : option N :=
  match l with
  | [] => Some acc
  | c :: l' => match char_digit c with
               | Some d => dec_value (acc * 10 + d) l'
               | None => None
               end
  end.

(** [str::parse::<uN>()] with [N = bits]: an optional [+], then at least one
    digit, and no overflow. *)
Definition parse_uint (bits : N) (l : list ascii) : option N :=
  let body := match l with "+"%char :: l' => l' | _ => l end in
  match body with
  | [] => None
  | _ => match dec_value 0 body with
         | Some v => if (v <? 2 ^ bits)%N then Some v else None
         | None => None
         end
  end.

(** [format!("{:06}", n)]: pad with zeros on the left to six characters. *)
Definition pad_zeros (w : nat) (l : list ascii) : list ascii :=
  replicate (w - length l) "0"%char ++ l.
Definition fmt06 (n : N) : string := String.string_of_list_ascii (pad_zeros 6 (dec n)).

(** ** Facts *)

Lemma char_digit_char d : (d < 10)%N → char_digit (digit_char d) = Some d.
Proof.
  intros Hd. unfold char_digit, digit_char. rewrite N_ascii_embedding by lia.
  rewrite (proj2 (N.leb_le _ _)), (proj2 (N.leb_le _ _)) by lia. simpl. f_equal. lia.
Qed.

Lemma dec_value_app l1 l2 acc v :
  dec_value acc l1 = Some v → dec_value acc (l1 ++ l2) = dec_value v l2.
Proof.
  revert acc. induction l1 as [|c l1 IH]; intros acc; simpl; [naive_solver|].
  case_match; [|done]. apply IH.
Qed.

Lemma size_nat_div10 n : (10 ≤ n)%N → (N.size_nat (n / 10) < N.size_nat n)%nat.
Proof.
  intros Hn. assert (Hh : (n / 10 ≤ n / 2)%N) by (apply N.div_le_compat_l; lia).
  assert (Hpos : (0 < n / 10)%N) by (apply N.div_str_pos; lia).
  assert (Hlog : (N.log2 (n / 10) < N.log2 n)%N).
  { apply N.le_lt_trans with (N.log2 (n / 2)); [by apply N.log2_le_mono|].
    assert (Hd : (n / 2 = N.shiftr n 1)%N) by (by rewrite N.shiftr_div_pow2).
    rewrite Hd, N.log2_shiftr.
    assert (1 ≤ N.log2 n)%N by (apply N.log2_le_pow2; simpl; lia). lia. }
  assert (Hs : ∀ m, (0 < m)%N → N.size_nat m = S (N.to_nat (N.log2 m))).
  { intros m Hm. pose proof (N.size_log2 m ltac:(lia)) as E.
    assert (N.to_nat (N.size m) = N.size_nat m) as <- by
      (destruct m as [|p]; [done|]; simpl; clear; induction p; simpl; lia).
    rewrite E. lia. }
  rewrite !Hs by lia. lia.
Qed.

(** The loop prepends the digits of its argument to the accumulator. *)
Lemma dec_loop_value fuel n acc :
  (N.size_nat n < fuel)%nat →
  ∃ ds, dec_loop fuel n acc = ds ++ acc ∧ ds ≠ [] ∧ Forall is_digit ds ∧
        dec_value 0 ds = Some n ∧ (∀ k : nat, (0 < k)%nat → (n < 10 ^ N.of_nat k)%N → (length ds ≤ k)%nat).
Proof.
  revert n acc. induction fuel as [|f IH]; intros n acc Hf; [lia|]. cbn [dec_loop].
  assert (Hmod : (n mod 10 < 10)%N) by (apply N.mod_lt; lia).
  assert (Hdig : is_digit (digit_char (n mod 10))) by (unfold is_digit; by rewrite char_digit_char).
  destruct (N.ltb_spec n 10) as [Hlt|Hge].
  - exists [digit_char (n mod 10)]. split_and!; [done|done|by repeat constructor| |simpl; lia].
    cbn. rewrite char_digit_char by done. f_equal. rewrite N.mod_small by lia. lia.
  - pose proof (size_nat_div10 n Hge).
    destruct (IH (n / 10)%N (digit_char (n mod 10) :: acc)) as (ds & Heq & Hne & Hall & Hval & Hlen); [lia|].
    exists (ds ++ [digit_char (n mod 10)]). split_and!.
    + by rewrite Heq, <-app_assoc.
    + by destruct ds.
    + apply Forall_app. split; [done|by repeat constructor].
    + rewrite (dec_value_app _ _ _ _ Hval). cbn. rewrite char_digit_char by done.
      f_equal. pose proof (N.div_mod n 10 ltac:(lia)). lia.
    + intros k Hk Hn. rewrite length_app. cbn [length].
      destruct k as [|[|k]]; [lia|simpl in Hn; lia|].
      enough (length ds ≤ S k)%nat by lia. apply Hlen; [lia|].
      apply N.Div0.div_lt_upper_bound. rewrite <-N.pow_succ_r by lia.
      by rewrite <-Nnat.Nat2N.inj_succ.
Qed.

Lemma dec_spec n :
  dec n ≠ [] ∧ Forall is_digit (dec n) ∧ dec_value 0 (dec n) = Some n.
Proof.
  destruct (dec_loop_value (S (N.size_nat n)) n []) as (ds & Heq & Hne & Hall & Hval & _); [lia|].
  unfold dec. rewrite Heq, app_nil_r. done.
Qed.

Lemma length_dec n k : (0 < k)%nat → (n < 10 ^ N.of_nat k)%N → (length (dec n) ≤ k)%nat.
Proof.
  intros Hk Hn.
  destruct (dec_loop_value (S (N.size_nat n)) n []) as (ds & Heq & _ & _ & _ & Hlen); [lia|].
  unfold dec. rewrite Heq, app_nil_r. by apply Hlen.
Qed.

Lemma is_digit_not_plus c : is_digit c → c ≠ "+"%char.
Proof. by intros H ->. Qed.

(** Printing then parsing an unsigned integer of the right width. *)
Lemma parse_dec bits n : (n < 2 ^ bits)%N → parse_uint bits (dec n) = Some n.
Proof.
  intros Hn. destruct (dec_spec n) as (Hne & Hall & Hval). unfold parse_uint.
  assert (Hbody : match dec n with "+"%char :: l' => l' | _ => dec n end = dec n).
  { destruct (dec n) as [|c l]; [done|]. apply Forall_cons in Hall as [Hc _].
    apply is_digit_not_plus in Hc. destruct c as [[] [] [] [] [] [] [] []]; done. }
  rewrite Hbody. destruct (dec n) as [|c l] eqn:E; [done|]. rewrite Hval.
  by rewrite (proj2 (N.ltb_lt _ _) Hn).
Qed.

Lemma list_ascii_of_fmt06 n : String.list_ascii_of_string (fmt06 n) = pad_zeros 6 (dec n).
Proof. apply String.list_ascii_of_string_of_list_ascii. Qed.

Lemma fmt06_digits n : Forall is_digit (String.list_ascii_of_string (fmt06 n)).
Proof.
  rewrite list_ascii_of_fmt06. apply Forall_app. split.
  - by apply Forall_replicate.
  - apply dec_spec.
Qed.

Lemma fmt06_length n : (n < 1000000)%N → length (String.list_ascii_of_string (fmt06 n)) = 6%nat.
Proof.
  intros Hn. rewrite list_ascii_of_fmt06. unfold pad_zeros.
  rewrite length_app, length_replicate.
  pose proof (length_dec n 6 ltac:(lia) Hn). lia.
Qed.

Lemma dec_value_zeros k l : dec_value 0 (replicate k "0"%char ++ l) = dec_value 0 l.
Proof. induction k as [|k IH]; [done|]. cbn. done. Qed.

Lemma fmt06_value n : dec_value 0 (String.list_ascii_of_string (fmt06 n)) = Some n.
Proof. rewrite list_ascii_of_fmt06. unfold pad_zeros. rewrite dec_value_zeros. apply dec_spec. Qed.

#[export] Hint Resolve fmt06_digits fmt06_length : tapauth.

(** ** Operations on ASCII text *)

(** [to_ascii_lowercase] *)
Definition lower_char (c : ascii) : ascii :=
  let n := N_of_ascii c in
  if decide (65 ≤ n ≤ 90)%N then ascii_of_N (n + 32) else c.
Definition to_ascii_lowercase (s : string) : string :=
  String.string_of_list_ascii (map lower_char (String.list_ascii_of_string s)).

Definition eq_ignore_ascii_case (a b : string) : bool :=
  bool_decide (to_ascii_lowercase a = to_ascii_lowercase b).

Fixpoint strip_prefix (p l : list ascii) : option (list ascii) :=
  match p, l with
  | [], _ => Some l
  | a :: p', b :: l' => if decide (a = b) then strip_prefix p' l' else None
  | _ :: _, [] => None
  end.
Definition strip_suffix (suffix s : string) : option string :=
  (λ l, String.string_of_list_ascii (reverse l)) <$>
    strip_prefix (reverse (String.list_ascii_of_string suffix)) (reverse (String.list_ascii_of_string s)).

(** White space at both ends; the names concerned are ASCII. *)
Definition is_whitespace (c : ascii) : bool :=
  let n := N_of_ascii c in bool_decide (9 ≤ n ≤ 13 ∨ n = 32)%N.
Fixpoint trim_start (l : list ascii) : list ascii :=
  match l with
  | c :: l' => if is_whitespace c then trim_start l' else l
  | [] => []
  end.
Definition trim (s : string) : string :=
  String.string_of_list_ascii (reverse (trim_start (reverse (trim_start (String.list_ascii_of_string s))))).
