(* ===== verification/Crypto.v ===== *)
(** * Cryptographic layer: [shared/src/crypto]

    The algorithms themselves (HMAC-SHA256, HKDF, SHA-256, AES-256-GCM, Ed25519,
    X25519) come from third-party crates: they are the operations of the class
    [CryptoOps], and what the code relies on is the class [CryptoLaws].
    Everything the repository adds on top (nonce handling, temporal identifiers,
    the pairing key and its short authentication string, key generation,
    signature framing) is translated here. *)

From stdpp Require Import base gmap strings list.
From S2P Require Import Prelude Os Text.

(** ** The crates' operations *)

Class CryptoOps := {
  (** [HmacSha256::new_from_slice(key)] then [update(msg)], [finalize()] *)
  hmac_sha256 : bytes → bytes → option bytes;
  sha256 : bytes → bytes;
  (** [Hkdf::<Sha256>::new(None, ikm).expand(info, &mut [0; len])] *)
  hkdf_sha256 : bytes → bytes → nat → option bytes;
  (** key, nonce, message, associated data *)
  aes256gcm_encrypt : bytes → bytes → bytes → bytes → option bytes;
  aes256gcm_decrypt : bytes → bytes → bytes → bytes → option bytes;
  (** [SigningKey::from_bytes(seed).verifying_key().to_bytes()] *)
  ed25519_public : bytes → bytes;
  (** [VerifyingKey::from_bytes(..).is_ok()] *)
  ed25519_key_valid : bytes → bool;
  ed25519_sign : bytes → bytes → bytes;
  (** public key, message, signature *)
  ed25519_verify : bytes → bytes → bytes → bool;
  x25519_public : bytes → bytes;
  x25519_dh : bytes → bytes → bytes;
}.

Class CryptoLaws (C : CryptoOps) : Prop := {
  hmac_total k m : ∃ t, hmac_sha256 k m = Some t ∧ length t = 32%nat;
  sha256_length m : length (sha256 m) = 32%nat;
  hkdf_total ikm info n :
    (n ≤ 255 * 32)%nat → ∃ o, hkdf_sha256 ikm info n = Some o ∧ length o = n;
  (** The crate refuses plaintexts above 64 GiB. *)
  aes_encrypt_total k n m a :
    length k = 32%nat → length n = 12%nat → Z.of_nat (length m) ≤ 2 ^ 36 →
    is_Some (aes256gcm_encrypt k n m a);
  (** the 16-byte tag is appended to the ciphertext *)
  aes_encrypt_length k n m a c :
    aes256gcm_encrypt k n m a = Some c → length c = (length m + 16)%nat;
  aes_decrypt_encrypt k n m a c :
    length k = 32%nat → length n = 12%nat →
    aes256gcm_encrypt k n m a = Some c → aes256gcm_decrypt k n c a = Some m;
  ed25519_public_length sk : length sk = 32%nat → length (ed25519_public sk) = 32%nat;
  ed25519_public_valid sk : length sk = 32%nat → ed25519_key_valid (ed25519_public sk) = true;
  ed25519_sign_length sk m : length sk = 32%nat → length (ed25519_sign sk m) = 64%nat;
  ed25519_verify_sign sk m :
    length sk = 32%nat → ed25519_verify (ed25519_public sk) m (ed25519_sign sk m) = true;
  x25519_public_length sk : length sk = 32%nat → length (x25519_public sk) = 32%nat;
  x25519_dh_length sk p : length sk = 32%nat → length p = 32%nat → length (x25519_dh sk p) = 32%nat;
  x25519_dh_comm a b :
    length a = 32%nat → length b = 32%nat →
    x25519_dh a (x25519_public b) = x25519_dh b (x25519_public a);
}.

(** ** Errors and keys *)

Inductive CryptoError :=
| InvalidKeyLength
| InvalidSignature
| EncryptionFailed
| DecryptionFailed
| KeyDerivationFailed
| RandomGenerationFailed
| SystemTimeError.

Record Ed25519KeyPair := mkEd25519KeyPair {
  signing_key_bytes : bytes;
  verifying_key : bytes;
}.

Record X25519KeyPair := mkX25519KeyPair {
  x25519_secret_bytes : bytes;
  x25519_public_bytes : bytes;
}.

(** [ClientSymmetricKey] and [PairingSymmetricKey]: 32 secret bytes. *)
Record ClientSymmetricKey := mkCsk { csk_bytes : bytes }.
Record PairingSymmetricKey := mkPsk { psk_bytes : bytes }.

Definition TIME_WINDOW_SECONDS : Z := 60.

Section operations.
Context `{C : CryptoOps}.

(** ** Keys ([crypto/keys.rs]) *)

Definition from_signing_key_bytes (b : bytes) : Ed25519KeyPair :=
  mkEd25519KeyPair b (ed25519_public b).

Definition ed25519_generate : M World CryptoError Ed25519KeyPair :=
  seed ← mapM_err (λ _, RandomGenerationFailed) (getrandom_fill 32);
  mret (mkEd25519KeyPair seed (ed25519_public seed)).

(** [Clone] makes the public key again from the secret one. *)
Definition ed25519_clone (kp : Ed25519KeyPair) : Ed25519KeyPair := from_signing_key_bytes (signing_key_bytes kp).

Definition ed25519_keypair_sign (kp : Ed25519KeyPair) (data : bytes) : bytes :=
  ed25519_sign (signing_key_bytes kp) data.

Definition verifying_key_bytes (kp : Ed25519KeyPair) : bytes := verifying_key kp.

Definition x25519_generate : M World CryptoError X25519KeyPair :=
  sk ← mapM_err (λ _, RandomGenerationFailed) (getrandom_fill 32);
  mret (mkX25519KeyPair sk (x25519_public sk)).

Definition x25519_from_secret_bytes (b : bytes) : X25519KeyPair :=
  mkX25519KeyPair b (x25519_public b).

Definition diffie_hellman (kp : X25519KeyPair) (their_public : bytes) : result CryptoError bytes :=
  Ok (x25519_dh (x25519_secret_bytes kp) their_public).

Definition csk_generate : M World CryptoError ClientSymmetricKey :=
  key ← mapM_err (λ _, RandomGenerationFailed) (getrandom_fill 32);
  mret (mkCsk key).

(** ** Signatures ([crypto/signing.rs]) *)

Definition sign_ed25519 (kp : Ed25519KeyPair) (data : bytes) : bytes :=
  ed25519_keypair_sign kp data.

Definition verify_ed25519 (public_key data signature : bytes) : result CryptoError () :=
  if negb (ed25519_key_valid public_key) then Err InvalidSignature
  else if negb (bool_decide (length signature = 64%nat)) then Err InvalidSignature
  else if ed25519_verify public_key data signature then Ok () else Err InvalidSignature.

(** ** Authenticated encryption ([crypto/encryption.rs]) *)

Definition encrypt_aes_gcm (key nonce plaintext associated_data : bytes) : result CryptoError bytes :=
  ok_or EncryptionFailed (aes256gcm_encrypt key nonce plaintext associated_data).

Definition decrypt_aes_gcm (key nonce ciphertext associated_data : bytes) : result CryptoError bytes :=
  ok_or DecryptionFailed (aes256gcm_decrypt key nonce ciphertext associated_data).

Definition derive_nonce (challenge info : bytes) : result CryptoError bytes :=
  ok_or KeyDerivationFailed (hkdf_sha256 challenge info 12).

Definition encrypt_with_csk (csk : ClientSymmetricKey) (challenge context plaintext : bytes)
    : result CryptoError bytes :=
  nonce ← derive_nonce challenge context;
  encrypt_aes_gcm (csk_bytes csk) nonce plaintext [].

Definition decrypt_with_csk (csk : ClientSymmetricKey) (challenge context ciphertext : bytes)
    : result CryptoError bytes :=
  nonce ← derive_nonce challenge context;
  decrypt_aes_gcm (csk_bytes csk) nonce ciphertext [].

Definition encrypt_with_csk_and_random_nonce (csk : ClientSymmetricKey) (plaintext : bytes)
    : M World CryptoError bytes :=
  nonce ← mapM_err (λ _, RandomGenerationFailed) (getrandom_fill 12);
  ciphertext ← lift (encrypt_aes_gcm (csk_bytes csk) nonce plaintext []);
  mret (nonce ++ ciphertext).

(** The slices are taken with checked [get], so a short input is an error. *)
Definition decrypt_with_csk_and_prepended_nonce (csk : ClientSymmetricKey) (ciphertext_with_nonce : bytes)
    : result CryptoError bytes :=
  if decide (length ciphertext_with_nonce < 12)%nat then Err DecryptionFailed else
  nonce ← ok_or DecryptionFailed (slice_to 12 ciphertext_with_nonce);
  ciphertext ← ok_or DecryptionFailed (slice_from 12 ciphertext_with_nonce);
  decrypt_aes_gcm (csk_bytes csk) nonce ciphertext [].

Definition encrypt_with_psk (psk : PairingSymmetricKey) (plaintext : bytes) : M World CryptoError bytes :=
  nonce ← mapM_err (λ _, RandomGenerationFailed) (getrandom_fill 12);
  ciphertext ← lift (encrypt_aes_gcm (psk_bytes psk) nonce plaintext []);
  mret (nonce ++ ciphertext).

Definition decrypt_with_psk (psk : PairingSymmetricKey) (ciphertext_with_nonce : bytes)
    : result CryptoError bytes :=
  if decide (length ciphertext_with_nonce < 12)%nat then Err DecryptionFailed else
  nonce ← ok_or DecryptionFailed (slice_to 12 ciphertext_with_nonce);
  ciphertext ← ok_or DecryptionFailed (slice_from 12 ciphertext_with_nonce);
  decrypt_aes_gcm (psk_bytes psk) nonce ciphertext [].

(** ** Temporal identifiers ([crypto/temporal.rs]) *)

Definition current_time_window : M World CryptoError Z :=
  now ← mapM_err (λ _, SystemTimeError) unix_now;
  mret (now / TIME_WINDOW_SECONDS).

Definition generate_temporal_identifier (csk : ClientSymmetricKey) (time_window : Z)
    : result CryptoError bytes :=
  mac ← ok_or KeyDerivationFailed (hmac_sha256 (csk_bytes csk) (to_be_bytes 8 time_window));
  ok_or KeyDerivationFailed (slice_to 16 mac).

Definition generate_temporal_identifier_ble (csk : ClientSymmetricKey) (time_window : Z)
    : result CryptoError bytes :=
  mac ← ok_or KeyDerivationFailed (hmac_sha256 (csk_bytes csk) (to_be_bytes 8 time_window));
  ok_or KeyDerivationFailed (slice_to 10 mac).

Definition generate_current_temporal_identifier (csk : ClientSymmetricKey) : M World CryptoError bytes :=
  window ← current_time_window;
  lift (generate_temporal_identifier csk window).

Definition generate_current_temporal_identifier_ble (csk : ClientSymmetricKey) : M World CryptoError bytes :=
  window ← current_time_window;
  lift (generate_temporal_identifier_ble csk window).

(** Window zero has no predecessor. *)
Definition generate_previous_temporal_identifier (csk : ClientSymmetricKey) : M World CryptoError bytes :=
  window ← current_time_window;
  if decide (window = 0) then throw KeyDerivationFailed
  else lift (generate_temporal_identifier csk (window - 1)).

Definition generate_previous_temporal_identifier_ble (csk : ClientSymmetricKey) : M World CryptoError bytes :=
  window ← current_time_window;
  if decide (window = 0) then throw KeyDerivationFailed
  else lift (generate_temporal_identifier_ble csk (window - 1)).

Definition verify_temporal_identifier (csk : ClientSymmetricKey) (identifier : bytes)
    : M World CryptoError bool :=
  current ← generate_current_temporal_identifier csk;
  if bool_decide (identifier = current) then mret true else
  previous ← generate_previous_temporal_identifier csk;
  mret (bool_decide (identifier = previous)).

Definition verify_temporal_identifier_ble (csk : ClientSymmetricKey) (identifier : bytes)
    : M World CryptoError bool :=
  current ← generate_current_temporal_identifier_ble csk;
  if bool_decide (identifier = current) then mret true else
  previous ← generate_previous_temporal_identifier_ble csk;
  mret (bool_decide (identifier = previous)).

(** ** Key derivation for pairing ([crypto/kdf.rs]) *)

(** The bytes of an ASCII literal [b"..."]. *)
Definition bytes_of_string (s : string) : bytes := String.list_byte_of_string s.

Definition derive_psk_from_x25519 (shared_secret : bytes) : result CryptoError PairingSymmetricKey :=
  psk ← ok_or KeyDerivationFailed
          (hkdf_sha256 shared_secret (bytes_of_string "tapauth-pairing-key") 32);
  mret (mkPsk psk).

(** [expand_multi_info] expands the concatenation of its parts. *)
Definition derive_sas (psk : PairingSymmetricKey) (client_public server_public : bytes)
    : result CryptoError string :=
  let input := client_public ++ server_public in
  output ← ok_or KeyDerivationFailed
             (hkdf_sha256 (psk_bytes psk) (bytes_of_string "tapauth-sas" ++ input) 8);
  let value := from_be_bytes output in
  let sas_number := value mod 1000000 in
  mret (fmt06 (Z.to_N sas_number)).

Definition format_sas (sas : string) : string :=
  if bool_decide (String.length sas = 6%nat)
  then String.append (String.substring 0 3 sas) (String.append "-" (String.substring 3 3 sas))
  else sas.

End operations.

(** ** Facts *)

Definition wf_ed25519 `{CryptoOps} (kp : Ed25519KeyPair) : Prop :=
  length (signing_key_bytes kp) = 32%nat ∧ verifying_key kp = ed25519_public (signing_key_bytes kp).
Definition wf_x25519 `{CryptoOps} (kp : X25519KeyPair) : Prop :=
  length (x25519_secret_bytes kp) = 32%nat ∧ x25519_public_bytes kp = x25519_public (x25519_secret_bytes kp).
Definition wf_csk (csk : ClientSymmetricKey) : Prop := length (csk_bytes csk) = 32%nat.
Definition wf_psk (psk : PairingSymmetricKey) : Prop := length (psk_bytes psk) = 32%nat.

Section facts.
Context `{C : CryptoOps} `{L : !CryptoLaws C}.

Lemma ed25519_generate_wf w w' kp : ed25519_generate w = (w', Ok kp) → wf_ed25519 kp.
Proof.
  unfold ed25519_generate. munfold. destruct (getrandom_fill 32 w) as [w1 [r|]] eqn:E; intros; simplify_eq/=.
  apply getrandom_fill_Ok in E as [? _]. by repeat split.
Qed.

Lemma x25519_generate_wf w w' kp : x25519_generate w = (w', Ok kp) → wf_x25519 kp.
Proof.
  unfold x25519_generate. munfold. destruct (getrandom_fill 32 w) as [w1 [r|]] eqn:E; intros; simplify_eq/=.
  apply getrandom_fill_Ok in E as [? _]. by repeat split.
Qed.

Lemma csk_generate_wf w w' csk : csk_generate w = (w', Ok csk) → wf_csk csk.
Proof.
  unfold csk_generate. munfold. destruct (getrandom_fill 32 w) as [w1 [r|]] eqn:E; intros; simplify_eq/=.
  apply getrandom_fill_Ok in E as [? _]. by repeat split.
Qed.

Lemma from_signing_key_bytes_wf b : length b = 32%nat → wf_ed25519 (from_signing_key_bytes b).
Proof. by split. Qed.

Lemma verifying_key_length kp : wf_ed25519 kp → length (verifying_key_bytes kp) = 32%nat.
Proof. intros [Hl Hv]. unfold verifying_key_bytes. rewrite Hv. by apply ed25519_public_length. Qed.

(** A signature made with a key pair verifies under its public key. *)
Lemma verify_sign_ed25519 kp data :
  wf_ed25519 kp → verify_ed25519 (verifying_key_bytes kp) data (sign_ed25519 kp data) = Ok ().
Proof.
  intros [Hl Hv]. unfold verify_ed25519, sign_ed25519, ed25519_keypair_sign, verifying_key_bytes.
  rewrite Hv, ed25519_public_valid, bool_decide_eq_true_2, ed25519_verify_sign by
    (done || by apply ed25519_sign_length).
  done.
Qed.

(** Only a 64-byte signature the primitive accepts is accepted. *)
Lemma verify_ed25519_Ok pk data sg :
  verify_ed25519 pk data sg = Ok () ↔
  ed25519_key_valid pk = true ∧ length sg = 64%nat ∧ ed25519_verify pk data sg = true.
Proof.
  unfold verify_ed25519. destruct (ed25519_key_valid pk); simpl; [|naive_solver].
  case_bool_decide; simpl; [|naive_solver]. destruct (ed25519_verify pk data sg); naive_solver.
Qed.

(** *** Sealing with a random, prepended nonce

    [encrypt_with_csk_and_random_nonce] and [encrypt_with_psk] share this body. *)

Lemma unseal_seal key nonce pt c :
  length key = 32%nat → length nonce = 12%nat →
  encrypt_aes_gcm key nonce pt [] = Ok c →
  (if decide (length (nonce ++ c) < 12)%nat then Err DecryptionFailed else
   n ← ok_or DecryptionFailed (slice_to 12 (nonce ++ c));
   ct ← ok_or DecryptionFailed (slice_from 12 (nonce ++ c));
   decrypt_aes_gcm key n ct []) = Ok pt.
Proof.
  intros Hk Hn Hc. rewrite decide_False by (rewrite length_app; lia).
  rewrite slice_to_app, slice_from_app by done. simpl.
  unfold decrypt_aes_gcm, encrypt_aes_gcm in *. apply ok_or_Ok in Hc.
  apply ok_or_Ok. by apply aes_decrypt_encrypt.
Qed.

Lemma seal_total key pt w :
  length key = 32%nat → (12 ≤ length (w_entropy w))%nat → Z.of_nat (length pt) ≤ 2 ^ 36 →
  ∃ c, encrypt_aes_gcm key (take 12 (w_entropy w)) pt [] = Ok c.
Proof.
  intros Hk He Hp. unfold encrypt_aes_gcm.
  destruct (aes_encrypt_total key (take 12 (w_entropy w)) pt []) as [c Hc]; [done| |done|].
  - rewrite length_take. lia.
  - exists c. by rewrite Hc.
Qed.

Lemma getrandom_fill_run n w :
  (n ≤ length (w_entropy w))%nat →
  getrandom_fill n w = (set_entropy (drop n (w_entropy w)) w, Ok (take n (w_entropy w))).
Proof. intros. unfold getrandom_fill. by rewrite decide_True. Qed.

Lemma encrypt_csk_run csk pt w c :
  (12 ≤ length (w_entropy w))%nat →
  encrypt_aes_gcm (csk_bytes csk) (take 12 (w_entropy w)) pt [] = Ok c →
  encrypt_with_csk_and_random_nonce csk pt w
  = (set_entropy (drop 12 (w_entropy w)) w, Ok (take 12 (w_entropy w) ++ c)).
Proof.
  intros He Hc. unfold encrypt_with_csk_and_random_nonce, mapM_err.
  rewrite bind_run, getrandom_fill_run by done. simpl. rewrite bind_run. unfold lift.
  by rewrite Hc.
Qed.

Lemma encrypt_psk_run psk pt w c :
  (12 ≤ length (w_entropy w))%nat →
  encrypt_aes_gcm (psk_bytes psk) (take 12 (w_entropy w)) pt [] = Ok c →
  encrypt_with_psk psk pt w
  = (set_entropy (drop 12 (w_entropy w)) w, Ok (take 12 (w_entropy w) ++ c)).
Proof. exact (encrypt_csk_run (mkCsk (psk_bytes psk)) pt w c). Qed.

(** Whatever [encrypt_with_csk_and_random_nonce] returned, decrypting it gives
    the plaintext back. *)
Lemma decrypt_encrypt_csk csk pt w w' c :
  wf_csk csk → encrypt_with_csk_and_random_nonce csk pt w = (w', Ok c) →
  decrypt_with_csk_and_prepended_nonce csk c = Ok pt.
Proof.
  intros Hk. unfold encrypt_with_csk_and_random_nonce. munfold.
  destruct (getrandom_fill 12 w) as [w1 [n|]] eqn:E; [|done]. apply getrandom_fill_Ok in E as [Hn _].
  simpl. destruct (encrypt_aes_gcm (csk_bytes csk) n pt []) as [ct|] eqn:Ec; [|done].
  intros; simplify_eq/=. by apply unseal_seal.
Qed.

Lemma decrypt_encrypt_psk psk pt w w' c :
  wf_psk psk → encrypt_with_psk psk pt w = (w', Ok c) → decrypt_with_psk psk c = Ok pt.
Proof. exact (decrypt_encrypt_csk (mkCsk (psk_bytes psk)) pt w w' c). Qed.

Lemma encrypt_psk_total psk pt w :
  wf_psk psk → (12 ≤ length (w_entropy w))%nat → Z.of_nat (length pt) ≤ 2 ^ 36 →
  ∃ w' c, encrypt_with_psk psk pt w = (w', Ok c) ∧ length c = (12 + length pt + 16)%nat.
Proof.
  intros Hk He Hp. destruct (seal_total (psk_bytes psk) pt w) as [c Hc]; [done..|].
  eexists _, _. split; [by apply encrypt_psk_run|]. unfold encrypt_aes_gcm in Hc.
  apply ok_or_Ok, aes_encrypt_length in Hc. rewrite length_app, length_take. lia.
Qed.

(** *** Temporal identifiers *)

(** The two generators are total, and the BLE identifier is a prefix. *)
Lemma generate_temporal_total csk win :
  ∃ i, generate_temporal_identifier csk win = Ok i ∧ length i = 16%nat ∧
       generate_temporal_identifier_ble csk win = Ok (take 10 i).
Proof.
  destruct (hmac_total (csk_bytes csk) (to_be_bytes 8 win)) as (t & Ht & Hl).
  exists (take 16 t). unfold generate_temporal_identifier, generate_temporal_identifier_ble.
  rewrite Ht. munfold. unfold slice_to. rewrite !decide_True by lia. simpl.
  rewrite take_take, length_take. split_and!; [done|lia|done].
Qed.

Lemma current_time_window_run w :
  0 ≤ w_time w → current_time_window w = (w, Ok (w_time w / 60)).
Proof. intros H. unfold current_time_window, unix_now. munfold. by rewrite decide_True. Qed.

Lemma generate_current_run csk w :
  0 ≤ w_time w →
  generate_current_temporal_identifier csk w
  = (w, generate_temporal_identifier csk (w_time w / 60)).
Proof.
  intros H. unfold generate_current_temporal_identifier.
  rewrite bind_run, current_time_window_run by done. done.
Qed.

Lemma generate_previous_run csk w :
  60 ≤ w_time w →
  generate_previous_temporal_identifier csk w
  = (w, generate_temporal_identifier csk (w_time w / 60 - 1)).
Proof.
  intros H. unfold generate_previous_temporal_identifier.
  rewrite bind_run, current_time_window_run by lia.
  rewrite decide_False; [done|]. pose proof (Z.div_le_mono 60 (w_time w) 60 ltac:(lia) H).
  change (60 / 60) with 1 in *. lia.
Qed.

(** Past the first minute after the epoch, verification answers: it accepts
    exactly the identifiers of the current and the previous window. *)
Lemma verify_temporal_run csk i w :
  60 ≤ w_time w →
  ∃ b, verify_temporal_identifier csk i w = (w, Ok b) ∧
    (b = true ↔ generate_temporal_identifier csk (w_time w / 60) = Ok i ∨
                generate_temporal_identifier csk (w_time w / 60 - 1) = Ok i).
Proof.
  intros H. destruct (generate_temporal_total csk (w_time w / 60)) as (cur & Hc & _).
  destruct (generate_temporal_total csk (w_time w / 60 - 1)) as (prev & Hp & _).
  unfold verify_temporal_identifier. rewrite bind_run, generate_current_run by lia.
  rewrite Hc, Hp. case_bool_decide as Heq; [exists true; naive_solver|].
  rewrite bind_run, generate_previous_run, Hp by done.
  exists (bool_decide (i = prev)). split; [done|]. rewrite bool_decide_eq_true. naive_solver.
Qed.

(** *** Pairing key and short authentication string *)

Lemma derive_psk_total s : ∃ psk, derive_psk_from_x25519 s = Ok psk ∧ wf_psk psk.
Proof.
  unfold derive_psk_from_x25519.
  destruct (hkdf_total s (bytes_of_string "tapauth-pairing-key") 32) as (o & Ho & Hl); [lia|].
  rewrite Ho. by eexists.
Qed.

Lemma derive_sas_total psk cpub spub :
  ∃ n : N, derive_sas psk cpub spub = Ok (fmt06 n) ∧ (n < 1000000)%N.
Proof.
  unfold derive_sas.
  destruct (hkdf_total (psk_bytes psk) (bytes_of_string "tapauth-sas" ++ (cpub ++ spub)) 8)
    as (o & Ho & Hl); [lia|].
  rewrite Ho. eexists. split; [done|].
  pose proof (Z.mod_pos_bound (from_be_bytes o) 1000000 ltac:(lia)). lia.
Qed.

End facts.

#[export] Hint Resolve from_signing_key_bytes_wf verifying_key_length verify_sign_ed25519
  decrypt_encrypt_csk decrypt_encrypt_psk : tapauth.
