(* ===== verification/Concrete.v ===== *)
(** * A concrete instance of the third-party operations

    Simple total functions with the shape of the cryptographic primitives (a
    keyed tag appended to the plaintext, a signature made of key and message,
    a commutative combination as key exchange).  They satisfy [CryptoLaws], so
    the laws are consistent, and they compute, so the definitions of this
    library can be evaluated on concrete inputs. *)

From stdpp Require Import base gmap strings list countable.
From Stdlib Require Import Strings.Byte.
From S2P Require Import Prelude Os Text Crypto.

(** The first [n] bytes, zero-padded. *)
Definition pad (n : nat) (l : bytes) : bytes := take n (l ++ replicate n x00).

Lemma length_pad n l : length (pad n l) = n.
Proof. unfold pad. rewrite length_take, length_app, length_replicate. lia. Qed.

Definition toy_tag (k n : bytes) : bytes := pad 16 (k ++ n).

Definition toy_decrypt (k n c : bytes) : option bytes :=
  let m := (length c - 16)%nat in
  if bool_decide (16 ≤ length c)%nat && bool_decide (drop m c = toy_tag k n)
  then Some (take m c) else None.

Definition toy_add (a b : byte) : byte := byte_of_Z (Z_of_byte a + Z_of_byte b).

#[export] Instance toy_crypto : CryptoOps := {|
  hmac_sha256 k m := Some (pad 32 (m ++ k));
  sha256 m := pad 32 m;
  hkdf_sha256 ikm info n := if bool_decide (n ≤ 255 * 32)%nat then Some (pad n (ikm ++ info)) else None;
  aes256gcm_encrypt k n m a := Some (m ++ toy_tag k n);
  aes256gcm_decrypt k n c a := toy_decrypt k n c;
  ed25519_public sk := sk;
  ed25519_key_valid pk := bool_decide (length pk = 32%nat);
  ed25519_sign sk m := pad 64 (sk ++ m);
  ed25519_verify pk m s := bool_decide (s = pad 64 (pk ++ m));
  x25519_public sk := sk;
  x25519_dh a b := zip_with toy_add a b;
|}.

Lemma toy_add_comm a b : toy_add a b = toy_add b a.
Proof. unfold toy_add. by rewrite Z.add_comm. Qed.

Lemma toy_dh_comm a b : zip_with toy_add a b = zip_with toy_add b a.
Proof. revert b. induction a as [|x a IH]; intros [|y b]; simpl; [done..|]. by rewrite toy_add_comm, IH. Qed.

Lemma toy_decrypt_encrypt k n m : toy_decrypt k n (m ++ toy_tag k n) = Some m.
Proof.
  assert (Ht : length (toy_tag k n) = 16%nat) by apply length_pad.
  unfold toy_decrypt. rewrite length_app, Ht.
  replace (length m + 16 - 16)%nat with (length m) by lia.
  rewrite drop_app_length, take_app_length.
  rewrite !bool_decide_eq_true_2 by (done || lia). done.
Qed.

#[export] Instance toy_laws : CryptoLaws toy_crypto.
Proof.
  split; simpl; intros.
  - eexists. split; [done|]. apply length_pad.
  - apply length_pad.
  - rewrite bool_decide_eq_true_2 by done. eexists. split; [done|]. apply length_pad.
  - by eexists.
  - simplify_eq. unfold toy_tag. by rewrite length_app, length_pad.
  - simplify_eq. apply toy_decrypt_encrypt.
  - done.
  - by rewrite bool_decide_eq_true_2.
  - apply length_pad.
  - by rewrite bool_decide_eq_true_2.
  - done.
  - rewrite length_zip_with. lia.
  - apply toy_dh_comm.
Qed.

(** A byte string of [n] equal bytes, and a world with plenty of entropy. *)
Definition rep (n : nat) (z : Z) : bytes := replicate n (byte_of_Z z).

Definition quiet_world : World := {|
  w_entropy := rep 256 7;
  w_time := 1700000000;
  w_clock := 0;
  w_fs := ∅;
  w_dirs := ∅;
  w_faults := [];
  w_euid := 0;
  w_tapauthd := Some 990;
  w_hostname := Some "laptop"%string;
|}.
