(* ===== verification/CryptoTheorems.v ===== *)
(** * Theorems about the cryptographic layer

    Round trips of the two encryption modes, the acceptance window of temporal
    identifiers, and the shape of the short authentication string. *)

From stdpp Require Import base gmap strings list.
From S2P Require Import Prelude Os Text Crypto Concrete.

(** ** Sealing *)

(** Sealing under the client key with a random nonce always succeeds on
    inputs the cipher accepts, draws exactly twelve fresh random bytes, puts
    them in front of the ciphertext, and the receiving side recovers the
    plaintext. *)
Theorem csk_seal_roundtrip `{C : CryptoOps} `{L : !CryptoLaws C} csk pt w :
  wf_csk csk → (12 ≤ length (w_entropy w))%nat → Z.of_nat (length pt) ≤ 2 ^ 36 →
  ∃ c, encrypt_with_csk_and_random_nonce csk pt w
       = (set_entropy (drop 12 (w_entropy w)) w, Ok c)
     ∧ take 12 c = take 12 (w_entropy w)
     ∧ decrypt_with_csk_and_prepended_nonce csk c = Ok pt.
Proof.
  intros Hk He Hp. destruct (seal_total (csk_bytes csk) pt w) as [c Hc]; [done..|].
  pose proof (encrypt_csk_run csk pt w c He Hc) as Hrun.
  eexists. split; [exact Hrun|]. split.
  - apply take_app_exact. rewrite length_take. lia.
  - by eapply decrypt_encrypt_csk.
Qed.

Lemma csk_seal_roundtrip_witness :
  ∃ c, encrypt_with_csk_and_random_nonce (C := toy_crypto) (mkCsk (rep 32 1)) (rep 5 9) quiet_world
       = (set_entropy (drop 12 (w_entropy quiet_world)) quiet_world, Ok c)
     ∧ take 12 c = rep 12 7
     ∧ decrypt_with_csk_and_prepended_nonce (C := toy_crypto) (mkCsk (rep 32 1)) c = Ok (rep 5 9).
Proof.
  apply (csk_seal_roundtrip (mkCsk (rep 32 1)) (rep 5 9) quiet_world);
    [reflexivity | vm_compute; lia | vm_compute; discriminate].
Defined.

(** Decryption with a prepended nonce never reads out of bounds: every input
    shorter than the nonce is refused, and on longer inputs the nonce is the
    first twelve bytes and the ciphertext is exactly the rest. *)
Theorem prepended_nonce_split `{C : CryptoOps} csk input :
  decrypt_with_csk_and_prepended_nonce csk input
  = if decide (length input < 12)%nat then Err DecryptionFailed
    else decrypt_aes_gcm (csk_bytes csk) (take 12 input) (drop 12 input) [].
Proof.
  unfold decrypt_with_csk_and_prepended_nonce. case_decide; [done|].
  unfold slice_to, slice_from. by rewrite !decide_True by lia.
Qed.

(** ** Temporal identifiers *)

(** An identifier generated at second [t] is accepted for the whole minute
    that follows: at every second [t'] with [t <= t' <= t + 60] (and at least a
    minute after the epoch) verification returns true, for the 16-byte network
    identifier. *)
Theorem temporal_identifier_accepted `{C : CryptoOps} `{L : !CryptoLaws C} csk w w' i :
  0 ≤ w_time w → w_time w ≤ w_time w' ≤ w_time w + 60 → 60 ≤ w_time w' →
  generate_current_temporal_identifier csk w = (w, Ok i) →
  verify_temporal_identifier csk i w' = (w', Ok true).
Proof.
  intros H0 [Hle Hlt] H60 Hgen. rewrite generate_current_run in Hgen by done. simplify_eq.
  destruct (verify_temporal_run csk i w' H60) as (b & -> & Hb).
  assert (Hwin : w_time w / 60 = w_time w' / 60 ∨ w_time w / 60 = w_time w' / 60 - 1).
  { pose proof (Z.div_le_mono (w_time w) (w_time w') 60 ltac:(lia) Hle).
    pose proof (Z.div_le_mono (w_time w') (w_time w + 60) 60 ltac:(lia) Hlt) as Hu.
    replace (w_time w + 60) with (w_time w + 1 * 60) in Hu by lia.
    rewrite Z.div_add in Hu by lia. lia. }
  do 2 f_equal. apply Hb. by destruct Hwin as [<-|<-]; [left|right].
Qed.

Lemma temporal_identifier_accepted_witness :
  ∃ i, generate_current_temporal_identifier (C := toy_crypto) (mkCsk (rep 32 1)) quiet_world = (quiet_world, Ok i)
     ∧ verify_temporal_identifier (C := toy_crypto) (mkCsk (rep 32 1)) i quiet_world = (quiet_world, Ok true).
Proof.
  eexists. split; [vm_compute; reflexivity|].
  apply (temporal_identifier_accepted (mkCsk (rep 32 1)) quiet_world);
    [vm_compute; discriminate | split; vm_compute; discriminate | vm_compute; discriminate | vm_compute; reflexivity].
Defined.

(** Verification never accepts anything else: at any second past the first
    minute of the epoch it answers without error, and the answer is true exactly
    for the identifiers of the current and the previous 60-second window. *)
Theorem temporal_identifier_exact `{C : CryptoOps} `{L : !CryptoLaws C} csk i w :
  60 ≤ w_time w →
  ∃ b, verify_temporal_identifier csk i w = (w, Ok b) ∧
    (b = true ↔ ∃ win, (win = w_time w / 60 ∨ win = w_time w / 60 - 1) ∧
                       generate_temporal_identifier csk win = Ok i).
Proof.
  intros H. destruct (verify_temporal_run csk i w H) as (b & Hr & Hb).
  exists b. split; [done|]. rewrite Hb. naive_solver.
Qed.

Lemma temporal_identifier_exact_witness :
  ∃ b, verify_temporal_identifier (C := toy_crypto) (mkCsk (rep 32 1)) (rep 16 0) quiet_world = (quiet_world, Ok b) ∧
    (b = true ↔ ∃ win, (win = w_time quiet_world / 60 ∨ win = w_time quiet_world / 60 - 1) ∧
                       generate_temporal_identifier (C := toy_crypto) (mkCsk (rep 32 1)) win = Ok (rep 16 0)).
Proof. apply (temporal_identifier_exact (mkCsk (rep 32 1)) (rep 16 0) quiet_world). vm_compute. discriminate. Defined.

(** ** Short authentication string *)

(** The short authentication string always exists and is six decimal digits
    of a number below one million, and [format_sas] shows it as two groups of
    three with a dash between them. *)
Theorem sas_six_digits `{C : CryptoOps} `{L : !CryptoLaws C} psk cpub spub :
  ∃ sas, derive_sas psk cpub spub = Ok sas ∧
    length (String.list_ascii_of_string sas) = 6%nat ∧
    Forall is_digit (String.list_ascii_of_string sas) ∧
    (∃ n : N, dec_value 0 (String.list_ascii_of_string sas) = Some n ∧ (n < 1000000)%N) ∧
    format_sas sas = (String.substring 0 3 sas +:+ "-" +:+ String.substring 3 3 sas).
Proof.
  destruct (derive_sas_total psk cpub spub) as (n & Hs & Hn).
  exists (fmt06 n). split_and!; [done|auto with tapauth..| |].
  - exists n. split; [apply fmt06_value|done].
  - unfold format_sas. rewrite bool_decide_eq_true_2; [done|].
    rewrite <-(fmt06_length n Hn). clear. induction (fmt06 n) as [|c s IH]; simpl; [done|]. by rewrite IH.
Qed.

Lemma sas_six_digits_witness :
  ∃ sas, derive_sas (C := toy_crypto) (mkPsk (rep 32 3)) (rep 32 1) (rep 32 2) = Ok sas ∧
    length (String.list_ascii_of_string sas) = 6%nat.
Proof.
  destruct (sas_six_digits (C := toy_crypto) (mkPsk (rep 32 3)) (rep 32 1) (rep 32 2)) as (sas & H1 & H2 & _).
  by exists sas.
Defined.
