(* ===== verification/Protocol.v ===== *)
(** * Wire protocol: [shared/src/protocol/messages.rs] and [packet.rs]

    The messages of [proto/auth_protocol.proto], signing and verification of the
    wrapper message, construction of every message kind, and sealing a wrapper
    into an [EncryptedPacket] and opening it again.  The protobuf codec is
    generated by the [prost] crate: it is the class [Codec], with the round trip
    it documents as [CodecLaws]. *)

From stdpp Require Import base gmap strings list.
From S2P Require Import Prelude Os Text Crypto.

(** ** Messages *)

(** Enum values as the [i32] fields carry them. *)
Definition SIGNATURE_ED25519 : Z := 1.
Definition SYMMETRIC_AES_256_GCM : Z := 1.
Definition HASH_SHA256 : Z := 1.

Record AuthenticationRequest := mkAuthenticationRequest {
  ar_challenge : bytes;
  ar_username : string;
  ar_hostname : string;
  ar_timestamp_unix_seconds : Z;
}.
Record AuthenticationGrant := mkAuthenticationGrant { ag_signed_challenge : bytes }.
Record AuthenticationDenial := mkAuthenticationDenial { ad_challenge : bytes }.
Record GrantConfirmation := mkGrantConfirmation { gc_challenge : bytes }.
Record AuthenticationCancel := mkAuthenticationCancel { ac_challenge : bytes }.

Inductive Payload :=
| PAuthRequest (r : AuthenticationRequest)
| PAuthGrant (g : AuthenticationGrant)
| PAuthDenial (d : AuthenticationDenial)
| PGrantConfirmation (c : GrantConfirmation)
| PAuthCancel (c : AuthenticationCancel).

Record WrapperMessage := mkWrapperMessage {
  wm_version : Z;
  wm_signature_algorithm : Z;
  wm_signature : bytes;
  wm_payload : option Payload;
}.

Record EncryptedPacket := mkEncryptedPacket {
  ep_temporal_identifier : bytes;
  ep_encryption_algorithm : Z;
  ep_ciphertext : bytes;
}.

(** ** The generated codec *)

(** [Message::encode_to_vec] and [Message::decode]; the decoder's error carries
    nothing the code looks at. *)
Class Codec (A : Type) := {
  encode_to_vec : A → bytes;
  decode : bytes → option A;
}.

(** Values whose integers fit their wire types; only these have to round-trip. *)
Class WireValue (A : Type) := wire_ok : A → Prop.

Class CodecLaws (A : Type) (K : Codec A) (W : WireValue A) : Prop :=
  decode_encode (m : A) : wire_ok m → decode (encode_to_vec m) = Some m.

Definition u32 (z : Z) : Prop := 0 ≤ z < 2 ^ 32.
Definition i32 (z : Z) : Prop := - 2 ^ 31 ≤ z < 2 ^ 31.
Definition u64 (z : Z) : Prop := 0 ≤ z < 2 ^ 64.

#[global] Instance wrapper_wire : WireValue WrapperMessage := λ m,
  u32 (wm_version m) ∧ i32 (wm_signature_algorithm m) ∧
  match wm_payload m with
  | Some (PAuthRequest r) => u64 (ar_timestamp_unix_seconds r)
  | _ => True
  end.
#[global] Instance packet_wire : WireValue EncryptedPacket := λ p, i32 (ep_encryption_algorithm p).

(** ** Errors *)

Inductive ProtocolError :=
| PE_Serialization
| PE_Deserialization
| PE_InvalidSignature
| PE_Crypto (e : CryptoError)
| PE_InvalidMessageFormat
| PE_MissingField (f : string)
| PE_Io (e : io_error).

Section operations.
Context `{C : CryptoOps} `{KW : !Codec WrapperMessage}.

(** ** Signatures over the wrapper ([messages.rs]) *)

(** The wrapper with its signature field cleared: what is signed. *)
Definition unsigned (w : WrapperMessage) : WrapperMessage :=
  mkWrapperMessage (wm_version w) (wm_signature_algorithm w) [] (wm_payload w).

Definition sign_wrapper_message (wrapper : WrapperMessage) (keypair : Ed25519KeyPair)
    : result ProtocolError WrapperMessage :=
  let cleared := mkWrapperMessage (wm_version wrapper) SIGNATURE_ED25519 [] (wm_payload wrapper) in
  let data_to_sign := encode_to_vec cleared in
  Ok (mkWrapperMessage (wm_version cleared) (wm_signature_algorithm cleared)
        (sign_ed25519 keypair data_to_sign) (wm_payload cleared)).

Definition verify_wrapper_signature (wrapper : WrapperMessage) (public_key : bytes)
    : result ProtocolError () :=
  let unsigned_wrapper := unsigned wrapper in
  let data_to_verify := encode_to_vec unsigned_wrapper in
  map_err PE_Crypto (verify_ed25519 public_key data_to_verify (wm_signature wrapper)).

(** ** Creating messages *)

Definition challenge_ok (challenge : bytes) : bool := bool_decide (length challenge = 32%nat).

Definition create_auth_request_with_challenge (username hostname : string) (challenge : bytes)
    : M World ProtocolError AuthenticationRequest :=
  if negb (challenge_ok challenge) then throw PE_InvalidMessageFormat else
  timestamp ← mapM_err (λ _, PE_Crypto SystemTimeError) unix_now;
  mret (mkAuthenticationRequest challenge username hostname timestamp).

Definition create_auth_request (username hostname : string)
    : M World ProtocolError AuthenticationRequest :=
  challenge ← mapM_err (λ _, PE_Crypto RandomGenerationFailed) (getrandom_fill 32);
  create_auth_request_with_challenge username hostname challenge.

Definition MAX_CLOCK_SKEW : Z := 60.

(** [u64] arithmetic: [now + MAX_CLOCK_SKEW] wraps, [saturating_sub] stops at 0. *)
Definition is_request_timestamp_valid (request : AuthenticationRequest) (w : World) : bool :=
  match (unix_now w).2 with
  | Err _ => false
  | Ok now =>
      let timestamp := ar_timestamp_unix_seconds request in
      (timestamp <=? (now + MAX_CLOCK_SKEW) mod 2 ^ 64) && (Z.max 0 (now - MAX_CLOCK_SKEW) <=? timestamp)
  end.

Definition create_auth_grant (keypair : Ed25519KeyPair) (challenge : bytes)
    : result ProtocolError AuthenticationGrant :=
  if negb (challenge_ok challenge) then Err PE_InvalidMessageFormat else
  Ok (mkAuthenticationGrant (sign_ed25519 keypair challenge)).

Definition verify_auth_grant (wrapper : WrapperMessage) (challenge server_public_key : bytes)
    : result ProtocolError () :=
  if negb (challenge_ok challenge) then Err PE_InvalidMessageFormat else
  _ ← verify_wrapper_signature wrapper server_public_key;
  match wm_payload wrapper with
  | Some (PAuthGrant g) =>
      map_err PE_Crypto (verify_ed25519 server_public_key challenge (ag_signed_challenge g))
  | _ => Err PE_InvalidMessageFormat
  end.

Definition create_auth_denial (challenge : bytes) : result ProtocolError AuthenticationDenial :=
  if negb (challenge_ok challenge) then Err PE_InvalidMessageFormat else
  Ok (mkAuthenticationDenial challenge).

Definition create_grant_confirmation (challenge : bytes) : result ProtocolError GrantConfirmation :=
  if negb (challenge_ok challenge) then Err PE_InvalidMessageFormat else
  Ok (mkGrantConfirmation challenge).

Definition create_auth_cancel (challenge : bytes) : result ProtocolError AuthenticationCancel :=
  if negb (challenge_ok challenge) then Err PE_InvalidMessageFormat else
  Ok (mkAuthenticationCancel challenge).

(** ** Wrapping ([packet.rs]) *)

Definition wrap_auth_request (r : AuthenticationRequest) : WrapperMessage :=
  mkWrapperMessage 1 SIGNATURE_ED25519 [] (Some (PAuthRequest r)).
Definition wrap_auth_grant (g : AuthenticationGrant) : WrapperMessage :=
  mkWrapperMessage 1 SIGNATURE_ED25519 [] (Some (PAuthGrant g)).
Definition wrap_auth_denial (d : AuthenticationDenial) : WrapperMessage :=
  mkWrapperMessage 1 SIGNATURE_ED25519 [] (Some (PAuthDenial d)).
Definition wrap_grant_confirmation (c : GrantConfirmation) : WrapperMessage :=
  mkWrapperMessage 1 SIGNATURE_ED25519 [] (Some (PGrantConfirmation c)).
Definition wrap_auth_cancel (c : AuthenticationCancel) : WrapperMessage :=
  mkWrapperMessage 1 SIGNATURE_ED25519 [] (Some (PAuthCancel c)).

(** A grant carries a signature over the challenge, not the challenge. *)
Definition extract_challenge (wrapper : WrapperMessage) : option bytes :=
  match wm_payload wrapper with
  | Some (PAuthRequest req) => Some (ar_challenge req)
  | Some (PAuthDenial denial) => Some (ad_challenge denial)
  | Some (PGrantConfirmation conf) => Some (gc_challenge conf)
  | Some (PAuthCancel cancel) => Some (ac_challenge cancel)
  | _ => None
  end.

(** ** Encrypted packets ([packet.rs]) *)

Definition create_encrypted_packet (csk : ClientSymmetricKey) (challenge context : bytes)
    (wrapper : WrapperMessage) : M World ProtocolError EncryptedPacket :=
  temporal_identifier ← mapM_err PE_Crypto (generate_current_temporal_identifier csk);
  let plaintext := encode_to_vec wrapper in
  ciphertext ← lift (map_err PE_Crypto (encrypt_with_csk csk challenge context plaintext));
  mret (mkEncryptedPacket temporal_identifier SYMMETRIC_AES_256_GCM ciphertext).

Definition create_encrypted_packet_with_csk_nonce (csk : ClientSymmetricKey) (wrapper : WrapperMessage)
    : M World ProtocolError EncryptedPacket :=
  temporal_identifier ← mapM_err PE_Crypto (generate_current_temporal_identifier csk);
  let plaintext := encode_to_vec wrapper in
  ciphertext ← mapM_err PE_Crypto (encrypt_with_csk_and_random_nonce csk plaintext);
  mret (mkEncryptedPacket temporal_identifier SYMMETRIC_AES_256_GCM ciphertext).

Definition decrypt_encrypted_packet (csk : ClientSymmetricKey) (challenge context : bytes)
    (packet : EncryptedPacket) : result ProtocolError WrapperMessage :=
  plaintext ← map_err PE_Crypto (decrypt_with_csk csk challenge context (ep_ciphertext packet));
  ok_or PE_Deserialization (decode plaintext).

Definition decrypt_encrypted_packet_with_csk_nonce (csk : ClientSymmetricKey) (packet : EncryptedPacket)
    : result ProtocolError WrapperMessage :=
  plaintext ← map_err PE_Crypto (decrypt_with_csk_and_prepended_nonce csk (ep_ciphertext packet));
  ok_or PE_Deserialization (decode plaintext).

End operations.

(** ** Facts *)

(** Making a packet draws entropy and changes nothing else. *)
Lemma create_packet_world `{C : CryptoOps} `{KW : !Codec WrapperMessage} csk wr w w' r :
  create_encrypted_packet_with_csk_nonce csk wr w = (w', r) → ∃ e, w' = set_entropy e w.
Proof.
  assert (Hid : ∃ e, w = set_entropy e w) by (exists (w_entropy w); by destruct w).
  unfold create_encrypted_packet_with_csk_nonce, generate_current_temporal_identifier,
    current_time_window, unix_now, encrypt_with_csk_and_random_nonce, getrandom_fill. munfold.
  intros Hc. repeat (case_match; simplify_eq/=; eauto).
Qed.

Section facts.
Context `{C : CryptoOps} `{L : !CryptoLaws C}.
Context `{KW : !Codec WrapperMessage} `{LW : !CodecLaws WrapperMessage KW wrapper_wire}.

Lemma challenge_ok_true c : challenge_ok c = true ↔ length c = 32%nat.
Proof. apply bool_decide_eq_true. Qed.

Lemma verify_wrapper_signature_Ok w pk :
  verify_wrapper_signature w pk = Ok () ↔
  verify_ed25519 pk (encode_to_vec (unsigned w)) (wm_signature w) = Ok ().
Proof. unfold verify_wrapper_signature. by rewrite map_err_Ok. Qed.

(** What [sign_wrapper_message] signs is what verification checks. *)
Lemma verify_sign_wrapper w kp w' :
  wf_ed25519 kp → sign_wrapper_message w kp = Ok w' →
  verify_wrapper_signature w' (verifying_key_bytes kp) = Ok ().
Proof.
  intros Hkp Hs. unfold sign_wrapper_message in Hs. simplify_eq/=.
  apply verify_wrapper_signature_Ok. by apply verify_sign_ed25519.
Qed.

Lemma sign_wrapper_payload w kp w' :
  sign_wrapper_message w kp = Ok w' →
  wm_payload w' = wm_payload w ∧ wm_version w' = wm_version w.
Proof. unfold sign_wrapper_message. by intros; simplify_eq/=. Qed.

(** The exact meaning of an accepted grant. *)
Lemma verify_auth_grant_Ok w ch pk :
  verify_auth_grant w ch pk = Ok () ↔
  length ch = 32%nat ∧ verify_wrapper_signature w pk = Ok () ∧
  ∃ g, wm_payload w = Some (PAuthGrant g) ∧ verify_ed25519 pk ch (ag_signed_challenge g) = Ok ().
Proof.
  unfold verify_auth_grant. destruct (challenge_ok ch) eqn:Hc; simpl.
  - apply challenge_ok_true in Hc. munfold.
    destruct (verify_wrapper_signature w pk) as [[]|e]; [|naive_solver].
    destruct (wm_payload w) as [[]|]; try naive_solver.
    rewrite map_err_Ok. naive_solver.
  - split; [done|]. intros (Hl & _). apply challenge_ok_true in Hl. congruence.
Qed.

(** The client accepts the grant the phone makes for its challenge. *)
Lemma grant_verifies kp challenge g w :
  wf_ed25519 kp →
  create_auth_grant kp challenge = Ok g →
  sign_wrapper_message (wrap_auth_grant g) kp = Ok w →
  verify_auth_grant w challenge (verifying_key_bytes kp) = Ok ().
Proof.
  intros Hkp Hg Hs. unfold create_auth_grant in Hg.
  destruct (challenge_ok challenge) eqn:Hc; simplify_eq/=. apply challenge_ok_true in Hc.
  apply verify_auth_grant_Ok. split; [done|]. split; [by eapply verify_sign_wrapper|].
  apply sign_wrapper_payload in Hs as [-> _]. eexists. split; [reflexivity|].
  by apply verify_sign_ed25519.
Qed.

(** A packet made here names AES-256-GCM. *)
Lemma create_packet_wire csk wr w w' p :
  create_encrypted_packet_with_csk_nonce csk wr w = (w', Ok p) → wire_ok p.
Proof.
  unfold create_encrypted_packet_with_csk_nonce. intros Hp. inv_bind. unfold mret, M_ret in Hp.
  by simplify_eq.
Qed.

Lemma decrypt_create_packet csk wr w w' p :
  wf_csk csk → wire_ok wr →
  create_encrypted_packet_with_csk_nonce csk wr w = (w', Ok p) →
  decrypt_encrypted_packet_with_csk_nonce csk p = Ok wr.
Proof.
  intros Hk Hw. unfold create_encrypted_packet_with_csk_nonce. munfold.
  destruct (generate_current_temporal_identifier csk w) as [w1 [ti|]]; [|done]. simpl.
  destruct (encrypt_with_csk_and_random_nonce csk (encode_to_vec wr) w1) as [w2 [ct|]] eqn:E; [|done].
  simpl. intros; simplify_eq. unfold decrypt_encrypted_packet_with_csk_nonce; simpl.
  rewrite (decrypt_encrypt_csk csk _ _ _ _ Hk E). munfold. by rewrite decode_encode.
Qed.

Lemma create_packet_total csk wr w :
  wf_csk csk → 0 ≤ w_time w → (12 ≤ length (w_entropy w))%nat →
  Z.of_nat (length (encode_to_vec wr)) ≤ 2 ^ 36 →
  ∃ p, create_encrypted_packet_with_csk_nonce csk wr w
       = (set_entropy (drop 12 (w_entropy w)) w, Ok p).
Proof.
  intros Hk Ht He Hlen. unfold create_encrypted_packet_with_csk_nonce. munfold.
  rewrite generate_current_run by done.
  destruct (generate_temporal_total csk (w_time w / 60)) as (i & -> & _). simpl.
  destruct (seal_total (csk_bytes csk) (encode_to_vec wr) w) as [c Hc]; [done..|].
  rewrite (encrypt_csk_run csk _ w c He Hc). by eexists.
Qed.

End facts.

#[export] Hint Resolve verify_sign_wrapper decrypt_create_packet : tapauth.
