(* ===== verification/ConcreteCodec.v ===== *)
(** * A concrete codec for the protocol messages

    A message is the list of its fields, each field escaped byte by byte and
    terminated; numbers are fields made of their bits.  It stands in for the
    generated protobuf code when definitions are evaluated on concrete inputs. *)

From stdpp Require Import base gmap strings list countable.
From Stdlib Require Import Strings.Byte.
From S2P Require Import Prelude Os Text Crypto Concrete Protocol.

Fixpoint pos_bytes (p : positive) : bytes :=
  match p with
  | xH => []
  | xO p' => x00 :: pos_bytes p'
  | xI p' => x01 :: pos_bytes p'
  end.

Fixpoint bytes_pos (l : bytes) : positive :=
  match l with
  | [] => xH
  | b :: l' => if bool_decide (b = x00) then xO (bytes_pos l') else xI (bytes_pos l')
  end.

Lemma bytes_pos_bytes p : bytes_pos (pos_bytes p) = p.
Proof. induction p as [p IH|p IH|]; simpl; [by rewrite IH|by rewrite IH|done]. Qed.

(** ** Fields escaped byte by byte *)

Definition enc_field (f : bytes) : bytes := concat (map (λ b, [x01; b]) f) ++ [x00].

Fixpoint dec_fields (cur : bytes) (l : bytes) : option (list bytes) :=
  match l with
  | [] => Some []
  | t :: l' =>
      if decide (t = x00) then cons (reverse cur) <$> dec_fields [] l'
      else match l' with [] => None | b :: l'' => dec_fields (b :: cur) l'' end
  end.

Lemma dec_enc_field f cur rest :
  dec_fields cur (enc_field f ++ rest) = cons (reverse cur ++ f) <$> dec_fields [] rest.
Proof.
  unfold enc_field. revert cur. induction f as [|b f IH]; intros cur; simpl; [by rewrite app_nil_r|].
  by rewrite IH, reverse_cons, <-(assoc_L (++)).
Qed.

Lemma dec_enc_fields l : dec_fields [] (concat (map enc_field l)) = Some l.
Proof. induction l as [|f l IH]; simpl; [done|]. by rewrite dec_enc_field, IH. Qed.

(** A codec from a message's fields. *)
Definition field_codec {B} (fields : B → list bytes) (unfields : list bytes → option B) : Codec B := {|
  encode_to_vec m := concat (map enc_field (fields m));
  decode b := dec_fields [] b ≫= unfields;
|}.

Lemma field_codec_laws {B} fields unfields (W : WireValue B) :
  (∀ m, unfields (fields m) = Some m) → CodecLaws B (field_codec fields unfields) W.
Proof. intros H m _. simpl. rewrite dec_enc_fields. simpl. apply H. Qed.

Definition num_field {A} `{Countable A} (a : A) : bytes := pos_bytes (countable.encode a).
Definition num_unfield {A} `{Countable A} (b : bytes) : option A := countable.decode (bytes_pos b).
Lemma num_unfield_field {A} `{Countable A} (a : A) : num_unfield (num_field a) = Some a.
Proof. unfold num_unfield, num_field. rewrite bytes_pos_bytes. apply countable.decode_encode. Qed.

Definition str_field (s : string) : bytes := String.list_byte_of_string s.
Definition str_unfield (b : bytes) : string := String.string_of_list_byte b.
Lemma str_unfield_field s : str_unfield (str_field s) = s.
Proof. apply String.string_of_list_byte_of_string. Qed.

(** The law of a field codec, by its fields. *)
Ltac field_laws :=
  apply field_codec_laws; intros []; cbn -[num_unfield num_field str_unfield str_field];
  rewrite ?num_unfield_field, ?str_unfield_field; cbn -[str_unfield str_field];
  by rewrite ?str_unfield_field.

(** ** The protocol messages *)

Definition payload_fields (p : Payload) : list bytes :=
  match p with
  | PAuthRequest r => [[x00]; ar_challenge r; str_field (ar_username r); str_field (ar_hostname r);
                       num_field (ar_timestamp_unix_seconds r)]
  | PAuthGrant g => [[x01]; ag_signed_challenge g]
  | PAuthDenial d => [[x02]; ad_challenge d]
  | PGrantConfirmation c => [[x03]; gc_challenge c]
  | PAuthCancel c => [[x04]; ac_challenge c]
  end.
Definition payload_unfields (l : list bytes) : option Payload :=
  match l with
  | [[x00]; c; u; h; t] =>
      t ← num_unfield t; Some (PAuthRequest (mkAuthenticationRequest c (str_unfield u) (str_unfield h) t))
  | [[x01]; c] => Some (PAuthGrant (mkAuthenticationGrant c))
  | [[x02]; c] => Some (PAuthDenial (mkAuthenticationDenial c))
  | [[x03]; c] => Some (PGrantConfirmation (mkGrantConfirmation c))
  | [[x04]; c] => Some (PAuthCancel (mkAuthenticationCancel c))
  | _ => None
  end.

Lemma payload_unfields_fields p : payload_unfields (payload_fields p) = Some p.
Proof.
  destruct p as [[]|[]|[]|[]|[]]; try done.
  cbn -[num_unfield num_field str_unfield str_field].
  by rewrite num_unfield_field; cbn -[str_unfield str_field]; rewrite !str_unfield_field.
Qed.

#[export] Instance toy_wrapper_codec : Codec WrapperMessage := field_codec
  (λ w, num_field (wm_version w) :: num_field (wm_signature_algorithm w) :: wm_signature w ::
        match wm_payload w with Some p => payload_fields p | None => [] end)
  (λ l, match l with
        | v :: a :: s :: p =>
            v ← num_unfield v; a ← num_unfield a;
            match p with
            | [] => Some (mkWrapperMessage v a s None)
            | _ => p ← payload_unfields p; Some (mkWrapperMessage v a s (Some p))
            end
        | _ => None
        end).
#[export] Instance toy_wrapper_laws : CodecLaws WrapperMessage toy_wrapper_codec wrapper_wire.
Proof.
  apply field_codec_laws. intros [v a s p].
  cbn -[num_unfield num_field payload_fields payload_unfields]. rewrite !num_unfield_field.
  cbn -[payload_fields payload_unfields]. destruct p as [p|]; [|done].
  assert (∃ f l, payload_fields p = f :: l) as (f & l & Hf) by (destruct p as [[]|[]|[]|[]|[]]; by eauto).
  pose proof (payload_unfields_fields p) as Hp. rewrite Hf in Hp. rewrite Hf. by rewrite Hp.
Qed.

#[export] Instance toy_packet_codec : Codec EncryptedPacket := field_codec
  (λ p, [ep_temporal_identifier p; num_field (ep_encryption_algorithm p); ep_ciphertext p])
  (λ l, match l with
        | [t; a; c] => a ← num_unfield a; Some (mkEncryptedPacket t a c)
        | _ => None
        end).
#[export] Instance toy_packet_laws : CodecLaws EncryptedPacket toy_packet_codec packet_wire.
Proof. field_laws. Qed.

(** Key pairs of two devices. *)
Definition toy_client : Ed25519KeyPair := from_signing_key_bytes (rep 32 11).
Definition toy_phone : Ed25519KeyPair := from_signing_key_bytes (rep 32 22).
Definition toy_csk : ClientSymmetricKey := mkCsk (rep 32 1).
Definition toy_challenge : bytes := rep 32 5.
