(* ===== verification/ProtocolTheorems.v ===== *)
(** * Theorems about the wire protocol *)

From stdpp Require Import base gmap strings list.
From S2P Require Import Prelude Os Text Crypto Concrete Protocol ConcreteCodec.

(** End to end, a signed message survives the trip: a wrapper signed by a
    key pair and sealed into a packet under the client key is recovered
    unchanged by the peer that holds the key, and the recovered message verifies
    under the signer's public key. *)
Theorem signed_packet_roundtrip `{C : CryptoOps} `{L : !CryptoLaws C}
    `{KW : !Codec WrapperMessage} `{LW : !CodecLaws WrapperMessage KW wrapper_wire}
    csk kp wr wr' w w' p :
  wf_csk csk → wf_ed25519 kp → wire_ok wr →
  sign_wrapper_message wr kp = Ok wr' →
  create_encrypted_packet_with_csk_nonce csk wr' w = (w', Ok p) →
  decrypt_encrypted_packet_with_csk_nonce csk p = Ok wr' ∧
  verify_wrapper_signature wr' (verifying_key_bytes kp) = Ok () ∧
  wm_payload wr' = wm_payload wr.
Proof.
  intros Hk Hkp Hw Hs Hp. split_and!.
  - eapply decrypt_create_packet; [done| |done].
    unfold sign_wrapper_message in Hs. simplify_eq/=.
    destruct Hw as (Hv & _ & Hpay). split; [exact Hv|]. split; [|exact Hpay]. by split.
  - by eapply verify_sign_wrapper.
  - by apply (sign_wrapper_payload _ _ _ Hs).
Qed.

Definition sample_cancel : WrapperMessage := wrap_auth_cancel (mkAuthenticationCancel toy_challenge).

Lemma signed_packet_roundtrip_witness :
  ∃ wr' w' p,
    sign_wrapper_message (C := toy_crypto) sample_cancel toy_client = Ok wr' ∧
    create_encrypted_packet_with_csk_nonce (C := toy_crypto) toy_csk wr' quiet_world = (w', Ok p) ∧
    decrypt_encrypted_packet_with_csk_nonce (C := toy_crypto) toy_csk p = Ok wr'.
Proof.
  eexists _, _, _. split; [reflexivity|]. split; [vm_compute; reflexivity|].
  eapply (signed_packet_roundtrip (C := toy_crypto) toy_csk toy_client sample_cancel _ quiet_world);
    [reflexivity | split; reflexivity | repeat split; vm_compute; discriminate | reflexivity | vm_compute; reflexivity].
Defined.

(** A grant is accepted under a public key exactly when the challenge is 32
    bytes, the wrapper carries a grant, and the key's owner signed both the
    wrapper (with its signature field empty) and this very challenge; in
    particular a grant for another challenge, or a message of another kind, is
    never accepted. *)
Theorem auth_grant_exact `{C : CryptoOps} `{KW : !Codec WrapperMessage} w challenge pk :
  verify_auth_grant w challenge pk = Ok () ↔
  length challenge = 32%nat ∧
  verify_ed25519 pk (encode_to_vec (unsigned w)) (wm_signature w) = Ok () ∧
  ∃ g, wm_payload w = Some (PAuthGrant g) ∧
       verify_ed25519 pk challenge (ag_signed_challenge g) = Ok ().
Proof. by rewrite verify_auth_grant_Ok, verify_wrapper_signature_Ok. Qed.

(** The replay window of an authentication request: with a clock after the
    epoch and below the [u64] limit, a request is fresh exactly when its
    timestamp is within 60 seconds of now, on either side. *)
Theorem request_timestamp_window request w :
  0 ≤ w_time w < 2 ^ 64 - 60 → 0 ≤ ar_timestamp_unix_seconds request →
  is_request_timestamp_valid request w = true ↔
  w_time w - 60 ≤ ar_timestamp_unix_seconds request ≤ w_time w + 60.
Proof.
  intros [H0 Hlt] Hts. unfold is_request_timestamp_valid, unix_now.
  rewrite decide_True by done. cbn [snd].
  unfold MAX_CLOCK_SKEW. rewrite Z.mod_small by lia.
  rewrite andb_true_iff, !Z.leb_le. lia.
Qed.

Lemma request_timestamp_window_witness :
  is_request_timestamp_valid (mkAuthenticationRequest toy_challenge "a" "b" 1700000060) quiet_world = true
  ∧ is_request_timestamp_valid (mkAuthenticationRequest toy_challenge "a" "b" 1700000061) quiet_world = false.
Proof.
  split; [|vm_compute; reflexivity].
  apply (request_timestamp_window (mkAuthenticationRequest toy_challenge "a" "b" 1700000060) quiet_world);
    [split; [vm_compute; discriminate | vm_compute; reflexivity] | vm_compute; discriminate
    | split; vm_compute; discriminate].
Defined.

(** Every message that identifies a session by its challenge can be made for
    a challenge exactly when it has 32 bytes, and the wrapped message then gives
    that challenge back; a grant never exposes one. *)
Theorem challenge_messages `{C : CryptoOps} challenge kp :
  match create_auth_denial challenge, create_grant_confirmation challenge,
        create_auth_cancel challenge, create_auth_grant kp challenge with
  | Ok d, Ok c, Ok x, Ok g =>
      length challenge = 32%nat ∧
      extract_challenge (wrap_auth_denial d) = Some challenge ∧
      extract_challenge (wrap_grant_confirmation c) = Some challenge ∧
      extract_challenge (wrap_auth_cancel x) = Some challenge ∧
      extract_challenge (wrap_auth_grant g) = None
  | Err e1, Err e2, Err e3, Err e4 =>
      length challenge ≠ 32%nat ∧ e1 = PE_InvalidMessageFormat ∧ e2 = e1 ∧ e3 = e1 ∧ e4 = e1
  | _, _, _, _ => False
  end.
Proof.
  unfold create_auth_denial, create_grant_confirmation, create_auth_cancel, create_auth_grant, challenge_ok.
  case_bool_decide; simpl; naive_solver.
Qed.
