(* ===== verification/Config.v ===== *)
(** * Persistent state: [shared/src/config.rs], [config/toml_config.rs], [tpm.rs]

    The client's keys, its paired servers and its settings on disk: the secure
    file helpers (ownership and permission checks), the TOML settings, the
    TPM-sealed key, and [ClientConfigManager].  [serde_json], [toml] and the
    [tpm2] command-line tools are parameters ([Json], [Toml], [TpmTools]).

    The model is of production builds: the [dev-state-override] feature is off.
    The [tpm] feature is the parameter [feature_tpm]. *)

From stdpp Require Import base gmap strings list.
From S2P Require Import Prelude Os Text Crypto.

(** ** Errors and data *)

Inductive ConfigError :=
| CE_Io (e : io_error)
| CE_Serialization
| CE_InsufficientPermissions
| CE_InvalidConfig
| CE_Crypto (e : CryptoError).

Definition CONFIG_DIR : string := "/var/lib/tapauth".
Definition CLIENT_CONFIG_FILE : string := "client_config.json".
Definition PAIRED_SERVERS_FILE : string := "paired_servers.json".
Definition CLIENT_KEY_FILE : string := "client_key".
Definition CLIENT_SYMMETRIC_KEY_FILE : string := "client_symmetric_key".

Record ClientConfig := mkClientConfig { hostname : string }.

(** [paired_at] is a UTC instant, in nanoseconds. *)
Record PairedServer := mkPairedServer {
  ps_name : string;
  ps_public_key : string;
  allowed_users : list string;
  paired_at : Z;
}.

Definition is_user_allowed (s : PairedServer) (username : string) : bool :=
  existsb (λ u, bool_decide (u = username)) (allowed_users s).

(** What a phone keeps of a client. *)
Record PairedClient := mkPairedClient {
  pcl_hostname : string;
  pcl_public_key : string;
  pcl_csk : string;
  pcl_allowed_users : list string;
  pcl_paired_at : Z;
}.
Definition client_is_user_allowed (c : PairedClient) (username : string) : bool :=
  existsb (λ u, bool_decide (u = username)) (pcl_allowed_users c).

Inductive TpmPcrPolicy :=
| Standard
| Paranoid.

Definition pcr_list (p : TpmPcrPolicy) : string :=
  match p with
  | Standard => "7,14"
  | Paranoid => "0,2,7,14"
  end.

Record TapAuthConfig := mkTapAuthConfig {
  pam_operation_timeout_secs : Z;
  pam_gui_timeout_secs : Z;
  udp_port : Z;
  enable_network : bool;
  enable_ble : bool;
  use_tpm : bool;
  tpm_pcr_policy : TpmPcrPolicy;
}.

Definition DEFAULT_CONFIG_PATH : string := "/etc/tapauth/config.toml".
Definition DEFAULT_PAM_TIMEOUT_SECS : Z := 120.
Definition DEFAULT_PAM_GUI_TIMEOUT_SECS : Z := 30.
Definition DEFAULT_UDP_PORT : Z := 36692.
Definition DEFAULT_TRANSPORT_ENABLED : bool := true.

Definition default_tapauth_config : TapAuthConfig := {|
  pam_operation_timeout_secs := DEFAULT_PAM_TIMEOUT_SECS;
  pam_gui_timeout_secs := DEFAULT_PAM_GUI_TIMEOUT_SECS;
  udp_port := DEFAULT_UDP_PORT;
  enable_network := DEFAULT_TRANSPORT_ENABLED;
  enable_ble := DEFAULT_TRANSPORT_ENABLED;
  use_tpm := false;
  tpm_pcr_policy := Standard;
|}.

Definition operation_timeout (c : TapAuthConfig) : Z := pam_operation_timeout_secs c.

Record ClientConfigManager := mkManager { config_dir : string }.

(** ** Third-party code *)

(** [serde_json::to_vec_pretty] and [from_slice] of one type. *)
Class Json (A : Type) := {
  to_json : A → option bytes;
  from_json : bytes → option A;
}.
Class JsonLaws (A : Type) (J : Json A) : Prop :=
  json_roundtrip (a : A) : ∃ b, to_json a = Some b ∧ from_json b = Some a.
(** A JSON object whose end is missing does not parse. *)
Class JsonTruncated (A : Type) (J : Json A) : Prop :=
  json_truncated (a : A) b n : to_json a = Some b → (n < length b)%nat → from_json (take n b) = None.

(** [toml::to_string_pretty] and [toml::from_str] of the settings.  TOML integers
    are signed 64-bit, so only such timeouts are representable. *)
Class Toml := {
  to_toml : TapAuthConfig → option bytes;
  from_toml : bytes → option TapAuthConfig;
}.
Definition toml_ok (c : TapAuthConfig) : Prop :=
  0 ≤ pam_operation_timeout_secs c < 2 ^ 63 ∧
  0 ≤ pam_gui_timeout_secs c < 2 ^ 63 ∧ 0 ≤ udp_port c < 2 ^ 16.
Class TomlLaws (T : Toml) : Prop :=
  toml_roundtrip c : toml_ok c → ∃ b, to_toml c = Some b ∧ from_toml b = Some c.

(** The [tpm2] tools, run as subprocesses: each may change the file system, and
    [None] means it could not be spawned, [Some b] its exit status. *)
Class TpmTools := {
  tpm2_getrandom_help : World → option bool;
  (** PCR list, input file, public output, private output *)
  tpm2_create : string → string → string → string → World → World * option bool;
  (** public part, private part, context output *)
  tpm2_load : string → string → string → World → World * option bool;
  (** context, output file *)
  tpm2_unseal : string → string → World → World * option bool;
}.

(** Documented behaviour: the tools touch nothing but the files they are given
    as outputs. *)
Class TpmToolsLaws (T : TpmTools) : Prop := {
  tpm2_create_frame pcr i pub priv w p :
    p ≠ pub → p ≠ priv → w_fs (tpm2_create pcr i pub priv w).1 !! p = w_fs w !! p;
  tpm2_load_frame pub priv ctx w p :
    p ≠ ctx → w_fs (tpm2_load pub priv ctx w).1 !! p = w_fs w !! p;
  tpm2_unseal_frame ctx out w p :
    p ≠ out → w_fs (tpm2_unseal ctx out w).1 !! p = w_fs w !! p;
}.

(** ** Who we are *)

Definition geteuid {E} : M World E Z := gets w_euid.
Definition is_root {E} : M World E bool := gets (λ w, bool_decide (w_euid w = 0)).
Definition tapauthd_uid {E} : M World E (option Z) := gets w_tapauthd.

Definition is_euid_tapauthd {E} : M World E bool :=
  gets (λ w, match w_tapauthd w with
             | Some uid => bool_decide (w_euid w = uid)
             | None => false
             end).

Definition is_euid_privileged_for_writes {E} : M World E bool :=
  tapauthd ← is_euid_tapauthd;
  root ← is_root;
  mret (tapauthd || root).

Definition get_config_dir : string := CONFIG_DIR.

(** ** Secure files *)

(** [?] on an I/O result. *)
Definition io {A} (m : M World io_error A) : M World ConfigError A := mapM_err CE_Io m.

(** Only root changes ownership; without a [tapauthd] user nothing happens. *)
Definition chown_to_tapauthd (chown : string → Z → M World io_error ()) (path : string)
    : M World ConfigError () :=
  root ← is_root;
  if negb root then mret () else
  user ← tapauthd_uid;
  match user with
  | None => mret ()
  | Some uid => io (chown path uid)
  end.

Definition ensure_secure_directory (path : string) : M World ConfigError () :=
  privileged ← is_euid_privileged_for_writes;
  if negb privileged then throw CE_InsufficientPermissions else
  there ← dir_exists path;
  _ ← (if negb there then io (fs_create_dir path) else mret ());
  _ ← io (fs_dir_metadata path);
  _ ← io (fs_dir_set_mode path (perm 7 0 0));
  tapauthd ← is_euid_tapauthd;
  if negb tapauthd then chown_to_tapauthd fs_dir_chown path else mret ().

Definition write_secure_file (path : string) (data : bytes) : M World ConfigError () :=
  privileged ← is_euid_privileged_for_writes;
  if negb privileged then throw CE_InsufficientPermissions else
  _ ← io (fs_write path data);
  _ ← io (fs_metadata path);
  _ ← io (fs_set_mode path (perm 6 0 0));
  tapauthd ← is_euid_tapauthd;
  if negb tapauthd then chown_to_tapauthd fs_chown path else mret ().

Definition read_secure_file (path : string) : M World ConfigError bytes :=
  metadata ← io (fs_metadata path);
  let owner_uid := f_uid metadata in
  tap_uid ← tapauthd_uid;
  let owner_ok := bool_decide (owner_uid = 0)
                  || match tap_uid with Some u => bool_decide (owner_uid = u) | None => false end in
  if negb owner_ok then throw CE_InsufficientPermissions else
  let mode := Z.land (f_mode metadata) (perm 7 7 7) in
  if negb (bool_decide (mode = perm 6 0 0)) && negb (bool_decide (mode = perm 4 0 0))
  then throw CE_InsufficientPermissions
  else io (fs_read path).

(** ** Settings ([toml_config.rs]) *)

Section settings.
Context `{T : Toml}.

(** A file that is missing, unreadable, not UTF-8 or not valid TOML gives the
    defaults. *)
Definition load_from_path {E} (path : string) : M World E TapAuthConfig :=
  contents ← attempt (fs_read path);
  match contents with
  | Err _ => mret default_tapauth_config
  | Ok c =>
      match from_toml c with
      | Some config => mret config
      | None => mret default_tapauth_config
      end
  end.

Definition save_to_path (config : TapAuthConfig) (path : string) : M World io_error () :=
  _ ← (match parent path with Some d => fs_create_dir d | None => mret () end);
  contents ← lift (ok_or IoOther (to_toml config));
  _ ← fs_write path contents;
  _ ← fs_metadata path;
  fs_set_mode path (perm 6 4 4).

Definition tapauth_config_load {E} : M World E TapAuthConfig := load_from_path DEFAULT_CONFIG_PATH.
Definition tapauth_config_save (config : TapAuthConfig) : M World io_error () :=
  save_to_path config DEFAULT_CONFIG_PATH.
End settings.

(** ** The TPM-sealed key ([tpm.rs]) *)

Inductive TpmKeyError :=
| TPM_NotAvailable
| TPM_KeyNotFound
| TPM_InvalidKeyFormat
| TPM_OperationFailed
| TPM_Io (e : io_error)
| TPM_Crypto (e : CryptoError).

Section tpm.
Context `{C : CryptoOps} `{TT : TpmTools}.

Definition is_tpm_available {E} : M World E bool :=
  gets (λ w, match tpm2_getrandom_help w with Some b => b | None => false end).

(** A subprocess: not spawned or a failing status is an error. *)
Definition run_tool {E} (tool : World → World * option bool) : M World E (option bool) := λ w,
  let '(w', r) := tool w in (w', Ok r).
Definition tool_ok (r : option bool) : result TpmKeyError () :=
  match r with Some true => Ok () | _ => Err TPM_OperationFailed end.

Definition seal_data_with_tpm (data : bytes) (output_path pcrs : string) : M World TpmKeyError () :=
  let temp_input := with_extension output_path "tmp_in" in
  _ ← mapM_err TPM_Io (fs_write temp_input data);
  output ← run_tool (tpm2_create pcrs temp_input (with_extension output_path "pub")
                       (with_extension output_path "priv"));
  _ ← attempt (fs_remove temp_input);
  lift (tool_ok output).

Definition unseal_data_with_tpm (sealed_path : string) : M World TpmKeyError bytes :=
  let temp_output := with_extension sealed_path "tmp_out" in
  let ctx := with_extension temp_output "ctx" in
  output ← run_tool (tpm2_load (with_extension sealed_path "pub") (with_extension sealed_path "priv") ctx);
  _ ← lift (tool_ok output);
  output ← run_tool (tpm2_unseal ctx temp_output);
  match output with
  | None => throw TPM_OperationFailed
  | Some false => _ ← attempt (fs_remove ctx); throw TPM_OperationFailed
  | Some true =>
      data ← mapM_err TPM_Io (fs_read temp_output);
      _ ← attempt (fs_remove temp_output);
      _ ← attempt (fs_remove ctx);
      mret data
  end.

Definition load_sealed_keypair (sealed_key_path : string) : M World TpmKeyError Ed25519KeyPair :=
  available ← is_tpm_available;
  if negb available then throw TPM_NotAvailable else
  there ← path_exists sealed_key_path;
  if negb there then throw TPM_KeyNotFound else
  private_bytes ← unseal_data_with_tpm sealed_key_path;
  if negb (bool_decide (length private_bytes = 32%nat)) then throw TPM_InvalidKeyFormat else
  mret (from_signing_key_bytes private_bytes).

Definition generate_and_seal_keypair (sealed_key_path pcrs : string) : M World TpmKeyError Ed25519KeyPair :=
  available ← is_tpm_available;
  if negb available then throw TPM_NotAvailable else
  keypair ← mapM_err TPM_Crypto ed25519_generate;
  _ ← seal_data_with_tpm (signing_key_bytes keypair) sealed_key_path pcrs;
  mret keypair.

Definition delete_sealed_key (sealed_key_path : string) : M World TpmKeyError () :=
  _ ← attempt (E := io_error) (fs_remove (with_extension sealed_key_path "pub"));
  _ ← attempt (E := io_error) (fs_remove (with_extension sealed_key_path "priv"));
  mret ().
End tpm.

(** ** [ClientConfigManager] *)

Section manager.
Context `{C : CryptoOps} `{T : Toml} `{TT : TpmTools}.
Context `{JC : !Json ClientConfig} `{JS : !Json (gmap string PairedServer)}.
Context (feature_tpm : bool).

Implicit Types m : ClientConfigManager.

Definition new_manager : ClientConfigManager := mkManager get_config_dir.

Definition init m : M World ConfigError () := ensure_secure_directory (config_dir m).

(** [ClientConfig::default] *)
Definition default_client_config {E} : M World E ClientConfig :=
  gets (λ w, mkClientConfig (default "unknown"%string (w_hostname w))).

Definition load_config m : M World ConfigError ClientConfig :=
  let config_path := join (config_dir m) CLIENT_CONFIG_FILE in
  there ← path_exists config_path;
  if negb there then default_client_config else
  data ← read_secure_file config_path;
  lift (ok_or CE_Serialization (from_json data)).

Definition save_config m (config : ClientConfig) : M World ConfigError () :=
  _ ← init m;
  let config_path := join (config_dir m) CLIENT_CONFIG_FILE in
  data ← lift (ok_or CE_Serialization (to_json config));
  write_secure_file config_path data.

Definition tpm_key_path m : string := join (config_dir m) (CLIENT_KEY_FILE +:+ ".tpm").

(** The plaintext branch shared by builds without the feature and settings
    without [use_tpm]. *)
Definition load_keypair_file m : M World ConfigError Ed25519KeyPair :=
  let key_path := join (config_dir m) CLIENT_KEY_FILE in
  there ← path_exists key_path;
  if negb there then throw CE_InvalidConfig else
  data ← read_secure_file key_path;
  if negb (bool_decide (length data = 32%nat)) then throw CE_InvalidConfig else
  mret (from_signing_key_bytes data).

Definition load_keypair m : M World ConfigError Ed25519KeyPair :=
  if negb feature_tpm then load_keypair_file m else
  toml_config ← tapauth_config_load;
  if negb (use_tpm toml_config) then load_keypair_file m else
  there ← path_exists (with_extension (tpm_key_path m) "pub");
  if negb there then throw (CE_Io IoNotFound) else
  mapM_err (λ _, CE_Io IoOther) (load_sealed_keypair (tpm_key_path m)).

Definition save_keypair_file m (b : bytes) : M World ConfigError () :=
  write_secure_file (join (config_dir m) CLIENT_KEY_FILE) b.

Definition save_keypair m (keypair : Ed25519KeyPair) : M World ConfigError () :=
  _ ← init m;
  let b := signing_key_bytes keypair in
  if negb feature_tpm then save_keypair_file m b else
  toml_config ← tapauth_config_load;
  if negb (use_tpm toml_config) then save_keypair_file m b else
  available ← is_tpm_available;
  if negb available then throw (CE_Io IoNotFound) else
  mapM_err (λ _, CE_Io IoOther)
    (seal_data_with_tpm b (tpm_key_path m) (pcr_list (tpm_pcr_policy toml_config))).

Definition generate_and_save_keypair m : M World ConfigError Ed25519KeyPair :=
  keypair ← mapM_err CE_Crypto ed25519_generate;
  _ ← save_keypair m keypair;
  mret keypair.

Definition load_csk m : M World ConfigError ClientSymmetricKey :=
  let csk_path := join (config_dir m) CLIENT_SYMMETRIC_KEY_FILE in
  there ← path_exists csk_path;
  if negb there then throw CE_InvalidConfig else
  data ← read_secure_file csk_path;
  if negb (bool_decide (length data = 32%nat)) then throw CE_InvalidConfig else
  mret (mkCsk data).

Definition save_csk m (csk : ClientSymmetricKey) : M World ConfigError () :=
  _ ← init m;
  write_secure_file (join (config_dir m) CLIENT_SYMMETRIC_KEY_FILE) (csk_bytes csk).

Definition generate_and_save_csk m : M World ConfigError ClientSymmetricKey :=
  csk ← mapM_err CE_Crypto csk_generate;
  _ ← save_csk m csk;
  mret csk.

Definition has_csk_file {E} m : M World E bool :=
  path_exists (join (config_dir m) CLIENT_SYMMETRIC_KEY_FILE).

Definition clear_paired_servers m : M World ConfigError () :=
  let servers_path := join (config_dir m) PAIRED_SERVERS_FILE in
  there ← path_exists servers_path;
  if (there : bool) then io (fs_remove servers_path) else mret ().

(** A failure to clear the pairings is ignored ([let _ = ..]). *)
Definition rotate_csk m : M World ConfigError ClientSymmetricKey :=
  _ ← attempt (clear_paired_servers m);
  generate_and_save_csk m.

Definition load_paired_servers m : M World ConfigError (gmap string PairedServer) :=
  let servers_path := join (config_dir m) PAIRED_SERVERS_FILE in
  there ← path_exists servers_path;
  if negb there then mret ∅ else
  data ← read_secure_file servers_path;
  lift (ok_or CE_Serialization (from_json data)).

Definition save_paired_servers m (servers : gmap string PairedServer) : M World ConfigError () :=
  _ ← init m;
  let servers_path := join (config_dir m) PAIRED_SERVERS_FILE in
  data ← lift (ok_or CE_Serialization (to_json servers));
  write_secure_file servers_path data.

Definition add_paired_server m (id : string) (server : PairedServer) : M World ConfigError () :=
  servers ← load_paired_servers m;
  save_paired_servers m (<[id := server]> servers).

Definition remove_paired_server m (id : string) : M World ConfigError () :=
  servers ← load_paired_servers m;
  save_paired_servers m (delete id servers).

(** [server.allowed_users.retain(|u| u != username)] *)
Definition retain_other_users (username : string) (s : PairedServer) : PairedServer :=
  mkPairedServer (ps_name s) (ps_public_key s)
    (filter (λ u, u ≠ username) (allowed_users s)) (paired_at s).

Definition remove_user_from_pairing m (id username : string) : M World ConfigError bool :=
  servers ← load_paired_servers m;
  match servers !! id with
  | Some server =>
      let server' := retain_other_users username server in
      if bool_decide (allowed_users server' = [])
      then _ ← save_paired_servers m (delete id servers); mret true
      else _ ← save_paired_servers m (<[id := server']> servers); mret false
  | None => mret true
  end.

Definition remove_if_exists (p : string) : M World ConfigError () :=
  there ← path_exists p;
  if (there : bool) then io (fs_remove p) else mret ().

(** Compiled only with the [tpm] feature. *)
Definition recover_from_tpm_failure m : M World ConfigError () :=
  _ ← remove_if_exists (with_extension (tpm_key_path m) "pub");
  _ ← remove_if_exists (with_extension (tpm_key_path m) "priv");
  _ ← remove_if_exists (join (config_dir m) CLIENT_KEY_FILE);
  _ ← clear_paired_servers m;
  _ ← generate_and_save_keypair m;
  _ ← rotate_csk m;
  mret ().
End manager.
