(* ===== verification/ConfigFacts.v ===== *)
(** * Lemmas about the persistent state

    [store_ready] is the situation of the daemon at run time: the [tapauthd]
    user exists, we run as it or as root, and what is already in the state
    directory belongs to us.  In it every operation of the store runs to the end
    and its effect is an equation.  Without it (and under any faults) what a
    successful run establishes is given by the [_Ok] lemmas. *)

From stdpp Require Import base gmap strings list.
From S2P Require Import Prelude Os Text Crypto Config.

(** A file [read_secure_file] accepts. *)
Definition secure_file (w : World) (f : file) : Prop :=
  (f_uid f = 0 ∨ w_tapauthd w = Some (f_uid f)) ∧
  (Z.land (f_mode f) (perm 7 7 7) = perm 6 0 0 ∨ Z.land (f_mode f) (perm 7 7 7) = perm 4 0 0).

#[global] Instance secure_file_dec w f : Decision (secure_file w f).
Proof. unfold secure_file. apply _. Defined.

(** Who may write the state. *)
Definition privileged (w : World) : Prop := w_tapauthd w = Some (w_euid w) ∨ w_euid w = 0.

Record store_ready (m : ClientConfigManager) (uid : Z) (w : World) : Prop := {
  sr_quiet : w_faults w = [];
  sr_user : w_tapauthd w = Some uid;
  sr_uid : uid ≠ 0;
  sr_euid : w_euid w = 0 ∨ w_euid w = uid;
  sr_files n f : w_fs w !! join (config_dir m) n = Some f → w_euid w = 0 ∨ f_uid f = uid;
  sr_dir md u : w_dirs w !! config_dir m = Some (md, u) → w_euid w = 0 ∨ u = uid;
}.

(** ** Reading *)

Lemma io_Ok {A} (k : M World io_error A) w w' a : io k w = (w', Ok a) ↔ k w = (w', Ok a).
Proof. unfold io, mapM_err. destruct (k w) as [? [?|?]]; naive_solver. Qed.

Lemma io_run {A} (k : M World io_error A) w w' a : k w = (w', Ok a) → io k w = (w', Ok a).
Proof. by rewrite io_Ok. Qed.

Ltac inv_io := repeat match goal with H : io _ _ = (_, Ok _) |- _ => apply io_Ok in H end.

Lemma fs_metadata_Ok p w w' f :
  fs_metadata p w = (w', Ok f) → w_fs w !! p = Some f ∧ ∃ l, w' = set_faults l w.
Proof.
  intros H. apply fs_call_Ok in H as [l H]. simpl in H.
  destruct (w_fs w !! p) eqn:E; naive_solver.
Qed.

Lemma fs_read_Ok p w w' d :
  fs_read p w = (w', Ok d) → f_data <$> w_fs w !! p = Some d ∧ ∃ l, w' = set_faults l w.
Proof.
  intros H. apply fs_call_Ok in H as [l H]. simpl in H.
  destruct (w_fs w !! p) eqn:E; naive_solver.
Qed.

Lemma owner_ok_spec (t : option Z) u :
  bool_decide (u = 0) || match t with Some u' => bool_decide (u = u') | None => false end = true
  ↔ u = 0 ∨ t = Some u.
Proof.
  rewrite orb_true_iff, bool_decide_eq_true.
  destruct t; rewrite ?bool_decide_eq_true; naive_solver.
Qed.

Lemma mode_ok_spec md :
  negb (bool_decide (md = perm 6 0 0)) && negb (bool_decide (md = perm 4 0 0)) = false
  ↔ md = perm 6 0 0 ∨ md = perm 4 0 0.
Proof. by rewrite andb_false_iff, !negb_false_iff, !bool_decide_eq_true. Qed.

Lemma read_secure_file_Ok p w w' d :
  read_secure_file p w = (w', Ok d) →
  ∃ f, w_fs w !! p = Some f ∧ f_data f = d ∧ secure_file w f ∧ ∃ l, w' = set_faults l w.
Proof.
  unfold read_secure_file. intros H. inv_bind. rewrite io_Ok in Hrun.
  apply fs_metadata_Ok in Hrun as [Hf [l ->]].
  unfold tapauthd_uid, gets in Hrun0. simplify_eq/=. destruct (negb (_ || _)) eqn:Ho; [done|].
  destruct (_ && _) eqn:Hm; [done|]. rewrite io_Ok in H. apply fs_read_Ok in H as [Hd [l' ->]].
  simpl in Hd. rewrite Hf in Hd. simplify_eq/=. exists a.
  apply negb_false_iff, owner_ok_spec in Ho. apply mode_ok_spec in Hm.
  split; [done|]. split; [done|]. split; [by split|by exists l'].
Qed.

Lemma read_secure_file_quiet p w f :
  w_faults w = [] → w_fs w !! p = Some f →
  read_secure_file p w
  = (w, if decide (secure_file w f) then Ok (f_data f) else Err CE_InsufficientPermissions).
Proof.
  intros Hq Hf. unfold read_secure_file, tapauthd_uid, fs_metadata, fs_read, io.
  munfold. rewrite !fs_call_quiet by done. rewrite Hf. simpl. case_decide as Hs.
  - destruct Hs as [Ho%owner_ok_spec Hm%mode_ok_spec]. rewrite Ho. simpl. rewrite Hm.
    rewrite fs_call_quiet by done. by rewrite Hf.
  - destruct (_ || _) eqn:Ho; [|done]. simpl. destruct (_ && _) eqn:Hm; [done|].
    destruct Hs. split; [by apply owner_ok_spec|by apply mode_ok_spec].
Qed.

(** Reading changes nothing. *)
Lemma read_secure_file_state p w : w_faults w = [] → ∃ r, read_secure_file p w = (w, r).
Proof.
  intros Hq. destruct (w_fs w !! p) as [f|] eqn:Hf.
  - eexists. by apply read_secure_file_quiet.
  - exists (Err (CE_Io IoNotFound)). unfold read_secure_file, io, fs_metadata. munfold.
    rewrite fs_call_quiet by done. by rewrite Hf.
Qed.

(** ** Writing *)

Lemma is_euid_tapauthd_run {E} w :
  is_euid_tapauthd (E := E) w = (w, Ok (bool_decide (w_tapauthd w = Some (w_euid w)))).
Proof.
  unfold is_euid_tapauthd, gets. f_equal. f_equal. case_match; [|by rewrite bool_decide_false].
  apply bool_decide_ext. naive_solver.
Qed.

Lemma privileged_run {E} w :
  is_euid_privileged_for_writes (E := E) w
  = (w, Ok (bool_decide (w_tapauthd w = Some (w_euid w)) || bool_decide (w_euid w = 0))).
Proof.
  unfold is_euid_privileged_for_writes. rewrite bind_run, is_euid_tapauthd_run. done.
Qed.

(** The file a successful secure write leaves at its path. *)
Definition written (w : World) (d : bytes) (f : file) : Prop :=
  f_data f = d ∧ f_mode f = perm 6 0 0 ∧
  (w_tapauthd w ≠ Some (w_euid w) → w_euid w = 0 → ∀ u, w_tapauthd w = Some u → f_uid f = u) ∧
  (w_euid w ≠ 0 → w_tapauthd w = Some (f_uid f)).

Lemma fs_set_mode_Ok p md w w' x :
  fs_set_mode p md w = (w', Ok x) →
  ∃ f l, w_fs w !! p = Some f ∧ (w_euid w = 0 ∨ w_euid w = f_uid f) ∧
    w' = set_fs (<[p := mkFile (f_data f) md (f_uid f)]> (w_fs w)) (set_faults l w).
Proof.
  intros H. apply fs_call_Ok in H as [l H]. simpl in H. unfold may_chmod in H.
  case_match eqn:E; [|done]. case_match eqn:Ec; [done|]. simplify_eq.
  rewrite negb_false_iff, orb_true_iff, !bool_decide_eq_true in Ec. naive_solver.
Qed.

Lemma fs_chown_Ok p u w w' x :
  fs_chown p u w = (w', Ok x) →
  ∃ f l, w_fs w !! p = Some f ∧
    w' = set_fs (<[p := mkFile (f_data f) (f_mode f) u]> (w_fs w)) (set_faults l w).
Proof.
  intros H. apply fs_call_Ok in H as [l H]. simpl in H.
  case_match eqn:E; [|done]. case_match eqn:Ec; [done|]. simplify_eq. eauto.
Qed.

Lemma chown_to_tapauthd_Ok p w w' x f :
  chown_to_tapauthd fs_chown p w = (w', Ok x) → w_fs w !! p = Some f →
  ∃ f' l, w' = set_fs (<[p := f']> (w_fs w)) (set_faults l w) ∧
    f_data f' = f_data f ∧ f_mode f' = f_mode f ∧
    (w_euid w = 0 → ∀ u, w_tapauthd w = Some u → f_uid f' = u) ∧
    (w_euid w ≠ 0 → f_uid f' = f_uid f).
Proof.
  unfold chown_to_tapauthd, is_root, tapauthd_uid. munfold. intros H Hf.
  assert (Hid : ∃ f' l, w = set_fs (<[p := f']> (w_fs w)) (set_faults l w) ∧ f' = f).
  { exists f, (w_faults w). split; [|done]. rewrite insert_id by done. by destruct w. }
  case_match eqn:E; [|destruct (w_tapauthd w) as [u|] eqn:Et].
  - rewrite negb_true_iff, bool_decide_eq_false in E. simplify_eq.
    destruct Hid as (f' & l & Hw & ->). exists f, l. naive_solver.
  - rewrite io_Ok in H. apply fs_chown_Ok in H as (f1 & l & Hf1 & ->). simplify_eq.
    rewrite negb_false_iff, bool_decide_eq_true in E.
    eexists _, l. split; [done|]. naive_solver.
  - simplify_eq. destruct Hid as (f' & l & Hw & ->). exists f, l.
    rewrite negb_false_iff, bool_decide_eq_true in E. naive_solver.
Qed.

Lemma write_secure_file_Ok p d w w' x :
  write_secure_file p d w = (w', Ok x) →
  privileged w ∧ ∃ f l, w' = set_fs (<[p := f]> (w_fs w)) (set_faults l w) ∧ written w d f.
Proof.
  unfold write_secure_file. rewrite bind_run, privileged_run. intros H.
  destruct (negb _) eqn:Hp; [done|]. inv_bind. inv_io.
  apply fs_write_Ok in Hrun as [l ->]. apply fs_metadata_Ok in Hrun0 as [_ [l0 ->]].
  apply fs_set_mode_Ok in Hrun1 as (f & l1 & Hf & Hown & ->).
  unfold put_file in Hf; simpl in Hf. rewrite lookup_insert_eq in Hf.
  rewrite is_euid_tapauthd_run in Hrun2. injection Hrun2 as <- <-. simpl in *.
  apply negb_false_iff, orb_true_iff in Hp. rewrite !bool_decide_eq_true in Hp.
  split; [done|]. assert (Hd : f_data f = d) by (by destruct (w_fs w !! p); simplify_eq/=).
  case_bool_decide as Ht; simpl in H.
  - munfold. simplify_eq. eexists _, l1. rewrite insert_insert_eq. split; [done|].
    clear Hf. unfold written. simpl. naive_solver congruence.
  - eapply chown_to_tapauthd_Ok in H as (f' & l' & -> & Hd' & Hm & H0 & _); simpl in *;
      [|apply lookup_insert_eq].
    exists f', l'. rewrite !insert_insert_eq. split; [done|]. clear Hf. unfold written. naive_solver congruence.
Qed.

Lemma dir_chown_fs p w w' x :
  chown_to_tapauthd fs_dir_chown p w = (w', Ok x) →
  ∃ d l, w' = set_dirs d (set_faults l w).
Proof.
  unfold chown_to_tapauthd, is_root, tapauthd_uid. munfold. intros H.
  assert (Hid : ∃ d l, w = set_dirs d (set_faults l w)).
  { exists (w_dirs w), (w_faults w). by destruct w. }
  case_match; [by simplify_eq|]. case_match; [|by simplify_eq].
  rewrite io_Ok in H. apply fs_call_Ok in H as [l H]. simpl in H.
  repeat case_match; simplify_eq. eauto.
Qed.

Lemma ensure_secure_directory_Ok p w w' x :
  ensure_secure_directory p w = (w', Ok x) → privileged w ∧ ∃ d l, w' = set_dirs d (set_faults l w).
Proof.
  unfold ensure_secure_directory. rewrite bind_run, privileged_run. intros H.
  destruct (negb _) eqn:Hp; [done|]. apply negb_false_iff, orb_true_iff in Hp.
  rewrite !bool_decide_eq_true in Hp. split; [done|]. inv_bind.
  inv_io. rewrite is_euid_tapauthd_run in Hrun3. simplify_eq.
  assert (∃ l, s = set_faults l w) as [l ->].
  { unfold dir_exists in Hrun. destruct (fs_fault_run w) as (f & l & E). rewrite E in Hrun.
    exists l. by destruct f; simplify_eq. }
  assert (∃ d l, s0 = set_dirs d (set_faults l w)) as (d0 & l0 & ->).
  { destruct (negb a); [|munfold; simplify_eq; by exists (w_dirs w), l; destruct w].
    rewrite io_Ok in Hrun0. apply fs_call_Ok in Hrun0 as [l' Hr]. simpl in Hr.
    destruct (w_dirs w !! p); simplify_eq; [by exists (w_dirs w), l'; destruct w|by eauto]. }
  apply fs_call_Ok in Hrun1 as [l1 H1]. simpl in H1. injection H1 as <- H1.
  apply fs_call_Ok in Hrun2 as [l2 H2]. simpl in H2.
  destruct (d0 !! p) as [[??]|]; [|done]. destruct (negb (may_chmod _ _)); [done|].
  simplify_eq/=. destruct (negb (bool_decide _)) in H; simpl in H.
  - apply dir_chown_fs in H as (d & l' & ->). eauto.
  - munfold. simplify_eq. eauto.
Qed.

(** ** Runs of a ready store *)

Lemma ready_privileged {E} m uid w :
  store_ready m uid w → is_euid_privileged_for_writes (E := E) w = (w, Ok true).
Proof.
  intros [_ Hu _ He _ _]. rewrite privileged_run, Hu. f_equal. f_equal.
  rewrite orb_true_iff, !bool_decide_eq_true. naive_solver.
Qed.

Lemma chmod_ready uid w u : w_euid w = 0 ∨ w_euid w = uid → w_euid w = 0 ∨ u = uid → may_chmod w u = true.
Proof. unfold may_chmod. rewrite orb_true_iff, !bool_decide_eq_true. naive_solver. Qed.

Lemma set_mode_quiet p md w f :
  w_faults w = [] → w_fs w !! p = Some f → may_chmod w (f_uid f) = true →
  fs_set_mode p md w = (set_fs (<[p := mkFile (f_data f) md (f_uid f)]> (w_fs w)) w, Ok ()).
Proof. intros Hq Hf Hc. unfold fs_set_mode. rewrite fs_call_quiet by done. by rewrite Hf, Hc. Qed.

(** The last step of both helpers: ownership ends up with [tapauthd]. *)
Lemma own_file_ready uid p w f :
  w_faults w = [] → w_tapauthd w = Some uid → uid ≠ 0 →
  w_fs w !! p = Some f → (w_euid w = 0 ∨ w_euid w = uid ∧ f_uid f = uid) →
  (tapauthd ← is_euid_tapauthd; if negb tapauthd then chown_to_tapauthd fs_chown p else mret ()) w
  = (set_fs (<[p := mkFile (f_data f) (f_mode f) uid]> (w_fs w)) w, Ok ()).
Proof.
  intros Hq Hu Hz Hf He. rewrite bind_run, is_euid_tapauthd_run, Hu.
  destruct He as [He|[He Hown]].
  - rewrite bool_decide_false by (rewrite He; naive_solver). simpl.
    unfold chown_to_tapauthd, is_root, tapauthd_uid, io, fs_chown. munfold.
    rewrite bool_decide_true by done. simpl. rewrite Hu, fs_call_quiet by done.
    rewrite Hf. unfold may_chown. by rewrite bool_decide_true.
  - rewrite bool_decide_true by congruence. simpl. munfold. f_equal.
    rewrite insert_id; [by destruct w|]. rewrite Hf. destruct f; by simplify_eq/=.
Qed.

Lemma write_secure_file_ready m uid w n d :
  store_ready m uid w →
  write_secure_file (join (config_dir m) n) d w
  = (set_fs (<[join (config_dir m) n := mkFile d (perm 6 0 0) uid]> (w_fs w)) w, Ok ()).
Proof.
  intros Hr. unfold write_secure_file. erewrite bind_run, ready_privileged by done. simpl.
  destruct Hr as [Hq Hu Hz He Hf _]. specialize (Hf n).
  set (p := join (config_dir m) n) in *. rewrite bind_run. unfold io at 1, mapM_err.
  rewrite fs_write_quiet by done. simpl. rewrite bind_run. unfold io at 1, mapM_err, fs_metadata.
  rewrite fs_call_quiet by done. unfold put_file. simpl. rewrite lookup_insert_eq. simpl.
  set (f := match w_fs w !! p with Some _ => _ | None => _ end).
  assert (Hown : w_euid w = 0 ∨ f_uid f = uid).
  { unfold f. destruct (w_fs w !! p) as [g|]; simpl; [by apply Hf|naive_solver]. }
  rewrite bind_run. unfold io at 1, mapM_err.
  rewrite (set_mode_quiet _ _ _ f); simpl;
    [|done|by rewrite lookup_insert_eq|by apply (chmod_ready uid)].
  rewrite (own_file_ready uid _ _ (mkFile (f_data f) (perm 6 0 0) (f_uid f))); simpl;
    [|done|done|done|by rewrite lookup_insert_eq|naive_solver].
  rewrite !insert_insert_eq. autorewrite with tapauth. unfold f. by destruct (w_fs w !! p).
Qed.

Lemma init_ready m uid w :
  store_ready m uid w →
  init m w = (set_dirs (<[config_dir m := (perm 7 0 0, uid)]> (w_dirs w)) w, Ok ()).
Proof.
  intros Hr. unfold init, ensure_secure_directory. erewrite bind_run, ready_privileged by done.
  destruct Hr as [Hq Hu Hz He _ Hd]. simpl. set (p := config_dir m) in *.
  rewrite bind_run, dir_exists_quiet by done.
  assert (∃ md u, (w_dirs w !! p = None → u = w_euid w) ∧ (w_euid w = 0 ∨ u = uid) ∧
    (if negb (bool_decide (is_Some (w_dirs w !! p))) then io (fs_create_dir p) else mret ()) w
    = (set_dirs (<[p := (md, u)]> (w_dirs w)) w, Ok ())) as (md & u & _ & Hown & Hcreate).
  { destruct (w_dirs w !! p) as [[md u]|] eqn:E.
    - exists md, u. rewrite bool_decide_true by done. simpl. split; [done|]. split; [by eapply Hd|].
      munfold. rewrite insert_id by done. by destruct w.
    - exists default_dir_mode, (w_euid w). rewrite bool_decide_false by (by inversion 1). simpl.
      split; [done|]. split; [naive_solver|]. unfold io, mapM_err, fs_create_dir.
      rewrite fs_call_quiet by done. by rewrite E. }
  rewrite bind_run, Hcreate. simpl.
  rewrite bind_run. unfold io at 1, mapM_err, fs_dir_metadata. rewrite fs_call_quiet by done.
  simpl. rewrite lookup_insert_eq. simpl.
  rewrite bind_run. unfold io at 1, mapM_err, fs_dir_set_mode. rewrite fs_call_quiet by done.
  simpl. rewrite lookup_insert_eq. erewrite (chmod_ready uid) by naive_solver. simpl.
  rewrite bind_run, is_euid_tapauthd_run. simpl. rewrite Hu, insert_insert_eq.
  autorewrite with tapauth. destruct (decide (w_euid w = 0)) as [E|E].
  - rewrite bool_decide_false by naive_solver. simpl.
    unfold chown_to_tapauthd, is_root, tapauthd_uid, io, fs_dir_chown. munfold.
    rewrite bool_decide_true by done. simpl. rewrite Hu, fs_call_quiet by done. simpl.
    rewrite lookup_insert_eq. unfold may_chown. simpl. rewrite bool_decide_true by done. simpl.
    by rewrite insert_insert_eq.
  - rewrite bool_decide_true by naive_solver. simpl. munfold. naive_solver.
Qed.

(** ** Saving and loading *)

(** The world after [init] and a secure write of one state file. *)
Definition saved (m : ClientConfigManager) (uid : Z) (n : string) (d : bytes) (w : World) : World :=
  set_fs (<[join (config_dir m) n := mkFile d (perm 6 0 0) uid]> (w_fs w))
    (set_dirs (<[config_dir m := (perm 7 0 0, uid)]> (w_dirs w)) w).

Lemma ready_dirs m uid w :
  store_ready m uid w →
  store_ready m uid (set_dirs (<[config_dir m := (perm 7 0 0, uid)]> (w_dirs w)) w).
Proof.
  intros [Hq Hu Hz He Hf Hd]. split; simpl; try done. intros md u.
  rewrite lookup_insert_eq. naive_solver.
Qed.

Lemma ready_insert m uid w p d md :
  store_ready m uid w → store_ready m uid (set_fs (<[p := mkFile d md uid]> (w_fs w)) w).
Proof.
  intros [Hq Hu Hz He Hf Hd]. split; simpl; try done. intros n f.
  rewrite lookup_insert_Some. intros [[_ <-]|[_ H]]; [by right|by eapply Hf].
Qed.

Lemma ready_delete m uid w p :
  store_ready m uid w → store_ready m uid (set_fs (delete p (w_fs w)) w).
Proof.
  intros [Hq Hu Hz He Hf Hd]. split; simpl; try done. intros n f.
  rewrite lookup_delete_Some. intros [_ H]. by eapply Hf.
Qed.

Lemma ready_entropy m uid w e : store_ready m uid w → store_ready m uid (set_entropy e w).
Proof. by intros [Hq Hu Hz He Hf Hd]. Qed.

Lemma ready_saved m uid w n d : store_ready m uid w → store_ready m uid (saved m uid n d w).
Proof. intros H. apply (ready_insert _ _ (set_dirs _ _)). by apply ready_dirs. Qed.

#[export] Hint Resolve ready_dirs ready_insert ready_delete ready_entropy ready_saved : tapauth.

Lemma save_run m uid w n d :
  store_ready m uid w →
  (_ ← init m; write_secure_file (join (config_dir m) n) d) w = (saved m uid n d w, Ok ()).
Proof.
  intros Hr. erewrite bind_run, init_ready by done. simpl.
  by erewrite write_secure_file_ready by eauto with tapauth.
Qed.

(** What a ready store reads back from a file written by it. *)
Lemma secure_own w uid d : w_tapauthd w = Some uid → secure_file w (mkFile d (perm 6 0 0) uid).
Proof. intros H. split; [by right|by left]. Qed.

Lemma read_own m uid w n d :
  store_ready m uid w →
  w_fs w !! join (config_dir m) n = Some (mkFile d (perm 6 0 0) uid) →
  path_exists (E := ConfigError) (join (config_dir m) n) w = (w, Ok true) ∧
  read_secure_file (join (config_dir m) n) w = (w, Ok d).
Proof.
  intros [Hq Hu _ _ _ _] Hf. rewrite path_exists_quiet, Hf by done. split; [done|].
  erewrite read_secure_file_quiet by done. by rewrite decide_True by by apply secure_own.
Qed.

Lemma join_inj d a b : join d a = join d b ↔ a = b.
Proof.
  split; [|by intros ->]. unfold join. intros H. induction d as [|c d IH]; simpl in H; by simplify_eq.
Qed.

Lemma saved_lookup m uid n d w : w_fs (saved m uid n d w) !! join (config_dir m) n = Some (mkFile d (perm 6 0 0) uid).
Proof. apply lookup_insert_eq. Qed.

Lemma saved_lookup_ne m uid n d w n' :
  n ≠ n' → w_fs (saved m uid n d w) !! join (config_dir m) n' = w_fs w !! join (config_dir m) n'.
Proof. intros H. apply lookup_insert_ne. by rewrite join_inj. Qed.

Section manager.
Context `{C : CryptoOps} `{T : Toml} `{TT : TpmTools}.
Context `{JC : !Json ClientConfig} `{JS : !Json (gmap string PairedServer)}.
Context `{!JsonLaws (gmap string PairedServer) JS}.

(** The settings in force: the parsed file, or the defaults. *)
Definition settings (w : World) : TapAuthConfig :=
  default default_tapauth_config (w_fs w !! DEFAULT_CONFIG_PATH ≫= λ f, from_toml (f_data f)).

(** Keys are sealed by the TPM: it is compiled in and switched on. *)
Definition tpm_mode (feature_tpm : bool) (w : World) : bool := feature_tpm && use_tpm (settings w).

Lemma tapauth_config_load_quiet {E} w :
  w_faults w = [] → tapauth_config_load (E := E) w = (w, Ok (settings w)).
Proof.
  intros Hq. unfold tapauth_config_load, load_from_path, fs_read, settings. munfold.
  rewrite fs_call_quiet by done. destruct (w_fs w !! _) as [f|]; simpl; [|done].
  by destruct (from_toml _).
Qed.

Lemma settings_fs w w' :
  w_fs w !! DEFAULT_CONFIG_PATH = w_fs w' !! DEFAULT_CONFIG_PATH → settings w = settings w'.
Proof. unfold settings. by intros ->. Qed.

Lemma state_not_settings n : join (config_dir new_manager) n ≠ DEFAULT_CONFIG_PATH.
Proof. by intros ?. Qed.

Lemma settings_saved uid n d w : settings (saved new_manager uid n d w) = settings w.
Proof. apply settings_fs. apply lookup_insert_ne, state_not_settings. Qed.

Lemma save_keypair_run ft m uid w kp :
  store_ready m uid w → tpm_mode ft w = false →
  save_keypair ft m kp w = (saved m uid CLIENT_KEY_FILE (signing_key_bytes kp) w, Ok ()).
Proof.
  intros Hr Ht. erewrite <-save_run by done. unfold save_keypair.
  rewrite bind_run. symmetry. rewrite bind_run. symmetry. erewrite init_ready by done.
  destruct ft; [|done]. simpl. rewrite bind_run, tapauth_config_load_quiet by apply Hr.
  unfold tpm_mode, settings in *. simpl in *. by rewrite Ht.
Qed.

Lemma load_keypair_run ft m uid w d :
  store_ready m uid w → tpm_mode ft w = false → length d = 32%nat →
  w_fs w !! join (config_dir m) CLIENT_KEY_FILE = Some (mkFile d (perm 6 0 0) uid) →
  load_keypair ft m w = (w, Ok (from_signing_key_bytes d)).
Proof.
  intros Hr Ht Hl Hf. destruct (read_own _ _ _ _ _ Hr Hf) as [He Hd].
  assert (Hfile : load_keypair_file m w = (w, Ok (from_signing_key_bytes d))).
  { unfold load_keypair_file. rewrite bind_run, He. simpl. rewrite bind_run, Hd.
    by rewrite bool_decide_true. }
  unfold load_keypair. destruct ft; [|done]. simpl.
  rewrite bind_run, tapauth_config_load_quiet by apply Hr.
  unfold tpm_mode in Ht. simpl in Ht. by rewrite Ht.
Qed.

Lemma load_keypair_state ft m w :
  w_faults w = [] → tpm_mode ft w = false → ∃ r, load_keypair ft m w = (w, r).
Proof.
  intros Hq Ht. assert (Hfile : ∃ r, load_keypair_file m w = (w, r)).
  { unfold load_keypair_file. rewrite bind_run, path_exists_quiet by done.
    destruct (negb _); [by eexists|]. rewrite bind_run.
    destruct (read_secure_file_state (join (config_dir m) CLIENT_KEY_FILE) w Hq) as [[d|e] ->]; [|by eexists].
    destruct (negb _); by eexists. }
  unfold load_keypair. destruct ft; [|done]. simpl.
  rewrite bind_run, tapauth_config_load_quiet by done.
  unfold tpm_mode in Ht. simpl in Ht. by rewrite Ht.
Qed.

Lemma load_config_state m w : w_faults w = [] → ∃ r, load_config m w = (w, r).
Proof.
  intros Hq. unfold load_config. rewrite bind_run, path_exists_quiet by done.
  destruct (negb _); [by eexists|]. rewrite bind_run.
  destruct (read_secure_file_state (join (config_dir m) CLIENT_CONFIG_FILE) w Hq) as [[d|e] ->]; by eexists.
Qed.

Lemma generate_save_keypair_run ft m uid w :
  store_ready m uid w → tpm_mode ft w = false → (32 ≤ length (w_entropy w))%nat →
  generate_and_save_keypair ft m w
  = (saved m uid CLIENT_KEY_FILE (take 32 (w_entropy w)) (set_entropy (drop 32 (w_entropy w)) w),
     Ok (from_signing_key_bytes (take 32 (w_entropy w)))).
Proof.
  intros Hr Ht He. unfold generate_and_save_keypair, ed25519_generate. rewrite bind_run.
  unfold mapM_err at 1. rewrite bind_run. unfold mapM_err, getrandom_fill.
  rewrite decide_True by done. simpl. rewrite bind_run.
  erewrite save_keypair_run; [done|by auto with tapauth|done].
Qed.

Lemma save_csk_run m uid w csk :
  store_ready m uid w →
  save_csk m csk w = (saved m uid CLIENT_SYMMETRIC_KEY_FILE (csk_bytes csk) w, Ok ()).
Proof. apply save_run. Qed.

Lemma load_csk_run m uid w d :
  store_ready m uid w → length d = 32%nat →
  w_fs w !! join (config_dir m) CLIENT_SYMMETRIC_KEY_FILE = Some (mkFile d (perm 6 0 0) uid) →
  load_csk m w = (w, Ok (mkCsk d)).
Proof.
  intros Hr Hl Hf. destruct (read_own _ _ _ _ _ Hr Hf) as [He Hd].
  unfold load_csk. rewrite bind_run, He. simpl. rewrite bind_run, Hd.
  by rewrite bool_decide_true.
Qed.

Lemma save_paired_servers_run m uid w s :
  store_ready m uid w →
  ∃ b, from_json b = Some s ∧
    save_paired_servers m s w = (saved m uid PAIRED_SERVERS_FILE b w, Ok ()).
Proof.
  intros Hr. destruct (json_roundtrip s) as (b & Hb & Hs). exists b. split; [done|].
  erewrite <-save_run by done. unfold save_paired_servers. rewrite !bind_run.
  destruct (init m w) as [w1 [[]|e]]; [|done]. munfold. by rewrite Hb.
Qed.

Lemma load_paired_servers_run m uid w b :
  store_ready m uid w →
  w_fs w !! join (config_dir m) PAIRED_SERVERS_FILE = Some (mkFile b (perm 6 0 0) uid) →
  load_paired_servers m w = (w, ok_or CE_Serialization (from_json b)).
Proof.
  intros Hr Hf. destruct (read_own _ _ _ _ _ Hr Hf) as [He Hd].
  unfold load_paired_servers. rewrite bind_run, He. simpl. by rewrite bind_run, Hd.
Qed.

Lemma load_paired_servers_absent m w :
  w_faults w = [] → w_fs w !! join (config_dir m) PAIRED_SERVERS_FILE = None →
  load_paired_servers m w = (w, Ok ∅).
Proof.
  intros Hq Hf. unfold load_paired_servers. rewrite bind_run, path_exists_quiet by done.
  rewrite Hf, bool_decide_false by by inversion 1. done.
Qed.

(** Loading looks at one file and at the name service only. *)
Lemma load_paired_servers_same m w w' r :
  w_faults w = [] → w_faults w' = [] → w_tapauthd w' = w_tapauthd w →
  w_fs w' !! join (config_dir m) PAIRED_SERVERS_FILE = w_fs w !! join (config_dir m) PAIRED_SERVERS_FILE →
  load_paired_servers m w = (w, r) → load_paired_servers m w' = (w', r).
Proof.
  intros Hq Hq' Ht Hf. unfold load_paired_servers. rewrite !bind_run, !path_exists_quiet, Hf by done.
  destruct (w_fs w !! _) as [f|] eqn:E; [|by rewrite bool_decide_false by (by inversion 1); munfold; naive_solver].
  rewrite bool_decide_true by done. simpl. rewrite !bind_run.
  rewrite (read_secure_file_quiet _ w f), (read_secure_file_quiet _ w' f) by congruence.
  assert (Hs : secure_file w' f ↔ secure_file w f) by (unfold secure_file; by rewrite Ht).
  case_decide as H1; case_decide as H2; munfold; naive_solver.
Qed.

(** Saving a table of pairings makes it the one that is loaded. *)
Lemma save_load_servers m uid w s :
  store_ready m uid w →
  ∃ w', save_paired_servers m s w = (w', Ok ()) ∧ store_ready m uid w' ∧
    load_paired_servers m w' = (w', Ok s).
Proof.
  intros Hr. destruct (save_paired_servers_run m uid w s Hr) as (b & Hb & Hs).
  eexists. split; [done|]. split; [by auto with tapauth|].
  erewrite load_paired_servers_run; [|by auto with tapauth|apply saved_lookup]. by rewrite Hb.
Qed.

(** Sealing changes no file but the two parts and its temporary input. *)
Lemma seal_data_frame `{!TpmToolsLaws TT} d out pcrs w w' r p :
  seal_data_with_tpm d out pcrs w = (w', r) →
  p ≠ with_extension out "tmp_in" → p ≠ with_extension out "pub" → p ≠ with_extension out "priv" →
  w_fs w' !! p = w_fs w !! p.
Proof.
  unfold seal_data_with_tpm. intros H Hi Hpub Hpriv. rewrite bind_run in H. unfold mapM_err at 1 in H.
  destruct (fs_write _ _ w) as [w1 r1] eqn:E1.
  assert (Hw1 : w_fs w1 !! p = w_fs w !! p).
  { unfold fs_write in E1. destruct (fs_fault_run w) as (f & l & E). rewrite E in E1.
    destruct f; simplify_eq; [|done|]; by apply lookup_insert_ne. }
  destruct r1 as [[]|]; simpl in H; [|by simplify_eq].
  rewrite bind_run in H. unfold run_tool in H.
  pose proof (tpm2_create_frame pcrs (with_extension out "tmp_in") (with_extension out "pub")
                (with_extension out "priv") w1 p Hpub Hpriv) as Hfr.
  destruct (tpm2_create _ _ _ _ w1) as [w2 r2]. simpl in Hfr. rewrite <-Hw1, <-Hfr. clear Hw1 Hfr E1.
  rewrite bind_run in H. unfold attempt, fs_remove, fs_call in H.
  destruct (fs_fault_run w2) as (f & l & E). rewrite E in H. unfold lift in H.
  destruct f; [destruct (w_fs _ !! _) in H|..]; simplify_eq; try done. by apply lookup_delete_ne.
Qed.

Lemma remove_if_exists_quiet p w :
  w_faults w = [] → remove_if_exists p w = (set_fs (delete p (w_fs w)) w, Ok ()).
Proof.
  intros Hq. unfold remove_if_exists. rewrite bind_run, path_exists_quiet by done.
  destruct (w_fs w !! p) as [f|] eqn:E.
  - rewrite bool_decide_true by done. unfold io, mapM_err, fs_remove.
    rewrite fs_call_quiet by done. by rewrite E.
  - rewrite bool_decide_false by by inversion 1. munfold. rewrite delete_id by done. by destruct w.
Qed.

(** Clearing is removal of the table's file. *)
Lemma clear_run m w :
  w_faults w = [] →
  clear_paired_servers m w
  = (set_fs (delete (join (config_dir m) PAIRED_SERVERS_FILE) (w_fs w)) w, Ok ()).
Proof. apply remove_if_exists_quiet. Qed.

Lemma generate_save_csk_run m uid w :
  store_ready m uid w → (32 ≤ length (w_entropy w))%nat →
  generate_and_save_csk m w
  = (saved m uid CLIENT_SYMMETRIC_KEY_FILE (take 32 (w_entropy w)) (set_entropy (drop 32 (w_entropy w)) w),
     Ok (mkCsk (take 32 (w_entropy w)))).
Proof.
  intros Hr He. unfold generate_and_save_csk, csk_generate. rewrite bind_run.
  unfold mapM_err at 1. rewrite bind_run. unfold mapM_err, getrandom_fill.
  rewrite decide_True by done. simpl. rewrite bind_run.
  erewrite save_csk_run by eauto with tapauth. done.
Qed.
(** Rotation on a ready store: the new key is loaded, no pairing is left. *)
Lemma rotate_run m uid w :
  store_ready m uid w → (32 ≤ length (w_entropy w))%nat →
  ∃ w' csk, rotate_csk m w = (w', Ok csk) ∧ csk_bytes csk = take 32 (w_entropy w) ∧
    w_entropy w' = drop 32 (w_entropy w) ∧ store_ready m uid w' ∧
    (∀ p, p ≠ join (config_dir m) CLIENT_SYMMETRIC_KEY_FILE →
       p ≠ join (config_dir m) PAIRED_SERVERS_FILE → w_fs w' !! p = w_fs w !! p) ∧
    load_csk m w' = (w', Ok csk) ∧ load_paired_servers m w' = (w', Ok ∅).
Proof.
  intros Hr He. unfold rotate_csk, attempt. rewrite bind_run, clear_run by apply Hr. simpl.
  rewrite (generate_save_csk_run m uid); [|by auto with tapauth|done]. eexists _, _. split; [done|].
  simpl. split; [done|]. split; [done|]. split; [by auto with tapauth|]. split; [|split].
  - intros p H1 H2. by rewrite lookup_insert_ne, lookup_delete_ne.
  - rewrite (load_csk_run _ uid _ (take 32 (w_entropy w))); [done|by auto with tapauth| |apply saved_lookup].
    rewrite length_take. lia.
  - apply load_paired_servers_absent; [apply Hr|].
    rewrite saved_lookup_ne by done. apply lookup_delete_eq.
Qed.

End manager.
