(* ===== verification/ConcreteConfig.v ===== *)
(** * Concrete codecs and tools for the persistent state

    JSON and TOML as numberings of the countable data, and TPM tools that copy
    the sealed data into the private part. *)

From stdpp Require Import base gmap strings list countable.
From S2P Require Import Prelude Os Text Crypto Concrete Protocol ConcreteCodec Config ConfigFacts.

#[export] Instance paired_server_eq_dec : EqDecision PairedServer.
Proof. solve_decision. Defined.
#[export] Instance client_config_eq_dec : EqDecision ClientConfig.
Proof. solve_decision. Defined.
#[export] Instance pcr_policy_eq_dec : EqDecision TpmPcrPolicy.
Proof. solve_decision. Defined.
#[export] Instance tapauth_config_eq_dec : EqDecision TapAuthConfig.
Proof. solve_decision. Defined.

#[export] Instance paired_server_countable : Countable PairedServer.
Proof.
  apply (inj_countable' (λ s, (ps_name s, ps_public_key s, allowed_users s, paired_at s))
           (λ '(n, k, u, t), mkPairedServer n k u t)). by intros [].
Defined.
#[export] Instance client_config_countable : Countable ClientConfig.
Proof. apply (inj_countable' hostname mkClientConfig). by intros []. Defined.
#[export] Instance tapauth_config_countable : Countable TapAuthConfig.
Proof.
  apply (inj_countable'
    (λ c, (pam_operation_timeout_secs c, pam_gui_timeout_secs c, udp_port c, enable_network c,
           enable_ble c, use_tpm c, bool_decide (tpm_pcr_policy c = Standard)))
    (λ '(a, b, c, d, e, f, g), mkTapAuthConfig a b c d e f (if (g : bool) then Standard else Paranoid))).
  by intros [? ? ? ? ? ? []].
Defined.

(** Ends with a closing brace, which occurs nowhere else. *)
Definition toy_json {A} `{Countable A} : Json A := {|
  to_json a := Some (pos_bytes (countable.encode a) ++ [Byte.x7d]);
  from_json b := if decide (list_basics.list.last b = Some Byte.x7d) then countable.decode (bytes_pos (removelast b)) else None;
|}.
Lemma toy_json_laws {A} `{Countable A} : JsonLaws A toy_json.
Proof.
  intros a. eexists. split; [done|]. simpl. rewrite last_snoc, decide_True, removelast_last, bytes_pos_bytes by done.
  apply countable.decode_encode.
Qed.
Lemma pos_bytes_no_brace p : Byte.x7d ∉ pos_bytes p.
Proof. induction p; cbn; rewrite ?elem_of_cons; set_solver. Qed.
Lemma toy_json_truncated {A} `{Countable A} : JsonTruncated A toy_json.
Proof.
  intros a b n [= <-] Hn. rewrite length_app in Hn. cbn in *. rewrite decide_False; [done|].
  rewrite take_app_le by lia. intros [l Hl]%last_Some. eapply pos_bytes_no_brace.
  rewrite <-(take_drop n (pos_bytes _)), Hl. set_solver.
Qed.

#[export] Instance toy_client_config_json : Json ClientConfig := toy_json.
#[export] Instance toy_servers_json : Json (gmap string PairedServer) := toy_json.
#[export] Instance toy_servers_json_laws : JsonLaws _ toy_servers_json := toy_json_laws.
#[export] Instance toy_servers_json_truncated : JsonTruncated _ toy_servers_json := toy_json_truncated.

#[export] Instance toy_toml : Toml := {|
  to_toml c := Some (pos_bytes (countable.encode c));
  from_toml b := countable.decode (bytes_pos b);
|}.
#[export] Instance toy_toml_laws : TomlLaws toy_toml.
Proof.
  intros c _. eexists. split; [done|]. simpl. rewrite bytes_pos_bytes. apply countable.decode_encode.
Qed.

(** Copy one file; fails when it is missing. *)
Definition toy_copy (a b : string) (w : World) : World * option bool :=
  match w_fs w !! a with
  | Some f => (put_file b (f_data f) w, Some true)
  | None => (w, Some false)
  end.

#[export] Instance toy_tpm : TpmTools := {|
  tpm2_getrandom_help _ := Some true;
  tpm2_create _ i pub priv w :=
    match toy_copy i priv w with
    | (w', Some true) => (put_file pub [] w', Some true)
    | r => r
    end;
  tpm2_load pub priv ctx w := toy_copy priv ctx w;
  tpm2_unseal ctx out w := toy_copy ctx out w;
|}.

Lemma toy_copy_frame a b w p : p ≠ b → w_fs (toy_copy a b w).1 !! p = w_fs w !! p.
Proof.
  intros H. unfold toy_copy. destruct (w_fs w !! a); [|done]. simpl. by rewrite lookup_insert_ne.
Qed.

#[export] Instance toy_tpm_laws : TpmToolsLaws toy_tpm.
Proof.
  split; intros; simpl; try by apply toy_copy_frame.
  unfold toy_copy. destruct (w_fs w !! i); simpl; [|done]. by rewrite !lookup_insert_ne.
Qed.

(** A world with one settings file. *)
Definition with_settings (c : TapAuthConfig) (w : World) : World :=
  set_fs (<[DEFAULT_CONFIG_PATH := mkFile (default [] (to_toml c)) (perm 6 4 4) 0]> (w_fs w)) w.

Definition toy_server (users : list string) : PairedServer :=
  mkPairedServer "phone" "00ff" users 1700000000000000000.

(** The daemon's world: freshly installed, running as root or as [tapauthd]. *)
Lemma quiet_ready : store_ready new_manager 990 quiet_world.
Proof. by split; try done; left. Qed.
