(* ===== verification/ConfigTheorems.v ===== *)
(** * Theorems about the persistent state

    Permission checks on every read and write, the pairing table as a refinement
    of a finite map, the key files, CSK rotation, the TPM branch, recovery and
    the settings file. *)

From stdpp Require Import base gmap strings list.
From Stdlib Require Import Strings.Byte.
From S2P Require Import Prelude Os Text Crypto Concrete Protocol ConcreteCodec Config ConfigFacts.
From S2P Require Import ConcreteConfig.

(** ** The pairing table as a finite map *)

Inductive store_op :=
| OpAdd (id : string) (s : PairedServer)
| OpRemove (id : string)
| OpRemoveUser (id username : string)
| OpClear.

(** What an operation means for the table. *)
Definition table_op (op : store_op) (t : gmap string PairedServer) : gmap string PairedServer :=
  match op with
  | OpAdd id s => <[id := s]> t
  | OpRemove id => delete id t
  | OpRemoveUser id u =>
      partial_alter (λ o, o ≫= λ s,
        let s' := retain_other_users u s in
        if bool_decide (allowed_users s' = []) then None else Some s') id t
  | OpClear => ∅
  end.

Section store.
Context `{C : CryptoOps} `{T : Toml} `{TT : TpmTools}.
Context `{JC : !Json ClientConfig} `{JS : !Json (gmap string PairedServer)}.

(** The operation of [ClientConfigManager] behind it. *)
Definition run_op (m : ClientConfigManager) (op : store_op) : M World ConfigError () :=
  match op with
  | OpAdd id s => add_paired_server m id s
  | OpRemove id => remove_paired_server m id
  | OpRemoveUser id u => _ ← remove_user_from_pairing m id u; mret ()
  | OpClear => clear_paired_servers m
  end.

Fixpoint run_ops (m : ClientConfigManager) (ops : list store_op) : M World ConfigError () :=
  match ops with
  | [] => mret ()
  | op :: ops' => _ ← run_op m op; run_ops m ops'
  end.

Context `{!JsonLaws (gmap string PairedServer) JS}.

Lemma remove_user_run m uid w t id u :
  store_ready m uid w → load_paired_servers m w = (w, Ok t) →
  ∃ w', remove_user_from_pairing m id u w
        = (w', Ok (bool_decide (table_op (OpRemoveUser id u) t !! id = None))) ∧
    store_ready m uid w' ∧ load_paired_servers m w' = (w', Ok (table_op (OpRemoveUser id u) t)).
Proof.
  intros Hr Hl. unfold remove_user_from_pairing. rewrite bind_run, Hl. simpl.
  rewrite lookup_partial_alter_eq. destruct (t !! id) as [s|] eqn:E; simpl.
  - case_bool_decide as Hu; simpl.
    + destruct (save_load_servers m uid w (delete id t) Hr) as (w' & Hs & Hr' & Hl').
      exists w'. rewrite bind_run, Hs. split; [done|]. split; [done|].
      rewrite Hl'. do 2 f_equal. unfold delete, map_delete. apply partial_alter_ext.
      intros ? <-. rewrite E. simpl. by rewrite bool_decide_true.
    + destruct (save_load_servers m uid w (<[id := retain_other_users u s]> t) Hr) as (w' & Hs & Hr' & Hl').
      exists w'. rewrite bind_run, Hs. split; [done|]. split; [done|].
      rewrite Hl'. do 2 f_equal. apply partial_alter_ext.
      intros ? <-. rewrite E. simpl. by rewrite bool_decide_false.
  - exists w. split; [done|]. split; [done|]. rewrite Hl. do 2 f_equal.
    rewrite <-(partial_alter_self t id) at 1. apply partial_alter_ext. intros ? <-. by rewrite E.
Qed.

Lemma run_op_refines m uid w t op :
  store_ready m uid w → load_paired_servers m w = (w, Ok t) →
  ∃ w', run_op m op w = (w', Ok ()) ∧ store_ready m uid w' ∧
    load_paired_servers m w' = (w', Ok (table_op op t)).
Proof.
  intros Hr Hl. destruct op as [id s|id|id u|]; simpl.
  - unfold add_paired_server. rewrite bind_run, Hl. by apply save_load_servers.
  - unfold remove_paired_server. rewrite bind_run, Hl. by apply save_load_servers.
  - destruct (remove_user_run m uid w t id u Hr Hl) as (w' & H & Hr' & Hl').
    exists w'. by rewrite bind_run, H.
  - rewrite clear_run by apply Hr. eexists. split; [done|]. split; [by auto with tapauth|].
    apply load_paired_servers_absent; [apply Hr|]. apply lookup_delete_eq.
Qed.
End store.

(** ** Claims *)

(** C14: Whatever faults the file system has, [read_secure_file] returns data only
    from a file that exists, is owned by root or by [tapauthd] and whose permission
    bits are exactly 0600 or 0400; and when no fault occurs it returns the contents
    of every such file and refuses every other existing file with
    [InsufficientPermissions]. *)
Theorem read_secure_file_guard p w :
  (∀ w' d, read_secure_file p w = (w', Ok d) →
     ∃ f, w_fs w !! p = Some f ∧ f_data f = d ∧ secure_file w f) ∧
  (w_faults w = [] → ∀ f, w_fs w !! p = Some f →
     read_secure_file p w
     = (w, if decide (secure_file w f) then Ok (f_data f) else Err CE_InsufficientPermissions)).
Proof.
  split.
  - intros w' d H. apply read_secure_file_Ok in H as (f & Hf & Hd & Hs & _). eauto.
  - intros. by apply read_secure_file_quiet.
Qed.

(** Whatever faults occur, when [write_secure_file] reports success the caller
    was root or [tapauthd], the file holds exactly the data with mode 0600, it
    belongs to [tapauthd] (written by root when that user exists, or by [tapauthd]
    itself), and no other file changed; an unprivileged caller changes nothing. *)
Theorem write_secure_file_result p d w w' r :
  write_secure_file p d w = (w', r) →
  (privileged w ∨ (w' = w ∧ r = Err CE_InsufficientPermissions)) ∧
  (r = Ok () → ∃ f, w_fs w' = <[p := f]> (w_fs w) ∧ f_data f = d ∧ f_mode f = perm 6 0 0 ∧
     (∀ u, w_tapauthd w = Some u → u ≠ 0 → f_uid f = u)).
Proof.
  intros H. split.
  - unfold write_secure_file in H. rewrite bind_run, privileged_run in H.
    destruct (_ || _) eqn:E; simpl in H.
    + left. by rewrite orb_true_iff, !bool_decide_eq_true in E.
    + right. unfold throw in H. by simplify_eq.
  - intros ->. apply write_secure_file_Ok in H as (Hp & f & l & -> & Hd & Hm & H0 & Hn).
    exists f. split; [done|]. split; [done|]. split; [done|]. intros u Hu Hz.
    destruct (decide (w_euid w = 0)) as [E|E].
    + apply H0; [|done..]. rewrite Hu, E. naive_solver.
    + specialize (Hn E). congruence.
Qed.

Lemma write_secure_file_result_witness :
  w_fs (state_of (write_secure_file "/s" [x07]) quiet_world) !! "/s"%string
  = Some (mkFile [x07] (perm 6 0 0) 990).
Proof.
  destruct (write_secure_file "/s" [x07] quiet_world) as [w' r] eqn:E.
  assert (r = Ok ()) as -> by (by vm_compute in E; simplify_eq).
  destruct (write_secure_file_result _ _ _ _ _ E) as [_ H].
  destruct (H eq_refl) as (f & Hf & Hd & Hm & Hu).
  unfold state_of. rewrite E. simpl. rewrite Hf, lookup_insert_eq.
  destruct f as [fd fm fu]. simpl in *. subst. by rewrite (Hu 990 eq_refl ltac:(done)).
Defined.

(** C20: The pairing file implements a finite map.  From a ready store holding the
    table [t], any sequence of [add_paired_server], [remove_paired_server],
    [remove_user_from_pairing] and [clear_paired_servers] succeeds, and the table
    loaded afterwards is [t] with the map operations applied in order. *)
Theorem pairing_store_refines `{C : CryptoOps} `{T : Toml} `{TT : TpmTools}
    `{JC : !Json ClientConfig} `{JS : !Json (gmap string PairedServer)}
    `{!JsonLaws (gmap string PairedServer) JS} m uid w t ops :
  store_ready m uid w → load_paired_servers m w = (w, Ok t) →
  ∃ w', run_ops m ops w = (w', Ok ()) ∧ store_ready m uid w' ∧
    load_paired_servers m w' = (w', Ok (foldl (λ t op, table_op op t) t ops)).
Proof.
  revert w t. induction ops as [|op ops IH]; intros w t Hr Hl; simpl; [by exists w|].
  destruct (run_op_refines m uid w t op Hr Hl) as (w1 & H1 & Hr1 & Hl1).
  rewrite bind_run, H1. by apply IH.
Qed.

Lemma pairing_store_refines_witness :
  ∃ w', run_ops new_manager [OpAdd "a" (toy_server ["ann"; "bob"]); OpRemoveUser "a" "ann"; OpRemove "b"]
          quiet_world = (w', Ok ()) ∧
    load_paired_servers new_manager w' = (w', Ok {["a"%string := toy_server ["bob"%string]]}).
Proof.
  destruct (pairing_store_refines new_manager 990 quiet_world ∅
    [OpAdd "a" (toy_server ["ann"; "bob"]); OpRemoveUser "a" "ann"; OpRemove "b"]
    quiet_ready ltac:(by vm_compute)) as (w' & H & _ & Hl).
  exists w'. split; [exact H|]. rewrite Hl. do 2 f_equal.
Defined.

(** Revoking a user.  After [remove_user_from_pairing id u] on a ready store,
    the reloaded table lets no entry [id] authenticate [u], keeps every other user
    of that entry and every other entry, leaves no entry [id] without users, and
    the returned flag says whether the entry is gone. *)
Theorem remove_user_revokes `{C : CryptoOps} `{T : Toml} `{TT : TpmTools}
    `{JC : !Json ClientConfig} `{JS : !Json (gmap string PairedServer)}
    `{!JsonLaws (gmap string PairedServer) JS} m uid w t id u :
  store_ready m uid w → load_paired_servers m w = (w, Ok t) →
  ∃ w' t' b, remove_user_from_pairing m id u w = (w', Ok b) ∧
    load_paired_servers m w' = (w', Ok t') ∧
    (b = true ↔ t' !! id = None) ∧
    (∀ s, t' !! id = Some s → is_user_allowed s u = false ∧ allowed_users s ≠ []) ∧
    (∀ s v, t !! id = Some s → is_user_allowed s v = true → v ≠ u →
       ∃ s', t' !! id = Some s' ∧ is_user_allowed s' v = true) ∧
    (∀ id', id' ≠ id → t' !! id' = t !! id').
Proof.
  intros Hr Hl. destruct (remove_user_run m uid w t id u Hr Hl) as (w' & H & _ & Hl').
  eexists _, _, _. split; [exact H|]. split; [exact Hl'|]. split; [apply bool_decide_eq_true|].
  simpl. rewrite lookup_partial_alter_eq. split; [|split].
  - intros s Hs. destruct (t !! id) as [s0|]; [|done]. simpl in Hs. case_bool_decide; simplify_eq.
    split; [|done]. apply not_true_is_false. unfold is_user_allowed. rewrite existsb_elem_of.
    intros (x & Hx & Hxu). apply bool_decide_eq_true_1 in Hxu as ->. simpl in Hx.
    by apply list_elem_of_filter in Hx as [? _].
  - intros s v Hs Hv Hne. rewrite Hs. simpl. unfold is_user_allowed in *.
    rewrite existsb_elem_of in Hv. destruct Hv as (x & Hx & Hxv). apply bool_decide_eq_true_1 in Hxv as ->.
    assert (Hin : v ∈ filter (λ u', u' ≠ u) (allowed_users s)) by by apply list_elem_of_filter.
    rewrite bool_decide_false by (intros E; rewrite E in Hin; by apply elem_of_nil in Hin).
    eexists. split; [done|]. rewrite existsb_elem_of. exists v. split; [done|]. by apply bool_decide_eq_true.
  - intros id' Hid. by apply lookup_partial_alter_ne.
Qed.

Lemma remove_user_revokes_witness :
  ∃ w' t' b, remove_user_from_pairing new_manager "a" "ann"
      (state_of (add_paired_server new_manager "a" (toy_server ["ann"])) quiet_world) = (w', Ok b) ∧
    load_paired_servers new_manager w' = (w', Ok t') ∧ (b = true ↔ t' !! "a"%string = None).
Proof.
  destruct (save_load_servers new_manager 990 quiet_world {["a"%string := toy_server ["ann"%string]]}
    quiet_ready) as (w & Hs & Hr & Hl).
  assert (state_of (add_paired_server new_manager "a" (toy_server ["ann"%string])) quiet_world = w) as ->.
  { unfold state_of. by rewrite <-(f_equal fst Hs : _ = w). }
  destruct (remove_user_revokes new_manager 990 w _ "a" "ann" Hr Hl) as (w' & t' & b & H1 & H2 & H3 & _).
  by exists w', t', b.
Defined.

(** Keys survive a save and load.  On a ready store whose key is not in the
    TPM, [save_keypair] and [save_csk] succeed, and afterwards [load_keypair] and
    [load_csk] return the very keys, whatever was stored before; the two files do
    not disturb each other. *)
Theorem keys_roundtrip `{C : CryptoOps} `{T : Toml} `{TT : TpmTools} ft uid w kp csk :
  store_ready new_manager uid w → tpm_mode ft w = false → wf_ed25519 kp → wf_csk csk →
  ∃ w1 w2, save_keypair ft new_manager kp w = (w1, Ok ()) ∧
    save_csk new_manager csk w1 = (w2, Ok ()) ∧
    load_keypair ft new_manager w2 = (w2, Ok kp) ∧ load_csk new_manager w2 = (w2, Ok csk).
Proof.
  intros Hr Ht [Hkl Hkp] Hc. eexists _, _. split; [by apply save_keypair_run|].
  split; [by apply save_csk_run; auto with tapauth|]. split.
  - erewrite load_keypair_run with (d := signing_key_bytes kp) (uid := uid).
    + do 2 f_equal. destruct kp. unfold from_signing_key_bytes. simpl in *. by rewrite <-Hkp.
    + by auto with tapauth.
    + unfold tpm_mode in *. by rewrite !settings_saved.
    + done.
    + rewrite saved_lookup_ne by done. apply saved_lookup.
  - rewrite (load_csk_run _ uid _ (csk_bytes csk)); [by destruct csk|by auto with tapauth|done|apply saved_lookup].
Qed.

Lemma keys_roundtrip_witness :
  ∃ w1 w2, save_keypair true new_manager toy_client quiet_world = (w1, Ok ()) ∧
    save_csk new_manager toy_csk w1 = (w2, Ok ()) ∧
    load_keypair true new_manager w2 = (w2, Ok toy_client) ∧
    load_csk new_manager w2 = (w2, Ok toy_csk).
Proof. by apply (keys_roundtrip true 990 quiet_world toy_client toy_csk quiet_ready). Defined.

(** Rotation revokes.  On a ready store with 32 bytes of entropy [rotate_csk]
    succeeds with a key made of fresh random bytes, that key is the one loaded
    afterwards, and no pairing is left. *)
Theorem rotate_csk_resets `{C : CryptoOps} `{T : Toml} `{TT : TpmTools}
    `{JS : !Json (gmap string PairedServer)} m uid w :
  store_ready m uid w → (32 ≤ length (w_entropy w))%nat →
  ∃ w' csk, rotate_csk m w = (w', Ok csk) ∧ csk_bytes csk = take 32 (w_entropy w) ∧
    w_entropy w' = drop 32 (w_entropy w) ∧
    load_csk m w' = (w', Ok csk) ∧ load_paired_servers m w' = (w', Ok ∅).
Proof.
  intros Hr He. destruct (rotate_run m uid w Hr He) as (w' & csk & H1 & H2 & H3 & _ & _ & H4 & H5).
  by exists w', csk.
Qed.

Lemma rotate_csk_resets_witness :
  ∃ w' csk, rotate_csk new_manager quiet_world = (w', Ok csk) ∧
    csk_bytes csk = take 32 (w_entropy quiet_world) ∧
    w_entropy w' = drop 32 (w_entropy quiet_world) ∧
    load_csk new_manager w' = (w', Ok csk) ∧ load_paired_servers new_manager w' = (w', Ok ∅).
Proof. apply (rotate_csk_resets new_manager 990 quiet_world quiet_ready). by vm_compute; lia. Defined.

(** A failure to delete the pairing table does not stop a rotation: when the
    removal is refused, [rotate_csk] still reports success and every pairing made
    under the old key stays in the table. *)
Theorem rotate_csk_keeps_pairings `{C : CryptoOps} `{T : Toml} `{TT : TpmTools}
    `{JS : !Json (gmap string PairedServer)} m uid w t :
  store_ready m uid w → (32 ≤ length (w_entropy w))%nat →
  load_paired_servers m w = (w, Ok t) → t ≠ ∅ →
  ∃ w' csk, rotate_csk m (set_faults [Works; Refused] w) = (w', Ok csk) ∧
    load_csk m w' = (w', Ok csk) ∧ load_paired_servers m w' = (w', Ok t).
Proof.
  intros Hr He Hl Ht. destruct (w_fs w !! join (config_dir m) PAIRED_SERVERS_FILE) as [f|] eqn:Hf;
    [|by rewrite load_paired_servers_absent in Hl by (done || apply Hr); simplify_eq].
  assert (Hw : set_faults [] w = w) by (destruct Hr as [Hq]; destruct w; by simplify_eq/=).
  unfold rotate_csk, attempt. rewrite bind_run. unfold clear_paired_servers. rewrite bind_run.
  unfold path_exists at 1. simpl. rewrite Hf, bool_decide_true by done.
  unfold io, mapM_err, fs_remove, fs_call. simpl. change (set_faults [] (set_faults _ (set_faults _ w))) with (set_faults [] w).
  rewrite Hw. rewrite (generate_save_csk_run m uid) by done. eexists _, _. split; [done|]. split.
  - rewrite (load_csk_run _ uid _ (take 32 (w_entropy w))); [done|by auto with tapauth| |apply saved_lookup].
    rewrite length_take. lia.
  - eapply load_paired_servers_same; [..|exact Hl]; [by apply Hr..|done|]. by rewrite saved_lookup_ne.
Qed.

Lemma rotate_csk_keeps_pairings_witness :
  ∃ w w' csk, rotate_csk new_manager (set_faults [Works; Refused] w) = (w', Ok csk) ∧
    load_paired_servers new_manager w' = (w', Ok {["a"%string := toy_server ["ann"%string]]}).
Proof.
  destruct (save_load_servers new_manager 990 quiet_world {["a"%string := toy_server ["ann"%string]]}
    quiet_ready) as (w & Hs & Hr & Hl).
  assert (He : (32 ≤ length (w_entropy w))%nat).
  { replace w with (state_of (save_paired_servers new_manager {["a"%string := toy_server ["ann"%string]]})
      quiet_world) by (unfold state_of; by rewrite Hs). vm_compute. lia. }
  destruct (rotate_csk_keeps_pairings new_manager 990 w _ Hr He Hl) as (w' & csk & H & _ & H').
  { intros Hm. apply (f_equal (lookup "a"%string)) in Hm. by vm_compute in Hm. }
  by exists w, w', csk.
Defined.

(** A key sealed by the TPM cannot be loaded again.  With the TPM switched on,
    after a successful [save_keypair] that found no file [client_key.tpm],
    [load_keypair] fails in every world with the same files: sealing writes
    [client_key.pub] and [client_key.priv], while loading insists on
    [client_key.tpm]. *)
Theorem tpm_sealed_key_unloadable `{C : CryptoOps} `{T : Toml} `{TT : TpmTools}
    `{!TpmToolsLaws TT} uid w kp w1 w2 :
  store_ready new_manager uid w → tpm_mode true w = true →
  w_fs w !! tpm_key_path new_manager = None →
  save_keypair true new_manager kp w = (w1, Ok ()) →
  w_fs w2 = w_fs w1 → w_faults w2 = [] →
  is_ok (result_of (load_keypair true new_manager) w2) = false.
Proof.
  intros Hr Ht Hn H Hfs Hq.
  assert (w_fs w1 !! DEFAULT_CONFIG_PATH = w_fs w !! DEFAULT_CONFIG_PATH
          ∧ w_fs w1 !! tpm_key_path new_manager = None) as [H1 H2].
  { unfold save_keypair in H. rewrite bind_run in H. erewrite init_ready in H by done.
    simpl in H. rewrite bind_run, tapauth_config_load_quiet in H by apply Hr.
    change (settings (set_dirs _ w)) with (settings w) in H.
    unfold tpm_mode in Ht. simpl in Ht. rewrite Ht in H. simpl in H.
    rewrite bind_run in H. unfold is_tpm_available, gets in H. destruct (negb _) in H; [done|].
    unfold mapM_err in H. destruct (seal_data_with_tpm _ _ _ _) as [w0 r0] eqn:E in H. simplify_eq.
    rewrite !(seal_data_frame _ _ _ _ _ _ _ E) by done. done. }
  unfold result_of, load_keypair. simpl. rewrite bind_run, tapauth_config_load_quiet by done.
  rewrite (settings_fs w2 w) by by rewrite Hfs. unfold tpm_mode in Ht. simpl in Ht. rewrite Ht. simpl.
  rewrite bind_run, path_exists_quiet by done. simpl. destruct (bool_decide _); [|done]. simpl.
  unfold mapM_err, load_sealed_keypair. rewrite bind_run. unfold is_tpm_available, gets.
  destruct (negb _); [done|]. rewrite bind_run, path_exists_quiet, Hfs, H2 by done. done.
Qed.

Definition tpm_settings : TapAuthConfig :=
  mkTapAuthConfig 120 30 36692 true true true Standard.

Lemma tpm_world_ready : store_ready new_manager 990 (with_settings tpm_settings quiet_world).
Proof. split; try done; by left. Qed.

Lemma tpm_sealed_key_unloadable_witness :
  is_ok (result_of (save_keypair true new_manager toy_client) (with_settings tpm_settings quiet_world)) = true ∧
  is_ok (result_of (load_keypair true new_manager)
    (state_of (save_keypair true new_manager toy_client) (with_settings tpm_settings quiet_world))) = false.
Proof.
  split; [by vm_compute|].
  eapply (tpm_sealed_key_unloadable 990 (with_settings tpm_settings quiet_world) toy_client);
    [exact tpm_world_ready|by vm_compute|by vm_compute| |done|by vm_compute].
  by vm_compute.
Defined.

(** Recovery is a complete reset.  On a ready store whose key is not in the
    TPM, with entropy for two keys, [recover_from_tpm_failure] succeeds; afterwards
    the sealed parts are gone, the key pair and the CSK that load are made of fresh
    random bytes, and no pairing is left. *)
Theorem recovery_resets `{C : CryptoOps} `{T : Toml} `{TT : TpmTools}
    `{JS : !Json (gmap string PairedServer)} uid w :
  store_ready new_manager uid w → tpm_mode true w = false → (64 ≤ length (w_entropy w))%nat →
  ∃ w', recover_from_tpm_failure true new_manager w = (w', Ok ()) ∧
    w_fs w' !! with_extension (tpm_key_path new_manager) "pub" = None ∧
    w_fs w' !! with_extension (tpm_key_path new_manager) "priv" = None ∧
    load_keypair true new_manager w' = (w', Ok (from_signing_key_bytes (take 32 (w_entropy w)))) ∧
    load_csk new_manager w' = (w', Ok (mkCsk (take 32 (drop 32 (w_entropy w))))) ∧
    load_paired_servers new_manager w' = (w', Ok ∅).
Proof.
  intros Hr Ht He. unfold recover_from_tpm_failure.
  set (pub := with_extension _ "pub"). set (priv := with_extension _ "priv").
  do 3 (rewrite bind_run, remove_if_exists_quiet by apply Hr; simpl).
  rewrite bind_run, clear_run by apply Hr. simpl. autorewrite with tapauth.
  set (w1 := set_fs _ w). assert (Hr1 : store_ready new_manager uid w1).
  { unfold w1. do 3 apply (ready_delete _ _ (set_fs _ w)). by apply ready_delete. }
  assert (Ht1 : tpm_mode true w1 = false).
  { unfold tpm_mode. rewrite (settings_fs w1 w); [done|]. unfold w1. simpl.
    by rewrite !lookup_delete_ne. }
  rewrite bind_run, (generate_save_keypair_run true new_manager uid) by (done || simpl; lia).
  set (w2 := saved _ _ _ _ _). assert (Hr2 : store_ready new_manager uid w2) by by unfold w2; auto with tapauth.
  rewrite bind_run. unfold rotate_csk, attempt. rewrite bind_run, clear_run by apply Hr2. simpl.
  rewrite (generate_save_csk_run new_manager uid); [|by apply (ready_delete _ _ w2)|simpl; rewrite length_drop; lia].
  eexists. split; [done|]. set (w3 := saved _ _ CLIENT_SYMMETRIC_KEY_FILE _ _).
  assert (Hr3 : store_ready new_manager uid w3).
  { apply ready_saved, ready_entropy. by apply (ready_delete _ _ w2). }
  split; [|split; [|split; [|split]]].
  - unfold w3, w2, w1. simpl. rewrite !(lookup_insert_ne _ _ pub) by done. by simplify_map_eq.
  - unfold w3, w2, w1. simpl. rewrite !(lookup_insert_ne _ _ priv) by done. by simplify_map_eq.
  - apply (load_keypair_run true new_manager uid); [done| |rewrite length_take; lia|].
    + unfold tpm_mode in *. rewrite <-Ht1. f_equal. f_equal. unfold w3. rewrite settings_saved.
      apply settings_fs. simpl. by rewrite lookup_delete_ne, lookup_insert_ne.
    + unfold w3. rewrite saved_lookup_ne by done. simpl. rewrite lookup_delete_ne by done.
      apply lookup_insert_eq.
  - apply (load_csk_run new_manager uid); [done| |apply saved_lookup].
    rewrite length_take, length_drop. lia.
  - apply load_paired_servers_absent; [apply Hr3|]. unfold w3. rewrite saved_lookup_ne by done.
    apply lookup_delete_eq.
Qed.

Lemma recovery_resets_witness :
  ∃ w', recover_from_tpm_failure true new_manager quiet_world = (w', Ok ()) ∧
    load_csk new_manager w' = (w', Ok (mkCsk (rep 32 7))).
Proof.
  destruct (recovery_resets 990 quiet_world quiet_ready) as (w' & H & _ & _ & _ & Hc & _);
    [by vm_compute|vm_compute; lia|]. exists w'. split; [exact H|]. rewrite Hc. reflexivity.
Defined.

(** Saving the settings: one file and possibly its directory. *)
Lemma settings_save_run `{T : Toml} `{!TomlLaws T} w c :
  w_faults w = [] → w_euid w = 0 → toml_ok c →
  ∃ b u d, tapauth_config_save c w
    = (set_fs (<[DEFAULT_CONFIG_PATH := mkFile b (perm 6 4 4) u]> (w_fs w)) (set_dirs d w), Ok ()) ∧
    from_toml b = Some c ∧ (∀ p, p ≠ "/etc/tapauth"%string → d !! p = w_dirs w !! p).
Proof.
  intros Hq He Hc. destruct (toml_roundtrip c Hc) as (b & Hb & Hd).
  unfold tapauth_config_save, save_to_path. rewrite bind_run.
  assert (∃ d, match parent DEFAULT_CONFIG_PATH with Some d => fs_create_dir d | None => mret () end w
               = (set_dirs d w, Ok ()) ∧ ∀ p, p ≠ "/etc/tapauth"%string → d !! p = w_dirs w !! p) as (d & -> & Hdirs).
  { simpl. unfold fs_create_dir. rewrite fs_call_quiet by done. destruct (w_dirs w !! _).
    - exists (w_dirs w). by destruct w.
    - eexists. split; [done|]. intros. by apply lookup_insert_ne. }
  simpl. rewrite bind_run. unfold lift. rewrite Hb. simpl.
  rewrite bind_run, fs_write_quiet by done. rewrite bind_run. unfold fs_metadata.
  rewrite fs_call_quiet by done. simpl. rewrite lookup_insert_eq. simpl.
  erewrite set_mode_quiet; [|done|simpl; by rewrite lookup_insert_eq|].
  2:{ unfold may_chmod. simpl. by rewrite bool_decide_true. }
  simpl. rewrite insert_insert_eq. exists b.
  destruct (w_fs w !! DEFAULT_CONFIG_PATH); simpl; eexists _, d; by split.
Qed.

(** Settings survive a save and load: for a root caller with no faults and
    timeouts TOML can express, [save] succeeds, makes the file world-readable
    (0644), and [load] then returns the same settings. *)
Theorem settings_roundtrip `{T : Toml} `{!TomlLaws T} w c :
  w_faults w = [] → w_euid w = 0 → toml_ok c →
  ∃ w' f, tapauth_config_save c w = (w', Ok ()) ∧
    w_fs w' !! DEFAULT_CONFIG_PATH = Some f ∧ f_mode f = perm 6 4 4 ∧
    tapauth_config_load (E := io_error) w' = (w', Ok c).
Proof.
  intros Hq He Hc. destruct (settings_save_run w c Hq He Hc) as (b & u & d & -> & Hb & _).
  eexists _, _. split; [done|]. split; [simpl; apply lookup_insert_eq|]. split; [done|].
  rewrite tapauth_config_load_quiet by done. unfold settings. simpl.
  rewrite lookup_insert_eq. simpl. by rewrite Hb.
Qed.

Lemma settings_roundtrip_witness :
  ∃ w' f, tapauth_config_save tpm_settings quiet_world = (w', Ok ()) ∧
    w_fs w' !! DEFAULT_CONFIG_PATH = Some f ∧ f_mode f = perm 6 4 4 ∧
    tapauth_config_load (E := io_error) w' = (w', Ok tpm_settings).
Proof. by apply (settings_roundtrip quiet_world tpm_settings). Defined.
