(* ===== verification/PairingUrl.v ===== *)
(** * The pairing URL: [shared/src/models.rs], module [pairing]

    What the QR code says: version, public key, port and addresses.  The text form
    of IPv6 addresses is the standard library's ([Ipv6Text]). *)

From stdpp Require Import base gmap strings list.
From Stdlib Require Import Strings.Ascii.
From S2P Require Import Prelude Text.

Inductive PairingInfoError :=
| InvalidScheme
| InvalidQuery
| InvalidVersion
| InvalidPort
| InvalidIpv4
| InvalidIpv6
| MissingField (f : string).

Record PairingInfo := mkPairingInfo {
  pi_version : N;
  pi_public_key_hex : list ascii;
  pi_port : N;
  pi_ipv4 : option N;             (* 32 bits *)
  pi_ipv6 : option N;             (* 128 bits *)
}.

(** [Display] and [FromStr] of [Ipv6Addr]. *)
Class Ipv6Text := {
  ipv6_show : N → list ascii;
  ipv6_parse : list ascii → option N;
}.
Class Ipv6TextLaws (I : Ipv6Text) : Prop := {
  ipv6_roundtrip a : (a < 2 ^ 128)%N → ipv6_parse (ipv6_show a) = Some a;
  (** hexadecimal digits, colons and dots only *)
  ipv6_plain a c : c ∈ ipv6_show a → c ≠ "&"%char ∧ c ≠ "="%char;
}.

(** ** Text *)

(** [str::split] by a character: always at least one piece. *)
Fixpoint split (sep : ascii) (l : list ascii) : list (list ascii) :=
  match l with
  | [] => [[]]
  | c :: l' =>
      if decide (c = sep) then [] :: split sep l'
      else match split sep l' with
           | p :: ps => (c :: p) :: ps
           | [] => [[c]]
           end
  end.

Fixpoint intercalate (sep : ascii) (ps : list (list ascii)) : list ascii :=
  match ps with
  | [] => []
  | [p] => p
  | p :: ps' => p ++ sep :: intercalate sep ps'
  end.

Definition chars (s : string) : list ascii := String.list_ascii_of_string s.

(** [Display] of [Ipv4Addr]: four decimal numbers. *)
Definition octets (a : N) : list N :=
  [N.shiftr a 24; N.land (N.shiftr a 16) 255; N.land (N.shiftr a 8) 255; N.land a 255].
Definition ipv4_show (a : N) : list ascii := intercalate "."%char (dec <$> octets a).

(** [FromStr] of [Ipv4Addr]: each number has at most three digits and no leading
    zero. *)
Definition parse_octet (l : list ascii) : option N :=
  match l with
  | [] => None
  | c :: l' =>
      if decide ((3 < length l)%nat ∨ (c = "0"%char ∧ l' ≠ [])) then None else
      v ← dec_value 0 l; if decide (v < 256)%N then Some v else None
  end.
Definition ipv4_parse (l : list ascii) : option N :=
  match split "."%char l with
  | [a; b; c; d] =>
      a ← parse_octet a; b ← parse_octet b; c ← parse_octet c; d ← parse_octet d;
      Some (N.shiftl a 24 + N.shiftl b 16 + N.shiftl c 8 + d)%N
  | _ => None
  end.

(** ** The URL *)

Definition URL_PREFIX : list ascii := chars "tapauth://pair?".

Section url.
Context `{I6 : Ipv6Text}.

Definition param (key : string) (value : list ascii) : list ascii := chars key ++ "="%char :: value.

Definition generate_pairing_url (public_key_hex : list ascii) (port : N) (ipv4 ipv6 : option N) : list ascii :=
  URL_PREFIX ++ param "v" (chars "1") ++ "&"%char :: param "pk" public_key_hex ++
  "&"%char :: param "p" (dec port) ++
  match ipv4 with Some ip => "&"%char :: param "ip4" (ipv4_show ip) | None => [] end ++
  match ipv6 with Some ip => "&"%char :: param "ip6" (ipv6_show ip) | None => [] end.

(** What has been read so far. *)
Record Fields := mkFields {
  fl_version : option N;
  fl_pk : option (list ascii);
  fl_port : option N;
  fl_ipv4 : option N;
  fl_ipv6 : option N;
}.

(** One pair of the query; text after a second equals sign is dropped. *)
Definition parse_pair (f : Fields) (kv : list ascii) : result PairingInfoError Fields :=
  match split "="%char kv with
  | key :: value :: _ =>
      if decide (key = chars "v") then
        v ← ok_or InvalidVersion (parse_uint 32 value);
        Ok (mkFields (Some v) (fl_pk f) (fl_port f) (fl_ipv4 f) (fl_ipv6 f))
      else if decide (key = chars "pk") then
        Ok (mkFields (fl_version f) (Some value) (fl_port f) (fl_ipv4 f) (fl_ipv6 f))
      else if decide (key = chars "p") then
        v ← ok_or InvalidPort (parse_uint 16 value);
        Ok (mkFields (fl_version f) (fl_pk f) (Some v) (fl_ipv4 f) (fl_ipv6 f))
      else if decide (key = chars "ip4") then
        v ← ok_or InvalidIpv4 (ipv4_parse value);
        Ok (mkFields (fl_version f) (fl_pk f) (fl_port f) (Some v) (fl_ipv6 f))
      else if decide (key = chars "ip6") then
        v ← ok_or InvalidIpv6 (ipv6_parse value);
        Ok (mkFields (fl_version f) (fl_pk f) (fl_port f) (fl_ipv4 f) (Some v))
      else Ok f
  | _ => Err InvalidQuery
  end.

Fixpoint parse_pairs (f : Fields) (pairs : list (list ascii)) : result PairingInfoError Fields :=
  match pairs with
  | [] => Ok f
  | kv :: pairs' => f' ← parse_pair f kv; parse_pairs f' pairs'
  end.

(** [PairingInfo::parse] *)
Definition parse_pairing_url (url : list ascii) : result PairingInfoError PairingInfo :=
  match strip_prefix URL_PREFIX url with
  | None => Err InvalidScheme
  | Some query =>
      f ← parse_pairs (mkFields None None None None None) (split "&"%char query);
      version ← ok_or (MissingField "version") (fl_version f);
      public_key ← ok_or (MissingField "public key") (fl_pk f);
      port ← ok_or (MissingField "port") (fl_port f);
      Ok (mkPairingInfo version public_key port (fl_ipv4 f) (fl_ipv6 f))
  end.
End url.

(** ** Facts *)

Lemma split_plain sep p : sep ∉ p → split sep p = [p].
Proof.
  induction p as [|c p IH]; simpl; [done|]. intros Hn. rewrite decide_False by set_solver.
  rewrite IH by set_solver. done.
Qed.

Lemma split_app sep p l : sep ∉ p → split sep (p ++ sep :: l) = p :: split sep l.
Proof.
  induction p as [|c p IH]; simpl; intros Hn; [by rewrite decide_True|].
  rewrite decide_False by set_solver. by rewrite IH by set_solver.
Qed.

Lemma strip_prefix_app p l : strip_prefix p (p ++ l) = Some l.
Proof. induction p as [|c p IH]; simpl; [done|]. by rewrite decide_True. Qed.

Lemma dec_plain c n sep : is_digit sep = false → c ∈ dec n → c ≠ sep.
Proof.
  intros Hs Hc ->. destruct (dec_spec n) as (_ & Hall & _). rewrite Forall_forall in Hall.
  specialize (Hall _ Hc). by rewrite Hs in Hall.
Qed.

Lemma octet_roundtrip n : (n < 256)%N → parse_octet (dec n) = Some n.
Proof.
  intros Hn.
  assert (Hall : forallb (λ k, bool_decide (parse_octet (dec (N.of_nat k)) = Some (N.of_nat k))) (seq 0 256) = true)
    by by vm_compute.
  rewrite forallb_forall in Hall. specialize (Hall (N.to_nat n)).
  rewrite N2Nat.id in Hall. eapply bool_decide_eq_true_1, Hall, in_seq. lia.
Qed.

Lemma octets_value a :
  (a < 2 ^ 32)%N → Forall (λ o, o < 256)%N (octets a) ∧
  (N.shiftl (N.shiftr a 24) 24 + N.shiftl (N.land (N.shiftr a 16) 255) 16
   + N.shiftl (N.land (N.shiftr a 8) 255) 8 + N.land a 255 = a)%N.
Proof.
  intros Ha. unfold octets.
  assert (Hl : ∀ x, N.land x 255 = (x mod 256)%N) by (intros x; apply (N.land_ones x 8)).
  rewrite !Hl, !N.shiftr_div_pow2, !N.shiftl_mul_pow2.
  assert (Hm : ∀ x, (x mod 256 < 256)%N) by (intros; apply N.mod_lt; lia).
  split.
  - repeat constructor; try apply Hm. apply N.Div0.div_lt_upper_bound. lia.
  - change (2 ^ 24)%N with (256 * (256 * 256))%N. change (2 ^ 16)%N with (256 * 256)%N. change (2 ^ 8)%N with 256%N.
    rewrite <-!N.Div0.div_div.
    pose proof (N.Div0.div_mod a 256) as H0. pose proof (N.Div0.div_mod (a / 256) 256) as H1.
    pose proof (N.Div0.div_mod (a / 256 / 256) 256) as H2.
    assert (Hd : (a / 256 / 256 / 256 = a / 256 / (256 * 256))%N) by (by rewrite N.Div0.div_div).
    lia.
Qed.

Lemma ipv4_roundtrip a : (a < 2 ^ 32)%N → ipv4_parse (ipv4_show a) = Some a.
Proof.
  intros Ha. destruct (octets_value a Ha) as [Ho Hv]. unfold ipv4_parse, ipv4_show, octets in *.
  repeat (apply Forall_cons in Ho as [? Ho]). cbn [fmap list_fmap intercalate].
  assert (Hdot : ∀ n, "."%char ∉ dec n) by (intros n Hin; by apply (dec_plain _ _ "."%char) in Hin).
  rewrite !split_app, split_plain by done. rewrite !octet_roundtrip by done. cbn. by rewrite Hv.
Qed.

(** Text without the separators of a query. *)
Definition plain (l : list ascii) : Prop := ∀ c, c ∈ l → c ≠ "&"%char ∧ c ≠ "="%char.

Lemma plain_dec n : plain (dec n).
Proof. intros c Hc. split; by eapply dec_plain. Qed.

Lemma plain_ipv4 a : plain (ipv4_show a).
Proof.
  intros c Hc. unfold ipv4_show, octets in Hc. cbn [fmap list_fmap intercalate] in Hc.
  repeat (apply elem_of_app in Hc as [Hc|Hc]; [by eapply plain_dec|];
          apply elem_of_cons in Hc as [->|Hc]; [done|]).
  by eapply plain_dec.
Qed.

Section roundtrip.
Context `{I6 : Ipv6Text} `{L6 : !Ipv6TextLaws I6}.

Lemma split_param key value :
  "="%char ∉ chars key → plain value → split "="%char (param key value) = [chars key; value].
Proof.
  intros Hk Hv. unfold param. rewrite split_app by done. rewrite split_plain; [done|].
  intros Hin. by apply Hv in Hin as [_ ?].
Qed.

(** A parameter before the rest of the query. *)
Lemma split_query key value rest :
  "&"%char ∉ chars key → plain value →
  split "&"%char (param key value ++ "&"%char :: rest) = param key value :: split "&"%char rest.
Proof.
  intros Hk Hv. apply split_app. unfold param. intros [Hin|Hin]%elem_of_app; [done|].
  apply elem_of_cons in Hin as [|Hin]; [done|]. by apply Hv in Hin as [? _].
Qed.

Lemma split_last key value :
  "&"%char ∉ chars key → plain value → split "&"%char (param key value) = [param key value].
Proof.
  intros Hk Hv. apply split_plain. unfold param. intros [Hin|Hin]%elem_of_app; [done|].
  apply elem_of_cons in Hin as [|Hin]; [done|]. by apply Hv in Hin as [? _].
Qed.

Definition query_params (pk : list ascii) (port : N) (ip4 ip6 : option N) : list (list ascii) :=
  [param "v" (chars "1"); param "pk" pk; param "p" (dec port)]
  ++ match ip4 with Some a => [param "ip4" (ipv4_show a)] | None => [] end
  ++ match ip6 with Some a => [param "ip6" (ipv6_show a)] | None => [] end.

Lemma split_generated pk port ip4 ip6 :
  plain pk → ∃ query, generate_pairing_url pk port ip4 ip6 = URL_PREFIX ++ query ∧
    split "&"%char query = query_params pk port ip4 ip6.
Proof.
  intros Hpk. eexists. split; [reflexivity|]. unfold query_params.
  assert (Hone : plain (chars "1")) by (intros c Hc; set_unfold; naive_solver).
  pose proof (plain_dec port) as Hport. pose proof plain_ipv4 as H4.
  assert (H6 : ∀ a, plain (ipv6_show a)) by (intros a c Hc; by apply (ipv6_plain a)).
  rewrite split_query by (done || set_solver). f_equal. rewrite split_query by (done || set_solver). f_equal.
  destruct ip4 as [a|], ip6 as [b|]; cbn [app]; rewrite ?app_nil_r;
    rewrite ?split_query, ?split_last by (done || set_solver); done.
Qed.

(** Each parameter is read into its field. *)
Ltac read_param :=
  intros; unfold parse_pair; rewrite split_param by (done || set_solver);
  repeat (rewrite decide_False by done); rewrite decide_True by done.

Lemma read_version f :
  parse_pair f (param "v" (chars "1")) = Ok (mkFields (Some 1%N) (fl_pk f) (fl_port f) (fl_ipv4 f) (fl_ipv6 f)).
Proof.
  assert (Hone : plain (chars "1")) by (intros c Hc; set_unfold; naive_solver). by read_param.
Qed.
Lemma read_key f pk :
  plain pk → parse_pair f (param "pk" pk) = Ok (mkFields (fl_version f) (Some pk) (fl_port f) (fl_ipv4 f) (fl_ipv6 f)).
Proof. by read_param. Qed.
Lemma read_port f port : (port < 2 ^ 16)%N →
  parse_pair f (param "p" (dec port)) = Ok (mkFields (fl_version f) (fl_pk f) (Some port) (fl_ipv4 f) (fl_ipv6 f)).
Proof. pose proof (plain_dec port). read_param. by rewrite (parse_dec 16) by done. Qed.
Lemma read_ipv4 f a : (a < 2 ^ 32)%N →
  parse_pair f (param "ip4" (ipv4_show a)) = Ok (mkFields (fl_version f) (fl_pk f) (fl_port f) (Some a) (fl_ipv6 f)).
Proof. pose proof (plain_ipv4 a). read_param. by rewrite ipv4_roundtrip by done. Qed.
Lemma read_ipv6 f a : (a < 2 ^ 128)%N →
  parse_pair f (param "ip6" (ipv6_show a)) = Ok (mkFields (fl_version f) (fl_pk f) (fl_port f) (fl_ipv4 f) (Some a)).
Proof.
  assert (plain (ipv6_show a)) by (intros c Hc; by apply (ipv6_plain a)). read_param.
  by rewrite ipv6_roundtrip by done.
Qed.
End roundtrip.

(** ** Claims *)

(** C31: The QR code says what was meant.  For every public key text without separators,
    port, and optional addresses within their widths, parsing the generated URL gives
    back exactly these values, with version 1. *)
Theorem pairing_url_roundtrip `{I6 : Ipv6Text} `{L6 : !Ipv6TextLaws I6} pk port ip4 ip6 :
  plain pk → (port < 2 ^ 16)%N →
  (∀ a, ip4 = Some a → a < 2 ^ 32)%N → (∀ a, ip6 = Some a → a < 2 ^ 128)%N →
  parse_pairing_url (generate_pairing_url pk port ip4 ip6) = Ok (mkPairingInfo 1 pk port ip4 ip6).
Proof.
  intros Hpk Hport H4 H6. destruct (split_generated pk port ip4 ip6 Hpk) as (query & -> & Hs).
  unfold parse_pairing_url. rewrite strip_prefix_app, Hs. unfold query_params. cbn [app parse_pairs].
  rewrite read_version. cbn [mbind result_bind]. rewrite read_key by done. cbn [mbind result_bind].
  rewrite read_port by done. cbn [mbind result_bind].
  destruct ip4 as [a|], ip6 as [b|]; cbn [app parse_pairs]; rewrite ?read_ipv4 by auto;
    cbn [mbind result_bind]; rewrite ?read_ipv6 by auto; done.
Qed.

(** Addresses as decimal numbers: a stand-in for their usual text. *)
#[export] Instance toy_ipv6 : Ipv6Text := {| ipv6_show := dec; ipv6_parse := parse_uint 128 |}.
#[export] Instance toy_ipv6_laws : Ipv6TextLaws toy_ipv6.
Proof. split; [intros; by apply parse_dec|]. intros a c. apply plain_dec. Qed.

Lemma pairing_url_roundtrip_witness :
  parse_pairing_url (generate_pairing_url (chars "aabbccdd") 12345 (Some 3232235876%N) None)
  = Ok (mkPairingInfo 1 (chars "aabbccdd") 12345 (Some 3232235876%N) None).
Proof.
  apply pairing_url_roundtrip; [|done| |done].
  - intros c Hc. set_unfold. naive_solver.
  - by intros a [= <-].
Defined.
