(* ===== verification/Firewall.v ===== *)
(** * The firewall guard: [shared/src/firewall.rs]

    Opening and closing a port by running [firewall-cmd] or [iptables], and the
    reference-counted guards that share an open port.  A command is what
    [std::process::Command] makes of a program and its arguments; the programs
    themselves are a parameter ([Commands]).  Locks are not poisoned: nothing panics
    while one is held. *)

From stdpp Require Import base gmap strings list.
From S2P Require Import Prelude Text PairingUrl.

Inductive Protocol := Tcp | Udp.
#[export] Instance protocol_eq_dec : EqDecision Protocol.
Proof. solve_decision. Defined.
#[export] Instance protocol_countable : Countable Protocol.
Proof. by apply (inj_countable' (λ p, bool_decide (p = Tcp)) (λ b, if (b : bool) then Tcp else Udp)); intros []. Defined.

(** [Display] *)
Definition protocol_text (p : Protocol) : string := match p with Tcp => "tcp" | Udp => "udp" end.

Inductive FirewallError :=
| FwIptables
| FwFirewallCmd
| FwIo.

(** How running a program can end. *)
Inductive CommandResult :=
| ProgramNotFound
| NotStarted
| Exited (success : bool).

Class Commands (T : Type) := run_command : string → list string → T → T * CommandResult.

Section commands.
Context {T : Type} `{R : !Commands T}.

Definition command {E} (program : string) (args : list string) : M T E CommandResult := λ t,
  let '(t', r) := run_command program args t in (t', Ok r).

Definition port_arg (port : Z) : string := String.string_of_list_ascii (dec (Z.to_N port)).

Definition is_firewalld_running {E} : M T E bool :=
  r ← command "systemctl" ["is-active"; "--quiet"; "firewalld"];
  mret (match r with Exited b => b | _ => false end).

Definition run_firewalld_port_action (action_flag : string) (port : Z) (protocol : Protocol)
    : M T FirewallError () :=
  r ← command "firewall-cmd" [action_flag; (port_arg port +:+ "/" +:+ protocol_text protocol)%string];
  match r with Exited true => mret () | _ => throw FwFirewallCmd end.

Definition add_firewalld_rule := run_firewalld_port_action "--add-port".
Definition remove_firewalld_rule := run_firewalld_port_action "--remove-port".

(** A host without either firewall needs nothing opened. *)
Definition iptables_status (r : CommandResult) : M T FirewallError () :=
  match r with
  | Exited true => mret ()
  | Exited false => throw FwIptables
  | ProgramNotFound => mret ()
  | NotStarted => throw FwIo
  end.

Definition open_port (port : Z) (protocol : Protocol) : M T FirewallError () :=
  firewalld ← is_firewalld_running;
  if (firewalld : bool) then add_firewalld_rule port protocol else
  r ← command "iptables" ["-I"; "INPUT"; "1"; "-p"; protocol_text protocol; "--dport"; port_arg port; "-j"; "ACCEPT"];
  iptables_status r.

Definition close_port (port : Z) (protocol : Protocol) : M T FirewallError () :=
  firewalld ← is_firewalld_running;
  if (firewalld : bool) then mapM_err (λ _, FwFirewallCmd) (remove_firewalld_rule port protocol) else
  r ← command "iptables" ["-D"; "INPUT"; "-p"; protocol_text protocol; "--dport"; port_arg port; "-j"; "ACCEPT"];
  iptables_status r.

(** ** Guards *)

(** A guard is an [Arc]: an identity with its port, protocol and count of strong
    references.  A [Weak] is the identity; it upgrades while the count is positive. *)
Record FirewallGuard := mkGuard { fg_port : Z; fg_protocol : Protocol; fg_strong : nat }.

Record PortControl := mkPortControl { pc_weak : option nat; pc_is_open : bool }.

Record Guards := mkGuards {
  gd_os : T;
  gd_ports : gmap Z PortControl;          (* [GUARDS] *)
  gd_arcs : gmap nat FirewallGuard;       (* guards with a positive count *)
  gd_fresh : nat;
}.

Definition upgrade (s : Guards) (w : option nat) : option nat :=
  i ← w; g ← gd_arcs s !! i; if decide (0 < fg_strong g)%nat then Some i else None.

Definition set_port (port : Z) (c : PortControl) (s : Guards) : Guards :=
  mkGuards (gd_os s) (<[port := c]> (gd_ports s)) (gd_arcs s) (gd_fresh s).
Definition set_arc (i : nat) (g : FirewallGuard) (s : Guards) : Guards :=
  mkGuards (gd_os s) (gd_ports s) (<[i := g]> (gd_arcs s)) (gd_fresh s).
Definition set_os (t : T) (s : Guards) : Guards := mkGuards t (gd_ports s) (gd_arcs s) (gd_fresh s).

(** [Arc::clone] *)
Definition clone_arc (i : nat) (s : Guards) : Guards :=
  match gd_arcs s !! i with
  | Some g => set_arc i (mkGuard (fg_port g) (fg_protocol g) (S (fg_strong g))) s
  | None => s
  end.

Definition on_commands {E A} (k : M T E A) : M Guards E A := λ s,
  let '(t, r) := k (gd_os s) in (set_os t s, r).

(** The entry of the map, made on first use. *)
Definition port_entry (port : Z) : M Guards FirewallError PortControl := λ s,
  let c := default (mkPortControl None false) (gd_ports s !! port) in (set_port port c s, Ok c).

(** A new guard for an open port. *)
Definition make_guard (port : Z) (protocol : Protocol) : M Guards FirewallError nat := λ s,
  let i := gd_fresh s in
  (mkGuards (gd_os s) (<[port := mkPortControl (Some i) true]> (gd_ports s))
     (<[i := mkGuard port protocol 1]> (gd_arcs s)) (S i), Ok i).

(** [FirewallGuard::new] *)
Definition firewall_new (port : Z) (protocol : Protocol) : M Guards FirewallError nat :=
  ctrl ← port_entry port;
  existing ← gets (λ s, upgrade s (pc_weak ctrl));
  match existing with
  | Some i => _ ← modify (clone_arc i); mret i
  | None =>
      _ ← (if pc_is_open ctrl then mret () else
           _ ← on_commands (open_port port protocol);
           modify (set_port port (mkPortControl (pc_weak ctrl) true)));
      make_guard port protocol
  end.

(** The close decision of a dropped guard; a failed close is only logged. *)
Definition do_drop_close (port : Z) (protocol : Protocol) (s : Guards) : Guards :=
  match gd_ports s !! port with
  | None => s
  | Some ctrl =>
      match upgrade s (pc_weak ctrl) with
      | Some _ => s
      | None =>
          if pc_is_open ctrl
          then set_port port (mkPortControl (pc_weak ctrl) false) (on_commands (close_port port protocol) s).1
          else s
      end
  end.

(** Dropping one strong reference: the last one runs [Drop], which is a step of its
    own, since other threads may come in between.  The result is the close that is
    now due. *)
Definition release (i : nat) (s : Guards) : Guards * option (Z * Protocol) :=
  match gd_arcs s !! i with
  | None => (s, None)
  | Some g =>
      let g' := mkGuard (fg_port g) (fg_protocol g) (pred (fg_strong g)) in
      (set_arc i g' s, if decide (fg_strong g = 1%nat) then Some (fg_port g, fg_protocol g) else None)
  end.
End commands.
Arguments Guards : clear implicits.
