(* ===== verification/FirewallTheorems.v ===== *)
(** * Theorems about the firewall guard

    While anyone holds a guard its port is open, and once nobody does it is closed,
    under every interleaving of new guards, drops and the close decisions that
    follow them; and what happens outside the intended use. *)

From stdpp Require Import base gmap sets strings list relations.
From Stdlib Require Import Strings.String.
From S2P Require Import Prelude Text PairingUrl Firewall.

(** ** An installed firewall *)

#[export] Instance command_result_eq_dec : EqDecision CommandResult.
Proof. solve_decision. Defined.

(** Documented behaviour of [firewalld] and [iptables]: a rule is there after it was
    added with success, an existing rule can be removed, and nothing else changes the
    rules. *)
Class InstalledFirewall (T : Type) `{R : !Commands T} := {
  rules : T → gset (Z * Protocol);
  firewalld : T → bool;
  systemctl_reports t t' r :
    run_command "systemctl" ["is-active"; "--quiet"; "firewalld"] t = (t', r) →
    rules t' = rules t ∧ firewalld t' = firewalld t ∧ r = Exited (firewalld t);
  rule_added t t' r port protocol :
    (if firewalld t then run_command "firewall-cmd" ["--add-port"; (port_arg port +:+ "/" +:+ protocol_text protocol)%string] t
     else run_command "iptables" ["-I"; "INPUT"; "1"; "-p"; protocol_text protocol; "--dport"; port_arg port; "-j"; "ACCEPT"] t)
    = (t', r) →
    0 ≤ port < 2 ^ 16 → (port, protocol) ∉ rules t →
    firewalld t' = firewalld t ∧ r ≠ ProgramNotFound ∧
    rules t' = if decide (r = Exited true) then {[(port, protocol)]} ∪ rules t else rules t;
  rule_removed t t' r port protocol :
    (if firewalld t then run_command "firewall-cmd" ["--remove-port"; (port_arg port +:+ "/" +:+ protocol_text protocol)%string] t
     else run_command "iptables" ["-D"; "INPUT"; "-p"; protocol_text protocol; "--dport"; port_arg port; "-j"; "ACCEPT"] t)
    = (t', r) →
    0 ≤ port < 2 ^ 16 → (port, protocol) ∈ rules t →
    firewalld t' = firewalld t ∧ r = Exited true ∧ rules t' = rules t ∖ {[(port, protocol)]};
}.

Section guards.
Context {T : Type} `{R : !Commands T} `{F : !InstalledFirewall T}.
Implicit Types (s : Guards T) (t : T).

Lemma open_port_run port protocol t t' r :
  open_port port protocol t = (t', r) → 0 ≤ port < 2 ^ 16 → (port, protocol) ∉ rules t →
  rules t' = if is_ok r then {[(port, protocol)]} ∪ rules t else rules t.
Proof.
  unfold open_port, is_firewalld_running, add_firewalld_rule, run_firewalld_port_action, command, iptables_status. munfold.
  intros Ho Hrange Hn. destruct (run_command "systemctl" _ t) as [t1 c] eqn:E1.
  apply systemctl_reports in E1 as (Hr1 & Hf1 & ->). simpl in Ho. rewrite <-Hr1 in *.
  pose proof (rule_added t1) as Ha. rewrite Hf1 in Ha.
  destruct (firewalld t); simpl in Ho; destruct (run_command _ _ t1) as [t2 c] eqn:E2;
    destruct (Ha _ _ _ _ E2 Hrange Hn) as (_ & Hnf & Hr); destruct c as [| |[]]; simpl in *; simplify_eq; done.
Qed.

Lemma close_port_run port protocol t t' r :
  close_port port protocol t = (t', r) → 0 ≤ port < 2 ^ 16 → (port, protocol) ∈ rules t →
  r = Ok () ∧ rules t' = rules t ∖ {[(port, protocol)]}.
Proof.
  unfold close_port, is_firewalld_running, remove_firewalld_rule, run_firewalld_port_action, command, iptables_status. munfold.
  intros Ho Hrange Hn. destruct (run_command "systemctl" _ t) as [t1 c] eqn:E1.
  apply systemctl_reports in E1 as (Hr1 & Hf1 & ->). simpl in Ho. rewrite <-Hr1 in *.
  pose proof (rule_removed t1) as Ha. rewrite Hf1 in Ha.
  destruct (firewalld t); simpl in Ho; destruct (run_command _ _ t1) as [t2 c] eqn:E2;
    destruct (Ha _ _ _ _ E2 Hrange Hn) as (_ & -> & Hr); simpl in *; by simplify_eq.
Qed.

(** ** Runs *)

(** The guards and the close decisions that dropped guards still have to make. *)
Record Run := mkRun { rn_guards : Guards T; rn_due : list (Z * Protocol) }.

Definition held (s : Guards T) (i : nat) (g : FirewallGuard) : Prop :=
  gd_arcs s !! i = Some g ∧ (0 < fg_strong g)%nat.

(** Each port is used with one protocol. *)
Context (protocol_of : Z → Protocol).

Inductive run_step : Run → Run → Prop :=
| run_new port s s' r due :
    0 ≤ port < 2 ^ 16 → firewall_new port (protocol_of port) s = (s', r) → run_step (mkRun s due) (mkRun s' due)
| run_clone i g s due : held s i g → run_step (mkRun s due) (mkRun (clone_arc i s) due)
| run_release i g s s' d due :
    held s i g → release i s = (s', d) → run_step (mkRun s due) (mkRun s' (option_list d ++ due))
| run_close port protocol s due1 due2 :
    run_step (mkRun s (due1 ++ (port, protocol) :: due2)) (mkRun (do_drop_close port protocol s) (due1 ++ due2)).

Record run_ok (x : Run) : Prop := {
  ro_rules port protocol :
    (port, protocol) ∈ rules (gd_os (rn_guards x)) ↔
    protocol = protocol_of port ∧ ∃ c, gd_ports (rn_guards x) !! port = Some c ∧ pc_is_open c = true;
  ro_held i g : held (rn_guards x) i g →
    fg_protocol g = protocol_of (fg_port g) ∧
    gd_ports (rn_guards x) !! fg_port g = Some (mkPortControl (Some i) true);
  ro_weak port c i : gd_ports (rn_guards x) !! port = Some c → pc_weak c = Some i →
    ∃ g, gd_arcs (rn_guards x) !! i = Some g ∧ fg_port g = port;
  ro_due port c : gd_ports (rn_guards x) !! port = Some c → pc_is_open c = true →
    upgrade (rn_guards x) (pc_weak c) = None → (port, protocol_of port) ∈ rn_due x;
  ro_due_protocol port protocol : (port, protocol) ∈ rn_due x → protocol = protocol_of port;
  ro_ports port : is_Some (gd_ports (rn_guards x) !! port) → 0 ≤ port < 2 ^ 16;
  ro_fresh i : is_Some (gd_arcs (rn_guards x) !! i) → (i < gd_fresh (rn_guards x))%nat;
}.

Lemma upgrade_Some s w i : upgrade s w = Some i ↔ w = Some i ∧ ∃ g, held s i g.
Proof.
  unfold upgrade, held. destruct w as [j|]; simpl; [|naive_solver].
  destruct (gd_arcs s !! j) as [g|] eqn:E; simpl; [|naive_solver]. case_decide; [naive_solver|].
  split; [done|]. intros ([= ->] & g' & Hg & ?). by simplify_eq.
Qed.

Lemma upgrade_None s w : upgrade s w = None ↔ ∀ i g, w = Some i → ¬ held s i g.
Proof.
  split.
  - intros Hu i g Hw Hg. assert (upgrade s w = Some i) by (apply upgrade_Some; eauto). congruence.
  - intros Hw. destruct (upgrade s w) as [i|] eqn:E; [|done]. apply upgrade_Some in E as (Hi & g & Hg). by eapply Hw in Hg.
Qed.

(** *** New guards *)

Lemma entry_ok s due port :
  0 ≤ port < 2 ^ 16 → run_ok (mkRun s due) →
  run_ok (mkRun (set_port port (default (mkPortControl None false) (gd_ports s !! port)) s) due).
Proof.
  intros Hrange Hok. destruct (gd_ports s !! port) as [c|] eqn:E; simpl.
  { unfold set_port. rewrite insert_id by done. by destruct s. }
  destruct Hok as [Hr Hh Hw Hd Hp Hpt Hf]. simpl in *. split; simpl; try done.
  - intros q pr. rewrite Hr. destruct (decide (q = port)) as [->|]; [|by rewrite lookup_insert_ne].
    rewrite lookup_insert_eq, E. naive_solver.
  - intros i g Hg. destruct (Hh i g Hg) as [? Hg2]. rewrite lookup_insert_ne; [done|]. intros ->. congruence.
  - intros q c i. destruct (decide (q = port)) as [->|]; [rewrite lookup_insert_eq; naive_solver|].
    rewrite lookup_insert_ne by done. apply Hw.
  - intros q c. destruct (decide (q = port)) as [->|]; [rewrite lookup_insert_eq; naive_solver|].
    rewrite lookup_insert_ne by done. apply Hd.
  - intros q [c Hq]. apply lookup_insert_Some in Hq as [[<- _]|[_ Hq]]; eauto.
Qed.

Lemma clone_ok s due i g : held s i g → run_ok (mkRun s due) → run_ok (mkRun (clone_arc i s) due).
Proof.
  intros [Hg Hpos] [Hr Hh Hw Hd Hp Hpt Hf]. simpl in *. unfold clone_arc. rewrite Hg. split; simpl; try done.
  - intros j g' [Hj Hs]. simpl in Hj. apply lookup_insert_Some in Hj as [[<- <-]|[? Hj]]; [|by apply Hh].
    destruct (Hh i g (conj Hg Hpos)). done.
  - intros q c j Hc Hj. destruct (Hw q c j Hc Hj) as (g' & Hg' & <-).
    destruct (decide (j = i)) as [->|]; [|by exists g'; rewrite lookup_insert_ne].
    simplify_eq. eexists. by rewrite lookup_insert_eq.
  - intros q c Hc Ho Hu. apply (Hd q c Hc Ho). rewrite upgrade_None in *. intros j g' Hj [Hg' Hs'].
    destruct (decide (j = i)) as [->|Hne].
    + eapply (Hu i); [done|]. split; [simpl; apply lookup_insert_eq|simpl; lia].
    + eapply (Hu j g'); [done|]. split; [|done]. simpl. by rewrite lookup_insert_ne.
  - intros j [g' Hg']. apply lookup_insert_Some in Hg' as [[<- _]|[_ Hg']]; eauto.
Qed.

Lemma make_ok s due t port c :
  run_ok (mkRun s due) → gd_ports s !! port = Some c → upgrade s (pc_weak c) = None →
  rules t = (if pc_is_open c then rules (gd_os s) else {[(port, protocol_of port)]} ∪ rules (gd_os s)) →
  run_ok (mkRun (make_guard port (protocol_of port) (set_os t s)).1 due).
Proof.
  intros [Hr Hh Hw Hd Hp Hpt Hf] Hc Hu Ht. simpl in *.
  assert (Hnew : gd_arcs s !! gd_fresh s = None).
  { destruct (gd_arcs s !! gd_fresh s) eqn:E; [|done]. assert (gd_fresh s < gd_fresh s)%nat by eauto. lia. }
  assert (Hport : ∀ i g, held s i g → fg_port g ≠ port).
  { intros i g Hg Heq. destruct (Hh i g Hg) as [_ Hg2]. rewrite Heq, Hc in Hg2. injection Hg2 as ->.
    rewrite upgrade_None in Hu. by eapply (Hu i g). }
  split; simpl; try done.
  - intros q pr. rewrite Ht. destruct (decide (q = port)) as [->|Hne].
    + rewrite lookup_insert_eq. pose proof (Hr port pr) as Hq. rewrite Hc in Hq.
      destruct (pc_is_open c) eqn:Ho; rewrite ?elem_of_union, ?elem_of_singleton; naive_solver.
    + rewrite lookup_insert_ne by done. rewrite <-Hr. destruct (pc_is_open c); set_solver.
  - intros i g [Hg Hs]. simpl in Hg. apply lookup_insert_Some in Hg as [[<- <-]|[Hi Hg]]; simpl.
    + by rewrite lookup_insert_eq.
    + destruct (Hh i g (conj Hg Hs)). split; [done|]. rewrite lookup_insert_ne; [done|].
      intros Heq. by apply (Hport i g).
  - intros q c' i Hq Hi. apply lookup_insert_Some in Hq as [[<- <-]|[Hne Hq]]; simpl in *.
    + injection Hi as <-. eexists. by rewrite lookup_insert_eq.
    + destruct (Hw q c' i Hq Hi) as (g & Hg & Hgp). exists g. split; [|done].
      rewrite lookup_insert_ne; [done|]. intros Heq. congruence.
  - intros q c' Hq Ho Hun. rewrite upgrade_None in Hun. apply lookup_insert_Some in Hq as [[<- <-]|[Hne Hq]].
    + exfalso. eapply (Hun (gd_fresh s)); [done|]. split; [simpl; apply lookup_insert_eq|simpl; lia].
    + apply (Hd q c' Hq Ho). rewrite upgrade_None. intros j g Hj [Hg Hs]. eapply (Hun j g Hj). split; [|done].
      simpl. rewrite lookup_insert_ne; [done|]. intros Heq. congruence.
  - intros q [c' Hq]. apply lookup_insert_Some in Hq as [[<- _]|[_ Hq]]; eauto.
  - intros i [g Hg]. apply lookup_insert_Some in Hg as [[<- _]|[_ Hg]]; [lia|]. assert (i < gd_fresh s)%nat by eauto. lia.
Qed.

Lemma new_ok s s' due port r :
  0 ≤ port < 2 ^ 16 → firewall_new port (protocol_of port) s = (s', r) →
  run_ok (mkRun s due) → run_ok (mkRun s' due).
Proof.
  intros Hrange Hn Hok. apply (entry_ok _ _ port Hrange) in Hok. unfold firewall_new, port_entry, on_commands in Hn. munfold.
  set (c := default _ _) in *. set (s1 := set_port port c s) in *.
  assert (Hc : gd_ports s1 !! port = Some c) by apply lookup_insert_eq.
  destruct (upgrade s1 (pc_weak c)) as [i|] eqn:Hu.
  { simplify_eq. apply upgrade_Some in Hu as (_ & g & Hg). by eapply clone_ok. }
  assert (Hos : s1 = set_os (gd_os s1) s1) by by destruct s.
  destruct (pc_is_open c) eqn:Ho; simpl in Hn.
  { injection Hn as <- _. change (run_ok (mkRun (make_guard port (protocol_of port) s1).1 due)). rewrite Hos.
    eapply make_ok; [done..|]. by rewrite Ho. }
  destruct (open_port port (protocol_of port) (gd_os s)) as [t r1] eqn:E.
  apply open_port_run in E; [|done|].
  2:{ pose proof (ro_rules _ Hok port (protocol_of port)) as Hq. simpl in Hq. rewrite Hq, lookup_insert_eq.
      intros (_ & c' & [= <-] & ?). congruence. }
  destruct r1 as [[]|e]; simpl in *; injection Hn as <- _.
  - replace (mkGuards t _ _ _) with (make_guard port (protocol_of port) (set_os t s1)).1.
    { eapply make_ok; [done..|]. by rewrite Ho. }
    simpl. f_equal. by rewrite !insert_insert_eq.
  - destruct Hok as [Hr Hh Hw Hd Hp Hpt Hf]. split; try done. intros q pr. simpl. rewrite E. apply Hr.
Qed.

(** *** Drops and closes *)

Lemma release_ok s s' due d i g :
  held s i g → release i s = (s', d) → run_ok (mkRun s due) → run_ok (mkRun s' (option_list d ++ due)).
Proof.
  intros Hheld Hrel [Hr Hh Hw Hd Hp Hpt Hf]. simpl in *. destruct (Hh i g Hheld) as [Hpr Hport].
  destruct Hheld as [Hg Hpos]. unfold release in Hrel. rewrite Hg in Hrel. injection Hrel as <- Hd'.
  split; simpl; try done.
  - intros j g' [Hj Hs]. simpl in Hj. apply lookup_insert_Some in Hj as [[<- <-]|[? Hj]]; [done|by apply Hh].
  - intros q c j Hc Hj. destruct (Hw q c j Hc Hj) as (g' & Hg' & <-).
    destruct (decide (j = i)) as [->|]; [|by exists g'; rewrite lookup_insert_ne].
    simplify_eq. eexists. by rewrite lookup_insert_eq.
  - intros q c Hc Ho Hu. destruct (decide (upgrade s (pc_weak c) = None)) as [Hun|Hun].
    { apply elem_of_app. right. by eapply Hd. }
    destruct (upgrade s (pc_weak c)) as [j|] eqn:Ej; [|done]. apply upgrade_Some in Ej as (Hj & gj & Hgj).
    rewrite upgrade_None in Hu. destruct (decide (j = i)) as [->|Hne].
    + destruct (Hw q c i Hc Hj) as (g2 & Hg2 & Hq). rewrite Hg in Hg2. injection Hg2 as <-.
      assert (fg_strong g = 1%nat).
      { destruct (decide (fg_strong g = 1%nat)); [done|]. exfalso.
        eapply (Hu i); [done|]. split; [simpl; apply lookup_insert_eq|simpl; lia]. }
      rewrite decide_True in Hd' by done. subst d. apply elem_of_app. left. simpl. rewrite <-Hq, <-Hpr.
      by apply list_elem_of_singleton.
    + exfalso. destruct Hgj as [Hgj Hs]. eapply (Hu j gj Hj). split; [|done]. simpl. by rewrite lookup_insert_ne.
  - intros q pr [Hin|Hin]%elem_of_app; [|by apply Hp]. case_decide; subst d; simpl in Hin.
    + apply list_elem_of_singleton in Hin. by simplify_eq.
    + by apply elem_of_nil in Hin.
  - intros j [g' Hg']. apply lookup_insert_Some in Hg' as [[<- _]|[_ Hg']]; eauto.
Qed.

(** A decision that was taken. *)
Lemma due_done s due1 due2 port protocol :
  run_ok (mkRun s (due1 ++ (port, protocol) :: due2)) →
  (∀ c, gd_ports s !! port = Some c → pc_is_open c = true → upgrade s (pc_weak c) ≠ None) →
  run_ok (mkRun s (due1 ++ due2)).
Proof.
  intros [Hr Hh Hw Hd Hp Hpt Hf] Hport. simpl in *. split; simpl; try done.
  - intros q c Hc Ho Hu. pose proof (Hd q c Hc Ho Hu) as Hin. rewrite elem_of_app, elem_of_cons in Hin.
    rewrite elem_of_app. destruct Hin as [?|[Heq|?]]; [by left| |by right]. simplify_eq. by destruct (Hport c).
  - intros q pr Hin. apply Hp. rewrite elem_of_app, elem_of_cons. rewrite elem_of_app in Hin. naive_solver.
Qed.

Lemma close_ok s due1 due2 port protocol :
  run_ok (mkRun s (due1 ++ (port, protocol) :: due2)) →
  run_ok (mkRun (do_drop_close port protocol s) (due1 ++ due2)).
Proof.
  intros Hok. unfold do_drop_close. destruct (gd_ports s !! port) as [ctrl|] eqn:Hc.
  2:{ eapply due_done; [done|]. intros c. by rewrite Hc. }
  destruct (upgrade s (pc_weak ctrl)) as [i|] eqn:Hu.
  { eapply due_done; [done|]. intros c. rewrite Hc. intros [= <-]. by rewrite Hu. }
  destruct (pc_is_open ctrl) eqn:Ho.
  2:{ eapply due_done; [done|]. intros c. rewrite Hc. intros [= <-]. by rewrite Ho. }
  assert (protocol = protocol_of port) as ->.
  { apply (ro_due_protocol _ Hok). simpl. apply elem_of_app. right. by constructor. }
  assert (Hin : (port, protocol_of port) ∈ rules (gd_os s)).
  { apply (ro_rules _ Hok). split; [done|]. by exists ctrl. }
  unfold on_commands. destruct (close_port port (protocol_of port) (gd_os s)) as [t r] eqn:E.
  apply close_port_run in E as [_ E]; [|apply (ro_ports _ Hok); simpl; by rewrite Hc|done]. simpl.
  apply (due_done _ _ _ port (protocol_of port)); [|simpl; rewrite lookup_insert_eq; by intros c [= <-]].
  destruct Hok as [Hr Hh Hw Hd Hp Hpt Hf]. simpl in *. split; simpl; try done.
  - intros q pr. rewrite E, elem_of_difference, elem_of_singleton, Hr.
    destruct (decide (q = port)) as [->|Hne].
    + rewrite lookup_insert_eq. naive_solver.
    + rewrite lookup_insert_ne by done. naive_solver.
  - intros i g Hg. destruct (Hh i g Hg) as [? Hgp]. split; [done|]. rewrite lookup_insert_ne; [done|].
    intros ->. rewrite Hc in Hgp. injection Hgp as ->. rewrite upgrade_None in Hu. by eapply (Hu i g).
  - intros q c i. rewrite lookup_insert_Some. intros [[<- <-]|[_ Hq]] Hi; [by eapply Hw|by eapply Hw].
  - intros q c. rewrite lookup_insert_Some. intros [[<- <-]|[_ Hq]]; [done|by apply Hd].
  - intros q [c' Hq]. apply lookup_insert_Some in Hq as [[<- _]|[_ Hq]]; eauto.
Qed.

Lemma step_ok x x' : run_step x x' → run_ok x → run_ok x'.
Proof.
  intros [port s s' r due Hrange Hn|i g s due Hi|i g s s' d due Hi Hrel|port protocol s due1 due2].
  - by eapply new_ok.
  - by eapply clone_ok.
  - by eapply release_ok.
  - apply close_ok.
Qed.

(** Nothing has been opened yet. *)
Definition no_guards (t : T) : Guards T := mkGuards t ∅ ∅ 0.

Lemma start_ok t : rules t = ∅ → run_ok (mkRun (no_guards t) []).
Proof.
  intros Ht. split; simpl; try (by intros; simplify_map_eq).
  - intros port protocol. rewrite Ht. set_solver.
  - by intros i g [Hg _].
  - by intros port protocol ?%elem_of_nil.
Qed.

(** C26: A guard keeps its port open, and only guards do.  On a host with a working
    firewall, with one protocol per port, after any interleaving of new guards, clones,
    drops and close decisions: every guard that is still held has its rule in the
    firewall, and every rule belongs to a guard that is still held or to a close that is
    about to happen.  So once all guards are dropped and their closes have run, no rule
    is left. *)
Theorem firewall_guarded t x :
  rules t = ∅ → rtc run_step (mkRun (no_guards t) []) x →
  (∀ i g, held (rn_guards x) i g → (fg_port g, fg_protocol g) ∈ rules (gd_os (rn_guards x))) ∧
  (∀ port protocol, (port, protocol) ∈ rules (gd_os (rn_guards x)) →
     (∃ i g, held (rn_guards x) i g ∧ fg_port g = port ∧ fg_protocol g = protocol) ∨ (port, protocol) ∈ rn_due x).
Proof.
  intros Ht Hsteps. assert (run_ok x) as [Hr Hh Hw Hd Hp Hpt Hf].
  { eapply rtc_ind_r; [by apply start_ok| |exact Hsteps]. intros. by eapply step_ok. }
  split.
  - intros i g Hg. destruct (Hh i g Hg) as [-> Hc]. apply Hr. split; [done|]. by eexists.
  - intros port protocol (-> & c & Hc & Ho)%Hr. destruct (upgrade (rn_guards x) (pc_weak c)) as [i|] eqn:Hu.
    + left. apply upgrade_Some in Hu as (Hi & g & Hg). exists i, g. destruct (Hw _ _ _ Hc Hi) as (g' & Hg' & <-).
      destruct (Hh i g Hg) as [Hpr _]. destruct Hg as [Hg ?]. rewrite Hg in Hg'. injection Hg' as <-. by repeat split.
    + right. by eapply Hd.
Qed.
End guards.

(** ** A concrete host *)

(** Rules of [iptables] as a list, newest first; [down] commands still to fail. *)
Record Host := mkHost { ho_rules : list (string * string); ho_fails : list nat; ho_ran : nat }.

(** A rule is named by the protocol and the port of the command line. *)
Definition remove_one (x : string * string) (l : list (string * string)) : option (list (string * string)) :=
  match list_find (eq x) l with Some (i, _) => Some (delete i l) | None => None end.

#[export] Instance host_commands : Commands Host := λ program args h,
  let n := S (ho_ran h) in
  if bool_decide (ho_ran h ∈ ho_fails h) then (mkHost (ho_rules h) (ho_fails h) n, Exited false) else
  if decide (program = "iptables"%string) then
    match args with
    | ["-I"%string; _; _; _; protocol; _; port; _; _] => (mkHost ((protocol, port) :: ho_rules h) (ho_fails h) n, Exited true)
    | ["-D"%string; _; _; protocol; _; port; _; _] =>
        match remove_one (protocol, port) (ho_rules h) with
        | Some l => (mkHost l (ho_fails h) n, Exited true)
        | None => (mkHost (ho_rules h) (ho_fails h) n, Exited false)
        end
    | _ => (h, NotStarted)
    end
  else (mkHost (ho_rules h) (ho_fails h) n, Exited false).

(** A host whose [iptables] keeps a set of rules. *)
Definition parse_rule (protocol port : string) : option (Z * Protocol) :=
  n ← parse_uint 16 (chars port);
  if decide (protocol = "tcp"%string) then Some (Z.of_N n, Tcp) else
  if decide (protocol = "udp"%string) then Some (Z.of_N n, Udp) else None.

Definition rule_set : Type := gset (Z * Protocol).
#[export] Instance rule_set_commands : Commands rule_set := λ program args t,
  if decide (program = "iptables"%string) then
    match args with
    | ["-I"%string; _; _; _; protocol; _; port; _; _] =>
        match parse_rule protocol port with Some x => ({[x]} ∪ t, Exited true) | None => (t, Exited false) end
    | ["-D"%string; _; _; protocol; _; port; _; _] =>
        match parse_rule protocol port with
        | Some x => if decide (x ∈ t) then (t ∖ {[x]}, Exited true) else (t, Exited false)
        | None => (t, Exited false)
        end
    | _ => (t, NotStarted)
    end
  else (t, Exited false).

Lemma parse_rule_text port protocol :
  0 ≤ port < 2 ^ 16 → parse_rule (protocol_text protocol) (port_arg port) = Some (port, protocol).
Proof.
  intros Hp. unfold parse_rule, port_arg, chars. rewrite list_ascii_of_string_of_list_ascii.
  rewrite parse_dec by lia. simpl. rewrite Z2N.id by lia. by destruct protocol.
Qed.

#[export] Program Instance rule_set_firewall : InstalledFirewall rule_set := {|
  rules t := t;
  firewalld _ := false;
|}.
Next Obligation. intros t t' r Hs. by injection Hs as <- <-. Qed.
Next Obligation.
  intros t t' r port protocol Hs Hp _. unfold run_command, rule_set_commands in Hs. simpl in Hs.
  rewrite parse_rule_text in Hs by done. by injection Hs as <- <-.
Qed.
Next Obligation.
  intros t t' r port protocol Hs Hp Hin. unfold run_command, rule_set_commands in Hs. simpl in Hs.
  rewrite parse_rule_text in Hs by done. rewrite decide_True in Hs by done. by injection Hs as <- <-.
Qed.

Lemma firewall_guarded_witness :
  ∃ x : Run, rtc (run_step (λ _, Udp)) (mkRun (no_guards (∅ : rule_set)) []) x ∧
    (36692, Udp) ∈ rules (gd_os (rn_guards x)).
Proof.
  destruct (firewall_new 36692 Udp (no_guards (∅ : rule_set))) as [s r] eqn:E.
  assert (Hsteps : rtc (run_step (λ _, Udp)) (mkRun (no_guards (∅ : rule_set)) []) (mkRun s [])).
  { eapply rtc_l; [|apply rtc_refl]. eapply run_new; [|exact E]. lia. }
  destruct (firewall_guarded (T := rule_set) (λ _, Udp) (∅ : rule_set) _ ltac:(by unfold rules) Hsteps) as [Hheld _].
  exists (mkRun s []). split; [exact Hsteps|].
  apply (Hheld 0%nat (mkGuard 36692 Udp 1)). simpl. vm_compute in E. injection E as <- _. split; [exact eq_refl|]. simpl. lia.
Defined.

(** Ports are shared across protocols.  While a guard for UDP is held, asking for a
    TCP guard of the same port runs no command and returns the UDP guard: the TCP port
    is not opened. *)
Theorem firewall_ignores_protocol {T} `{R : !Commands T} port s i g c :
  gd_ports s !! port = Some c → pc_weak c = Some i → gd_arcs s !! i = Some g → (0 < fg_strong g)%nat →
  fg_protocol g = Udp →
  ∃ s', firewall_new port Tcp s = (s', Ok i) ∧ gd_os s' = gd_os s ∧
    gd_arcs s' !! i = Some (mkGuard (fg_port g) Udp (S (fg_strong g))).
Proof.
  intros Hc Hw Hg Hpos Hp. unfold firewall_new, port_entry. munfold. rewrite Hc. simpl.
  unfold upgrade. rewrite Hw. simpl. rewrite Hg. simpl. rewrite decide_True by done.
  eexists. split; [done|]. unfold clone_arc. simpl. rewrite Hg, Hp. split; [done|]. apply lookup_insert_eq.
Qed.

Lemma firewall_ignores_protocol_witness :
  ∃ s', firewall_new 36692 Tcp (firewall_new 36692 Udp (mkGuards (∅ : rule_set) ∅ ∅ 0)).1 = (s', Ok 0%nat) ∧
    gd_os s' = {[(36692, Udp)]}.
Proof.
  destruct (firewall_ignores_protocol 36692 (firewall_new 36692 Udp (mkGuards (∅ : rule_set) ∅ ∅ 0)).1 0
    (mkGuard 36692 Udp 1) (mkPortControl (Some 0%nat) true)) as (s' & Hn & Hos & _);
    [by vm_compute|exact eq_refl|by vm_compute|simpl; lia|exact eq_refl|].
  exists s'. split; [exact Hn|]. rewrite Hos. by vm_compute.
Defined.

(** A failed close is forgotten.  When the command that closes a port fails, the guard
    counts the port as closed: a later guard inserts a second rule, and when that one is
    closed the first stays in the firewall for good. *)
Theorem failed_close_leaks :
  let start : Guards Host := mkGuards (mkHost [] [3%nat] 0) ∅ ∅ 0 in
  let '(s1, g1) := firewall_new 36692 Udp start in
  let s2 := do_drop_close 36692 Udp (release 0 s1).1 in
  let '(s3, g2) := firewall_new 36692 Udp s2 in
  let s4 := do_drop_close 36692 Udp (release 1 s3).1 in
  g1 = Ok 0%nat ∧ g2 = Ok 1%nat ∧ pc_is_open <$> gd_ports s2 !! 36692 = Some false ∧
  ho_rules (gd_os s3) = [("udp", "36692"); ("udp", "36692")]%string ∧
  pc_is_open <$> gd_ports s4 !! 36692 = Some false ∧ ho_rules (gd_os s4) = [("udp", "36692")]%string.
Proof. vm_compute. by repeat split. Qed.

(** ** Locks

    [do_drop_close] at a finer grain: it holds the lock of the port while the
    temporary of [weak.upgrade()] lives, and that temporary is a strong reference. *)
Section locks.
Context {T : Type} `{R : !Commands T}.

(** Ports whose lock is held by a close decision, with the temporary reference; and
    ports whose holder waits for the lock it holds. *)
Record Locked := mkLocked {
  lk_guards : Guards T;
  lk_due : list (Z * Protocol);
  lk_checking : gmap Z nat;
  lk_stuck : gset Z;
}.

Definition lock_free (x : Locked) (port : Z) : Prop := lk_checking x !! port = None ∧ port ∉ lk_stuck x.

Inductive lock_step : Locked → Locked → Prop :=
| lock_new port protocol s s' r due ch st :
    lock_free (mkLocked s due ch st) port → firewall_new port protocol s = (s', r) →
    lock_step (mkLocked s due ch st) (mkLocked s' due ch st)
| lock_release i g s s' d due ch st :
    held s i g → release i s = (s', d) →
    lock_step (mkLocked s due ch st) (mkLocked s' (option_list d ++ due) ch st)
| lock_close port protocol s due1 due2 ch st c :
    lock_free (mkLocked s due1 ch st) port → gd_ports s !! port = Some c → upgrade s (pc_weak c) = None →
    lock_step (mkLocked s (due1 ++ (port, protocol) :: due2) ch st)
      (mkLocked (do_drop_close port protocol s) (due1 ++ due2) ch st)
| lock_check port protocol s due1 due2 ch st c i :
    lock_free (mkLocked s due1 ch st) port → gd_ports s !! port = Some c → upgrade s (pc_weak c) = Some i →
    lock_step (mkLocked s (due1 ++ (port, protocol) :: due2) ch st)
      (mkLocked (clone_arc i s) (due1 ++ due2) (<[port := i]> ch) st)
| lock_check_end port i s s' due ch st :
    ch !! port = Some i → release i s = (s', None) →
    lock_step (mkLocked s due ch st) (mkLocked s' due (delete port ch) st)
(** The temporary was the last reference: its [Drop] locks the same port again. *)
| lock_check_last port i s s' d due ch st :
    ch !! port = Some i → release i s = (s', Some d) →
    lock_step (mkLocked s due ch st) (mkLocked s' due (delete port ch) ({[port]} ∪ st)).

Lemma stuck_forever x y port : rtc lock_step x y → port ∈ lk_stuck x → port ∈ lk_stuck y.
Proof. induction 1 as [|x y z Hs _ IH]; [done|]. intros Hx. apply IH. destruct Hs; simpl in *; set_solver. Qed.
End locks.

(** Dropping a guard can lock its port up for good.  There is a schedule of two users
    of one port, each making and dropping a guard, after which a thread waits for the
    lock it holds itself; from then on no guard for this port is ever made again, nor a
    close decided. *)
Theorem drop_self_deadlock :
  ∃ x : Locked (T := rule_set),
    rtc lock_step (mkLocked (no_guards (∅ : rule_set)) [] ∅ ∅) x ∧
    ∀ y, rtc lock_step x y → ¬ lock_free y 36692.
Proof.
  set (s1 := (firewall_new 36692 Udp (no_guards (∅ : rule_set))).1).
  set (s2 := (release 0 s1).1). set (s3 := (firewall_new 36692 Udp s2).1).
  set (s4 := clone_arc 1 s3). set (s5 := (release 1 s4).1). set (s6 := (release 1 s5).1).
  exists (mkLocked s6 [] (delete 36692 (<[36692 := 1%nat]> ∅)) ({[36692]} ∪ ∅)). split.
  - eapply rtc_l; [by apply (lock_new 36692 Udp _ s1 (Ok 0%nat)); [split|vm_compute]|].
    eapply rtc_l; [eapply (lock_release 0 (mkGuard 36692 Udp 1) s1 s2 (Some (36692, Udp)));
      [split; [by vm_compute|simpl; lia]|by vm_compute]|].
    eapply rtc_l; [by apply (lock_new 36692 Udp _ s3 (Ok 1%nat)); [split|vm_compute]|].
    eapply rtc_l; [eapply (lock_check 36692 Udp s3 [] [] ∅ ∅ (mkPortControl (Some 1%nat) true) 1);
      [by split|by vm_compute|by vm_compute]|].
    eapply rtc_l; [eapply (lock_release 1 (mkGuard 36692 Udp 2) s4 s5 None);
      [split; [by vm_compute|simpl; lia]|by vm_compute]|].
    apply rtc_once. by apply (lock_check_last 36692 1 s5 s6 (36692, Udp)); vm_compute.
  - intros y Hy [_ Hn]. apply Hn. eapply stuck_forever; [exact Hy|]. simpl. set_solver.
Qed.
