(* ===== verification/Pairing.v ===== *)
(** * Pairing: [shared/src/protocol/pairing.rs]

    The two-phase handshake between the client (the computer) and the server (the
    phone).  A side is its session, its operating system and its TCP stream; the
    stream is what the peer will have sent before closing, what has been written,
    and which of the next writes fail.

    The reads have no timeout.  A peer that neither sends nor closes leaves the call
    waiting for ever; the definitions below describe calls that return, and nothing here
    says that one does. *)

From stdpp Require Import base gmap strings list.
From S2P Require Import Prelude Os Text Crypto Protocol.

(** ** Streams *)

Record Stream := mkStream {
  s_in : bytes;
  s_out : bytes;
  s_wfail : list bool;   (* for each next write call, whether it fails *)
}.

(** [read_exact]: an end of stream before [n] bytes is an error, and what was
    there has been consumed. *)
Definition read_exact (n : nat) : M Stream io_error bytes := λ s,
  if decide (n ≤ length (s_in s))%nat
  then (mkStream (drop n (s_in s)) (s_out s) (s_wfail s), Ok (take n (s_in s)))
  else (mkStream [] (s_out s) (s_wfail s), Err IoOther).

(** [read_u32]: big-endian. *)
Definition read_u32 : M Stream io_error Z :=
  b ← read_exact 4;
  mret (from_be_bytes b).

(** [write_all] *)
Definition write_all (d : bytes) : M Stream io_error () := λ s,
  match s_wfail s with
  | true :: l => (mkStream (s_in s) (s_out s) l, Err IoOther)
  | l => (mkStream (s_in s) (s_out s ++ d) (tail l), Ok ())
  end.

Definition write_u32 (z : Z) : M Stream io_error () := write_all (to_be_bytes 4 z).
Definition flush : M Stream io_error () := write_all [].

(** ** Messages *)

Record PairingHello := mkPairingHello {
  ph_version : Z;
  ph_x25519_public_key : bytes;
  ph_ed25519_public_key : bytes;
  ph_device_name : string;
  ph_supported_symmetric : list Z;
  ph_supported_hash : list Z;
  ph_supported_signature : list Z;
}.
Record PairingResponse := mkPairingResponse {
  pr_version : Z;
  pr_x25519_public_key : bytes;
  pr_ed25519_public_key : bytes;
  pr_device_name : string;
  pr_selected_symmetric : Z;
  pr_selected_hash : Z;
  pr_selected_signature : Z;
}.
Record PairingCskMessage := mkPairingCskMessage { pm_encrypted_csk : bytes; pm_username : string }.
Record PairingComplete := mkPairingComplete {
  pc_success : bool;
  pc_hash_algorithm : Z;
  pc_csk_hash : bytes;
}.

#[global] Instance hello_wire : WireValue PairingHello := λ m,
  u32 (ph_version m) ∧ Forall i32 (ph_supported_symmetric m) ∧
  Forall i32 (ph_supported_hash m) ∧ Forall i32 (ph_supported_signature m).
#[global] Instance response_wire : WireValue PairingResponse := λ m,
  u32 (pr_version m) ∧ i32 (pr_selected_symmetric m) ∧ i32 (pr_selected_hash m) ∧
  i32 (pr_selected_signature m).
#[global] Instance csk_message_wire : WireValue PairingCskMessage := λ _, True.
#[global] Instance complete_wire : WireValue PairingComplete := λ m, i32 (pc_hash_algorithm m).

Definition MAX_MESSAGE_SIZE : Z := 16 * 1024.
Definition PAIRING_VERSION : Z := 1.

(** ** Sessions *)

Record ClientPairingSession := mkClientSession {
  c_x25519_keypair : X25519KeyPair;
  c_ed25519_keypair : Ed25519KeyPair;
  c_server_x25519_public : option bytes;
  c_psk : option PairingSymmetricKey;
  c_sas : option string;
  c_server_supported_symmetric : list Z;
  c_server_supported_hash : list Z;
  c_server_supported_signature : list Z;
}.

Record ServerPairingSession := mkServerSession {
  sv_x25519_keypair : X25519KeyPair;
  sv_ed25519_public_key : bytes;
  sv_client_x25519_public : option bytes;
  sv_psk : option PairingSymmetricKey;
  sv_sas : option string;
}.

(** One side of a pairing. *)
Record Peer (A : Type) := mkPeer {
  p_world : World;
  p_stream : Stream;
  p_session : A;
}.
Arguments mkPeer {A} _ _ _.
Arguments p_world {A} _.
Arguments p_stream {A} _.
Arguments p_session {A} _.

(** Code on the stream or on the operating system, run within a side. *)
Definition on_stream {A B} (k : M Stream io_error B) : M (Peer A) ProtocolError B := λ p,
  let '(s, r) := k (p_stream p) in (mkPeer (p_world p) s (p_session p), map_err PE_Io r).
Definition on_world {A B} (k : M World CryptoError B) : M (Peer A) ProtocolError B := λ p,
  let '(w, r) := k (p_world p) in (mkPeer w (p_stream p) (p_session p), map_err PE_Crypto r).
Definition session {A E} : M (Peer A) E A := gets p_session.
Definition set_session {A E} (f : A → A) : M (Peer A) E () :=
  modify (λ p, mkPeer (p_world p) (p_stream p) (f (p_session p))).

Section operations.
Context `{C : CryptoOps}.
Context `{KH : !Codec PairingHello} `{KR : !Codec PairingResponse}.
Context `{KM : !Codec PairingCskMessage} `{KC : !Codec PairingComplete}.

(** A length-prefixed message in, as each [receive_*] reads it. *)
Definition receive_message {A B} `{Codec B} : M (Peer A) ProtocolError B :=
  len ← on_stream read_u32;
  if decide (MAX_MESSAGE_SIZE < len) then throw PE_InvalidMessageFormat else
  buf ← on_stream (read_exact (Z.to_nat len));
  lift (ok_or PE_Deserialization (decode buf)).

(** A length-prefixed message out; the length is cast with [as u32]. *)
Definition send_message {A B} `{Codec B} (m : B) : M (Peer A) ProtocolError () :=
  let buf := encode_to_vec m in
  _ ← on_stream (write_u32 (Z.of_nat (length buf) mod 2 ^ 32));
  _ ← on_stream (write_all buf);
  on_stream flush.

(** [slice.try_into::<[u8; 32]>()] *)
Definition array32 (b : bytes) : result ProtocolError bytes :=
  if decide (length b = 32%nat) then Ok b else Err PE_InvalidMessageFormat.

(** ** Client *)

Definition client_new (kp : Ed25519KeyPair) : M World CryptoError ClientPairingSession :=
  x ← x25519_generate;
  mret (mkClientSession x kp None None None [] [] []).

Definition x25519_public_key (s : ClientPairingSession) : bytes := x25519_public_bytes (c_x25519_keypair s).
Definition ed25519_public_key (s : ClientPairingSession) : bytes := verifying_key_bytes (c_ed25519_keypair s).

Definition receive_pairing_hello : M (Peer ClientPairingSession) ProtocolError PairingHello :=
  hello ← receive_message;
  if decide (ph_version hello = PAIRING_VERSION) then mret hello else throw PE_InvalidMessageFormat.

Definition send_pairing_response (client_device_name : string)
    : M (Peer ClientPairingSession) ProtocolError () :=
  s ← session;
  send_message {|
    pr_version := PAIRING_VERSION;
    pr_x25519_public_key := x25519_public_key s;
    pr_ed25519_public_key := ed25519_public_key s;
    pr_device_name := client_device_name;
    pr_selected_symmetric := default SYMMETRIC_AES_256_GCM (head (c_server_supported_symmetric s));
    pr_selected_hash := default HASH_SHA256 (head (c_server_supported_hash s));
    pr_selected_signature := default SIGNATURE_ED25519 (head (c_server_supported_signature s));
  |}.

Definition initiate_pairing (client_device_name : string)
    : M (Peer ClientPairingSession) ProtocolError (bytes * string * string) :=
  hello ← receive_pairing_hello;
  server_x25519_pub ← lift (array32 (ph_x25519_public_key hello));
  _ ← set_session (λ s, mkClientSession (c_x25519_keypair s) (c_ed25519_keypair s)
        (Some server_x25519_pub) (c_psk s) (c_sas s) (ph_supported_symmetric hello)
        (ph_supported_hash hello) (ph_supported_signature hello));
  s ← session;
  shared_secret ← lift (map_err PE_Crypto (diffie_hellman (c_x25519_keypair s) server_x25519_pub));
  psk ← lift (map_err PE_Crypto (derive_psk_from_x25519 shared_secret));
  _ ← set_session (λ s, mkClientSession (c_x25519_keypair s) (c_ed25519_keypair s)
        (c_server_x25519_public s) (Some psk) (c_sas s) (c_server_supported_symmetric s)
        (c_server_supported_hash s) (c_server_supported_signature s));
  sas ← lift (map_err PE_Crypto (derive_sas psk (x25519_public_key s) server_x25519_pub));
  _ ← set_session (λ s, mkClientSession (c_x25519_keypair s) (c_ed25519_keypair s)
        (c_server_x25519_public s) (c_psk s) (Some sas) (c_server_supported_symmetric s)
        (c_server_supported_hash s) (c_server_supported_signature s));
  _ ← send_pairing_response client_device_name;
  server_ed25519_public ← lift (array32 (ph_ed25519_public_key hello));
  mret (server_ed25519_public, ph_device_name hello, sas).

Definition send_csk_message (csk : ClientSymmetricKey) (username : string)
    : M (Peer ClientPairingSession) ProtocolError () :=
  s ← session;
  psk ← lift (ok_or (PE_MissingField "psk") (c_psk s));
  encrypted_csk ← on_world (encrypt_with_psk psk (csk_bytes csk));
  send_message (mkPairingCskMessage encrypted_csk username).

Definition receive_pairing_complete (csk : ClientSymmetricKey)
    : M (Peer ClientPairingSession) ProtocolError () :=
  complete ← receive_message;
  if negb (pc_success complete) then throw PE_InvalidMessageFormat else
  s ← session;
  psk ← lift (ok_or (PE_MissingField "psk") (c_psk s));
  decrypted_hash ← lift (map_err PE_Crypto (decrypt_with_psk psk (pc_csk_hash complete)));
  let expected_hash := sha256 (csk_bytes csk) in
  if decide (decrypted_hash = expected_hash) then mret () else throw PE_InvalidMessageFormat.

Definition finish_pairing (csk : ClientSymmetricKey) (username : string)
    : M (Peer ClientPairingSession) ProtocolError () :=
  _ ← send_csk_message csk username;
  receive_pairing_complete csk.

(** ** Server *)

Definition server_new (ed25519_public : bytes) : M World CryptoError ServerPairingSession :=
  x ← x25519_generate;
  mret (mkServerSession x ed25519_public None None None).

Definition hello_of (s : ServerPairingSession) (device_name : string) : PairingHello := {|
  ph_version := PAIRING_VERSION;
  ph_x25519_public_key := x25519_public_bytes (sv_x25519_keypair s);
  ph_ed25519_public_key := sv_ed25519_public_key s;
  ph_device_name := device_name;
  ph_supported_symmetric := [SYMMETRIC_AES_256_GCM];
  ph_supported_hash := [HASH_SHA256];
  ph_supported_signature := [SIGNATURE_ED25519];
|}.

Definition send_pairing_hello (server_device_name : string)
    : M (Peer ServerPairingSession) ProtocolError () :=
  s ← session;
  send_message (hello_of s server_device_name).

Definition receive_pairing_response : M (Peer ServerPairingSession) ProtocolError PairingResponse :=
  response ← receive_message;
  if decide (pr_version response = PAIRING_VERSION) then mret response else throw PE_InvalidMessageFormat.

Definition receive_csk_message
    : M (Peer ServerPairingSession) ProtocolError (ClientSymmetricKey * bytes) :=
  encrypted_msg ← receive_message;
  s ← session;
  psk ← lift (ok_or (PE_MissingField "psk") (sv_psk s));
  plaintext ← lift (map_err PE_Crypto (decrypt_with_psk psk (pm_encrypted_csk encrypted_msg)));
  if decide (length plaintext = 32%nat)
  then mret (mkCsk plaintext, sha256 plaintext)
  else throw PE_InvalidMessageFormat.

Definition send_pairing_complete (csk_hash : bytes) : M (Peer ServerPairingSession) ProtocolError () :=
  s ← session;
  psk ← lift (ok_or (PE_MissingField "psk") (sv_psk s));
  encrypted_hash ← on_world (encrypt_with_psk psk csk_hash);
  send_message (mkPairingComplete true HASH_SHA256 encrypted_hash).

Definition complete_pairing (server_device_name : string)
    : M (Peer ServerPairingSession) ProtocolError (ClientSymmetricKey * bytes * string * string) :=
  _ ← send_pairing_hello server_device_name;
  response ← receive_pairing_response;
  client_x25519_pub ← lift (array32 (pr_x25519_public_key response));
  _ ← set_session (λ s, mkServerSession (sv_x25519_keypair s) (sv_ed25519_public_key s)
        (Some client_x25519_pub) (sv_psk s) (sv_sas s));
  s ← session;
  shared_secret ← lift (map_err PE_Crypto (diffie_hellman (sv_x25519_keypair s) client_x25519_pub));
  psk ← lift (map_err PE_Crypto (derive_psk_from_x25519 shared_secret));
  _ ← set_session (λ s, mkServerSession (sv_x25519_keypair s) (sv_ed25519_public_key s)
        (sv_client_x25519_public s) (Some psk) (sv_sas s));
  sas ← lift (map_err PE_Crypto
          (derive_sas psk client_x25519_pub (x25519_public_bytes (sv_x25519_keypair s))));
  _ ← set_session (λ s, mkServerSession (sv_x25519_keypair s) (sv_ed25519_public_key s)
        (sv_client_x25519_public s) (sv_psk s) (Some sas));
  r ← receive_csk_message;
  let '(csk, csk_hash) := r in
  _ ← send_pairing_complete csk_hash;
  client_ed25519_public ← lift (array32 (pr_ed25519_public_key response));
  mret (csk, client_ed25519_public, pr_device_name response, sas).
End operations.
