(* ===== verification/PairingTheorems.v ===== *)
(** * Theorems about pairing

    Frames round-trip over the stream; from them, the two sides of an undisturbed
    handshake agree on keys, names and the short authentication string, a client
    accepts only a peer that proves it holds the CSK, and malformed or oversized
    frames are refused. *)

From stdpp Require Import base gmap strings list countable.
From Stdlib Require Import Strings.Byte.
From S2P Require Import Prelude Os Text Crypto Concrete Protocol ConcreteCodec Pairing.

#[local] Opaque to_be_bytes.

(** ** Frames *)

(** A message as it travels: a big-endian length, then the encoding. *)
Definition wire_frame {B} `{Codec B} (m : B) : bytes :=
  to_be_bytes 4 (Z.of_nat (length (encode_to_vec m))) ++ encode_to_vec m.

(** The encoding stays within [MAX_MESSAGE_SIZE]. *)
Definition fits {B} `{Codec B} (m : B) : Prop := Z.of_nat (length (encode_to_vec m)) ≤ MAX_MESSAGE_SIZE.

Section frames.
Context {A B : Type} `{K : Codec B} `{W : WireValue B}.
Implicit Types (p : Peer A) (m : B).

Lemma read_exact_app d rest o f :
  read_exact (length d) (mkStream (d ++ rest) o f) = (mkStream rest o f, Ok d).
Proof.
  unfold read_exact. simpl. rewrite decide_True by (rewrite length_app; lia).
  by rewrite drop_app_length, take_app_length.
Qed.

Lemma read_u32_app d rest o f :
  length d = 4%nat → read_u32 (mkStream (d ++ rest) o f) = (mkStream rest o f, Ok (from_be_bytes d)).
Proof.
  intros Hd. unfold read_u32. rewrite bind_run. by rewrite <-Hd, read_exact_app.
Qed.

Lemma on_stream_run {R} (k : M Stream io_error R) w st st' (s : A) r :
  k st = (st', r) → on_stream k (mkPeer w st s) = (mkPeer w st' s, map_err PE_Io r).
Proof. intros H. unfold on_stream. cbn [p_stream]. by rewrite H. Qed.

Lemma send_message_run w i o s m :
  fits m →
  send_message m (mkPeer w (mkStream i o []) s : Peer A)
  = (mkPeer w (mkStream i (o ++ wire_frame m) []) s, Ok ()).
Proof.
  intros Hf. unfold send_message, wire_frame, on_stream, write_u32, flush, fits, MAX_MESSAGE_SIZE in *.
  rewrite Z.mod_small by lia. munfold. by rewrite app_nil_r, <-(assoc_L (++)).
Qed.

Lemma receive_message_run `{!CodecLaws B K W} w o f s m rest :
  fits m → wire_ok m →
  receive_message (mkPeer w (mkStream (wire_frame m ++ rest) o f) s : Peer A)
  = (mkPeer w (mkStream rest o f) s, Ok m).
Proof.
  intros Hf Hw. unfold receive_message, wire_frame, fits, MAX_MESSAGE_SIZE in *. rewrite <-(assoc_L (++)).
  erewrite bind_run, on_stream_run by apply read_u32_app, length_to_be_bytes. cbn [map_err].
  rewrite from_to_be_bytes_small by lia. rewrite decide_False by lia.
  rewrite Nat2Z.id. erewrite bind_run, on_stream_run by apply read_exact_app. cbn [map_err].
  unfold lift. by rewrite decode_encode.
Qed.

(** A declared length above the limit ends the exchange before the body is read. *)
Lemma receive_message_oversized p len rest :
  0 ≤ len < 2 ^ 32 → MAX_MESSAGE_SIZE < len → s_in (p_stream p) = to_be_bytes 4 len ++ rest →
  receive_message (B := B) p
  = (mkPeer (p_world p) (mkStream rest (s_out (p_stream p)) (s_wfail (p_stream p))) (p_session p),
     Err PE_InvalidMessageFormat).
Proof.
  intros Hl Hm Hi. destruct p as [w [i o f] s]. cbn [p_stream s_in p_world p_session s_out s_wfail] in *. subst i.
  unfold receive_message.
  erewrite bind_run, on_stream_run by apply read_u32_app, length_to_be_bytes. cbn [map_err].
  rewrite from_to_be_bytes_small by lia. by rewrite decide_True.
Qed.

(** Sending touches neither the session nor the input. *)
Lemma send_message_frame p p' m r :
  send_message m p = (p', r) →
  p_session p' = p_session p ∧ p_world p' = p_world p ∧ s_in (p_stream p') = s_in (p_stream p).
Proof.
  destruct p as [w [i o f] s]. unfold send_message, on_stream, write_u32, flush, write_all. munfold.
  intros H. repeat (case_match; simplify_eq/=; try done).
Qed.

Lemma receive_message_Ok p p' m :
  receive_message p = (p', Ok m) →
  p_session p' = p_session p ∧ p_world p' = p_world p ∧ s_out (p_stream p') = s_out (p_stream p) ∧
  s_wfail (p_stream p') = s_wfail (p_stream p) ∧
  ∃ d, s_in (p_stream p) = to_be_bytes 4 (Z.of_nat (length d)) ++ d ++ s_in (p_stream p') ∧
    Z.of_nat (length d) ≤ MAX_MESSAGE_SIZE ∧ decode d = Some m.
Proof.
  destruct p as [w [i o f] s]. unfold receive_message, on_stream, read_u32, read_exact. munfold.
  destruct (decide (4 ≤ length i)%nat) as [H4|]; [|done]. simpl.
  destruct (decide (_ < _)) as [|Hm]; [done|]. simpl.
  destruct (decide (Z.to_nat _ ≤ _)%nat) as [Hl|]; [|done]. simpl.
  destruct (decode _) as [m0|] eqn:E; simpl; [|done]. intros H. simplify_eq/=.
  do 4 (split; [done|]). eexists. split; [|split; [|exact E]].
  - rewrite length_take, Nat.min_l by done.
    pose proof (from_be_bytes_range (take 4 i)) as Hr. rewrite Z2Nat.id by lia.
    assert (Ht : length (take 4 i) = 4%nat) by (rewrite length_take; lia).
    pose proof (to_from_be_bytes (take 4 i)) as Hb. rewrite Ht in Hb. by rewrite Hb, !take_drop.
  - rewrite length_take. pose proof (from_be_bytes_range (take 4 i)). lia.
Qed.
End frames.

Lemma array32_Ok b : length b = 32%nat → array32 b = Ok b.
Proof. intros. unfold array32. by rewrite decide_True. Qed.

(** ** Concrete codecs of the pairing messages *)

#[export] Instance toy_hello_codec : Codec PairingHello := field_codec
  (λ m, [num_field (ph_version m); ph_x25519_public_key m; ph_ed25519_public_key m;
         str_field (ph_device_name m); num_field (ph_supported_symmetric m);
         num_field (ph_supported_hash m); num_field (ph_supported_signature m)])
  (λ l, match l with
        | [v; x; e; n; a; b; c] =>
            v ← num_unfield v; a ← num_unfield a; b ← num_unfield b; c ← num_unfield c;
            Some (mkPairingHello v x e (str_unfield n) a b c)
        | _ => None
        end).
#[export] Instance toy_response_codec : Codec PairingResponse := field_codec
  (λ m, [num_field (pr_version m); pr_x25519_public_key m; pr_ed25519_public_key m;
         str_field (pr_device_name m); num_field (pr_selected_symmetric m);
         num_field (pr_selected_hash m); num_field (pr_selected_signature m)])
  (λ l, match l with
        | [v; x; e; n; a; b; c] =>
            v ← num_unfield v; a ← num_unfield a; b ← num_unfield b; c ← num_unfield c;
            Some (mkPairingResponse v x e (str_unfield n) a b c)
        | _ => None
        end).
#[export] Instance toy_csk_message_codec : Codec PairingCskMessage := field_codec
  (λ m, [pm_encrypted_csk m; str_field (pm_username m)])
  (λ l, match l with [c; u] => Some (mkPairingCskMessage c (str_unfield u)) | _ => None end).
#[export] Instance toy_complete_codec : Codec PairingComplete := field_codec
  (λ m, [num_field (pc_success m); num_field (pc_hash_algorithm m); pc_csk_hash m])
  (λ l, match l with
        | [s; a; h] => s ← num_unfield s; a ← num_unfield a; Some (mkPairingComplete s a h)
        | _ => None
        end).

#[export] Instance toy_hello_laws : CodecLaws _ toy_hello_codec _.
Proof. field_laws. Qed.
#[export] Instance toy_response_laws : CodecLaws _ toy_response_codec _.
Proof. field_laws. Qed.
#[export] Instance toy_csk_message_laws : CodecLaws _ toy_csk_message_codec _.
Proof. field_laws. Qed.
#[export] Instance toy_complete_laws : CodecLaws _ toy_complete_codec _.
Proof. field_laws. Qed.

(** ** Claims *)

Definition fresh_client (x : X25519KeyPair) (kp : Ed25519KeyPair) : ClientPairingSession :=
  mkClientSession x kp None None None [] [] [].
Definition fresh_server (x : X25519KeyPair) (ed : bytes) : ServerPairingSession :=
  mkServerSession x ed None None None.

Section agreement.
Context `{C : CryptoOps} `{L : !CryptoLaws C}.
Context `{KH : !Codec PairingHello} `{!CodecLaws PairingHello KH _}.
Context `{KR : !Codec PairingResponse} `{!CodecLaws PairingResponse KR _}.
Context `{KM : !Codec PairingCskMessage} `{!CodecLaws PairingCskMessage KM _}.
Context `{KC : !Codec PairingComplete} `{!CodecLaws PairingComplete KC _}.

#[local] Opaque derive_psk_from_x25519 derive_sas send_message receive_message
  encrypt_with_psk decrypt_with_psk array32 wire_frame.

(** What the client answers to a hello with the default algorithms. *)
Definition response_of (xc : X25519KeyPair) (kp : Ed25519KeyPair) (cname : string) : PairingResponse :=
  mkPairingResponse PAIRING_VERSION (x25519_public_bytes xc) (verifying_key_bytes kp) cname
    SYMMETRIC_AES_256_GCM HASH_SHA256 SIGNATURE_ED25519.

Lemma x25519_public_bytes_length x : wf_x25519 x → length (x25519_public_bytes x) = 32%nat.
Proof. intros [Hl ->]. by apply x25519_public_length. Qed.

Lemma hello_wire_ok s n : wire_ok (hello_of s n).
Proof. by repeat split; repeat constructor. Qed.
Lemma response_wire_ok x k n : wire_ok (response_of x k n).
Proof. by repeat split. Qed.

(** Phase one at the client, given the server's hello. *)
Lemma initiate_run xc kp xs ed sname cname wc rest o psk sas :
  wf_x25519 xs → length ed = 32%nat →
  fits (hello_of (fresh_server xs ed) sname) → fits (response_of xc kp cname) →
  derive_psk_from_x25519 (x25519_dh (x25519_secret_bytes xc) (x25519_public_bytes xs)) = Ok psk →
  derive_sas psk (x25519_public_bytes xc) (x25519_public_bytes xs) = Ok sas →
  initiate_pairing cname (mkPeer wc (mkStream (wire_frame (hello_of (fresh_server xs ed) sname) ++ rest) o [])
                            (fresh_client xc kp))
  = (mkPeer wc (mkStream rest (o ++ wire_frame (response_of xc kp cname)) [])
       (mkClientSession xc kp (Some (x25519_public_bytes xs)) (Some psk) (Some sas)
          [SYMMETRIC_AES_256_GCM] [HASH_SHA256] [SIGNATURE_ED25519]),
     Ok (ed, sname, sas)).
Proof.
  intros Hxs Hed Hfh Hfr Hpsk Hsas. unfold initiate_pairing.
  erewrite bind_step.
  2:{ unfold receive_pairing_hello. erewrite bind_step by (apply receive_message_run; [done|apply hello_wire_ok]).
      by rewrite decide_True by done. }
  cbn [hello_of ph_x25519_public_key ph_ed25519_public_key fresh_server sv_x25519_keypair sv_ed25519_public_key].
  erewrite bind_step by by apply lift_run, array32_Ok, x25519_public_bytes_length.
  do 2 erewrite bind_step by reflexivity.
  erewrite bind_step by reflexivity.
  erewrite bind_step by exact (lift_run _ _ _ (f_equal (map_err PE_Crypto) Hpsk)).
  erewrite bind_step by reflexivity.
  erewrite bind_step by exact (lift_run _ _ _ (f_equal (map_err PE_Crypto) Hsas)).
  erewrite bind_step by reflexivity.
  erewrite bind_step by (by apply (send_message_run _ _ _ _ (response_of xc kp cname))).
  by erewrite bind_step by by apply lift_run, array32_Ok.
Qed.

Lemma on_world_run {A R} (k : M World CryptoError R) w st (s : A) w' r :
  k w = (w', r) → on_world k (mkPeer w st s) = (mkPeer w' st s, map_err PE_Crypto r).
Proof. intros H. unfold on_world. cbn [p_world]. by rewrite H. Qed.

(** Phase two at the client, given the server's confirmation. *)
Lemma finish_run wc wc' enc ench csk user i o s psk :
  c_psk s = Some psk → encrypt_with_psk psk (csk_bytes csk) wc = (wc', Ok enc) →
  decrypt_with_psk psk ench = Ok (sha256 (csk_bytes csk)) →
  fits (mkPairingCskMessage enc user) → fits (mkPairingComplete true HASH_SHA256 ench) →
  finish_pairing csk user
    (mkPeer wc (mkStream (wire_frame (mkPairingComplete true HASH_SHA256 ench) ++ i) o []) s)
  = (mkPeer wc' (mkStream i (o ++ wire_frame (mkPairingCskMessage enc user)) []) s, Ok ()).
Proof.
  intros Hpsk Henc Hdec Hfm Hfc. unfold finish_pairing. erewrite bind_step.
  2:{ unfold send_csk_message. erewrite bind_step by reflexivity. cbn [p_session]. rewrite Hpsk.
      erewrite bind_step by reflexivity.
      erewrite bind_step by exact (on_world_run _ _ _ _ _ _ Henc). by apply send_message_run. }
  unfold receive_pairing_complete.
  erewrite bind_step by by apply receive_message_run. cbn [pc_success negb pc_csk_hash].
  erewrite bind_step by reflexivity. cbn [p_session]. rewrite Hpsk. erewrite bind_step by reflexivity.
  erewrite bind_step by exact (lift_run _ _ _ (f_equal (map_err PE_Crypto) Hdec)).
  by rewrite decide_True.
Qed.

(** The whole of the server's side, given the client's two messages. *)
Lemma complete_run xc kp xs ed sname cname ws ws' enc ench csk user psk sas :
  wf_x25519 xc → wf_ed25519 kp → wf_csk csk →
  fits (hello_of (fresh_server xs ed) sname) → fits (response_of xc kp cname) →
  fits (mkPairingCskMessage enc user) → fits (mkPairingComplete true HASH_SHA256 ench) →
  derive_psk_from_x25519 (x25519_dh (x25519_secret_bytes xs) (x25519_public_bytes xc)) = Ok psk →
  derive_sas psk (x25519_public_bytes xc) (x25519_public_bytes xs) = Ok sas →
  decrypt_with_psk psk enc = Ok (csk_bytes csk) →
  encrypt_with_psk psk (sha256 (csk_bytes csk)) ws = (ws', Ok ench) →
  complete_pairing sname
    (mkPeer ws (mkStream (wire_frame (response_of xc kp cname) ++ wire_frame (mkPairingCskMessage enc user)) [] [])
       (fresh_server xs ed))
  = (mkPeer ws' (mkStream [] (wire_frame (hello_of (fresh_server xs ed) sname)
                              ++ wire_frame (mkPairingComplete true HASH_SHA256 ench)) [])
       (mkServerSession xs ed (Some (x25519_public_bytes xc)) (Some psk) (Some sas)),
     Ok (csk, verifying_key_bytes kp, cname, sas)).
Proof.
  intros Hxc Hkp Hcsk Hfh Hfr Hfm Hfc Hpsk Hsas Hdec Henc. unfold complete_pairing.
  erewrite bind_step.
  2:{ unfold send_pairing_hello. erewrite bind_step by reflexivity. cbn [p_session].
      by apply send_message_run. }
  erewrite bind_step.
  2:{ unfold receive_pairing_response.
      erewrite bind_step by (apply receive_message_run; [done|apply response_wire_ok]).
      by rewrite decide_True by done. }
  cbn [response_of pr_x25519_public_key pr_ed25519_public_key].
  erewrite bind_step by by apply lift_run, array32_Ok, x25519_public_bytes_length.
  do 3 erewrite bind_step by reflexivity.
  erewrite bind_step by exact (lift_run _ _ _ (f_equal (map_err PE_Crypto) Hpsk)).
  erewrite bind_step by reflexivity.
  erewrite bind_step by exact (lift_run _ _ _ (f_equal (map_err PE_Crypto) Hsas)).
  erewrite bind_step by reflexivity. erewrite bind_step.
  2:{ unfold receive_csk_message. rewrite <-(app_nil_r (wire_frame (mkPairingCskMessage enc user))).
      erewrite bind_step by by apply receive_message_run. do 2 erewrite bind_step by reflexivity.
      erewrite bind_step by exact (lift_run _ _ _ (f_equal (map_err PE_Crypto) Hdec)).
      by rewrite decide_True. }
  cbv beta iota. erewrite bind_step.
  2:{ unfold send_pairing_complete. do 2 erewrite bind_step by reflexivity.
      erewrite bind_step by exact (on_world_run _ _ _ _ _ _ Henc). by apply send_message_run. }
  erewrite bind_step by by apply lift_run, array32_Ok, verifying_key_length. by destruct csk.
Qed.
End agreement.

(** C15: Pairing agreement.  For fresh sessions on both sides, messages within the
    size limit and enough entropy, the two sides talking to each other over an
    undisturbed stream both succeed: each reads exactly what the other wrote, both
    show the same short authentication string, the client learns the server's
    identity key and name, the server learns the client's identity key and name,
    and it receives the client's CSK. *)
Theorem pairing_agreement `{C : CryptoOps} `{L : !CryptoLaws C}
    `{KH : !Codec PairingHello} `{!CodecLaws PairingHello KH _}
    `{KR : !Codec PairingResponse} `{!CodecLaws PairingResponse KR _}
    `{KM : !Codec PairingCskMessage} `{!CodecLaws PairingCskMessage KM _}
    `{KC : !Codec PairingComplete} `{!CodecLaws PairingComplete KC _}
    xc kp xs ed cname sname csk user wc ws :
  wf_x25519 xc → wf_x25519 xs → wf_ed25519 kp → length ed = 32%nat → wf_csk csk →
  (12 ≤ length (w_entropy wc))%nat → (12 ≤ length (w_entropy ws))%nat →
  fits (hello_of (fresh_server xs ed) sname) → fits (response_of xc kp cname) →
  (∀ c, length c = 60%nat → fits (mkPairingCskMessage c user)) →
  (∀ c, length c = 60%nat → fits (mkPairingComplete true HASH_SHA256 c)) →
  ∃ hello response cskm complete sas wc' ws' sc ss,
    initiate_pairing cname (mkPeer wc (mkStream (hello ++ complete) [] []) (fresh_client xc kp))
    = (mkPeer wc (mkStream complete response []) sc, Ok (ed, sname, sas)) ∧
    finish_pairing csk user (mkPeer wc (mkStream complete response []) sc)
    = (mkPeer wc' (mkStream [] (response ++ cskm) []) sc, Ok ()) ∧
    complete_pairing sname (mkPeer ws (mkStream (response ++ cskm) [] []) (fresh_server xs ed))
    = (mkPeer ws' (mkStream [] (hello ++ complete) []) ss, Ok (csk, verifying_key_bytes kp, cname, sas)) ∧
    c_sas sc = Some sas ∧ sv_sas ss = Some sas.
Proof.
  intros Hxc Hxs Hkp Hed Hcsk Hec Hes Hfh Hfr Hfm Hfc.
  destruct (derive_psk_total (x25519_dh (x25519_secret_bytes xc) (x25519_public_bytes xs)))
    as (psk & Hpsk & Hwf).
  assert (Hpsk' : derive_psk_from_x25519 (x25519_dh (x25519_secret_bytes xs) (x25519_public_bytes xc)) = Ok psk).
  { destruct Hxc as [Hlc Hc], Hxs as [Hls Hs]. rewrite Hc, x25519_dh_comm, <-Hs by done. done. }
  destruct (derive_sas_total psk (x25519_public_bytes xc) (x25519_public_bytes xs)) as (n & Hsas & _).
  destruct (encrypt_psk_total psk (csk_bytes csk) wc) as (wc' & enc & Henc & Hlen); [done..|rewrite Hcsk; lia|].
  destruct (encrypt_psk_total psk (sha256 (csk_bytes csk)) ws) as (ws' & ench & Hench & Hlenh);
    [done..|rewrite sha256_length; lia|].
  rewrite Hcsk in Hlen. rewrite sha256_length in Hlenh.
  eexists (wire_frame (hello_of (fresh_server xs ed) sname)), (wire_frame (response_of xc kp cname)),
    (wire_frame (mkPairingCskMessage enc user)), (wire_frame (mkPairingComplete true HASH_SHA256 ench)),
    (fmt06 n), wc', ws', _, _.
  split; [by eapply (initiate_run xc kp xs ed sname cname wc _ [])|]. split.
  { rewrite <-(app_nil_r (wire_frame (mkPairingComplete true HASH_SHA256 ench))).
    eapply finish_run; eauto. by eapply decrypt_encrypt_psk. }
  split; [by eapply complete_run; eauto; eapply decrypt_encrypt_psk|]. done.
Qed.

(** Key pairs of the two sides of an example pairing. *)
Definition toy_xc : X25519KeyPair := x25519_from_secret_bytes (rep 32 3).
Definition toy_xs : X25519KeyPair := x25519_from_secret_bytes (rep 32 4).

Lemma length_concat_pairs (f : bytes) : length (enc_field f) = (2 * length f + 1)%nat.
Proof. unfold enc_field. induction f as [|b f IH]; simpl in *; lia. Qed.

Lemma toy_csk_message_fits c : length c = 60%nat → fits (mkPairingCskMessage c "ann").
Proof.
  intros Hc. unfold fits. cbn -[enc_field]. rewrite !length_app, !length_concat_pairs, Hc. vm_compute. done.
Qed.

Lemma toy_complete_fits c : length c = 60%nat → fits (mkPairingComplete true HASH_SHA256 c).
Proof.
  intros Hc. unfold fits. cbn -[enc_field num_field]. rewrite !length_app, !length_concat_pairs, Hc. vm_compute. done.
Qed.

Lemma pairing_agreement_witness :
  ∃ hello response cskm complete sas wc' ws' sc ss,
    initiate_pairing "laptop" (mkPeer quiet_world (mkStream (hello ++ complete) [] []) (fresh_client toy_xc toy_client))
    = (mkPeer quiet_world (mkStream complete response []) sc, Ok (verifying_key_bytes toy_phone, "phone"%string, sas)) ∧
    finish_pairing toy_csk "ann" (mkPeer quiet_world (mkStream complete response []) sc)
    = (mkPeer wc' (mkStream [] (response ++ cskm) []) sc, Ok ()) ∧
    complete_pairing "phone" (mkPeer quiet_world (mkStream (response ++ cskm) [] [])
      (fresh_server toy_xs (verifying_key_bytes toy_phone)))
    = (mkPeer ws' (mkStream [] (hello ++ complete) []) ss,
       Ok (toy_csk, verifying_key_bytes toy_client, "laptop"%string, sas)) ∧
    c_sas sc = Some sas ∧ sv_sas ss = Some sas.
Proof.
  apply (pairing_agreement toy_xc toy_client toy_xs (verifying_key_bytes toy_phone) "laptop" "phone"
    toy_csk "ann" quiet_world quiet_world);
    [by split|by split|by split|done|done|vm_compute; lia|vm_compute; lia|by vm_compute|by vm_compute| |].
  - apply toy_csk_message_fits.
  - apply toy_complete_fits.
Defined.

(** C16: The client accepts only a confirmed transfer.  Whenever [finish_pairing]
    succeeds, the session had a pairing key, and the frame it then read decodes to
    a [PairingComplete] that reports success and carries, encrypted under that
    pairing key, the SHA-256 of exactly the CSK that was sent. *)
Theorem finish_requires_confirmation `{C : CryptoOps} `{KM : !Codec PairingCskMessage}
    `{KC : !Codec PairingComplete} csk user p p' :
  finish_pairing csk user p = (p', Ok ()) →
  ∃ psk d m, c_psk (p_session p) = Some psk ∧
    s_in (p_stream p) = to_be_bytes 4 (Z.of_nat (length d)) ++ d ++ s_in (p_stream p') ∧
    Z.of_nat (length d) ≤ MAX_MESSAGE_SIZE ∧ decode d = Some m ∧ pc_success m = true ∧
    decrypt_with_psk psk (pc_csk_hash m) = Ok (sha256 (csk_bytes csk)).
Proof.
  unfold finish_pairing. intros H. inv_bind.
  assert (p_session s = p_session p ∧ s_in (p_stream s) = s_in (p_stream p)) as [Hs Hi].
  { unfold send_csk_message in Hrun. inv_bind. unfold session, gets, lift in Hrun0, Hrun1. simplify_eq/=.
    unfold on_world in Hrun2. destruct (encrypt_with_psk _ _ _) as [w r]. simplify_eq/=.
    by apply send_message_frame in Hrun as (? & _ & ?). }
  unfold receive_pairing_complete in H. inv_bind.
  apply receive_message_Ok in Hrun0 as (Hs' & _ & _ & _ & d & Hd & Hlen & Hdec).
  destruct (pc_success a0) eqn:Hsucc; [|done]. simpl in H. inv_bind.
  unfold session, gets, lift in *. simplify_eq/=.
  destruct (decide (_ = _)) as [He|]; [|done]. unfold mret, M_ret in H. simplify_eq.
  repeat match goal with
  | Hx : ok_or _ _ = Ok _ |- _ => apply ok_or_Ok in Hx
  | Hx : map_err _ _ = Ok _ |- _ => apply map_err_Ok in Hx
  end. exists a2, d, a0. rewrite <-Hs, <-Hs'. by rewrite <-Hi.
Qed.

Lemma finish_requires_confirmation_witness :
  ∃ p p' m, finish_pairing toy_csk "ann" p = (p', Ok ()) ∧ pc_success m = true ∧
    decrypt_with_psk (mkPsk (rep 32 9)) (pc_csk_hash m) = Ok (sha256 (csk_bytes toy_csk)).
Proof.
  set (s := mkClientSession toy_xc toy_client None (Some (mkPsk (rep 32 9))) None [] [] []).
  destruct (encrypt_psk_total (mkPsk (rep 32 9)) (csk_bytes toy_csk) quiet_world) as (w1 & enc & He & Hl);
    [done|vm_compute; lia|by vm_compute|].
  destruct (encrypt_psk_total (mkPsk (rep 32 9)) (sha256 (csk_bytes toy_csk)) quiet_world)
    as (w2 & ench & Heh & Hlh); [done|vm_compute; lia|by vm_compute|].
  assert (Hrun := finish_run quiet_world w1 enc ench toy_csk "ann" [] [] s (mkPsk (rep 32 9)) eq_refl He
    (decrypt_encrypt_psk (mkPsk (rep 32 9)) (sha256 (csk_bytes toy_csk)) quiet_world w2 ench eq_refl Heh)
    (toy_csk_message_fits enc Hl) (toy_complete_fits ench Hlh)).
  destruct (finish_requires_confirmation _ _ _ _ Hrun) as (psk & d & m & Hp & _ & _ & _ & Hs & Hd).
  eexists _, _, m. split; [exact Hrun|]. split; [done|]. injection Hp as <-. exact Hd.
Defined.

(** A frame that announces more than 16 KiB is refused by every receiving
    step of both sides with [InvalidMessageFormat], before any of its body is read
    and without writing or drawing randomness. *)
Theorem oversized_frame_refused `{C : CryptoOps} `{KH : !Codec PairingHello} `{KR : !Codec PairingResponse}
    `{KM : !Codec PairingCskMessage} `{KC : !Codec PairingComplete}
    (pc : Peer ClientPairingSession) (ps : Peer ServerPairingSession) csk len rest :
  MAX_MESSAGE_SIZE < len < 2 ^ 32 →
  s_in (p_stream pc) = to_be_bytes 4 len ++ rest → s_in (p_stream ps) = to_be_bytes 4 len ++ rest →
  let drained {A} (p : Peer A) :=
    mkPeer (p_world p) (mkStream rest (s_out (p_stream p)) (s_wfail (p_stream p))) (p_session p) in
  receive_pairing_hello pc = (drained pc, Err PE_InvalidMessageFormat) ∧
  receive_pairing_complete csk pc = (drained pc, Err PE_InvalidMessageFormat) ∧
  receive_pairing_response ps = (drained ps, Err PE_InvalidMessageFormat) ∧
  receive_csk_message ps = (drained ps, Err PE_InvalidMessageFormat).
Proof.
  intros Hlen Hc Hs drained. unfold MAX_MESSAGE_SIZE in Hlen.
  split; [|split; [|split]]; apply bind_fail; by apply (receive_message_oversized _ len); [lia|unfold MAX_MESSAGE_SIZE; lia|].
Qed.

Lemma oversized_frame_refused_witness :
  result_of receive_pairing_hello
    (mkPeer quiet_world (mkStream (to_be_bytes 4 16385 ++ [x00]) [] []) (fresh_client toy_xc toy_client))
  = Err PE_InvalidMessageFormat.
Proof.
  unfold result_of.
  destruct (oversized_frame_refused
    (mkPeer quiet_world (mkStream (to_be_bytes 4 16385 ++ [x00]) [] []) (fresh_client toy_xc toy_client))
    (mkPeer quiet_world (mkStream (to_be_bytes 4 16385 ++ [x00]) [] []) (fresh_server toy_xs []))
    toy_csk 16385 [x00]) as [-> _]; done.
Defined.
