(* ===== verification/Network.v ===== *)
(** * UDP networking: [shared/src/network/udp.rs], [discovery.rs]

    Interface selection, the cache of local addresses, the receive filter with its
    timeout, and multicast sends.  Interface enumeration ([if_addrs]), interface
    indices and socket calls are answers of the operating system, held in the
    state; a datagram's arrival is an entry of the inbox with its time. *)

From stdpp Require Import base gmap strings list sorting.
From S2P Require Import Prelude Os Text Crypto Protocol.

(** ** Retry intervals ([discovery.rs]), in milliseconds *)

Definition get_client_retry_interval (attempt : Z) : Z := 200 * 2 ^ (Z.min attempt 5).
Definition get_server_retry_interval : Z := 500.
Definition get_session_timeout : Z := 120 * 1000.

(** ** Addresses *)

(** An address by its 32-bit or 128-bit value. *)
Inductive IpAddr :=
| V4 (a : Z)
| V6 (a : Z).
#[global] Instance ip_eq_dec : EqDecision IpAddr.
Proof. solve_decision. Defined.

Definition is_loopback (ip : IpAddr) : bool :=
  match ip with
  | V4 a => bool_decide (Z.shiftr a 24 = 127)
  | V6 a => bool_decide (a = 1)
  end.

(** [Ipv4Addr::is_link_local]: 169.254.0.0/16 *)
Definition is_link_local (a : Z) : bool := bool_decide (Z.shiftr a 16 = 169 * 256 + 254).

(** [Ipv6Addr::to_ipv4]: IPv4-compatible ([::a.b.c.d]) as well as IPv4-mapped
    ([::ffff:a.b.c.d]) addresses. *)
Definition to_ipv4 (a : Z) : option Z :=
  let high := Z.shiftr a 32 in
  if bool_decide (high = 0) || bool_decide (high = 65535) then Some (Z.land a (Z.ones 32)) else None.

(** [Iterator::min] *)
Definition min_list (l : list Z) : option Z :=
  match l with
  | [] => None
  | a :: l' => Some (foldr Z.min a l')
  end.

Definition select_ipv4 (addrs : list Z) : option Z :=
  match min_list (filter (λ a, is_link_local a = false) addrs) with
  | Some a => Some a
  | None => min_list addrs
  end.

(** ** Interfaces *)

Record IfAddr := mkIfAddr { if_name : string; if_ip : IpAddr; if_loopback : bool }.

Record MulticastInterface := mkMulticastInterface {
  mi_name : string;
  mi_index : Z;
  mi_ipv4 : option Z;
  mi_ipv6 : option Z;
}.

Record InterfaceAddrs := mkInterfaceAddrs { ia_v4 : list Z; ia_v6 : list Z }.

(** The collection loop: addresses per interface name, in enumeration order. *)
Definition collect_iface (by_name : gmap string InterfaceAddrs) (i : IfAddr) : gmap string InterfaceAddrs :=
  if if_loopback i then by_name else
  let cur := default (mkInterfaceAddrs [] []) (by_name !! if_name i) in
  <[if_name i := match if_ip i with
                 | V4 a => mkInterfaceAddrs (ia_v4 cur ++ [a]) (ia_v6 cur)
                 | V6 a => mkInterfaceAddrs (ia_v4 cur) (ia_v6 cur ++ [a])
                 end]> by_name.

(** [sort_unstable] and [dedup] *)
Fixpoint dedup (l : list Z) : list Z :=
  match l with
  | a :: (b :: _) as l' => if decide (a = b) then dedup l' else a :: dedup l'
  | _ => l
  end.
Definition sorted_addrs (l : list Z) : list Z := dedup (merge_sort Z.le l).

Definition name_le (a b : MulticastInterface) : Prop := String.le (mi_name a) (mi_name b).
#[global] Instance name_le_dec a b : Decision (name_le a b).
Proof. unfold name_le. apply _. Defined.

Definition get_multicast_interfaces (enumeration : option (list IfAddr)) (index : string → option Z)
    : list MulticastInterface :=
  let by_name := foldl collect_iface ∅ (default [] enumeration) in
  merge_sort name_le
    (omap (λ '(name, addrs),
       let v4 := sorted_addrs (ia_v4 addrs) in
       let v6 := sorted_addrs (ia_v6 addrs) in
       match index name with
       | Some idx => Some (mkMulticastInterface name idx (select_ipv4 v4) (head v6))
       | None => None
       end) (map_to_list by_name)).

(** ** The socket's surroundings *)

(** A datagram, or a receive error, and when it is there to be read. *)
Record Arrival := mkArrival {
  arr_time : Z;
  arr_event : result io_error (bytes * (IpAddr * Z));
}.

(** A datagram sent to a multicast group: interface, group, port, payload. *)
Record Sent := mkSent { sent_iface : string; sent_group : IpAddr; sent_port : Z; sent_data : bytes }.

Record InterfaceCache := mkInterfaceCache { ic_addresses : list IpAddr; ic_last_refresh : Z }.

Record Udp := mkUdp {
  u_enum : option (list IfAddr);          (* answer of [get_if_addrs] *)
  u_index : string → option Z;            (* [if_nametoindex] *)
  u_send_ok : MulticastInterface → bool;  (* whether the socket calls for it succeed *)
  u_v6_ok : bool;                         (* whether an IPv6 socket can be bound *)
  u_cache : option InterfaceCache;
  u_ipv6 : option bool;                   (* cached availability of IPv6 *)
  u_local_port : option Z;
  u_inbox : list Arrival;
  u_sent : list Sent;
}.

Definition u_set_cache (c : option InterfaceCache) (u : Udp) : Udp :=
  mkUdp (u_enum u) (u_index u) (u_send_ok u) (u_v6_ok u) c (u_ipv6 u) (u_local_port u) (u_inbox u) (u_sent u).
Definition u_set_ipv6 (b : option bool) (u : Udp) : Udp :=
  mkUdp (u_enum u) (u_index u) (u_send_ok u) (u_v6_ok u) (u_cache u) b (u_local_port u) (u_inbox u) (u_sent u).
Definition u_set_inbox (l : list Arrival) (u : Udp) : Udp :=
  mkUdp (u_enum u) (u_index u) (u_send_ok u) (u_v6_ok u) (u_cache u) (u_ipv6 u) (u_local_port u) l (u_sent u).
Definition u_log (s : list Sent) (u : Udp) : Udp :=
  mkUdp (u_enum u) (u_index u) (u_send_ok u) (u_v6_ok u) (u_cache u) (u_ipv6 u) (u_local_port u) (u_inbox u)
    (u_sent u ++ s).

Inductive NetworkError :=
| NE_Io (e : io_error)
| NE_Decode.

Definition MAX_UDP_MESSAGE_SIZE : Z := 16 * 1024.
Definition INTERFACE_CACHE_TTL : Z := 1000.

(** ** Is an address ours? *)

(** The addresses of an enumeration, without duplicates, in order. *)
Definition iface_addresses (l : list IfAddr) : list IpAddr :=
  foldl (λ acc i, if bool_decide (if_ip i ∈ acc) then acc else acc ++ [if_ip i]) [] l.

(** A fresh, non-empty cache answers; otherwise it is refreshed first, and a
    failed enumeration keeps the old addresses. *)
Definition is_local_ip (ip : IpAddr) (now : Z) (u : Udp) : Udp * bool :=
  if is_loopback ip then (u, true) else
  let cache := default (mkInterfaceCache [] (now - INTERFACE_CACHE_TTL)) (u_cache u) in
  let stale := bool_decide (INTERFACE_CACHE_TTL ≤ now - ic_last_refresh cache)
               || bool_decide (ic_addresses cache = []) in
  let cache' :=
    if negb stale then cache
    else match u_enum u with
         | Some l => mkInterfaceCache (iface_addresses l) now
         | None => mkInterfaceCache (ic_addresses cache) now
         end in
  (u_set_cache (Some cache') u, bool_decide (ip ∈ ic_addresses cache')).

Definition is_ipv6_available (u : Udp) : Udp * bool :=
  match u_ipv6 u with
  | Some b => (u, b)
  | None => (u_set_ipv6 (Some (u_v6_ok u)) u, u_v6_ok u)
  end.

(** ** Sending *)

Definition IPV4_MULTICAST_ADDR : Z := ((239 * 256 + 255) * 256 + 26) * 256 + 44.
(** [ff12::fdec:fc27] *)
Definition IPV6_MULTICAST_ADDR : Z := Z.shiftl (255 * 256 + 18) 112 + Z.shiftl 65004 16 + 64551.

Section operations.
Context `{KE : !Codec EncryptedPacket}.

(** One datagram per interface that has an address of the family and whose
    socket calls all succeed; the count of successes is returned. *)
Definition send_udp_multicast_v4_all_interfaces (group port : Z) (packet : EncryptedPacket) (u : Udp)
    : Udp * nat :=
  let data := encode_to_vec packet in
  let ifaces := filter (λ i, is_Some (mi_ipv4 i) ∧ u_send_ok u i = true)
                  (get_multicast_interfaces (u_enum u) (u_index u)) in
  (u_log (map (λ i, mkSent (mi_name i) (V4 group) port data) ifaces) u, length ifaces).

Definition send_udp_multicast_all_interfaces (group port : Z) (packet : EncryptedPacket) (u : Udp)
    : Udp * nat :=
  let data := encode_to_vec packet in
  let ifaces := filter (λ i, is_Some (mi_ipv6 i) ∧ u_send_ok u i = true)
                  (get_multicast_interfaces (u_enum u) (u_index u)) in
  (u_log (map (λ i, mkSent (mi_name i) (V6 group) port data) ifaces) u, length ifaces).

(** ** Receiving *)

(** The address compared with the local ones. *)
Definition normalize_ip (ip : IpAddr) : IpAddr :=
  match ip with
  | V6 a => match to_ipv4 a with Some m => V4 m | None => V6 a end
  | V4 a => V4 a
  end.

(** [try_receive_udp_packet]: the loop of [receive_udp_packet] under a timeout.
    Datagrams are taken in order; reading one moves the clock to its arrival.
    [None]: the deadline passed first. *)
Fixpoint receive_loop (deadline now : Z) (inbox : list Arrival) (u : Udp)
    : Udp * Z * result NetworkError (option (EncryptedPacket * (IpAddr * Z))) :=
  match inbox with
  | [] => (u_set_inbox [] u, Z.max now deadline, Ok None)
  | a :: inbox' =>
      if decide (deadline < arr_time a)
      then (u_set_inbox inbox u, Z.max now deadline, Ok None)
      else
        let now' := Z.max now (arr_time a) in
        match arr_event a with
        | Err e => (u_set_inbox inbox' u, now', Err (NE_Io e))
        | Ok (data, (ip, port)) =>
            let src_ip := normalize_ip ip in
            let '(u1, loc1) :=
              if bool_decide (u_local_port u = Some port) then is_local_ip src_ip now' u else (u, false) in
            if (loc1 : bool) then receive_loop deadline now' inbox' u1 else
            let '(u2, loc2) := is_local_ip src_ip now' u1 in
            if (loc2 : bool) then receive_loop deadline now' inbox' u2 else
            if decide (MAX_UDP_MESSAGE_SIZE < Z.of_nat (length data))
            then receive_loop deadline now' inbox' u2
            else match decode data with
                 | None => (u_set_inbox inbox' u2, now', Err NE_Decode)
                 | Some packet => (u_set_inbox inbox' u2, now', Ok (Some (packet, (ip, port))))
                 end
        end
  end.

Definition try_receive_udp_packet (timeout now : Z) (u : Udp)
    : Udp * Z * result NetworkError (option (EncryptedPacket * (IpAddr * Z))) :=
  receive_loop (now + timeout) now (u_inbox u) u.
End operations.
