(* ===== verification/Auth.v ===== *)
(** * Authentication attempts: [tapauthd/src/auth_handler.rs], [transport.rs], [transport/udp.rs]

    The transport interface, the retransmission loop over one transport with what it does
    to a response, and the UDP transport.

    A task that runs over a transport [T] owns an environment [Env T]: the
    operating system, the transport's state, the cache of packets it has seen and
    the confirmations it handed to background tasks. *)

From stdpp Require Import base gmap strings list.
From S2P Require Import Prelude Os Text Crypto Protocol Config Network.

(** ** Third-party [hex] *)
Class Hex := {
  hex_encode : bytes → string;
  hex_decode : string → option bytes;
}.
Class HexLaws (H : Hex) : Prop := hex_roundtrip b : hex_decode (hex_encode b) = Some b.

(** ** Errors *)

Inductive AuthHandlerError :=
| AE_Config (e : ConfigError)
| AE_Network (e : NetworkError)
| AE_Protocol (e : ProtocolError)
| AE_Crypto (e : CryptoError)
| AE_Timeout
| AE_Denied
| AE_ExplicitDenial
| AE_NoPairedDevices
| AE_TransportDisabled
| AE_BleError (s : string).

(** ** The transport interface ([transport.rs]) *)

Inductive ReceiveResult :=
| Response (p : EncryptedPacket) (addr : IpAddr * Z)
| RecvTimeout.

Record Env (T : Type) := mkEnv {
  e_world : World;
  e_transport : T;
  e_nonce_cache : gset bytes;
  e_spawned : list EncryptedPacket;   (* confirmations sent by background tasks *)
}.
Arguments mkEnv {T} _ _ _ _.
Arguments e_world {T} _.
Arguments e_transport {T} _.
Arguments e_nonce_cache {T} _.
Arguments e_spawned {T} _.

Class Transport (T : Type) := {
  send_request : EncryptedPacket → M (World * T) AuthHandlerError ();
  receive_response : Z → M (World * T) AuthHandlerError ReceiveResult;
  send_confirmation : EncryptedPacket → M (World * T) AuthHandlerError ();
  send_cancel : EncryptedPacket → M (World * T) AuthHandlerError ();
  finalize : M (World * T) AuthHandlerError ();
}.

(** A transport operation inside a task. *)
Definition on_transport {T A} (k : M (World * T) AuthHandlerError A) : M (Env T) AuthHandlerError A := λ e,
  let '((w, t), r) := k (e_world e, e_transport e) in
  (mkEnv w t (e_nonce_cache e) (e_spawned e), r).
Definition on_os {T E A} (f : E → AuthHandlerError) (k : M World E A) : M (Env T) AuthHandlerError A := λ e,
  let '(w, r) := k (e_world e) in
  (mkEnv w (e_transport e) (e_nonce_cache e) (e_spawned e), map_err f r).

(** ** The UDP transport ([transport/udp.rs]) *)

Section udp.
Context `{KE : !Codec EncryptedPacket}.

Definition send_to_multicast_groups (port : Z) (packet : EncryptedPacket) (u : Udp) : Udp :=
  let '(u1, _) := send_udp_multicast_v4_all_interfaces IPV4_MULTICAST_ADDR port packet u in
  let '(u2, v6) := is_ipv6_available u1 in
  if (v6 : bool) then (send_udp_multicast_all_interfaces IPV6_MULTICAST_ADDR port packet u2).1 else u2.

(** [UdpTransport]: the shared socket and the port. *)
Record UdpTransport := mkUdpTransport { ut_socket : Udp; ut_port : Z }.

Definition udp_send (packet : EncryptedPacket) : M (World * UdpTransport) AuthHandlerError () := λ '(w, t),
  ((w, mkUdpTransport (send_to_multicast_groups (ut_port t) packet (ut_socket t)) (ut_port t)), Ok ()).

Definition udp_receive_response (timeout : Z) : M (World * UdpTransport) AuthHandlerError ReceiveResult :=
  λ '(w, t),
    let '(u, now, r) := try_receive_udp_packet timeout (w_clock w) (ut_socket t) in
    ((set_clock now w, mkUdpTransport u (ut_port t)),
     match r with
     | Ok (Some (packet, addr)) => Ok (Response packet addr)
     | Ok None => Ok RecvTimeout
     | Err e => Err (AE_Network e)
     end).

#[global] Instance udp_transport : Transport UdpTransport := {|
  send_request := udp_send;
  receive_response := udp_receive_response;
  send_confirmation := udp_send;
  send_cancel := udp_send;
  finalize := λ s, (s, Ok ());
|}.
End udp.

(** ** One task: [authenticate_with_transport] *)

Section task.
Context `{C : CryptoOps} `{H : Hex}.
Context `{KW : !Codec WrapperMessage}.
Context {T : Type} `{TR : !Transport T}.

(** A paired server's key, when its hexadecimal text is 32 bytes. *)
Definition server_key (s : PairedServer) : option bytes :=
  b ← hex_decode (ps_public_key s);
  if decide (length b = 32%nat) then Some b else None.

(** [paired_servers.values().any(..)], over the keys that parse. *)
Definition any_server_key (f : bytes → bool) (servers : gmap string PairedServer) : bool :=
  existsb (λ '(_, s), match server_key s with Some k => f k | None => false end) (map_to_list servers).

Definition verify_response_signature (wrapper : WrapperMessage) (servers : gmap string PairedServer) : bool :=
  any_server_key (λ k, is_ok (verify_wrapper_signature wrapper k)) servers.

(** [temporal_identifier ++ ciphertext] *)
Definition nonce_fingerprint (p : EncryptedPacket) : bytes := ep_temporal_identifier p ++ ep_ciphertext p.

Definition wait_for_response (retry_interval : Z) (csk : ClientSymmetricKey)
    (servers : gmap string PairedServer) : M (Env T) AuthHandlerError (option WrapperMessage) :=
  r ← on_transport (receive_response retry_interval);
  match r with
  | RecvTimeout => mret None
  | Response p addr =>
      seen ← gets (λ e, bool_decide (nonce_fingerprint p ∈ e_nonce_cache e));
      _ ← modify (λ e, mkEnv (e_world e) (e_transport e) ({[nonce_fingerprint p]} ∪ e_nonce_cache e) (e_spawned e));
      if (seen : bool) then mret None else
      wrapper ← lift (map_err AE_Protocol (decrypt_encrypted_packet_with_csk_nonce csk p));
      if verify_response_signature wrapper servers then mret (Some wrapper) else mret None
  end.

(** Up to three sends and a [finalize] in a background task, when the packet can
    be made at all. *)
Definition send_confirmation_background (challenge : bytes) (keypair : Ed25519KeyPair)
    (csk : ClientSymmetricKey) : M (Env T) AuthHandlerError () :=
  match create_grant_confirmation challenge with
  | Err _ => mret ()
  | Ok confirmation =>
      match sign_wrapper_message (wrap_grant_confirmation confirmation) keypair with
      | Err _ => mret ()
      | Ok conf_wrapper =>
          r ← attempt (on_os AE_Protocol (create_encrypted_packet_with_csk_nonce csk conf_wrapper));
          match r with
          | Err _ => mret ()
          | Ok conf_packet =>
              modify (λ e, mkEnv (e_world e) (e_transport e) (e_nonce_cache e) (e_spawned e ++ [conf_packet]))
          end
      end
  end.

Definition handle_auth_grant (wrapper : WrapperMessage) (challenge : bytes) (keypair : Ed25519KeyPair)
    (csk : ClientSymmetricKey) (servers : gmap string PairedServer)
    : M (Env T) AuthHandlerError (option (result AuthHandlerError ())) :=
  if any_server_key (λ k, is_ok (verify_auth_grant wrapper challenge k)) servers
  then _ ← send_confirmation_background challenge keypair csk; mret (Some (Ok ()))
  else mret None.

Definition handle_auth_denial (wrapper : WrapperMessage) (challenge : bytes) (keypair : Ed25519KeyPair)
    (csk : ClientSymmetricKey) : M (Env T) AuthHandlerError (option (result AuthHandlerError ())) :=
  match wm_payload wrapper with
  | Some (PAuthDenial denial) =>
      if decide (ad_challenge denial = challenge)
      then _ ← send_confirmation_background challenge keypair csk; mret (Some (Err AE_ExplicitDenial))
      else mret None
  | _ => mret None
  end.

(** [None] is [ResponseError::InvalidMessage]: wait for another response. *)
Definition process_auth_response (wrapper : WrapperMessage) (challenge : bytes) (keypair : Ed25519KeyPair)
    (csk : ClientSymmetricKey) (servers : gmap string PairedServer)
    : M (Env T) AuthHandlerError (option (result AuthHandlerError ())) :=
  match wm_payload wrapper with
  | Some (PAuthGrant _) => handle_auth_grant wrapper challenge keypair csk servers
  | Some (PAuthDenial _) => handle_auth_denial wrapper challenge keypair csk
  | _ => mret None
  end.

Definition fail_finalized {A} (e : AuthHandlerError) : M (Env T) AuthHandlerError A :=
  _ ← attempt (on_transport finalize);
  throw e.

(** The loop; [Ok None] only when the fuel runs out. *)
Fixpoint auth_loop (fuel : nat) (start attempt_no : Z) (packet : EncryptedPacket)
    (csk : ClientSymmetricKey) (keypair : Ed25519KeyPair) (challenge : bytes)
    (servers : gmap string PairedServer) : M (Env T) AuthHandlerError (option ()) :=
  match fuel with
  | O => mret None
  | S fuel' =>
      now ← gets (λ e, w_clock (e_world e));
      if decide (get_session_timeout ≤ now - start) then fail_finalized AE_Timeout else
      sent ← attempt (on_transport (send_request packet));
      match sent with
      | Err e => fail_finalized e
      | Ok _ =>
          response ← attempt (wait_for_response (get_client_retry_interval attempt_no) csk servers);
          match response with
          | Err e => fail_finalized e
          | Ok None => auth_loop fuel' start (attempt_no + 1) packet csk keypair challenge servers
          | Ok (Some wrapper) =>
              processed ← process_auth_response wrapper challenge keypair csk servers;
              match processed with
              | Some (Ok _) => mret (Some ())
              | Some (Err e) => throw e
              | None => auth_loop fuel' start attempt_no packet csk keypair challenge servers
              end
          end
      end
  end.

Definition authenticate_with_transport (fuel : nat) (packet : EncryptedPacket)
    (csk : ClientSymmetricKey) (keypair : Ed25519KeyPair) (challenge : bytes)
    (servers : gmap string PairedServer) : M (Env T) AuthHandlerError (option ()) :=
  start ← gets (λ e, w_clock (e_world e));
  _ ← modify (λ e, mkEnv (e_world e) (e_transport e) ∅ (e_spawned e));
  auth_loop fuel start 0 packet csk keypair challenge servers.
End task.
