(* ===== verification/ConcreteAuth.v ===== *)
(** * A concrete phone, socket and daemon for authentication runs *)

From stdpp Require Import base gmap strings list.
From Stdlib Require Import Strings.Byte.
From S2P Require Import Prelude Os Text Crypto Concrete Protocol ConcreteCodec Config ConfigFacts.
From S2P Require Import ConcreteConfig Network Auth.

(** Bytes as characters: a stand-in for hexadecimal text. *)
#[export] Instance toy_hex : Hex := {|
  hex_encode b := String.string_of_list_byte b;
  hex_decode s := Some (String.list_byte_of_string s);
|}.
#[export] Instance toy_hex_laws : HexLaws toy_hex.
Proof. intros b. simpl. by rewrite String.list_byte_of_string_of_list_byte. Qed.

(** A server entry for a phone's key. *)
Definition server_of (kp : Ed25519KeyPair) (users : list string) : PairedServer :=
  mkPairedServer "phone" (hex_encode (verifying_key_bytes kp)) users 1700000000000000000.

(** The packet a phone sends: a message signed by [kp], sealed with the CSK. *)
Definition phone_packet (kp : Ed25519KeyPair) (wrapper : WrapperMessage) : result ProtocolError EncryptedPacket :=
  w ← sign_wrapper_message wrapper kp;
  (create_encrypted_packet_with_csk_nonce toy_csk w quiet_world).2.

Definition toy_grant_packet (kp : Ed25519KeyPair) : EncryptedPacket :=
  default (mkEncryptedPacket [] 0 [])
    (ok (phone_packet kp (wrap_auth_grant (mkAuthenticationGrant (sign_ed25519 kp toy_challenge))))).
Definition toy_denial_packet (kp : Ed25519KeyPair) : EncryptedPacket :=
  default (mkEncryptedPacket [] 0 [])
    (ok (phone_packet kp (wrap_auth_denial (mkAuthenticationDenial toy_challenge)))).

(** 192.168.1.9 port 4000, on a host that owns 192.168.1.2. *)
Definition phone_addr : IpAddr * Z := (V4 (((192 * 256 + 168) * 256 + 1) * 256 + 9), 4000).

Definition toy_udp (inbox : list Arrival) : Udp := {|
  u_enum := Some [mkIfAddr "lo" (V4 (127 * 2 ^ 24 + 1)) true;
                  mkIfAddr "eth0" (V4 (((192 * 256 + 168) * 256 + 1) * 256 + 2)) false];
  u_index := λ n, if decide (n = "eth0"%string) then Some 2 else None;
  u_send_ok := λ _, true;
  u_v6_ok := false;
  u_cache := None;
  u_ipv6 := None;
  u_local_port := Some 36692;
  u_inbox := inbox;
  u_sent := [];
|}.

Definition toy_arrival (p : EncryptedPacket) : Arrival :=
  mkArrival 100 (Ok (encode_to_vec p, phone_addr)).

Definition toy_env (inbox : list Arrival) : Env UdpTransport :=
  mkEnv quiet_world (mkUdpTransport (toy_udp inbox) 36692) ∅ [].

(** Two paired phones: one may authenticate ann, the other only bob. *)
Definition toy_servers : gmap string PairedServer :=
  {["a"%string := server_of toy_phone ["ann"%string];
    "b"%string := server_of toy_client ["bob"%string]]}.
