(* ===== verification/NetworkTheorems.v ===== *)
(** * Theorems about the UDP layer

    Which datagrams reach the authentication loop. *)

From stdpp Require Import base gmap strings list.
From S2P Require Import Prelude Os Text Crypto Concrete Protocol ConcreteCodec Config ConfigFacts.
From S2P Require Import ConcreteConfig Network Auth ConcreteAuth.

Lemma elem_of_iface_addresses l ip : ip ∈ iface_addresses l ↔ ∃ i, i ∈ l ∧ if_ip i = ip.
Proof.
  unfold iface_addresses.
  assert (Hgen : ∀ acc, ip ∈ foldl (λ acc i, if bool_decide (if_ip i ∈ acc) then acc else acc ++ [if_ip i]) acc l
    ↔ ip ∈ acc ∨ ∃ i, i ∈ l ∧ if_ip i = ip); [|rewrite Hgen; set_solver].
  induction l as [|i l IH]; intros acc; simpl; [set_solver|]. rewrite IH. case_bool_decide; set_solver.
Qed.

(** The cached addresses, when there are any, are those of the interfaces [l]. *)
Definition interfaces (l : list IfAddr) (u : Udp) : Prop :=
  u_enum u = Some l ∧
  match u_cache u with Some c => ic_addresses c = iface_addresses l ∨ ic_addresses c = [] | None => True end.

Lemma is_local_ip_exact l ip now u u' b :
  interfaces l u → is_local_ip ip now u = (u', b) →
  interfaces l u' ∧ u_inbox u' = u_inbox u ∧ u_local_port u' = u_local_port u ∧
  (b = true ↔ is_loopback ip = true ∨ ∃ i, i ∈ l ∧ if_ip i = ip).
Proof.
  intros [He Hc]. unfold is_local_ip. destruct (is_loopback ip); [intros [= <- <-]; split_and!; try done; split; [by left|done]|].
  rewrite He. set (cache := default _ (u_cache u)). set (cache' := if negb _ then cache else _).
  intros [= <- <-].
  assert (Hc' : ic_addresses cache' = iface_addresses l).
  { unfold cache'. destruct (_ || _) eqn:Es; [done|]. apply orb_false_iff in Es as [_ Es].
    apply bool_decide_eq_false in Es. unfold cache in *. destruct (u_cache u) as [c|]; [|done].
    destruct Hc as [Hc|Hc]; [done|]. by destruct Es. }
  split; [split; [done|by left]|]. split; [done|]. split; [done|].
  rewrite bool_decide_eq_true, Hc', elem_of_iface_addresses. naive_solver.
Qed.

Section receive.
Context `{KE : !Codec EncryptedPacket}.

Lemma receive_loop_sound l deadline now inbox u u' t packet ip port :
  interfaces l u → receive_loop deadline now inbox u = (u', t, Ok (Some (packet, (ip, port)))) →
  ∃ a data, a ∈ inbox ∧ arr_event a = Ok (data, (ip, port)) ∧ arr_time a ≤ deadline ∧
    Z.of_nat (length data) ≤ MAX_UDP_MESSAGE_SIZE ∧ decode data = Some packet ∧
    is_loopback (normalize_ip ip) = false ∧ ∀ i, i ∈ l → if_ip i ≠ normalize_ip ip.
Proof.
  revert now u. induction inbox as [|a inbox IH]; intros now u Hi Hr; simpl in Hr; [by simplify_eq|].
  case_decide as Hd; [by simplify_eq|].
  assert (Hrec : ∀ now1 u1, interfaces l u1 →
    receive_loop deadline now1 inbox u1 = (u', t, Ok (Some (packet, (ip, port)))) →
    ∃ a0 data, a0 ∈ a :: inbox ∧ arr_event a0 = Ok (data, (ip, port)) ∧ arr_time a0 ≤ deadline ∧
      Z.of_nat (length data) ≤ MAX_UDP_MESSAGE_SIZE ∧ decode data = Some packet ∧
      is_loopback (normalize_ip ip) = false ∧ ∀ i, i ∈ l → if_ip i ≠ normalize_ip ip).
  { intros now1 u1 Hi1 H1. destruct (IH _ _ Hi1 H1) as (a0 & data & Hin & Hrest).
    exists a0, data. split; [by apply list_elem_of_further|done]. }
  destruct (arr_event a) as [[data [ip0 port0]]|e] eqn:Ea; [|by simplify_eq].
  set (now' := Z.max now (arr_time a)) in *.
  destruct (if bool_decide _ then _ else _) as [u1 b1] eqn:E1.
  assert (Hi1 : interfaces l u1).
  { case_bool_decide; [|by simplify_eq]. by eapply is_local_ip_exact in E1 as [? _]. }
  destruct b1; [by eapply Hrec|]. destruct (is_local_ip _ _ u1) as [u2 b2] eqn:E2.
  eapply is_local_ip_exact in E2 as (Hi2 & _ & _ & Hb); [|exact Hi1].
  destruct b2; [by eapply Hrec|]. case_decide as Hsz; [by eapply Hrec|].
  destruct (decode data) as [p|] eqn:Edec; simplify_eq. exists a, data.
  split; [apply list_elem_of_here|]. split; [done|]. split; [lia|]. split; [lia|]. split; [done|].
  split; [destruct (is_loopback _); naive_solver|]. intros i Hin Hip. assert (false = true) by (apply Hb; eauto). done.
Qed.
End receive.

(** ** Claims *)

(** What the UDP layer hands on.  A packet returned by
    [try_receive_udp_packet] is the decoding of a datagram of at most 16 KiB that
    was there before the timeout, and its source, with an embedded IPv4 address taken
    out, is neither a loopback address nor an address of this host. *)
Theorem received_packet_is_remote `{KE : !Codec EncryptedPacket} l timeout now u u' t packet ip port :
  interfaces l u → try_receive_udp_packet timeout now u = (u', t, Ok (Some (packet, (ip, port)))) →
  ∃ a data, a ∈ u_inbox u ∧ arr_event a = Ok (data, (ip, port)) ∧ arr_time a ≤ now + timeout ∧
    Z.of_nat (length data) ≤ MAX_UDP_MESSAGE_SIZE ∧ decode data = Some packet ∧
    is_loopback (normalize_ip ip) = false ∧ ∀ i, i ∈ l → if_ip i ≠ normalize_ip ip.
Proof. apply receive_loop_sound. Qed.

Definition toy_interfaces : list IfAddr := default [] (u_enum (toy_udp [])).
Definition toy_receive : Udp * Z * result NetworkError (option (EncryptedPacket * (IpAddr * Z))) :=
  try_receive_udp_packet 200 0 (toy_udp [toy_arrival (mkEncryptedPacket [] 0 [])]).

Lemma received_packet_is_remote_witness :
  ∃ u' t, toy_receive = (u', t, Ok (Some (mkEncryptedPacket [] 0 [], phone_addr))) ∧
    is_loopback (normalize_ip phone_addr.1) = false.
Proof.
  assert (Hr : toy_receive.2 = Ok (Some (mkEncryptedPacket [] 0 [], phone_addr))) by by vm_compute.
  destruct toy_receive as [[u' t] r] eqn:E. simpl in Hr. subst r. exists u', t. split; [done|].
  destruct (received_packet_is_remote toy_interfaces 200 0 (toy_udp [toy_arrival (mkEncryptedPacket [] 0 [])])
    u' t (mkEncryptedPacket [] 0 []) phone_addr.1 phone_addr.2) as (a & data & _ & _ & _ & _ & _ & Hl & _);
    [by split|exact E|exact Hl].
Defined.

(** The IPv6 loopback address passes the filter.  The address [::1] is itself a
    loopback address of the host, but a datagram from it is compared as 0.0.0.1 and
    handed on. *)
Theorem ipv6_loopback_passes :
  ∃ u u' t packet,
    interfaces [mkIfAddr "lo" (V6 1) true] u ∧ (is_local_ip (V6 1) 0 u).2 = true ∧
    try_receive_udp_packet 200 0 u = (u', t, Ok (Some (packet, (V6 1, 4000)))).
Proof.
  set (p := mkEncryptedPacket [] 0 []).
  set (u := mkUdp (Some [mkIfAddr "lo" (V6 1) true]) (λ _, None) (λ _, true) true None None (Some 36692)
              [mkArrival 100 (Ok (encode_to_vec p, (V6 1, 4000)))] []).
  assert (Hr : (try_receive_udp_packet 200 0 u).2 = Ok (Some (p, (V6 1, 4000)))) by by vm_compute.
  destruct (try_receive_udp_packet 200 0 u) as [[u' t] r] eqn:E. simpl in Hr. subst r.
  exists u, u', t, p. split; [done|]. split; [by vm_compute|exact E].
Qed.
