(* ===== verification/AuthTheorems.v ===== *)
(** * Theorems about one authentication task

    Soundness of success and denial over any transport, termination, replay
    rejection, and the reaction to honest and to damaged packets. *)

From stdpp Require Import base gmap strings list.
From S2P Require Import Prelude Os Text Crypto Concrete Protocol ConcreteCodec Config ConfigFacts.
From S2P Require Import ConcreteConfig Network Auth ConcreteAuth.

(** ** What a transport may do *)

(** Every packet the transport delivers satisfies [P]. *)
Definition delivers {T} `{Transport T} (P : EncryptedPacket → Prop) : Prop :=
  ∀ d s s' p addr, receive_response d s = (s', Ok (Response p addr)) → P p.

(** The transport's own errors are never the user's refusal. *)
Definition honest_errors {T} `{Transport T} : Prop :=
  (∀ p s s', send_request p s ≠ (s', Err AE_ExplicitDenial)) ∧
  (∀ d s s', receive_response d s ≠ (s', Err AE_ExplicitDenial)).

Section soundness.
Context `{C : CryptoOps} `{H : Hex} `{KW : !Codec WrapperMessage}.
Context {T : Type} `{TR : !Transport T}.

Lemma any_server_key_true f (servers : gmap string PairedServer) :
  any_server_key f servers = true ↔
  ∃ id s k, servers !! id = Some s ∧ server_key s = Some k ∧ f k = true.
Proof.
  unfold any_server_key. rewrite existsb_elem_of. split.
  - intros ([id s] & Hin & Hf). apply elem_of_map_to_list in Hin.
    destruct (server_key s) as [k|] eqn:E; [|done]. by exists id, s, k.
  - intros (id & s & k & Hs & Hk & Hf). exists (id, s). rewrite Hk.
    by rewrite elem_of_map_to_list.
Qed.

Lemma on_transport_run {A} (k : M (World * T) AuthHandlerError A) e e' r :
  on_transport k e = (e', r) →
  k (e_world e, e_transport e) = ((e_world e', e_transport e'), r) ∧
  e_nonce_cache e' = e_nonce_cache e ∧ e_spawned e' = e_spawned e.
Proof. unfold on_transport. destruct (k _) as [[w t] r0]. intros ?. by simplify_eq. Qed.

(** A wrapper handed on came out of a fresh packet, decrypted under the CSK, with
    a signature of some paired server. *)
Lemma wait_for_response_Some d csk servers (e e' : Env T) wrapper :
  wait_for_response d csk servers e = (e', Ok (Some wrapper)) →
  ∃ p addr s, receive_response d (e_world e, e_transport e) = (s, Ok (Response p addr)) ∧
    nonce_fingerprint p ∉ e_nonce_cache e ∧
    decrypt_encrypted_packet_with_csk_nonce csk p = Ok wrapper ∧
    verify_response_signature wrapper servers = true.
Proof.
  unfold wait_for_response. intros Hw. inv_bind. apply on_transport_run in Hrun as (Hr & Hc & _).
  destruct a as [p addr|]; [|done]. munfold. rewrite Hc in Hw.
  case_bool_decide; [done|]. destruct (decrypt_encrypted_packet_with_csk_nonce csk p) as [wr|] eqn:E; [|done].
  simpl in Hw. destruct (verify_response_signature wr servers) eqn:Ev; [|done]. simplify_eq. by eauto 10.
Qed.

(** What makes an attempt succeed. *)
Definition granted (P : EncryptedPacket → Prop) (csk : ClientSymmetricKey) (challenge : bytes)
    (servers : gmap string PairedServer) : Prop :=
  ∃ p wrapper g id s k,
    P p ∧ decrypt_encrypted_packet_with_csk_nonce csk p = Ok wrapper ∧
    wm_payload wrapper = Some (PAuthGrant g) ∧
    servers !! id = Some s ∧ server_key s = Some k ∧
    verify_wrapper_signature wrapper k = Ok () ∧
    verify_ed25519 k challenge (ag_signed_challenge g) = Ok ().

Definition denied (P : EncryptedPacket → Prop) (csk : ClientSymmetricKey) (challenge : bytes)
    (servers : gmap string PairedServer) : Prop :=
  ∃ p wrapper d id s k,
    P p ∧ decrypt_encrypted_packet_with_csk_nonce csk p = Ok wrapper ∧
    wm_payload wrapper = Some (PAuthDenial d) ∧ ad_challenge d = challenge ∧
    servers !! id = Some s ∧ server_key s = Some k ∧ verify_wrapper_signature wrapper k = Ok ().

Lemma send_confirmation_background_run challenge kp csk (e : Env T) :
  ∃ e', send_confirmation_background challenge kp csk e = (e', Ok ()).
Proof.
  unfold send_confirmation_background. destruct (create_grant_confirmation challenge) as [cf|]; [|by eexists].
  destruct (sign_wrapper_message _ kp) as [cw|]; [|by eexists]. munfold.
  destruct (on_os _ _ e) as [e1 [p|]]; by eexists.
Qed.

Lemma process_auth_response_run wrapper challenge kp csk servers (e : Env T) :
  ∃ e' r, process_auth_response wrapper challenge kp csk servers e = (e', Ok r) ∧
    (r = Some (Ok ()) → any_server_key (λ k, is_ok (verify_auth_grant wrapper challenge k)) servers = true
       ∧ ∃ g, wm_payload wrapper = Some (PAuthGrant g)) ∧
    (∀ er, r = Some (Err er) → er = AE_ExplicitDenial ∧
       ∃ d, wm_payload wrapper = Some (PAuthDenial d) ∧ ad_challenge d = challenge).
Proof.
  destruct (send_confirmation_background_run challenge kp csk e) as [e' He].
  unfold process_auth_response, handle_auth_grant, handle_auth_denial.
  destruct (wm_payload wrapper) as [[rq|g|dn|cf|cn]|]; try (eexists _, None; by repeat split).
  - destruct (any_server_key _ servers) eqn:E; [|eexists _, None; by repeat split].
    eexists _, _. erewrite bind_step by exact He. split; [done|]. split; [by eauto|done].
  - destruct (decide (ad_challenge dn = challenge)); [|eexists _, None; by repeat split].
    eexists _, _. erewrite bind_step by exact He. split; [done|]. split; [done|]. intros; simplify_eq. eauto.
Qed.

Lemma fail_finalized_run {A} (er : AuthHandlerError) (e e' : Env T) (r : result AuthHandlerError A) :
  fail_finalized er e = (e', r) → r = Err er.
Proof.
  unfold fail_finalized. munfold. destruct (on_transport _ e). intros; by simplify_eq.
Qed.

Lemma auth_loop_sound P fuel start n packet csk kp challenge servers (e e' : Env T) r :
  delivers P → auth_loop fuel start n packet csk kp challenge servers e = (e', r) →
  (r = Ok (Some ()) → granted P csk challenge servers) ∧
  (r = Err AE_ExplicitDenial → honest_errors (T := T) → denied P csk challenge servers).
Proof.
  intros HP. revert n e. induction fuel as [|fuel IH]; intros n e; [by intros He; simpl in He; unfold mret, M_ret in He; simplify_eq|].
  cbn [auth_loop]. unfold gets at 1. rewrite bind_run.
  destruct (decide _); [intros He; apply fail_finalized_run in He; by split; intros; simplify_eq|].
  rewrite bind_run. unfold attempt at 1.
  destruct (on_transport (send_request packet) e) as [e1 r1] eqn:E1. apply on_transport_run in E1 as (E1 & _).
  destruct r1 as [[]|er].
  2:{ intros He. apply fail_finalized_run in He. split; [by intros; simplify_eq|].
      intros -> [Hs _]. simplify_eq. by apply Hs in E1. }
  rewrite bind_run. unfold attempt.
  destruct (wait_for_response _ csk servers e1) as [e2 [[wrapper|]|er]] eqn:E2.
  - apply wait_for_response_Some in E2 as (p & addr & s & Hr & _ & Hd & Hv).
    destruct (process_auth_response_run wrapper challenge kp csk servers e2) as (e3 & pr & Hp & Hok & Herr).
    rewrite bind_run, Hp. destruct pr as [[[]|er]|]; [| |apply IH].
    + unfold mret, M_ret. intros ?; simplify_eq. split; [|done]. intros _. destruct (Hok eq_refl) as (Hany & g & Hg).
      apply any_server_key_true in Hany as (id & s0 & k & Hs & Hk & Hvg).
      apply is_ok_true in Hvg as [[] Hvg]. apply verify_auth_grant_Ok in Hvg as (_ & Hvw & g' & Hg' & Hvs).
      exists p, wrapper, g, id, s0, k. simplify_eq. split_and!; eauto.
    + intros He. unfold throw in He. simplify_eq. destruct (Herr er eq_refl) as (-> & d & Hpay & Hch).
      split; [done|]. intros _ _. unfold verify_response_signature in Hv.
      apply any_server_key_true in Hv as (id & s0 & k & Hs & Hk & Hvg). apply is_ok_true in Hvg as [[] Hvg].
      exists p, wrapper, d, id, s0, k. split_and!; eauto.
  - apply IH.
  - intros He. apply fail_finalized_run in He. split; [by intros; simplify_eq|].
    intros -> [_ Hh]. simplify_eq. unfold wait_for_response in E2. rewrite bind_run in E2.
    destruct (on_transport (receive_response _) e1) as [e3 [rr|er']] eqn:E3.
    2:{ simplify_eq. apply on_transport_run in E3 as (E3 & _). by apply Hh in E3. }
    destruct rr; [|done]. munfold. case_bool_decide; [done|].
    destruct (decrypt_encrypted_packet_with_csk_nonce csk p) as [wr|]; [|done]. simpl in E2.
    by destruct (verify_response_signature wr servers).
Qed.
End soundness.

(** ** Termination *)

(** What a transport promises so that an attempt ends: time does not run
    backwards, a receive that times out has waited for its interval, and one that
    delivers has used up one of finitely many pending packets. *)
Class TransportProgress (T : Type) `{TR : !Transport T} := {
  backlog : T → nat;
  send_progress p w t w' t' r :
    send_request p (w, t) = ((w', t'), r) → w_clock w ≤ w_clock w' ∧ (backlog t' ≤ backlog t)%nat;
  recv_progress d w t w' t' r :
    0 ≤ d → receive_response d (w, t) = ((w', t'), r) →
    w_clock w ≤ w_clock w' ∧ (backlog t' ≤ backlog t)%nat ∧
    match r with
    | Ok RecvTimeout => w_clock w + d ≤ w_clock w'
    | Ok (Response _ _) => (backlog t' < backlog t)%nat
    | Err _ => True
    end;
}.

Lemma retry_interval_bounds n : 0 ≤ n → 200 ≤ get_client_retry_interval n ≤ 6400.
Proof.
  intros Hn. unfold get_client_retry_interval.
  assert (2 ^ 0 ≤ 2 ^ Z.min n 5) by (apply Z.pow_le_mono_r; lia).
  assert (2 ^ Z.min n 5 ≤ 2 ^ 5) by (apply Z.pow_le_mono_r; lia). lia.
Qed.

Section termination.
Context `{C : CryptoOps} `{H : Hex} `{KW : !Codec WrapperMessage}.
Context {T : Type} `{TR : !Transport T} `{TP : !TransportProgress T}.

(** Iterations still possible: one per pending packet, one per 200 ms left. *)
Definition loop_measure (start : Z) (e : Env T) : nat :=
  backlog (e_transport e) + Z.to_nat ((get_session_timeout - (w_clock (e_world e) - start) + 199) / 200).

Lemma wait_progress d csk servers (e e' : Env T) r :
  0 ≤ d → wait_for_response d csk servers e = (e', r) →
  w_clock (e_world e) ≤ w_clock (e_world e') ∧
  (backlog (e_transport e') ≤ backlog (e_transport e))%nat ∧
  (is_ok r = true → w_clock (e_world e) + d ≤ w_clock (e_world e') ∨
     (backlog (e_transport e') < backlog (e_transport e))%nat).
Proof.
  intros Hd Hw. unfold wait_for_response in Hw. rewrite bind_run in Hw.
  destruct (on_transport (receive_response d) e) as [e1 r1] eqn:E1. apply on_transport_run in E1 as (E1 & Hc & _).
  apply recv_progress in E1 as (Ht & Hb & Hm); [|done].
  destruct r1 as [[p addr|]|er]; munfold.
  - assert (e_world e' = e_world e1 ∧ e_transport e' = e_transport e1) as [-> ->].
    { case_bool_decide; [by simplify_eq|]. destruct (map_err _ _) as [wr|]; [|by simplify_eq].
      destruct (verify_response_signature wr servers); by simplify_eq. }
    split; [lia|]. split; [lia|]. intros _. by right.
  - simplify_eq. split; [lia|]. split; [lia|]. by left.
  - simplify_eq. split; [lia|]. by split; [lia|].
Qed.

(** Nothing but transport calls moves the clock or the backlog. *)
Lemma process_frame wrapper challenge kp csk servers (e e' : Env T) r :
  process_auth_response wrapper challenge kp csk servers e = (e', r) →
  w_clock (e_world e') = w_clock (e_world e) ∧ e_transport e' = e_transport e.
Proof.
  intros Hp.
  assert (Hs : ∀ e'' r', send_confirmation_background challenge kp csk e = (e'', r') →
    w_clock (e_world e'') = w_clock (e_world e) ∧ e_transport e'' = e_transport e).
  { intros e'' r'. unfold send_confirmation_background.
    destruct (create_grant_confirmation challenge) as [cf|]; [|by intros; munfold; simplify_eq].
    destruct (sign_wrapper_message _ kp) as [cw|]; [|by intros; munfold; simplify_eq].
    munfold. unfold on_os.
    destruct (create_encrypted_packet_with_csk_nonce csk cw (e_world e)) as [w pr] eqn:Ep.
    apply create_packet_world in Ep as [en ->]. destruct pr; simpl; intros; by simplify_eq. }
  unfold process_auth_response, handle_auth_grant, handle_auth_denial in Hp.
  destruct (send_confirmation_background challenge kp csk e) as [e1 [[]|]] eqn:E1;
    pose proof (Hs _ _ eq_refl) as [Hc Ht].
  all: destruct (wm_payload wrapper) as [[rq|g|dn|cf|cn]|];
    repeat match goal with Hp : context [if ?b then _ else _] |- _ => destruct b end;
    rewrite ?bind_run, ?E1 in Hp; munfold; by simplify_eq.
Qed.

Lemma measure_decreases start (e e' : Env T) d :
  200 ≤ d → w_clock (e_world e) - start < get_session_timeout →
  w_clock (e_world e) ≤ w_clock (e_world e') →
  (backlog (e_transport e') ≤ backlog (e_transport e))%nat →
  w_clock (e_world e) + d ≤ w_clock (e_world e') ∨ (backlog (e_transport e') < backlog (e_transport e))%nat →
  (loop_measure start e' < loop_measure start e)%nat.
Proof.
  intros Hd Ht Hc Hb Hor. unfold loop_measure, get_session_timeout in *.
  set (x := w_clock (e_world e) - start) in *. set (y := w_clock (e_world e') - start).
  assert (Hxy : (120 * 1000 - y + 199) / 200 ≤ (120 * 1000 - x + 199) / 200).
  { apply Z.div_le_mono; lia. }
  destruct Hor as [Hy|Hlt]; [|lia].
  assert ((120 * 1000 - y + 199) / 200 + 1 ≤ (120 * 1000 - x + 199) / 200).
  { replace ((120 * 1000 - y + 199) / 200 + 1) with ((120 * 1000 - y + 199 + 1 * 200) / 200)
      by (rewrite Z.div_add by lia; lia). apply Z.div_le_mono; lia. }
  assert (0 < (120 * 1000 - x + 199) / 200) by (apply Z.div_str_pos; lia). lia.
Qed.

Lemma auth_loop_terminates fuel start n packet csk kp challenge servers (e : Env T) :
  0 ≤ n → (loop_measure start e < fuel)%nat →
  (auth_loop fuel start n packet csk kp challenge servers e).2 ≠ Ok None.
Proof.
  revert n e. induction fuel as [|fuel IH]; intros n e Hn Hm; [lia|].
  cbn [auth_loop]. unfold gets at 1. rewrite bind_run.
  destruct (decide _) as [|Ht]; [by unfold fail_finalized; munfold; destruct (on_transport finalize e)|].
  rewrite bind_run. unfold attempt at 1.
  destruct (on_transport (send_request packet) e) as [e1 r1] eqn:E1. apply on_transport_run in E1 as (E1 & _).
  apply send_progress in E1 as [Hc1 Hb1].
  destruct r1 as [[]|er]; [|by unfold fail_finalized; munfold; destruct (on_transport finalize e1)].
  rewrite bind_run. unfold attempt.
  destruct (wait_for_response _ csk servers e1) as [e2 r2] eqn:E2.
  pose proof (retry_interval_bounds n Hn) as Hd.
  apply wait_progress in E2 as (Hc2 & Hb2 & Hor); [|lia].
  destruct r2 as [wr|er]; [|by unfold fail_finalized; munfold; destruct (on_transport finalize e2)].
  assert (Hdec : (loop_measure start e2 < loop_measure start e)%nat).
  { apply (measure_decreases start e e2 (get_client_retry_interval n)); [lia|lia|lia|lia|].
    destruct (Hor eq_refl); [left; lia|right; lia]. }
  destruct wr as [wrapper|]; [|apply IH; lia]. rewrite bind_run.
  destruct (process_auth_response wrapper challenge kp csk servers e2) as [e3 r3] eqn:E3.
  destruct (process_frame _ _ _ _ _ _ _ _ E3) as [Hc3 Ht3].
  destruct r3 as [[[[]|er]|]|er]; [done|done| |done]. apply IH; [done|].
  assert (loop_measure start e3 = loop_measure start e2) as ->
    by (unfold loop_measure; by rewrite Hc3, Ht3). lia.
Qed.
End termination.

(** ** The UDP transport keeps the promise *)

Section udp_progress.
Context `{KE : !Codec EncryptedPacket}.

Lemma is_local_ip_inbox ip now u : u_inbox (is_local_ip ip now u).1 = u_inbox u.
Proof. unfold is_local_ip. by destruct (is_loopback ip). Qed.

Lemma receive_loop_progress deadline now inbox u u' now' r :
  now ≤ deadline → receive_loop deadline now inbox u = (u', now', r) →
  now ≤ now' ≤ deadline ∧ (length (u_inbox u') ≤ length inbox)%nat ∧
  match r with
  | Ok None => now' = deadline
  | Ok (Some _) => (length (u_inbox u') < length inbox)%nat
  | Err _ => True
  end.
Proof.
  revert now u. induction inbox as [|a inbox IH]; intros now u Hn; cbn [receive_loop].
  - intros; simplify_eq. simpl. lia.
  - destruct (decide _) as [|Ha]; [intros; simplify_eq; simpl; lia|].
    destruct (arr_event a) as [[data [ip port]]|er]; [|intros; simplify_eq; simpl; lia].
    destruct (if bool_decide _ then _ else _) as [u1 loc1].
    assert (Hrec : ∀ u2, receive_loop deadline (Z.max now (arr_time a)) inbox u2 = (u', now', r) →
      now ≤ now' ≤ deadline ∧ (length (u_inbox u') ≤ length (a :: inbox))%nat ∧
      match r with Ok None => now' = deadline | Ok (Some _) => (length (u_inbox u') < length (a :: inbox))%nat
              | Err _ => True end).
    { intros u2 Hr. apply IH in Hr as (Hc & Hl & Hm); [|lia]. cbn [length].
      split; [lia|]. split; [lia|]. destruct r as [[|]|]; lia. }
    destruct loc1; [apply Hrec|]. destruct (is_local_ip _ _ u1) as [u2 loc2].
    destruct loc2; [apply Hrec|]. destruct (decide _); [apply Hrec|].
    destruct (decode data); intros; simplify_eq; simpl; lia.
Qed.

Lemma send_multicast_inbox port p u : u_inbox (send_to_multicast_groups port p u) = u_inbox u.
Proof.
  unfold send_to_multicast_groups, is_ipv6_available. simpl.
  by destruct (u_ipv6 u) as [[]|]; [..|destruct (u_v6_ok u)].
Qed.

#[global] Instance udp_progress : TransportProgress UdpTransport.
Proof.
  refine {| backlog := λ t, length (u_inbox (ut_socket t)) |}.
  - intros p w t w' t' r Hs. simpl in Hs. simplify_eq. simpl. rewrite send_multicast_inbox. lia.
  - intros d w t w' t' r Hd Hr. simpl in Hr. unfold try_receive_udp_packet in Hr.
    destruct (receive_loop _ _ _ _) as [[u now] r0] eqn:E. simplify_eq. simpl.
    apply receive_loop_progress in E as (Hc & Hl & Hm); [|lia].
    split; [lia|]. split; [done|]. destruct r0 as [[[p addr]|]|]; lia || done.
Defined.

Lemma udp_honest_errors : honest_errors (T := UdpTransport).
Proof.
  split; [by intros p [w t] s'|]. intros d [w t] s' Hr. simpl in Hr. unfold try_receive_udp_packet in Hr.
  destruct (receive_loop _ _ _ _) as [[u now] r0]. by destruct r0 as [[[]|]|].
Qed.
End udp_progress.

(** ** Claims *)

(** C2: Success means a grant.  Over any transport, an attempt that succeeds
    received a packet which decrypts under the client's CSK to a grant whose whole
    message and whose signature over exactly this session's challenge both verify
    under the public key of one and the same paired server. *)
Theorem success_needs_grant `{C : CryptoOps} `{H : Hex} `{KW : !Codec WrapperMessage}
    {T : Type} `{TR : !Transport T} P fuel packet csk kp challenge servers (e e' : Env T) :
  delivers P →
  authenticate_with_transport fuel packet csk kp challenge servers e = (e', Ok (Some ())) →
  granted P csk challenge servers.
Proof.
  intros HP Ha. unfold authenticate_with_transport in Ha. munfold.
  by apply (auth_loop_sound P) in Ha as [Ha _]; [apply Ha|].
Qed.

(** C34: A refusal is authentic.  Over a transport whose own errors are not
    refusals, [ExplicitDenial] is reported only when a received packet decrypts
    under the CSK to a denial of exactly this session's challenge, signed by a
    paired server. *)
Theorem denial_needs_signature `{C : CryptoOps} `{H : Hex} `{KW : !Codec WrapperMessage}
    {T : Type} `{TR : !Transport T} P fuel packet csk kp challenge servers (e e' : Env T) :
  delivers P → honest_errors (T := T) →
  authenticate_with_transport fuel packet csk kp challenge servers e = (e', Err AE_ExplicitDenial) →
  denied P csk challenge servers.
Proof.
  intros HP Hh Ha. unfold authenticate_with_transport in Ha. munfold.
  by apply (auth_loop_sound P) in Ha as [_ Ha]; [apply Ha|].
Qed.

Lemma udp_attempt_ends `{C : CryptoOps} `{H : Hex} `{KW : !Codec WrapperMessage}
    `{KE : !Codec EncryptedPacket} fuel packet csk kp challenge servers (e : Env UdpTransport) :
  (length (u_inbox (ut_socket (e_transport e))) + 601 ≤ fuel)%nat →
  result_of (authenticate_with_transport fuel packet csk kp challenge servers) e ≠ Ok None.
Proof.
  intros Hf. unfold result_of, authenticate_with_transport. munfold.
  apply auth_loop_terminates; [done|]. unfold loop_measure, get_session_timeout. simpl.
  replace (120 * 1000 - (w_clock (e_world e) - w_clock (e_world e)) + 199) with 120199 by lia.
  change (120199 / 200) with 600. lia.
Qed.

(** C27: Every UDP attempt ends.  With one step of fuel for each datagram that ever
    arrives and 601 more, the loop returns a verdict; no fuel beyond that is ever
    needed. *)
Theorem udp_attempt_terminates `{C : CryptoOps} `{H : Hex} `{KW : !Codec WrapperMessage}
    `{KE : !Codec EncryptedPacket} fuel packet csk kp challenge servers (e : Env UdpTransport) :
  (length (u_inbox (ut_socket (e_transport e))) + 601 ≤ fuel)%nat →
  result_of (authenticate_with_transport fuel packet csk kp challenge servers) e ≠ Ok None.
Proof. apply udp_attempt_ends. Qed.

(** Replays are dropped.  A packet with the identifier and ciphertext of one
    already seen in the attempt is ignored: the wait ends as if nothing had come,
    whatever the packet contains, and without decrypting it. *)
Theorem replay_ignored `{C : CryptoOps} `{H : Hex} `{KW : !Codec WrapperMessage}
    {T : Type} `{TR : !Transport T} d csk servers (e : Env T) w t p addr :
  receive_response d (e_world e, e_transport e) = ((w, t), Ok (Response p addr)) →
  nonce_fingerprint p ∈ e_nonce_cache e →
  wait_for_response d csk servers e = (mkEnv w t (e_nonce_cache e) (e_spawned e), Ok None).
Proof.
  intros Hr Hin. unfold wait_for_response, on_transport. munfold. rewrite Hr. simpl.
  rewrite bool_decide_eq_true_2 by done. do 3 f_equal. set_solver.
Qed.


(** The filter's answer depends on the cache and the interfaces only. *)
Lemma is_local_ip_ext ip now u u' :
  u_enum u' = u_enum u → u_cache u' = u_cache u → (is_local_ip ip now u').2 = (is_local_ip ip now u).2.
Proof. intros He Hc. unfold is_local_ip. destruct (is_loopback ip); [done|]. simpl. by rewrite He, Hc. Qed.

Lemma send_multicast_frame `{KE : !Codec EncryptedPacket} port p u :
  let u' := send_to_multicast_groups port p u in
  u_enum u' = u_enum u ∧ u_cache u' = u_cache u ∧ u_local_port u' = u_local_port u ∧ u_inbox u' = u_inbox u.
Proof.
  unfold send_to_multicast_groups, is_ipv6_available. simpl.
  by destruct (u_ipv6 u) as [[]|]; [..|destruct (u_v6_ok u)].
Qed.

(** A datagram from another host that is next in the inbox is what is received. *)
Lemma udp_receives `{KE : !Codec EncryptedPacket} `{!CodecLaws EncryptedPacket KE packet_wire}
    d now u p ip port t rest :
  u_inbox u = mkArrival t (Ok (encode_to_vec p, (ip, port))) :: rest →
  t ≤ now + d → wire_ok p → Z.of_nat (length (encode_to_vec p)) ≤ MAX_UDP_MESSAGE_SIZE →
  (is_local_ip (normalize_ip ip) (Z.max now t) u).2 = false → u_local_port u ≠ Some port →
  ∃ u', try_receive_udp_packet d now u = (u', Z.max now t, Ok (Some (p, (ip, port)))).
Proof.
  intros Hi Ht Hw Hl Hf Hp. unfold try_receive_udp_packet. rewrite Hi. cbn [receive_loop arr_time arr_event].
  rewrite decide_False by lia. rewrite bool_decide_eq_false_2 by done.
  destruct (is_local_ip (normalize_ip ip) (Z.max now t) u) as [u2 loc2]. simpl in Hf. subst.
  rewrite decide_False by lia. rewrite decode_encode by done. by eexists.
Qed.

(** Over any transport that takes the request and hands on an honest grant within the
    first retry interval, the attempt succeeds there and then. *)
Lemma delivered_grant_run `{C : CryptoOps} `{H : Hex} `{KW : !Codec WrapperMessage} {T : Type} `{TR : !Transport T}
    fuel packet csk kp challenge servers id s key wrapper p addr (e : Env T) s1 s2 :
  servers !! id = Some s → server_key s = Some key →
  decrypt_encrypted_packet_with_csk_nonce csk p = Ok wrapper →
  verify_auth_grant wrapper challenge key = Ok () →
  send_request packet (e_world e, e_transport e) = (s1, Ok ()) →
  receive_response 200 s1 = (s2, Ok (Response p addr)) →
  ∃ e', authenticate_with_transport (S fuel) packet csk kp challenge servers e = (e', Ok (Some ())) ∧
    w_clock (e_world e') = w_clock s2.1.
Proof.
  destruct s1 as [w1 t1], s2 as [w2 t2]. intros Hs Hk Hd Hv Hsend Hrecv.
  destruct (proj1 (verify_auth_grant_Ok _ _ _) Hv) as (_ & Hsig & g & Hpay & _).
  unfold authenticate_with_transport. cbn [auth_loop]. unfold gets, modify. rewrite !bind_run.
  cbn [e_world]. rewrite Z.sub_diag, decide_False by (unfold get_session_timeout; lia).
  rewrite bind_run. unfold attempt at 1, on_transport at 1. cbn [e_world e_transport]. rewrite Hsend.
  rewrite bind_run. unfold attempt at 1. cbn [e_nonce_cache e_spawned e_transport e_world].
  assert (∃ e2, wait_for_response (get_client_retry_interval 0) csk servers (mkEnv w1 t1 ∅ (e_spawned e))
    = (e2, Ok (Some wrapper)) ∧ e_world e2 = w2) as (e2 & Hw & <-).
  { unfold wait_for_response, on_transport. munfold. change (get_client_retry_interval 0) with 200.
    rewrite Hrecv. simpl. rewrite bool_decide_eq_false_2 by set_solver. rewrite Hd. simpl.
    assert (verify_response_signature wrapper servers = true) as ->; [|by eexists].
    apply any_server_key_true. exists id, s, key. by rewrite Hsig. }
  rewrite Hw. rewrite bind_run.
  assert (∃ e3, process_auth_response wrapper challenge kp csk servers e2 = (e3, Ok (Some (Ok ())))) as [e3 Hp].
  { unfold process_auth_response. rewrite Hpay. unfold handle_auth_grant.
    assert (any_server_key (λ k, is_ok (verify_auth_grant wrapper challenge k)) servers = true) as ->.
    { apply any_server_key_true. exists id, s, key. by rewrite Hv. }
    destruct (send_confirmation_background_run challenge kp csk e2) as [e3 He3]. exists e3.
    by erewrite bind_step by exact He3. }
  rewrite Hp. exists e3. split; [done|]. by apply process_frame in Hp as [-> _].
Qed.

Lemma delivered_grant_accepted `{C : CryptoOps} `{H : Hex} `{KW : !Codec WrapperMessage} {T : Type} `{TR : !Transport T}
    fuel packet csk kp challenge servers id s key wrapper p addr (e : Env T) s1 s2 :
  servers !! id = Some s → server_key s = Some key →
  decrypt_encrypted_packet_with_csk_nonce csk p = Ok wrapper →
  verify_auth_grant wrapper challenge key = Ok () →
  send_request packet (e_world e, e_transport e) = (s1, Ok ()) →
  receive_response 200 s1 = (s2, Ok (Response p addr)) →
  result_of (authenticate_with_transport (S fuel) packet csk kp challenge servers) e = Ok (Some ()).
Proof.
  intros Hs Hk Hd Hv Hsend Hrecv. unfold result_of.
  by edestruct (delivered_grant_run fuel packet csk kp challenge servers id s key wrapper p addr e s1 s2)
    as (e' & -> & _).
Qed.

Lemma udp_grant_run `{C : CryptoOps} `{L : !CryptoLaws C} `{H : Hex}
    `{KW : !Codec WrapperMessage} `{LW : !CodecLaws WrapperMessage KW wrapper_wire}
    `{KE : !Codec EncryptedPacket} `{LE : !CodecLaws EncryptedPacket KE packet_wire}
    fuel packet csk kp challenge servers id s phone g wrapper wp wp' p ip port t rest (e : Env UdpTransport) :
  wf_csk csk → wf_ed25519 phone →
  servers !! id = Some s → server_key s = Some (verifying_key_bytes phone) →
  create_auth_grant phone challenge = Ok g →
  sign_wrapper_message (wrap_auth_grant g) phone = Ok wrapper →
  create_encrypted_packet_with_csk_nonce csk wrapper wp = (wp', Ok p) →
  u_inbox (ut_socket (e_transport e)) = mkArrival t (Ok (encode_to_vec p, (ip, port))) :: rest →
  t ≤ w_clock (e_world e) + 200 →
  Z.of_nat (length (encode_to_vec p)) ≤ MAX_UDP_MESSAGE_SIZE →
  (is_local_ip (normalize_ip ip) (Z.max (w_clock (e_world e)) t) (ut_socket (e_transport e))).2 = false →
  u_local_port (ut_socket (e_transport e)) ≠ Some port →
  ∃ e', authenticate_with_transport (S fuel) packet csk kp challenge servers e = (e', Ok (Some ())) ∧
    w_clock (e_world e') = Z.max (w_clock (e_world e)) t.
Proof.
  intros Hcsk Hph Hs Hk Hg Hsign Hp Hi Ht Hl Hloc Hport.
  pose proof (create_packet_wire _ _ _ _ _ Hp) as Hpw.
  destruct (send_multicast_frame (ut_port (e_transport e)) packet (ut_socket (e_transport e))) as (He & Hc & Hlp & Hin).
  set (u1 := send_to_multicast_groups _ _ _) in *.
  destruct (udp_receives 200 (w_clock (e_world e)) u1 p ip port t rest) as [u2 Hrecv];
    [by rewrite Hin|done|done|done|by rewrite (is_local_ip_ext _ _ (ut_socket (e_transport e)))|by rewrite Hlp|].
  assert (wire_ok wrapper) by (unfold sign_wrapper_message in Hsign; simplify_eq; by repeat split).
  eapply (delivered_grant_run _ packet csk kp challenge servers id s _ wrapper p (ip, port) e _
    (set_clock (Z.max (w_clock (e_world e)) t) (e_world e), mkUdpTransport u2 (ut_port (e_transport e))));
    [done|done|by eapply decrypt_create_packet|by eapply grant_verifies|done|].
  simpl. unfold udp_receive_response. munfold. simpl. fold u1. by rewrite Hrecv.
Qed.

(** An honest phone is believed.  Let a paired server with a well-formed key
    answer this session's challenge with a grant, sealed with the client's CSK and
    sent from another host so that it is the next datagram to arrive, within the
    first retry interval.  Then the UDP attempt succeeds at its first response. *)
Theorem honest_grant_accepted `{C : CryptoOps} `{L : !CryptoLaws C} `{H : Hex}
    `{KW : !Codec WrapperMessage} `{LW : !CodecLaws WrapperMessage KW wrapper_wire}
    `{KE : !Codec EncryptedPacket} `{LE : !CodecLaws EncryptedPacket KE packet_wire}
    fuel packet csk kp challenge servers id s phone g wrapper wp wp' p ip port t rest (e : Env UdpTransport) :
  wf_csk csk → wf_ed25519 phone →
  servers !! id = Some s → server_key s = Some (verifying_key_bytes phone) →
  create_auth_grant phone challenge = Ok g →
  sign_wrapper_message (wrap_auth_grant g) phone = Ok wrapper →
  create_encrypted_packet_with_csk_nonce csk wrapper wp = (wp', Ok p) →
  u_inbox (ut_socket (e_transport e)) = mkArrival t (Ok (encode_to_vec p, (ip, port))) :: rest →
  t ≤ w_clock (e_world e) + 200 →
  Z.of_nat (length (encode_to_vec p)) ≤ MAX_UDP_MESSAGE_SIZE →
  (is_local_ip (normalize_ip ip) (Z.max (w_clock (e_world e)) t) (ut_socket (e_transport e))).2 = false →
  u_local_port (ut_socket (e_transport e)) ≠ Some port →
  result_of (authenticate_with_transport (S fuel) packet csk kp challenge servers) e = Ok (Some ()).
Proof.
  intros Hcsk Hph Hs Hk Hg Hsign Hp Hi Ht Hl Hloc Hport. unfold result_of.
  by edestruct (udp_grant_run fuel packet csk kp challenge servers id s phone g wrapper wp wp' p ip port t rest e)
    as (e' & -> & _).
Qed.

(** ** Witnesses: an exchange with one phone *)

(** An attempt at which one packet arrives. *)
Definition toy_run (p : EncryptedPacket) : Env UdpTransport * result AuthHandlerError (option ()) :=
  authenticate_with_transport 602 (mkEncryptedPacket [] 0 []) toy_csk toy_client toy_challenge toy_servers
    (toy_env [toy_arrival p]).

Lemma toy_run_result p r :
  (toy_run p).2 = r →
  ∃ e', authenticate_with_transport 602 (mkEncryptedPacket [] 0 []) toy_csk toy_client toy_challenge toy_servers
    (toy_env [toy_arrival p]) = (e', r).
Proof. unfold toy_run. destruct (authenticate_with_transport _ _ _ _ _ _ _) as [e' r']. intros <-. by exists e'. Qed.

Lemma toy_grant_run : (toy_run (toy_grant_packet toy_phone)).2 = Ok (Some ()).
Proof. by vm_compute. Qed.
Lemma toy_denial_run : (toy_run (toy_denial_packet toy_phone)).2 = Err AE_ExplicitDenial.
Proof. by vm_compute. Qed.

Lemma success_needs_grant_witness :
  granted (λ _, True) toy_csk toy_challenge toy_servers.
Proof.
  destruct (toy_run_result _ _ toy_grant_run) as [e' E].
  exact (success_needs_grant (λ _, True) _ _ _ _ _ _ _ _ (λ _ _ _ _ _ _, I) E).
Defined.

Lemma denial_needs_signature_witness :
  denied (λ _, True) toy_csk toy_challenge toy_servers.
Proof.
  destruct (toy_run_result _ _ toy_denial_run) as [e' E].
  exact (denial_needs_signature (λ _, True) _ _ _ _ _ _ _ _ (λ _ _ _ _ _ _, I) udp_honest_errors E).
Defined.

Lemma udp_attempt_terminates_witness :
  result_of (authenticate_with_transport 601 (mkEncryptedPacket [] 0 []) toy_csk toy_client toy_challenge
    toy_servers) (toy_env []) ≠ Ok None.
Proof. apply udp_attempt_terminates. vm_compute. lia. Defined.

Lemma replay_ignored_witness :
  ∃ e', wait_for_response 200 toy_csk toy_servers
    (mkEnv quiet_world (mkUdpTransport (toy_udp [toy_arrival (toy_grant_packet toy_phone)]) 36692)
       {[nonce_fingerprint (toy_grant_packet toy_phone)]} []) = (e', Ok None).
Proof.
  destruct (receive_response 200 (quiet_world, mkUdpTransport (toy_udp [toy_arrival (toy_grant_packet toy_phone)]) 36692))
    as [[w t] r] eqn:E.
  assert (r = Ok (Response (toy_grant_packet toy_phone) phone_addr)) as ->.
  { change r with (snd ((w, t), r)). rewrite <-E. by vm_compute. }
  eexists. eapply replay_ignored; [exact E|]. set_solver.
Defined.

Definition damaged_packet : EncryptedPacket := mkEncryptedPacket [] 1 (rep 40 9).


Lemma honest_grant_accepted_witness :
  result_of (authenticate_with_transport 602 (mkEncryptedPacket [] 0 []) toy_csk toy_client toy_challenge
    toy_servers) (toy_env [toy_arrival (toy_grant_packet toy_phone)]) = Ok (Some ()).
Proof.
  set (g := mkAuthenticationGrant (sign_ed25519 toy_phone toy_challenge)).
  destruct (sign_wrapper_message (wrap_auth_grant g) toy_phone) as [w|] eqn:Ew; [|by vm_compute in Ew].
  destruct (create_encrypted_packet_with_csk_nonce toy_csk w quiet_world) as [wp rp] eqn:Ep.
  assert (rp = Ok (toy_grant_packet toy_phone)) as ->.
  { change rp with (wp, rp).2. rewrite <-Ep. injection Ew as <-. by vm_compute. }
  by apply (honest_grant_accepted 601 _ toy_csk toy_client toy_challenge toy_servers "a"
    (server_of toy_phone ["ann"%string]) toy_phone g w quiet_world wp (toy_grant_packet toy_phone)
    phone_addr.1 phone_addr.2 100 []); try (by split); try exact Ep; vm_compute.
Defined.
