(* ===== verification/PeerIdentity.v ===== *)
(** * Who is calling: [tapauthd/src/peer_identity.rs]

    The identity of an administrative caller and its authorisation by PolKit, in
    production builds (no [dev-polkit-bypass]).  The bus is a parameter;
    the call on it is the code's. *)

From stdpp Require Import base gmap strings list.
From Stdlib Require Import Strings.Ascii.
From S2P Require Import Prelude Text PairingUrl.

Inductive PeerIdentityError :=
| InvalidPid (pid : Z)
| ResolveFailed
| ProcStatRead (pid : Z)
| ProcStatMalformed (pid : Z) (detail : string)
| DBusUnavailable (reason : string)
| AuthorizationDenied
| PolKitUnavailable (reason : string)
| PolKitError (reason : string).

Record PeerIdentity := mkPeerIdentity {
  pe_pid : Z;
  pe_uid : Z;
  pe_username : string;
  pe_start_time : N;
}.

(** *** The call of [CheckAuthorization] *)

Definition POLKIT_ACTION_ID : string := "dev.rourunisen.tapauth.config.admin".

(** The subject with its three details, the action and the flags. *)
Record PolkitRequest := mkPolkitRequest {
  pq_kind : string;
  pq_pid : Z;                    (* u32 *)
  pq_start_time : N;             (* u64 *)
  pq_uid : Z;                    (* u32 *)
  pq_action : string;
  pq_flags : Z;
}.

Inductive BusAnswer :=
| CallFailed (e : string)
| BadReply (e : string)
| Reply (is_authorized : bool).

(** What the system says about callers. *)
Record PeerEnv := mkPeerEnv {
  (** [User::from_uid]: an error, or the user's name if there is one *)
  en_user : Z → result () (option string);
  (** contents of [/proc/<pid>/stat] *)
  en_stat : Z → option string;
  (** the system bus, or why it cannot be reached *)
  en_bus : result string (PolkitRequest → BusAnswer);
}.

(** ** Text *)

(** What follows the last occurrence of [c]. *)
Fixpoint after_last (c : ascii) (l : list ascii) : option (list ascii) :=
  match l with
  | [] => None
  | d :: l' => match after_last c l' with
               | Some r => Some r
               | None => if decide (d = c) then Some l' else None
               end
  end.

(** [split_whitespace] *)
Fixpoint words_from (cur : list ascii) (l : list ascii) : list (list ascii) :=
  match l with
  | [] => match cur with [] => [] | _ => [reverse cur] end
  | c :: l' =>
      if is_whitespace c
      then match cur with [] => words_from [] l' | _ => reverse cur :: words_from [] l' end
      else words_from (c :: cur) l'
  end.
Definition split_whitespace (l : list ascii) : list (list ascii) := words_from [] l.

(** [s.to_lowercase().contains(needle)], for texts that are ASCII. *)
Fixpoint contains_chars (needle l : list ascii) : bool :=
  match strip_prefix needle l with
  | Some _ => true
  | None => match l with [] => false | _ :: l' => contains_chars needle l' end
  end.
Definition lower_contains (s needle : string) : bool :=
  contains_chars (chars needle) (chars (to_ascii_lowercase s)).

(** ** Operations *)

Definition read_process_start_time (env : PeerEnv) (pid : Z) : result PeerIdentityError N :=
  match en_stat env pid with
  | None => Err (ProcStatRead pid)
  | Some stat_content =>
      match after_last ")"%char (chars stat_content) with
      | None => Err (ProcStatMalformed pid "no closing parenthesis")
      | Some after_comm =>
          let fields := split_whitespace after_comm in
          if decide (length fields < 20)%nat
          then Err (ProcStatMalformed pid
                 ("only " +:+ String.string_of_list_ascii (dec (N.of_nat (length fields))) +:+ " fields after comm")%string)
          else match fields !! 19%nat with
               | None => Err (ProcStatMalformed pid "too few fields")
               | Some f => ok_or (ProcStatMalformed pid "failed to parse start_time") (parse_uint 64 f)
               end
      end
  end.

Definition resolve_peer (env : PeerEnv) (pid uid : Z) : result PeerIdentityError PeerIdentity :=
  if decide (pid ≤ 0) then Err (InvalidPid pid) else
  user ← map_err (λ _, ResolveFailed) (en_user env uid);
  username ← ok_or ResolveFailed user;
  start_time ← read_process_start_time env pid;
  Ok (mkPeerIdentity pid uid username start_time).

(** Whether a failed PolKit call means that there is no PolKit. *)
Definition polkit_unavailable (e : PeerIdentityError) : bool :=
  match e with
  | DBusUnavailable _ => true
  | PolKitError s => lower_contains s "not found" || lower_contains s "no such"
                     || lower_contains s "serviceunknown" || lower_contains s "not registered"
  | _ => false
  end.

(** The process id is cast with [as u32]. *)
Definition polkit_request (identity : PeerIdentity) : PolkitRequest :=
  mkPolkitRequest "unix-process" (pe_pid identity mod 2 ^ 32) (pe_start_time identity) (pe_uid identity)
    POLKIT_ACTION_ID 1.

Definition check_polkit (env : PeerEnv) (identity : PeerIdentity) : result PeerIdentityError bool :=
  match en_bus env with
  | Err e => Err (DBusUnavailable e)
  | Ok call =>
      match call (polkit_request identity) with
      | CallFailed e => Err (PolKitError e)
      | BadReply e => Err (PolKitError ("response parse failed: " +:+ e)%string)
      | Reply is_authorized => Ok is_authorized
      end
  end.

Section authorization.
Context (show_peer_error : PeerIdentityError → string).

Definition check_authorization (env : PeerEnv) (identity : PeerIdentity) : result PeerIdentityError () :=
  match check_polkit env identity with
  | Ok true => Ok ()
  | Ok false => Err AuthorizationDenied
  | Err e =>
      if polkit_unavailable e then
        if decide (pe_uid identity = 0) then Ok ()
        else Err (PolKitUnavailable ("PolKit unavailable (" +:+ show_peer_error e +:+
               ") and caller is not root. Install PolicyKit or run as root.")%string)
      else Err e
  end.
End authorization.
