(* ===== verification/Ble.v ===== *)
(** * The Bluetooth transport: [tapauthd/src/transport/ble.rs]

    An instance of the transport interface.  BlueZ (the crate [bluer]) answers as the
    adapter's script says; what the devices around do with the GATT service is a list of
    timed events, each run through the callback the service registered.  Clean-up tasks
    are recorded with the time they start at. *)

From stdpp Require Import base gmap strings list.
From Stdlib Require Import Strings.Ascii.
From S2P Require Import Prelude Os Text Crypto Protocol Config PairingUrl Network Auth PeerIdentity.

(** An error of BlueZ: whether its kind is [Failed], its message, its text. *)
Record BluerError := mkBluerError { be_failed : bool; be_message : string; be_text : string }.

Record Adapter := mkAdapter {
  ba_advertise : list (result BluerError ());   (* answers to the next calls; then success *)
  ba_gatt : list (result BluerError ());
  ba_device : Z → bool;                         (* a device object can be had *)
}.

(** What a device does. *)
Inductive GattEvent :=
| ReadCommand (addr : Z)
| WriteResponse (addr : Z) (value : bytes)
| ReadConfirmation.

Record BleTransport := mkBle {
  bt_adapter : Adapter;
  bt_temporal_id : bytes;
  bt_request_packet : option EncryptedPacket;
  bt_csk : ClientSymmetricKey;
  bt_keypair : Ed25519KeyPair;
  bt_challenge : bytes;
  bt_advertising : bool;                 (* [adv_handle] *)
  bt_gatt : option bytes;                (* [gatt_handle], with the request it serves *)
  bt_confirmation_data : option bytes;
  bt_connected_devices : gset Z;
  bt_response_queue : list bytes;
  bt_shutdown_started : bool;
  bt_future : list (Z * GattEvent);      (* what devices will do, and when *)
  bt_answers : list bytes;               (* what devices have read *)
  bt_cleanups : list Z;                  (* clean-up tasks, by starting time *)
}.

(** ** Starting up *)

(** What [BleTransport::new] finds. *)
Record Bluez := mkBluez {
  bz_session : option string;                    (* why there is no session *)
  bz_adapter_names : result string (list string);
  bz_adapter : string → result string Adapter;
  bz_is_powered : result string bool;
  bz_set_powered : option string;                (* why it cannot be switched on *)
}.

Definition ble_new (z : Bluez) (temporal_id : bytes) (csk : ClientSymmetricKey) (keypair : Ed25519KeyPair)
    (challenge : bytes) (devices : list (Z * GattEvent)) : result AuthHandlerError BleTransport :=
  match bz_session z with Some e => Err (AE_BleError ("Failed to create BlueZ session: " +:+ e)%string) | None =>
  adapter_names ← map_err (λ e, AE_BleError ("Failed to get adapter names: " +:+ e)%string) (bz_adapter_names z);
  adapter_name ← ok_or (AE_BleError "No Bluetooth adapter found") (head adapter_names);
  adapter ← map_err (λ e, AE_BleError ("Failed to get adapter: " +:+ e)%string) (bz_adapter z adapter_name);
  _ ← match bz_is_powered z with
      | Ok true => Ok ()
      | _ => match bz_set_powered z with
             | None => Ok ()
             | Some _ => Err (AE_BleError "Bluetooth adapter not powered")
             end
      end;
  Ok (mkBle adapter temporal_id None csk keypair challenge false None None ∅ [] false devices [] [])
  end.

(** ** Updates *)

Definition set_adapter (a : Adapter) (b : BleTransport) : BleTransport :=
  mkBle a (bt_temporal_id b) (bt_request_packet b) (bt_csk b) (bt_keypair b) (bt_challenge b) (bt_advertising b)
    (bt_gatt b) (bt_confirmation_data b) (bt_connected_devices b) (bt_response_queue b) (bt_shutdown_started b)
    (bt_future b) (bt_answers b) (bt_cleanups b).
Definition set_request (p : EncryptedPacket) (b : BleTransport) : BleTransport :=
  mkBle (bt_adapter b) (bt_temporal_id b) (Some p) (bt_csk b) (bt_keypair b) (bt_challenge b) (bt_advertising b)
    (bt_gatt b) (bt_confirmation_data b) (bt_connected_devices b) (bt_response_queue b) (bt_shutdown_started b)
    (bt_future b) (bt_answers b) (bt_cleanups b).
Definition set_radio (adv : bool) (gatt : option bytes) (b : BleTransport) : BleTransport :=
  mkBle (bt_adapter b) (bt_temporal_id b) (bt_request_packet b) (bt_csk b) (bt_keypair b) (bt_challenge b) adv
    gatt (bt_confirmation_data b) (bt_connected_devices b) (bt_response_queue b) (bt_shutdown_started b)
    (bt_future b) (bt_answers b) (bt_cleanups b).
Definition set_confirmation (c : option bytes) (b : BleTransport) : BleTransport :=
  mkBle (bt_adapter b) (bt_temporal_id b) (bt_request_packet b) (bt_csk b) (bt_keypair b) (bt_challenge b)
    (bt_advertising b) (bt_gatt b) c (bt_connected_devices b) (bt_response_queue b) (bt_shutdown_started b)
    (bt_future b) (bt_answers b) (bt_cleanups b).
Definition set_devices (d : gset Z) (b : BleTransport) : BleTransport :=
  mkBle (bt_adapter b) (bt_temporal_id b) (bt_request_packet b) (bt_csk b) (bt_keypair b) (bt_challenge b)
    (bt_advertising b) (bt_gatt b) (bt_confirmation_data b) d (bt_response_queue b) (bt_shutdown_started b)
    (bt_future b) (bt_answers b) (bt_cleanups b).
Definition set_queue (q : list bytes) (b : BleTransport) : BleTransport :=
  mkBle (bt_adapter b) (bt_temporal_id b) (bt_request_packet b) (bt_csk b) (bt_keypair b) (bt_challenge b)
    (bt_advertising b) (bt_gatt b) (bt_confirmation_data b) (bt_connected_devices b) q (bt_shutdown_started b)
    (bt_future b) (bt_answers b) (bt_cleanups b).
Definition set_future (l : list (Z * GattEvent)) (b : BleTransport) : BleTransport :=
  mkBle (bt_adapter b) (bt_temporal_id b) (bt_request_packet b) (bt_csk b) (bt_keypair b) (bt_challenge b)
    (bt_advertising b) (bt_gatt b) (bt_confirmation_data b) (bt_connected_devices b) (bt_response_queue b)
    (bt_shutdown_started b) l (bt_answers b) (bt_cleanups b).
Definition add_answer (a : bytes) (b : BleTransport) : BleTransport :=
  mkBle (bt_adapter b) (bt_temporal_id b) (bt_request_packet b) (bt_csk b) (bt_keypair b) (bt_challenge b)
    (bt_advertising b) (bt_gatt b) (bt_confirmation_data b) (bt_connected_devices b) (bt_response_queue b)
    (bt_shutdown_started b) (bt_future b) (bt_answers b ++ [a]) (bt_cleanups b).
Definition schedule_cleanup (at_time : Z) (b : BleTransport) : BleTransport :=
  mkBle (bt_adapter b) (bt_temporal_id b) (bt_request_packet b) (bt_csk b) (bt_keypair b) (bt_challenge b)
    (bt_advertising b) (bt_gatt b) (bt_confirmation_data b) (bt_connected_devices b) (bt_response_queue b)
    true (bt_future b) (bt_answers b) (bt_cleanups b ++ [at_time]).

(** ** The GATT callbacks *)

(** A device that touches a characteristic is remembered, when its object can be had. *)
Definition track_device (addr : Z) (b : BleTransport) : BleTransport :=
  if ba_device (bt_adapter b) addr then set_devices ({[addr]} ∪ bt_connected_devices b) b else b.

(** Without a registered service nothing is heard. *)
Definition gatt_event (e : GattEvent) (b : BleTransport) : BleTransport :=
  match bt_gatt b with
  | None => b
  | Some data =>
      match e with
      | ReadCommand addr => add_answer data (track_device addr b)
      | WriteResponse addr value => let b1 := track_device addr b in set_queue (bt_response_queue b1 ++ [value]) b1
      | ReadConfirmation => add_answer (default [] (bt_confirmation_data b)) b
      end
  end.

(** What devices have done by now. *)
Fixpoint run_events (now : Z) (l : list (Z * GattEvent)) (b : BleTransport) : BleTransport :=
  match l with
  | [] => set_future [] b
  | (t, e) :: l' => if decide (t ≤ now) then run_events now l' (gatt_event e b) else set_future l b
  end.
Definition catch_up (now : Z) (b : BleTransport) : BleTransport := run_events now (bt_future b) b.

(** ** Operations *)

Section ble.
Context `{C : CryptoOps} `{KW : !Codec WrapperMessage} `{KE : !Codec EncryptedPacket}.

Definition create_confirmation (b : BleTransport) (request_packet : EncryptedPacket)
    : M World AuthHandlerError bytes :=
  confirmation ← lift (map_err (λ _, AE_BleError "Failed to create confirmation") (create_grant_confirmation (bt_challenge b)));
  wrapper ← lift (map_err (λ _, AE_BleError "Failed to sign confirmation")
    (sign_wrapper_message (wrap_grant_confirmation confirmation) (bt_keypair b)));
  ciphertext ← mapM_err (λ _, AE_BleError "Failed to encrypt confirmation")
    (encrypt_with_csk_and_random_nonce (bt_csk b) (encode_to_vec wrapper));
  mret (encode_to_vec (mkEncryptedPacket (ep_temporal_identifier request_packet)
    (ep_encryption_algorithm request_packet) ciphertext)).

Definition next_answer {A} (l : list (result BluerError ())) (f : list (result BluerError ()) → A)
    : result BluerError () * A :=
  match l with [] => (Ok (), f []) | r :: l' => (r, f l') end.

Definition MAX_ATTEMPTS : nat := 5.

(** A refusal that retrying cannot change. *)
Definition advertising_unavailable (e : BluerError) : bool :=
  be_failed e && contains_chars (chars "register advertisement") (chars (be_message e)).
Definition advertising_busy (e : BluerError) : bool :=
  contains_chars (chars "Busy") (chars (be_text e)) || contains_chars (chars "0x0a") (chars (be_text e)).

Fixpoint advertise (attempts_left : nat) : M (World * BleTransport) AuthHandlerError () := λ '(w, b),
  match attempts_left with
  | O => ((w, b), Ok ())
  | S more =>
      let a := bt_adapter b in
      let '(r, a') := next_answer (ba_advertise a) (λ l, mkAdapter l (ba_gatt a) (ba_device a)) in
      let b1 := set_adapter a' b in
      match r with
      | Ok _ => ((w, set_radio true (bt_gatt b1) b1), Ok ())
      | Err e =>
          if advertising_unavailable e then ((w, b1), Err (AE_BleError ("Failed to start BLE advertising: " +:+ be_text e
            +:+ " (see docs/ble-advertisement-bluez-kernel-mismatch.md)")%string))
          else match more with
               | O => ((w, b1), Err (AE_BleError ("Failed to start BLE advertising after 5 attempts: " +:+ be_text e)%string))
               | S _ => advertise more (set_clock (w_clock w + if advertising_busy e then 150 else 100) w, b1)
               end
      end
  end.

(** What devices did before there was a service reached nobody. *)
Definition register_gatt (request_data : bytes) : M (World * BleTransport) AuthHandlerError () := λ '(w, b0),
  let b := catch_up (w_clock w) b0 in
  let a := bt_adapter b in
  let '(r, a') := next_answer (ba_gatt a) (λ l, mkAdapter (ba_advertise a) l (ba_device a)) in
  let b1 := set_adapter a' b in
  match r with
  | Ok _ => ((w, set_radio (bt_advertising b1) (Some request_data) b1), Ok ())
  | Err e => ((w, b1), Err (AE_BleError ("Failed to register GATT server: " +:+ be_text e)%string))
  end.

Definition ble_send_request (packet : EncryptedPacket) : M (World * BleTransport) AuthHandlerError () :=
  up ← gets (λ s, bt_advertising s.2);
  if (up : bool) then mret () else
  _ ← modify (λ '(w, b), (w, set_request packet b));
  _ ← advertise MAX_ATTEMPTS;
  register_gatt (encode_to_vec packet).

(** A written value that can be an answer: it decodes, decrypts, and is a grant or a
    denial. *)
Definition usable_response (csk : ClientSymmetricKey) (value : bytes) : option EncryptedPacket :=
  encrypted_response ← decode value;
  match decrypt_encrypted_packet_with_csk_nonce csk encrypted_response with
  | Ok m => match wm_payload m with
            | Some (PAuthGrant _) | Some (PAuthDenial _) => Some encrypted_response
            | _ => None
            end
  | Err _ => None
  end.

(** The confirmation for the devices to read, made once. *)
Definition store_confirmation (request_packet : EncryptedPacket) (w : World) (b : BleTransport) : World * BleTransport :=
  match bt_confirmation_data b with
  | Some _ => (w, b)
  | None =>
      let '(w', r) := create_confirmation b request_packet w in
      (w', match r with Ok c => set_confirmation (Some c) b | Err _ => b end)
  end.

(** The dummy address of a device. *)
Definition NO_ADDR : IpAddr * Z := (V4 0, 0).

(** [None]: the fuel ran out. *)
Fixpoint receive_ble (fuel : nat) (start timeout : Z) (request_packet : EncryptedPacket) (w : World) (b : BleTransport)
    : World * BleTransport * option ReceiveResult :=
  match fuel with
  | O => (w, b, None)
  | S fuel' =>
      if decide (timeout ≤ w_clock w - start) then (w, b, Some RecvTimeout) else
      let b1 := catch_up (w_clock w) b in
      match bt_response_queue b1 with
      | value :: queue =>
          let b2 := set_queue queue b1 in
          match usable_response (bt_csk b2) value with
          | None => receive_ble fuel' start timeout request_packet w b2
          | Some p =>
              let '(w3, b3) := store_confirmation request_packet w b2 in
              let w4 := set_clock (w_clock w3 + 100) w3 in
              (w4, catch_up (w_clock w4) b3, Some (Response p NO_ADDR))
          end
      | [] => receive_ble fuel' start timeout request_packet (set_clock (w_clock w + 20) w) b1
      end
  end.

(** One turn per response that may come, one per 20 ms. *)
Definition receive_fuel (timeout : Z) (b : BleTransport) : nat :=
  length (bt_future b) + length (bt_response_queue b) + Z.to_nat (timeout / 20) + 2.

Definition ble_receive_response (timeout : Z) : M (World * BleTransport) AuthHandlerError ReceiveResult := λ '(w, b),
  match bt_request_packet b with
  | None => ((w, b), Err (AE_BleError "send_request must be called before receive_response"))
  | Some request_packet =>
      let '(w', b', r) := receive_ble (receive_fuel timeout b) (w_clock w) timeout request_packet w b in
      ((w', b'), Ok (default RecvTimeout r))
  end.

(** Every device is disconnected, advertising stops, the service goes. *)
Definition do_shutdown (b : BleTransport) : BleTransport := set_radio false None (set_devices ∅ b).

(** [grace_ms]: from the environment, 300 by default. *)
Context (grace_ms : Z).

Definition ble_send_cancel (packet : EncryptedPacket) : M (World * BleTransport) AuthHandlerError () := λ '(w, b),
  ((w, if bt_shutdown_started b then b else schedule_cleanup (w_clock w + grace_ms) b), Ok ()).

Definition ble_finalize : M (World * BleTransport) AuthHandlerError () := λ '(w, b),
  ((w, if bt_shutdown_started b then b else schedule_cleanup (w_clock w) b), Ok ()).

Definition ble_transport : Transport BleTransport := {|
  send_request := ble_send_request;
  receive_response := ble_receive_response;
  send_confirmation := λ _ s, (s, Ok ());
  send_cancel := ble_send_cancel;
  finalize := ble_finalize;
|}.
End ble.
