(* ===== verification/BleTheorems.v ===== *)
(** * Theorems about the Bluetooth transport

    Setting up is bounded, receiving ends and is not disturbed by useless responses,
    clean-up happens once, and attempts over Bluetooth terminate. *)

From stdpp Require Import base gmap sets strings list.
From Stdlib Require Import Strings.Ascii Strings.Byte.
From S2P Require Import Prelude Os Text Crypto Concrete Protocol ConcreteCodec Config ConfigFacts ConcreteConfig.
From S2P Require Import PairingUrl Network Auth ConcreteAuth AuthTheorems PeerIdentity Ble.

(** Responses that are there or may still come. *)
Definition pending (b : BleTransport) : nat := length (bt_future b) + length (bt_response_queue b).

(** A value that is there or may still be written. *)
Definition offered (b : BleTransport) (value : bytes) : Prop :=
  value ∈ bt_response_queue b ∨ ∃ t addr, (t, WriteResponse addr value) ∈ bt_future b.

(** What catching up with the devices leaves alone. *)
Definition same_session (b b' : BleTransport) : Prop :=
  bt_csk b' = bt_csk b ∧ bt_request_packet b' = bt_request_packet b ∧ bt_confirmation_data b' = bt_confirmation_data b ∧
  bt_keypair b' = bt_keypair b ∧ bt_challenge b' = bt_challenge b.

Lemma gatt_event_spec e b :
  same_session b (gatt_event e b) ∧ bt_future (gatt_event e b) = bt_future b ∧
  ∃ more, bt_response_queue (gatt_event e b) = bt_response_queue b ++ more ∧ (length more ≤ 1)%nat ∧
    ∀ v, v ∈ more → ∃ addr, e = WriteResponse addr v.
Proof.
  assert (Hnone : ∀ b', bt_response_queue b' = bt_response_queue b → ∃ more,
    bt_response_queue b' = bt_response_queue b ++ more ∧ (length more ≤ 1)%nat ∧ ∀ v, v ∈ more → ∃ addr, e = WriteResponse addr v).
  { intros b' ->. exists []. rewrite app_nil_r. simpl. split; [done|]. split; [lia|]. by intros v ?%elem_of_nil. }
  assert (Htrack : ∀ addr, track_device addr b = b ∨ ∃ d, track_device addr b = set_devices d b).
  { intros addr. unfold track_device. destruct (ba_device _ _); eauto. }
  unfold gatt_event. destruct (bt_gatt b) as [data|]; [|by split; [|split; [|apply Hnone]]].
  destruct e as [addr|addr value|]; [|split; [|split]|by split; [|split; [|apply Hnone]]].
  - destruct (Htrack addr) as [->|[d ->]]; by split; [|split; [|apply Hnone]].
  - by destruct (Htrack addr) as [->|[d ->]].
  - by destruct (Htrack addr) as [->|[d ->]].
  - exists [value]. split; [by destruct (Htrack addr) as [->|[d ->]]|]. split; [simpl; lia|].
    intros v ->%list_elem_of_singleton. by exists addr.
Qed.

Lemma run_events_spec now l b :
  same_session b (run_events now l b) ∧
  ∃ more, bt_response_queue (run_events now l b) = bt_response_queue b ++ more ∧
    (length (bt_future (run_events now l b)) + length more ≤ length l)%nat ∧
    (∀ v, v ∈ more → ∃ t addr, (t, WriteResponse addr v) ∈ l) ∧
    (∀ x, x ∈ bt_future (run_events now l b) → x ∈ l).
Proof.
  revert b. induction l as [|[t e] l IH]; intros b; cbn [run_events].
  { split; [done|]. exists []. simpl. rewrite app_nil_r. repeat split; [lia|by intros v ?%elem_of_nil..]. }
  destruct (decide (t ≤ now)).
  2:{ split; [done|]. exists []. simpl. rewrite app_nil_r. repeat split; [lia|by intros v ?%elem_of_nil|done]. }
  destruct (gatt_event_spec e b) as (Hs1 & _ & more1 & Hq1 & Hl1 & Hv1).
  destruct (IH (gatt_event e b)) as (Hs2 & more2 & Hq2 & Hl2 & Hv2 & Hf2). split.
  { unfold same_session in *. destruct Hs1 as (? & ? & ? & ? & ?), Hs2 as (? & ? & ? & ? & ?). split_and!; congruence. }
  exists (more1 ++ more2). rewrite Hq2, Hq1, (assoc_L (++)). split; [done|]. rewrite length_app. simpl.
  split; [lia|]. split.
  - intros v [Hv|Hv]%elem_of_app.
    + destruct (Hv1 v Hv) as [addr ->]. exists t, addr. by constructor.
    + destruct (Hv2 v Hv) as (t' & addr & Hin). exists t', addr. by constructor.
  - intros x Hx. constructor. by apply Hf2.
Qed.

Lemma catch_up_spec now b :
  same_session b (catch_up now b) ∧ (pending (catch_up now b) ≤ pending b)%nat ∧
  (∃ more, bt_response_queue (catch_up now b) = bt_response_queue b ++ more) ∧
  ∀ v, offered (catch_up now b) v → offered b v.
Proof.
  unfold catch_up, pending, offered. destruct (run_events_spec now (bt_future b) b) as (Hs & more & Hq & Hl & Hv & Hf).
  split; [done|]. rewrite Hq, length_app. split; [lia|]. split; [by eexists|].
  intros v [Hin|(t & addr & Hin)]; [|right; eauto]. apply elem_of_app in Hin as [|Hin]; [by left|right; by apply Hv].
Qed.

Section ble.
Context `{C : CryptoOps} `{KW : !Codec WrapperMessage} `{KE : !Codec EncryptedPacket}.

Lemma create_confirmation_world b p w w' r :
  create_confirmation b p w = (w', r) → w_clock w' = w_clock w.
Proof.
  unfold create_confirmation, encrypt_with_csk_and_random_nonce. munfold.
  destruct (create_grant_confirmation _) as [cf|]; simpl; [|intros; by simplify_eq].
  destruct (getrandom_fill 12 w) as [w1 [n|]] eqn:E; simpl.
  - apply getrandom_fill_Ok in E as (_ & -> & _). destruct (encrypt_aes_gcm _ _ _ _); simpl; intros; by simplify_eq.
  - unfold getrandom_fill in E. case_decide; simplify_eq. intros; by simplify_eq.
Qed.

Lemma store_confirmation_spec p w b w' b' :
  store_confirmation p w b = (w', b') →
  w_clock w' = w_clock w ∧ bt_future b' = bt_future b ∧ bt_response_queue b' = bt_response_queue b.
Proof.
  unfold store_confirmation. destruct (bt_confirmation_data b); [intros; by simplify_eq|].
  destruct (create_confirmation b p w) as [w1 [c|e]] eqn:E; apply create_confirmation_world in E; intros; by simplify_eq.
Qed.

(** Turns still possible. *)
Definition receive_measure (start timeout : Z) (w : World) (b : BleTransport) : nat :=
  pending b + Z.to_nat ((timeout - (w_clock w - start) + 19) / 20).

Lemma receive_measure_tick start timeout w b b' :
  w_clock w - start < timeout → (pending b' ≤ pending b)%nat →
  (receive_measure start timeout (set_clock (w_clock w + 20) w) b' < receive_measure start timeout w b)%nat.
Proof.
  intros Ht Hp. unfold receive_measure. simpl.
  assert ((timeout - (w_clock w + 20 - start) + 19) / 20 = (timeout - (w_clock w - start) + 19) / 20 - 1) as ->.
  { replace (timeout - (w_clock w + 20 - start) + 19) with (timeout - (w_clock w - start) + 19 + (-1) * 20) by lia.
    rewrite Z.div_add by lia. lia. }
  assert (0 < (timeout - (w_clock w - start) + 19) / 20) by (apply Z.div_str_pos; lia). lia.
Qed.

Lemma receive_ble_spec fuel start timeout p w b :
  (receive_measure start timeout w b < fuel)%nat →
  ∃ w' b' r, receive_ble fuel start timeout p w b = (w', b', Some r) ∧
    w_clock w ≤ w_clock w' ∧ (pending b' ≤ pending b)%nat ∧
    match r with
    | RecvTimeout => start + timeout ≤ w_clock w'
    | Response q _ => (pending b' < pending b)%nat ∧ ∃ value, offered b value ∧ usable_response (bt_csk b) value = Some q
    end.
Proof.
  revert w b. induction fuel as [|fuel IH]; intros w b Hm; [lia|]. cbn [receive_ble].
  destruct (decide _) as [Hd|Hd]; [eexists w, b, RecvTimeout; split; [done|]; lia|].
  destruct (catch_up_spec (w_clock w) b) as ((Hcsk & _) & Hp & _ & Ho).
  set (b1 := catch_up (w_clock w) b) in *. destruct (bt_response_queue b1) as [|value queue] eqn:Hq.
  - destruct (IH (set_clock (w_clock w + 20) w) b1) as (w' & b' & r & Hr & Hc & Hpe & Hres).
    { pose proof (receive_measure_tick start timeout w b b1). lia. }
    exists w', b', r. split; [done|]. simpl in Hc. split; [lia|]. split; [lia|].
    destruct r; [|done]. destruct Hres as (? & v & Hv & Hu). split; [lia|]. exists v. rewrite <-Hcsk. eauto.
  - set (b2 := set_queue queue b1). assert (Hp2 : (S (pending b2) ≤ pending b)%nat).
    { unfold pending in *. simpl. rewrite Hq in Hp. simpl in Hp. lia. }
    assert (Ho2 : ∀ v, offered b2 v → offered b v).
    { intros v Hv. apply Ho. destruct Hv as [Hv|Hv]; [left; rewrite Hq; by constructor|by right]. }
    destruct (usable_response (bt_csk b2) value) as [q|] eqn:Hu.
    + destruct (store_confirmation p w b2) as [w3 b3] eqn:Es. apply store_confirmation_spec in Es as (Hc3 & Hf3 & Hq3).
      eexists _, _, _. split; [done|]. simpl.
      destruct (catch_up_spec (w_clock w3 + 100) b3) as (_ & Hp3 & _).
      assert (pending b3 = pending b2) by (unfold pending; by rewrite Hf3, Hq3).
      split; [lia|]. split; [lia|]. split; [lia|]. exists value. split; [|by rewrite <-Hcsk].
      apply Ho. left. rewrite Hq. by constructor.
    + destruct (IH w b2) as (w' & b' & r & Hr & Hc & Hpe & Hres).
      { unfold receive_measure in *. lia. }
      exists w', b', r. split; [done|]. split; [lia|]. split; [lia|]. destruct r; [|done].
      destruct Hres as (? & v & Hv & Huv). split; [lia|]. exists v. split; [by apply Ho2|]. by rewrite <-Hcsk.
Qed.

Lemma receive_fuel_enough timeout w b :
  0 ≤ timeout → (receive_measure (w_clock w) timeout w b < receive_fuel timeout b)%nat.
Proof.
  intros Ht. unfold receive_measure, receive_fuel, pending. rewrite Z.sub_diag, Z.sub_0_r.
  assert ((timeout + 19) / 20 ≤ timeout / 20 + 1).
  { replace (timeout / 20 + 1) with ((timeout + 1 * 20) / 20) by (by rewrite Z.div_add). apply Z.div_le_mono; lia. }
  assert (0 ≤ timeout / 20) by (apply Z.div_pos; lia). lia.
Qed.

Lemma ble_receive_run timeout w b p :
  0 ≤ timeout → bt_request_packet b = Some p →
  ∃ w' b' r, ble_receive_response timeout (w, b) = ((w', b'), Ok r) ∧
    w_clock w ≤ w_clock w' ∧ (pending b' ≤ pending b)%nat ∧
    match r with
    | RecvTimeout => w_clock w + timeout ≤ w_clock w'
    | Response q _ => (pending b' < pending b)%nat ∧ ∃ value, offered b value ∧ usable_response (bt_csk b) value = Some q
    end.
Proof.
  intros Ht Hp. unfold ble_receive_response. rewrite Hp.
  destruct (receive_ble_spec (receive_fuel timeout b) (w_clock w) timeout p w b) as (w' & b' & r & -> & Hr).
  { by apply receive_fuel_enough. }
  by exists w', b', r.
Qed.

(** ** Setting up *)

Lemma catch_up_adapter now b :
  bt_adapter (catch_up now b) = bt_adapter b ∧ bt_advertising (catch_up now b) = bt_advertising b.
Proof.
  unfold catch_up. generalize (bt_future b). intros l. revert b. induction l as [|[t e] l IH]; intros b; [done|]. simpl.
  destruct (decide _); [|done]. destruct (IH (gatt_event e b)) as [-> ->].
  unfold gatt_event, track_device. destruct (bt_gatt b), e; try destruct (ba_device _ _); done.
Qed.

(** [n] attempts take at most [n] answers of the adapter and wait between them only. *)
Lemma advertise_run n w b w' b' r :
  advertise n (w, b) = ((w', b'), r) →
  (∃ k, (0 < n → 0 < k)%nat ∧ (k ≤ n)%nat ∧ ba_advertise (bt_adapter b') = drop k (ba_advertise (bt_adapter b)) ∧
    w_clock w ≤ w_clock w' ≤ w_clock w + 150 * (Z.of_nat k - 1) `max` 0) ∧
  pending b' = pending b ∧ bt_request_packet b' = bt_request_packet b ∧ bt_gatt b' = bt_gatt b ∧
  (is_ok r = true → (0 < n)%nat → bt_advertising b' = true) ∧ (r ≠ Err AE_ExplicitDenial).
Proof.
  revert w b. induction n as [|n IH]; intros w b; cbn [advertise].
  { intros. simplify_eq. split; [|split_and!; [done..|intros _ ?; lia|done]]. exists 0%nat. rewrite drop_0. split; [lia|]. split; [lia|]. split; [done|]. lia. }
  destruct (next_answer _ _) as [r0 a] eqn:Ea.
  assert (Ha : ba_advertise a = drop 1 (ba_advertise (bt_adapter b))).
  { unfold next_answer in Ea. destruct (ba_advertise (bt_adapter b)); by simplify_eq. }
  assert (Hone : ∃ k, (0 < S n → 0 < k)%nat ∧ (k ≤ S n)%nat ∧ ba_advertise a = drop k (ba_advertise (bt_adapter b)) ∧
    w_clock w ≤ w_clock w ≤ w_clock w + 150 * (Z.of_nat k - 1) `max` 0).
  { exists 1%nat. split; [lia|]. split; [lia|]. split; [done|]. lia. }
  destruct r0 as [[]|e]; [intros; simplify_eq; by repeat split|].
  destruct (advertising_unavailable e); [intros; simplify_eq; by repeat split|].
  destruct n as [|n]; [intros; simplify_eq; by repeat split|].
  intros Hr. apply IH in Hr as ((k & Hk0 & Hk & Hd & Hc) & Hp & Hq & Hg & Hok & Her). split.
  - exists (S k). split; [lia|]. split; [lia|]. split; [by rewrite Hd; simpl; rewrite Ha, drop_drop|]. revert Hc. simpl.
    destruct (advertising_busy e); lia.
  - split_and!; try done. intros Hr' _. apply Hok; [done|lia].
Qed.

Lemma register_gatt_run data w b w' b' r :
  register_gatt data (w, b) = ((w', b'), r) →
  w' = w ∧ (pending b' ≤ pending b)%nat ∧ bt_request_packet b' = bt_request_packet b ∧
  ba_advertise (bt_adapter b') = ba_advertise (bt_adapter b) ∧ bt_advertising b' = bt_advertising b ∧
  (is_ok r = true → bt_gatt b' = Some data) ∧ (r ≠ Err AE_ExplicitDenial).
Proof.
  unfold register_gatt. destruct (catch_up_spec (w_clock w) b) as ((_ & Hreq & _) & Hp & _).
  destruct (catch_up_adapter (w_clock w) b) as [Ha Hadv].
  destruct (next_answer _ _) as [r0 a] eqn:Ea.
  assert (Haa : ba_advertise a = ba_advertise (bt_adapter b)).
  { unfold next_answer in Ea. rewrite Ha in Ea. destruct (ba_gatt (bt_adapter b)); by simplify_eq. }
  destruct r0 as [[]|e]; intros; simplify_eq; by repeat split.
Qed.

Lemma ble_send_run packet w b w' b' r :
  ble_send_request packet (w, b) = ((w', b'), r) →
  (bt_advertising b = true ∧ w' = w ∧ b' = b ∧ r = Ok ()) ∨
  (bt_advertising b = false ∧
   (∃ k, (k ≤ MAX_ATTEMPTS)%nat ∧ ba_advertise (bt_adapter b') = drop k (ba_advertise (bt_adapter b)) ∧
     w_clock w ≤ w_clock w' ≤ w_clock w + 150 * (Z.of_nat k - 1) `max` 0) ∧
   (pending b' ≤ pending b)%nat ∧ bt_request_packet b' = Some packet ∧ (r ≠ Err AE_ExplicitDenial) ∧
   (r = Ok () → bt_advertising b' = true ∧ bt_gatt b' = Some (encode_to_vec packet))).
Proof.
  unfold ble_send_request, gets, modify. rewrite bind_run. cbn [snd].
  destruct (bt_advertising b) eqn:Eadv; [intros Hr; munfold; simplify_eq; by left|].
  intros Hr. right. split; [done|]. revert Hr. rewrite !bind_run.
  destruct (advertise MAX_ATTEMPTS (w, set_request packet b)) as [[w1 b1] r1] eqn:E1.
  apply advertise_run in E1 as ((k & _ & Hk) & Hp & Hq & Hg & Hok & Her). simpl in Hk, Hq, Hg.
  change (pending (set_request packet b)) with (pending b) in Hp.
  destruct r1 as [[]|e]; [|intros; simplify_eq; split; [by exists k|]; split_and!; try done; lia].
  intros Hr. apply register_gatt_run in Hr as (-> & Hp2 & Hq2 & Ha2 & Hadv2 & Hok2 & Her2).
  rewrite Ha2, Hq2, Hadv2. split; [by exists k|]. split; [lia|]. split; [done|]. split; [done|].
  intros ->. split; [apply Hok; [done|unfold MAX_ATTEMPTS; lia]|by apply Hok2].
Qed.

(** ** A usable response among useless ones *)

Definition unusable (csk : ClientSymmetricKey) (value : bytes) : Prop := usable_response csk value = None.

(** An event up to time [t] that brings no usable response. *)
Definition harmless (csk : ClientSymmetricKey) (t : Z) (x : Z * GattEvent) : Prop :=
  x.1 ≤ t ∧ match x.2 with WriteResponse _ value => unusable csk value | _ => True end.

(** The first usable response is in the queue, or will be written at time [t]. *)
Definition there (csk : ClientSymmetricKey) (value : bytes) (b : BleTransport) : Prop :=
  bt_csk b = csk ∧ ∃ bad rest, bt_response_queue b = bad ++ value :: rest ∧ Forall (unusable csk) bad.
Definition coming (csk : ClientSymmetricKey) (t : Z) (value : bytes) (b : BleTransport) : Prop :=
  bt_csk b = csk ∧ Forall (unusable csk) (bt_response_queue b) ∧
  ∃ bad addr rest, bt_future b = bad ++ (t, WriteResponse addr value) :: rest ∧ Forall (harmless csk t) bad.

Lemma gatt_event_harmless csk t x b :
  harmless csk t x → bt_csk b = csk → Forall (unusable csk) (bt_response_queue b) →
  bt_csk (gatt_event x.2 b) = csk ∧ Forall (unusable csk) (bt_response_queue (gatt_event x.2 b)) ∧
  bt_gatt (gatt_event x.2 b) = bt_gatt b.
Proof.
  intros [_ Hx] Hc Hq. unfold gatt_event, track_device. destruct (bt_gatt b) eqn:Eg; [|done].
  destruct x.2; try (destruct (ba_device _ _)); simpl; rewrite ?Eg; split_and!; try done;
    apply Forall_app; by split; [|constructor].
Qed.

Lemma there_catch_up csk value now b : there csk value b → there csk value (catch_up now b).
Proof.
  intros (Hc & bad & rest & Hq & Hb). destruct (catch_up_spec now b) as ((Hc' & _) & _ & (more & Hm) & _).
  split; [congruence|]. exists bad, (rest ++ more). rewrite Hm, Hq, <-(assoc_L (++)). done.
Qed.

Lemma coming_catch_up csk t value now b :
  coming csk t value b →
  (now < t ∧ coming csk t value (catch_up now b) ∧ bt_gatt (catch_up now b) = bt_gatt b) ∨
  (t ≤ now ∧ (is_Some (bt_gatt b) → there csk value (catch_up now b))).
Proof.
  intros (Hc & Hq & bad & addr & rest & Hf & Hb). unfold catch_up. rewrite Hf. clear Hf.
  revert b Hc Hq. induction Hb as [|[t' e] bad Hh Hb IH]; intros b Hc Hq; cbn [app run_events].
  - destruct (decide (t ≤ now)); [|left; split; [lia|]; split; [|done]; split; [done|]; split; [done|]; by exists [], addr, rest].
    right. split; [done|]. intros [data Hg]. destruct (gatt_event_spec (WriteResponse addr value) b) as ((Hc1 & _) & _).
    destruct (run_events_spec now rest (gatt_event (WriteResponse addr value) b)) as ((Hc2 & _) & more & Hm & _).
    split; [congruence|]. exists (bt_response_queue b), more. rewrite Hm. split; [|done].
    unfold gatt_event, track_device. rewrite Hg. simpl. destruct (ba_device _ _); simpl; by rewrite <-(assoc_L (++)).
  - destruct (decide (t' ≤ now)) as [Ht|Ht].
    + destruct (gatt_event_harmless csk t (t', e) b Hh Hc Hq) as (Hc1 & Hq1 & Hg1). simpl in *.
      destruct (IH _ Hc1 Hq1) as [(? & ? & Hg2)|[? Hs]]; [left|right]; rewrite Hg1 in *; done.
    + destruct Hh as [Hh1 Hh2]. simpl in Hh1. left. split; [lia|]. split; [|done]. split; [done|]. split; [done|].
      exists ((t', e) :: bad), addr, rest. split; [done|]. by constructor.
Qed.

Lemma receive_ble_there fuel start timeout p w b value q :
  (receive_measure start timeout w b < fuel)%nat → w_clock w < start + timeout →
  there (bt_csk b) value (catch_up (w_clock w) b) → usable_response (bt_csk b) value = Some q →
  ∃ w' b', receive_ble fuel start timeout p w b = (w', b', Some (Response q NO_ADDR)).
Proof.
  revert b. induction fuel as [|fuel IH]; intros b Hm Hc Ht Hu; [lia|]. cbn [receive_ble]. rewrite decide_False by lia.
  destruct (catch_up_spec (w_clock w) b) as ((Hcsk & _) & Hp & _).
  destruct Ht as (_ & bad & rest & Hq & Hb). rewrite Hq.
  destruct Hb as [|v bad Hv Hb]; simpl; rewrite Hcsk.
  - rewrite Hu. destruct (store_confirmation _ _ _) as [w3 b3]. by eexists _, _.
  - rewrite Hv. apply IH; [|done| |]; simpl; rewrite ?Hcsk; [|apply there_catch_up; split; [done|by exists bad, rest]|done].
    unfold receive_measure, pending in *. rewrite Hq in Hp. simpl in *. lia.
Qed.

Lemma receive_ble_coming fuel start timeout p w b t value q :
  (receive_measure start timeout w b < fuel)%nat → w_clock w < start + timeout → t + 20 ≤ start + timeout →
  coming (bt_csk b) t value b → is_Some (bt_gatt b) → usable_response (bt_csk b) value = Some q →
  ∃ w' b', receive_ble fuel start timeout p w b = (w', b', Some (Response q NO_ADDR)).
Proof.
  revert w b. induction fuel as [|fuel IH]; intros w b Hm Hc Ht Hco Hg Hu; [lia|].
  destruct (coming_catch_up _ _ _ (w_clock w) _ Hco) as [(Hlt & Hco1 & Hg1)|[Hle Hth]].
  2:{ eapply receive_ble_there; [done|done|by apply Hth|done]. }
  cbn [receive_ble]. rewrite decide_False by lia. destruct (catch_up_spec (w_clock w) b) as ((Hcsk & _) & Hp & _).
  set (b1 := catch_up (w_clock w) b) in *. destruct (bt_response_queue b1) as [|v queue] eqn:Eq.
  - destruct (IH (set_clock (w_clock w + 20) w) b1) as (w' & b' & ->); rewrite ?Hcsk, ?Hg1; simpl; try done; try lia; [|by eexists _, _].
    pose proof (receive_measure_tick start timeout w b b1). lia.
  - destruct Hco1 as (Hc1 & Hq1 & Hf1). rewrite Eq in Hq1. apply Forall_cons in Hq1 as [Hv Hq1]. simpl.
    rewrite Hcsk, Hv. apply IH; simpl; rewrite ?Hcsk, ?Hg1; try done.
    unfold receive_measure, pending in *. rewrite Eq in Hp. simpl in *. lia.
Qed.
End ble.

(** ** The Bluetooth transport keeps the promises of the interface *)

Section promises.
Context `{C : CryptoOps} `{KW : !Codec WrapperMessage} `{KE : !Codec EncryptedPacket} (grace_ms : Z).

Lemma ble_progress : @TransportProgress BleTransport (ble_transport grace_ms).
Proof.
  refine {| backlog := pending |}.
  - intros p w b w' b' r Hs. apply ble_send_run in Hs as [(_ & -> & -> & _)|(_ & (k & _ & _ & Hc) & Hp & _)]; lia.
  - intros d w b w' b' r Hd Hr. change (ble_receive_response d (w, b) = (w', b', r)) in Hr. destruct (bt_request_packet b) as [p|] eqn:Ep.
    + destruct (ble_receive_run d w b p Hd Ep) as (w1 & b1 & r1 & E & Hc & Hp & Hm). rewrite Hr in E. simplify_eq.
      split; [done|]. split; [done|]. by destruct r1 as [q addr|]; [destruct Hm|].
    + unfold ble_receive_response in Hr. rewrite Ep in Hr. simplify_eq. done.
Defined.

Lemma ble_honest_errors : @honest_errors BleTransport (ble_transport grace_ms).
Proof.
  split.
  - intros p [w b] [w' b'] Hs. by apply ble_send_run in Hs as [(_ & _ & _ & ?)|(_ & _ & _ & _ & ? & _)].
  - intros d [w b] s' Hr. simpl in Hr. unfold ble_receive_response in Hr. destruct (bt_request_packet b); [|by simplify_eq].
    by destruct (receive_ble _ _ _ _ _ _) as [[w1 b1] r1].
Qed.
End promises.

(** Everything a session can do with the transport. *)
Inductive BleCall := CSend (p : EncryptedPacket) | CReceive (timeout : Z) | CCancel (p : EncryptedPacket) | CFinalize.

Definition ble_call `{C : CryptoOps} `{KW : !Codec WrapperMessage} `{KE : !Codec EncryptedPacket} (grace_ms : Z)
    (c : BleCall) (s : World * BleTransport) : World * BleTransport :=
  match c with
  | CSend p => (ble_send_request p s).1
  | CReceive d => (ble_receive_response d s).1
  | CCancel p => (ble_send_cancel grace_ms p s).1
  | CFinalize => (ble_finalize s).1
  end.

Definition ends_session (c : BleCall) : Prop := match c with CCancel _ | CFinalize => True | _ => False end.

(** What says whether and when the transport is torn down. *)
Definition teardown (b : BleTransport) : bool * list Z := (bt_shutdown_started b, bt_cleanups b).

Section cleanup.
Context `{C : CryptoOps} `{KW : !Codec WrapperMessage} `{KE : !Codec EncryptedPacket} (grace_ms : Z).

Lemma catch_up_teardown now b : teardown (catch_up now b) = teardown b.
Proof.
  unfold catch_up. generalize (bt_future b). intros l. revert b. induction l as [|[t e] l IH]; intros b; [done|]. simpl.
  destruct (decide _); [|done]. rewrite IH. unfold gatt_event, track_device.
  destruct (bt_gatt b), e; try destruct (ba_device _ _); done.
Qed.

Lemma advertise_teardown n s : teardown (advertise n s).1.2 = teardown s.2.
Proof.
  revert s. induction n as [|n IH]; intros [w b]; [done|]. cbn [advertise].
  destruct (next_answer _ _) as [[[]|e] a]; [done|]. destruct (advertising_unavailable e); [done|].
  destruct n; [done|]. by rewrite IH.
Qed.

Lemma ble_send_teardown p s : teardown (ble_send_request p s).1.2 = teardown s.2.
Proof.
  destruct s as [w b]. unfold ble_send_request, gets, modify. rewrite bind_run. cbn [snd].
  destruct (bt_advertising b); [done|]. rewrite !bind_run.
  pose proof (advertise_teardown MAX_ATTEMPTS (w, set_request p b)) as Ha.
  destruct (advertise MAX_ATTEMPTS (w, set_request p b)) as [[w1 b1] [[]|e]]; [|done]. simpl in Ha.
  unfold register_gatt. destruct (next_answer _ _) as [[[]|e] a]; simpl;
    (etrans; [|exact Ha]); exact (catch_up_teardown _ _).
Qed.

Lemma receive_ble_teardown fuel start timeout p w b :
  teardown (receive_ble fuel start timeout p w b).1.2 = teardown b.
Proof.
  revert w b. induction fuel as [|fuel IH]; intros w b; [done|]. cbn [receive_ble].
  destruct (decide _); [done|]. pose proof (catch_up_teardown (w_clock w) b) as Hc.
  set (b1 := catch_up (w_clock w) b) in *. destruct (bt_response_queue b1) as [|v queue]; [by rewrite IH|].
  destruct (usable_response _ v); [|by rewrite IH].
  unfold store_confirmation. destruct (bt_confirmation_data _); simpl; [by rewrite catch_up_teardown|].
  destruct (create_confirmation _ _ _) as [w3 [c|]]; simpl; by rewrite catch_up_teardown.
Qed.

Lemma ble_call_teardown c s :
  teardown (ble_call grace_ms c s).2 =
  match c with
  | CCancel _ => if bt_shutdown_started s.2 then teardown s.2 else (true, bt_cleanups s.2 ++ [w_clock s.1 + grace_ms])
  | CFinalize => if bt_shutdown_started s.2 then teardown s.2 else (true, bt_cleanups s.2 ++ [w_clock s.1])
  | _ => teardown s.2
  end.
Proof.
  destruct s as [w b], c as [p|d|p|]; simpl; [apply ble_send_teardown| |by destruct (bt_shutdown_started b)..].
  destruct (bt_request_packet b) as [p|]; [|done].
  pose proof (receive_ble_teardown (receive_fuel d b) (w_clock w) d p w b) as Hr.
  by destruct (receive_ble _ _ _ _ _ _) as [[w' b'] r].
Qed.

Definition ble_calls (l : list BleCall) (s : World * BleTransport) : World * BleTransport :=
  foldl (λ s c, ble_call grace_ms c s) s l.

Lemma before_end l s :
  Forall (λ c, ¬ ends_session c) l → teardown (ble_calls l s).2 = teardown s.2.
Proof.
  unfold ble_calls. revert s. induction l as [|c l IH]; intros s Hl; [done|]. apply Forall_cons in Hl as [Hc Hl].
  simpl. rewrite IH, ble_call_teardown by done. by destruct c; try (by destruct Hc).
Qed.

Lemma after_end l s : bt_shutdown_started s.2 = true → teardown (ble_calls l s).2 = teardown s.2.
Proof.
  unfold ble_calls. revert s. induction l as [|c l IH]; intros s Hs; [done|]. simpl.
  assert (Hc : teardown (ble_call grace_ms c s).2 = teardown s.2) by (rewrite ble_call_teardown, Hs; by destruct c).
  rewrite IH; [done|]. injection Hc as Hc _. congruence.
Qed.
End cleanup.

(** After the clean-up nothing is heard or answered any more. *)
Lemma shut_down_silent now b :
  let b' := catch_up now (do_shutdown b) in
  bt_answers b' = bt_answers b ∧ bt_response_queue b' = bt_response_queue b ∧ bt_connected_devices b' = ∅ ∧
  bt_advertising b' = false.
Proof.
  unfold catch_up. cbn zeta. set (b0 := do_shutdown b). assert (Hg : bt_gatt b0 = None) by done.
  change (bt_answers b) with (bt_answers b0). change (bt_response_queue b) with (bt_response_queue b0).
  change ∅ with (bt_connected_devices b0). change false with (bt_advertising b0).
  revert Hg. generalize b0, (bt_future b0). clear b0. intros b0 l Hg. induction l as [|[t e] l IH]; [done|]. simpl.
  unfold gatt_event. rewrite Hg. by destruct (decide _).
Qed.

(** An adapter that grants everything: what is to come is still to come. *)
Lemma ble_send_coming `{C : CryptoOps} `{KW : !Codec WrapperMessage} `{KE : !Codec EncryptedPacket} packet w b csk t v :
  bt_advertising b = false → ba_advertise (bt_adapter b) = [] → ba_gatt (bt_adapter b) = [] →
  coming csk t v b → w_clock w < t →
  ∃ b1, ble_send_request packet (w, b) = ((w, b1), Ok ()) ∧ coming csk t v b1 ∧ is_Some (bt_gatt b1) ∧
    bt_request_packet b1 = Some packet.
Proof.
  intros Hadv Haa Hag Hco Ht. unfold ble_send_request, gets, modify. rewrite bind_run. cbn [snd]. rewrite Hadv.
  rewrite !bind_run. unfold MAX_ATTEMPTS. cbn [advertise]. simpl. rewrite Haa. cbn [next_answer].
  set (b0 := set_radio true _ _). assert (Hco0 : coming csk t v b0) by exact Hco.
  unfold register_gatt. destruct (catch_up_adapter (w_clock w) b0) as [Ha _]. rewrite Ha. simpl. rewrite Hag. cbn [next_answer].
  destruct (catch_up_spec (w_clock w) b0) as ((_ & Hreq & _) & _).
  destruct (coming_catch_up _ _ _ (w_clock w) _ Hco0) as [(_ & Hco1 & _)|[? _]]; [|lia].
  eexists. split; [reflexivity|]. split; [exact Hco1|]. split; [by eexists|]. exact Hreq.
Qed.

(** ** Claims *)

(** C37: Setting up is bounded.  Publishing a request asks BlueZ to advertise at most five
    times and sleeps at most 600 ms between these calls (how long BlueZ takes to answer is
    not counted); when it reports success, the request's encoding is what the advertised
    service hands out, and a further call changes nothing. *)
Theorem ble_setup_bounded `{C : CryptoOps} `{KW : !Codec WrapperMessage} `{KE : !Codec EncryptedPacket}
    packet w b w' b' r :
  bt_advertising b = false → ble_send_request packet (w, b) = ((w', b'), r) →
  (∃ k, (k ≤ 5)%nat ∧ ba_advertise (bt_adapter b') = drop k (ba_advertise (bt_adapter b))) ∧
  w_clock w ≤ w_clock w' ≤ w_clock w + 600 ∧
  (r = Ok () → bt_advertising b' = true ∧ bt_gatt b' = Some (encode_to_vec packet) ∧
     ∀ packet' w2, ble_send_request packet' (w2, b') = ((w2, b'), Ok ())).
Proof.
  intros Hadv Hs. apply ble_send_run in Hs as [(? & _)|(_ & (k & Hk & Hd & Hc) & _ & _ & _ & Hok)]; [congruence|].
  unfold MAX_ATTEMPTS in Hk. split; [by exists k|]. split; [lia|]. intros Hr. destruct (Hok Hr) as [Ha Hg].
  split; [done|]. split; [done|]. intros packet' w2. unfold ble_send_request. munfold. by rewrite Ha.
Qed.

Lemma ble_attempt_ends `{C : CryptoOps} `{H : Hex} `{KW : !Codec WrapperMessage}
    `{KE : !Codec EncryptedPacket} grace_ms fuel packet csk kp challenge servers (e : Env BleTransport) :
  (length (bt_future (e_transport e)) + length (bt_response_queue (e_transport e)) + 601 ≤ fuel)%nat →
  result_of (authenticate_with_transport (TR := ble_transport grace_ms) fuel packet csk kp challenge servers) e ≠ Ok None.
Proof.
  intros Hf. unfold result_of, authenticate_with_transport. munfold.
  apply (auth_loop_terminates (TR := ble_transport grace_ms) (TP := ble_progress grace_ms)); [done|].
  unfold loop_measure, get_session_timeout, pending. simpl.
  replace (120 * 1000 - (w_clock (e_world e) - w_clock (e_world e)) + 199) with 120199 by lia.
  change (120199 / 200) with 600. unfold pending. lia.
Qed.

(** Every Bluetooth attempt ends, given a step for each thing devices will do, each
    response waiting, and 601 more. *)
Theorem ble_attempt_terminates `{C : CryptoOps} `{H : Hex} `{KW : !Codec WrapperMessage}
    `{KE : !Codec EncryptedPacket} grace_ms fuel packet csk kp challenge servers (e : Env BleTransport) :
  (length (bt_future (e_transport e)) + length (bt_response_queue (e_transport e)) + 601 ≤ fuel)%nat →
  result_of (authenticate_with_transport (TR := ble_transport grace_ms) fuel packet csk kp challenge servers) e ≠ Ok None.
Proof. apply ble_attempt_ends. Qed.

(** C28: Useless responses do not stop an honest phone over Bluetooth.  BlueZ grants both
    registrations; before the honest grant is written, within 180 ms, devices may read,
    or write any values that do not decrypt to a grant or a denial.  The attempt
    succeeds at its first response. *)
Theorem ble_honest_grant_accepted `{C : CryptoOps} `{L : !CryptoLaws C} `{H : Hex}
    `{KW : !Codec WrapperMessage} `{LW : !CodecLaws WrapperMessage KW wrapper_wire}
    `{KE : !Codec EncryptedPacket} `{LE : !CodecLaws EncryptedPacket KE packet_wire}
    grace_ms fuel packet csk kp challenge servers id s phone g wrapper wp wp' p
    bad t addr rest (e : Env BleTransport) :
  wf_csk csk → wf_ed25519 phone →
  servers !! id = Some s → server_key s = Some (verifying_key_bytes phone) →
  create_auth_grant phone challenge = Ok g →
  sign_wrapper_message (wrap_auth_grant g) phone = Ok wrapper →
  create_encrypted_packet_with_csk_nonce csk wrapper wp = (wp', Ok p) →
  bt_advertising (e_transport e) = false → bt_response_queue (e_transport e) = [] →
  bt_csk (e_transport e) = csk →
  ba_advertise (bt_adapter (e_transport e)) = [] → ba_gatt (bt_adapter (e_transport e)) = [] →
  bt_future (e_transport e) = bad ++ (t, WriteResponse addr (encode_to_vec p)) :: rest →
  Forall (harmless csk t) bad → w_clock (e_world e) < t ≤ w_clock (e_world e) + 180 →
  result_of (authenticate_with_transport (TR := ble_transport grace_ms) (S fuel) packet csk kp challenge servers) e
    = Ok (Some ()).
Proof.
  intros Hcsk Hph Hs Hk Hg Hsign Hp Hadv Hq Hkey Haa Hag Hf Hbad Ht. destruct e as [w b cache sp]. simpl in *.
  assert (wm_payload wrapper = Some (PAuthGrant g) ∧ wire_ok wrapper) as [Hpay Hwire].
  { unfold sign_wrapper_message in Hsign. simplify_eq. by repeat split. }
  assert (Hu : usable_response csk (encode_to_vec p) = Some p).
  { unfold usable_response. rewrite decode_encode by exact (create_packet_wire _ _ _ _ _ Hp). simpl.
    rewrite (decrypt_create_packet _ _ _ _ _ Hcsk Hwire Hp). by rewrite Hpay. }
  assert (Hco : coming csk t (encode_to_vec p) b).
  { split; [done|]. rewrite Hq. split; [done|]. by exists bad, addr, rest. }
  destruct (ble_send_coming packet w b csk t (encode_to_vec p)) as (b1 & Hsend & Hco1 & Hg1 & Hreq); [done..|lia|].
  assert (Hk1 : bt_csk b1 = csk) by apply Hco1.
  destruct (receive_ble_coming (receive_fuel 200 b1) (w_clock w) 200 packet w b1 t (encode_to_vec p) p) as (w2 & b2 & Hr);
    rewrite ?Hk1; [by apply receive_fuel_enough|lia|lia|done..|].
  eapply (delivered_grant_accepted (TR := ble_transport grace_ms) _ packet csk kp challenge servers id s _ wrapper p NO_ADDR);
    [done|done|by eapply decrypt_create_packet|by eapply grant_verifies|exact Hsend|]. instantiate (1 := (w2, b2)). cbn [receive_response ble_transport].
  unfold ble_receive_response. by rewrite Hreq, Hr.
Qed.

(** The service is torn down once.  Whatever a session does with a fresh transport,
    the first cancel or finalize schedules the only clean-up there will be: after the
    grace period for a cancel, at once for a finalize.  Once it has run, devices are
    forgotten and neither heard nor answered. *)
Theorem ble_cleanup_once `{C : CryptoOps} `{KW : !Codec WrapperMessage} `{KE : !Codec EncryptedPacket}
    grace_ms z temporal_id csk kp challenge devices b w before c after :
  ble_new z temporal_id csk kp challenge devices = Ok b →
  Forall (λ c, ¬ ends_session c) before → ends_session c →
  let b' := (ble_calls grace_ms (before ++ c :: after) (w, b)).2 in
  bt_cleanups b' = [w_clock (ble_calls grace_ms before (w, b)).1 + match c with CCancel _ => grace_ms | _ => 0 end] ∧
  ∀ now, let b2 := catch_up now (do_shutdown b') in
    bt_answers b2 = bt_answers b' ∧ bt_response_queue b2 = bt_response_queue b' ∧ bt_connected_devices b2 = ∅ ∧
    bt_advertising b2 = false.
Proof.
  intros Hb Hbefore Hc b'. split; [|intros now; apply shut_down_silent].
  assert (Hb0 : teardown b = (false, [])).
  { unfold ble_new in Hb. munfold. case_all. }
  unfold b', ble_calls. rewrite foldl_app. simpl.
  fold (ble_calls grace_ms before (w, b)). set (s1 := ble_calls grace_ms before (w, b)).
  fold (ble_calls grace_ms after (ble_call grace_ms c s1)).
  assert (H1 : teardown s1.2 = (false, [])) by (unfold s1; by rewrite before_end).
  injection H1 as Hs1 Hc1.
  assert (H2 : teardown (ble_call grace_ms c s1).2 =
    (true, [w_clock s1.1 + match c with CCancel _ => grace_ms | _ => 0 end])).
  { rewrite ble_call_teardown, Hs1, Hc1. by destruct c; [by destruct Hc..|done|rewrite Z.add_0_r]. }
  assert (H3 := H2). injection H3 as Hs2 Hc2. rewrite <-Hc2.
  assert (H4 := after_end grace_ms after _ Hs2). by injection H4.
Qed.

(** ** Witnesses: one adapter, one phone and a device that writes nonsense *)

Definition toy_adapter (answers : list (result BluerError ())) : Adapter := mkAdapter answers [] (λ _, true).
Definition toy_bluez : Bluez :=
  mkBluez None (Ok ["hci0"%string]) (λ _, Ok (toy_adapter [])) (Ok false) None.
Definition toy_ble (answers : list (result BluerError ())) (devices : list (Z * GattEvent)) : BleTransport :=
  mkBle (toy_adapter answers) [] None toy_csk toy_client toy_challenge false None None ∅ [] false devices [] [].
Definition busy : result BluerError () := Err (mkBluerError false "" "Busy").
Definition toy_request : EncryptedPacket := mkEncryptedPacket [] 0 [].

Lemma ble_setup_bounded_witness :
  ∃ w' b', ble_send_request toy_request (quiet_world, toy_ble [busy; busy] []) = ((w', b'), Ok ()) ∧
    0 ≤ w_clock w' ≤ 600 ∧ bt_gatt b' = Some (encode_to_vec toy_request).
Proof.
  destruct (ble_send_request toy_request (quiet_world, toy_ble [busy; busy] [])) as [[w' b'] r] eqn:E.
  assert (r = Ok ()) as -> by (change r with (w', b', r).2; rewrite <-E; by vm_compute).
  destruct (ble_setup_bounded toy_request quiet_world (toy_ble [busy; busy] []) w' b' (Ok ()) eq_refl E) as (_ & Hc & Hok).
  exists w', b'. split; [done|]. split; [exact Hc|by apply Hok].
Defined.

Lemma ble_attempt_terminates_witness :
  result_of (authenticate_with_transport (TR := ble_transport 300) 601 toy_request toy_csk toy_client toy_challenge
    toy_servers) (mkEnv quiet_world (toy_ble [] []) ∅ []) ≠ Ok None.
Proof. apply ble_attempt_terminates. vm_compute. lia. Defined.

Definition nonsense : list (Z * GattEvent) := [(10, ReadCommand 7); (20, WriteResponse 7 (encode_to_vec damaged_packet))].

Lemma ble_honest_grant_accepted_witness :
  result_of (authenticate_with_transport (TR := ble_transport 300) 602 toy_request toy_csk toy_client toy_challenge
    toy_servers) (mkEnv quiet_world
      (toy_ble [] (nonsense ++ [(100, WriteResponse 8 (encode_to_vec (toy_grant_packet toy_phone)))])) ∅ []) = Ok (Some ()).
Proof.
  set (g := mkAuthenticationGrant (sign_ed25519 toy_phone toy_challenge)).
  destruct (sign_wrapper_message (wrap_auth_grant g) toy_phone) as [w|] eqn:Ew; [|by vm_compute in Ew].
  destruct (create_encrypted_packet_with_csk_nonce toy_csk w quiet_world) as [wp rp] eqn:Ep.
  assert (rp = Ok (toy_grant_packet toy_phone)) as ->.
  { change rp with (wp, rp).2. rewrite <-Ep. injection Ew as <-. by vm_compute. }
  by apply (ble_honest_grant_accepted 300 601 toy_request toy_csk toy_client toy_challenge toy_servers "a"
    (server_of toy_phone ["ann"%string]) toy_phone g w quiet_world wp (toy_grant_packet toy_phone)
    nonsense 100 8 []); try exact Ep; try (by repeat constructor); vm_compute.
Defined.

Lemma ble_cleanup_once_witness :
  ∃ t, bt_cleanups (ble_calls 300 [CSend toy_request; CReceive 200; CCancel toy_request; CFinalize]
    (quiet_world, toy_ble [] [])).2 = [t].
Proof.
  eexists. refine (proj1 (ble_cleanup_once 300 toy_bluez [] toy_csk toy_client toy_challenge [] (toy_ble [] []) quiet_world
    [CSend toy_request; CReceive 200] (CCancel toy_request) [CFinalize] _ _ _)).
  - reflexivity.
  - repeat constructor; by intros [].
  - exact I.
Defined.
