(* ===== verification/Reception.v ===== *)
(** * Where a response came from

    An attempt that succeeds was handed a packet by its transport, in a state the attempt
    reached from its start.  For the two transports this ties the grant to what really
    arrived: to a datagram of the socket's inbox, or to a value a device wrote, in both
    cases before the attempt ended. *)

From stdpp Require Import base gmap strings list.
From S2P Require Import Prelude Os Text Crypto Protocol ConcreteCodec Config ConfigFacts PairingUrl.
From S2P Require Import Network Auth AuthTheorems PeerIdentity Ble BleTheorems.

(** ** Over any transport *)

Lemma granted_weaken `{C : CryptoOps} `{H : Hex} `{KW : !Codec WrapperMessage} (P Q : EncryptedPacket → Prop) csk challenge servers :
  (∀ p, P p → Q p) → granted P csk challenge servers → granted Q csk challenge servers.
Proof. intros HPQ (p & w & g & id & s & k & Hp & Hrest). exists p, w, g, id, s, k. split; [by apply HPQ|done]. Qed.

Section reception.
Context `{C : CryptoOps} `{H : Hex} `{KW : !Codec WrapperMessage}.
Context {T : Type} `{TR : !Transport T}.

(** What the transport's operations keep. *)
Context (I : Z → T → Prop).
#[local] Abbreviation J s := (I (w_clock s.1) s.2).
Context (Hsend : ∀ p s, J s → J (send_request p s).1) (Hrecv : ∀ d s, J s → J (receive_response d s).1).

(** The packet was received in such a state, at the time the attempt ended. *)
Definition handed_over (at_time : Z) (p : EncryptedPacket) : Prop :=
  ∃ d s s' addr, J s ∧ receive_response d s = (s', Ok (Response p addr)) ∧ w_clock s'.1 = at_time.

Lemma wait_keeps d csk servers (e e' : Env T) r :
  wait_for_response d csk servers e = (e', r) → J (e_world e, e_transport e) → J (e_world e', e_transport e').
Proof.
  intros Hw HJ. unfold wait_for_response in Hw. rewrite bind_run in Hw.
  destruct (on_transport (receive_response d) e) as [e1 r1] eqn:E1. apply on_transport_run in E1 as (E1 & _).
  apply (Hrecv d) in HJ. rewrite E1 in HJ. simpl in HJ.
  destruct r1 as [[p addr|]|er]; munfold; [|by simplify_eq..].
  case_bool_decide; [by simplify_eq|]. destruct (map_err _ _) as [wr|]; [|by simplify_eq].
  destruct (verify_response_signature wr servers); by simplify_eq.
Qed.

Lemma wait_hands_over d csk servers (e e' : Env T) wrapper :
  wait_for_response d csk servers e = (e', Ok (Some wrapper)) → J (e_world e, e_transport e) →
  ∃ p, handed_over (w_clock (e_world e')) p ∧ decrypt_encrypted_packet_with_csk_nonce csk p = Ok wrapper.
Proof.
  intros Hw HJ. unfold wait_for_response in Hw. rewrite bind_run in Hw.
  destruct (on_transport (receive_response d) e) as [e1 r1] eqn:E1. apply on_transport_run in E1 as (E1 & _).
  destruct r1 as [[p addr|]|er]; munfold; [|by simplify_eq..].
  case_bool_decide; [by simplify_eq|]. exists p.
  destruct (decrypt_encrypted_packet_with_csk_nonce csk p) as [wr|]; [|done]. simpl in Hw.
  destruct (verify_response_signature wr servers); [|by simplify_eq]. simplify_eq.
  split; [|done]. by exists d, (e_world e, e_transport e), (e_world e1, e_transport e1), addr.
Qed.

(** The only packet that counts is the one handed over last. *)
Lemma auth_loop_received fuel start n packet csk kp challenge servers (e e' : Env T) :
  J (e_world e, e_transport e) →
  auth_loop fuel start n packet csk kp challenge servers e = (e', Ok (Some ())) →
  granted (handed_over (w_clock (e_world e'))) csk challenge servers.
Proof.
  revert n e. induction fuel as [|fuel IH]; intros n e HJ; [done|].
  cbn [auth_loop]. unfold gets at 1. rewrite bind_run.
  destruct (decide _); [intros He; by apply fail_finalized_run in He|]. rewrite bind_run. unfold attempt at 1.
  destruct (on_transport (send_request packet) e) as [e1 r1] eqn:E1. apply on_transport_run in E1 as (E1 & _).
  apply (Hsend packet) in HJ. rewrite E1 in HJ. simpl in HJ.
  destruct r1 as [[]|er]; [|intros He; by apply fail_finalized_run in He]. rewrite bind_run. unfold attempt.
  destruct (wait_for_response _ csk servers e1) as [e2 [[wrapper|]|er]] eqn:E2;
    [|by apply IH; eapply wait_keeps|intros He; by apply fail_finalized_run in He].
  pose proof (wait_keeps _ _ _ _ _ _ E2 HJ) as HJ2.
  destruct (wait_hands_over _ _ _ _ _ _ E2 HJ) as (p & Hp & Hd).
  destruct (process_auth_response_run wrapper challenge kp csk servers e2) as (e3 & pr & Hpr & Hok & _).
  destruct (process_frame _ _ _ _ _ _ _ _ Hpr) as [Hc Ht]. rewrite bind_run, Hpr.
  destruct pr as [[[]|er]|]; [|by intros; simplify_eq|].
  - unfold mret, M_ret. intros ?; simplify_eq. rewrite Hc. destruct (Hok eq_refl) as (Hany & g & Hg).
    apply any_server_key_true in Hany as (id & s0 & k & Hs & Hk & Hvg).
    apply is_ok_true in Hvg as [[] Hvg]. apply verify_auth_grant_Ok in Hvg as (_ & Hvw & g' & Hg' & Hvs).
    exists p, wrapper, g, id, s0, k. simplify_eq. split_and!; eauto.
  - apply IH. simpl in *. by rewrite Hc, Ht.
Qed.

Lemma attempt_received fuel packet csk kp challenge servers (e e' : Env T) :
  I (w_clock (e_world e)) (e_transport e) →
  authenticate_with_transport fuel packet csk kp challenge servers e = (e', Ok (Some ())) →
  granted (handed_over (w_clock (e_world e'))) csk challenge servers.
Proof.
  intros HI Ha. unfold authenticate_with_transport in Ha. rewrite bind_run in Ha. unfold gets at 1, modify in Ha.
  rewrite bind_run in Ha. by eapply auth_loop_received, Ha.
Qed.
End reception.

(** ** Over UDP *)

(** The packet is in a datagram of the inbox that was there to be read by then. *)
Definition in_datagram `{KE : !Codec EncryptedPacket} (inbox : list Arrival) (by_time : Z) (p : EncryptedPacket) : Prop :=
  ∃ a data addr, a ∈ inbox ∧ arr_event a = Ok (data, addr) ∧ decode data = Some p ∧ arr_time a ≤ by_time.

Section udp.
Context `{KE : !Codec EncryptedPacket}.

Lemma receive_loop_origin deadline now inbox u u' now' r :
  receive_loop deadline now inbox u = (u', now', r) →
  (∀ a, a ∈ u_inbox u' → a ∈ inbox) ∧ now ≤ now' ∧
  match r with Ok (Some (p, _)) => in_datagram inbox now' p | _ => True end.
Proof.
  revert now u. induction inbox as [|a inbox IH]; intros now u; cbn [receive_loop].
  { intros; simplify_eq. simpl. split; [done|]. split; [lia|done]. }
  destruct (decide _) as [|Ha]; [intros; simplify_eq; simpl; split; [done|]; split; [lia|done]|].
  destruct (arr_event a) as [[data [ip port]]|er] eqn:Ee;
    [|intros; simplify_eq; simpl; split; [by intros; apply list_elem_of_further|]; split; [lia|done]].
  destruct (if bool_decide _ then _ else _) as [u1 loc1].
  assert (Hrec : ∀ u2, receive_loop deadline (Z.max now (arr_time a)) inbox u2 = (u', now', r) →
    (∀ x, x ∈ u_inbox u' → x ∈ a :: inbox) ∧ now ≤ now' ∧
    match r with Ok (Some (p, _)) => in_datagram (a :: inbox) now' p | _ => True end).
  { intros u2 Hr. apply IH in Hr as (Hin & Hle & Hp). split; [by intros; constructor; apply Hin|]. split; [lia|].
    destruct r as [[[p addr]|]|]; try done. destruct Hp as (x & d & ad & Hx & Hrest). exists x, d, ad.
    split; [by constructor|done]. }
  destruct loc1; [apply Hrec|]. destruct (is_local_ip _ _ u1) as [u2 loc2].
  destruct loc2; [apply Hrec|]. destruct (decide _); [apply Hrec|].
  destruct (decode data) as [p|] eqn:Ed; intros; simplify_eq; simpl; (split; [by intros; apply list_elem_of_further|]); (split; [lia|]); [|done].
  exists a, data, (ip, port). split; [constructor|]. split; [done|]. split; [done|lia].
Qed.

Lemma udp_attempt_received `{C : CryptoOps} `{H : Hex} `{KW : !Codec WrapperMessage}
    fuel packet csk kp challenge servers (e e' : Env UdpTransport) :
  authenticate_with_transport fuel packet csk kp challenge servers e = (e', Ok (Some ())) →
  granted (in_datagram (u_inbox (ut_socket (e_transport e))) (w_clock (e_world e'))) csk challenge servers.
Proof.
  intros Ha. set (inbox := u_inbox (ut_socket (e_transport e))).
  eapply (attempt_received (λ _ t, ∀ a, a ∈ u_inbox (ut_socket t) → a ∈ inbox)) in Ha; [| | |done].
  - eapply granted_weaken, Ha. intros p (d & [w t] & [w' t'] & addr & Hin & Hr & Hc). simpl in *.
    unfold udp_receive_response in Hr. destruct (try_receive_udp_packet d (w_clock w) (ut_socket t)) as [[u now] r] eqn:E.
    apply receive_loop_origin in E as (_ & _ & Hp). destruct r as [[[q ad]|]|]; simplify_eq. simpl.
    simpl in Hc. rewrite <-Hc. destruct Hp as (a & data & ad & Hx & Hrest). exists a, data, ad. split; [by apply Hin|done].
  - intros p [w t] Hin. simpl in *. by rewrite send_multicast_inbox.
  - intros d [w t] Hin. simpl in *. destruct (try_receive_udp_packet d (w_clock w) (ut_socket t)) as [[u now] r] eqn:E.
    apply receive_loop_origin in E as (Hsub & _). simpl. intros a Ha'. by apply Hin, Hsub.
Qed.
End udp.

(** ** Over Bluetooth *)

(** A device wrote the packet by then. *)
Definition in_write `{KE : !Codec EncryptedPacket} (devices : list (Z * GattEvent)) (by_time : Z) (p : EncryptedPacket) : Prop :=
  ∃ t addr value, (t, WriteResponse addr value) ∈ devices ∧ decode value = Some p ∧ t ≤ by_time.

Section ble.
Context (devices : list (Z * GattEvent)).

(** What is queued was written, what is to come is what devices will do. *)
Definition written (now : Z) (b : BleTransport) : Prop :=
  (∀ v, v ∈ bt_response_queue b → ∃ t addr, (t, WriteResponse addr v) ∈ devices ∧ t ≤ now) ∧
  (∀ x, x ∈ bt_future b → x ∈ devices).

Lemma written_later now now' b : now ≤ now' → written now b → written now' b.
Proof.
  intros Hle [Hq Hf]. split; [|done]. intros v Hv. destruct (Hq v Hv) as (t & addr & Hin & Ht). exists t, addr. split; [done|lia].
Qed.

Lemma run_events_written now l b :
  (∀ v, v ∈ bt_response_queue b → ∃ t addr, (t, WriteResponse addr v) ∈ devices ∧ t ≤ now) →
  (∀ x, x ∈ l → x ∈ devices) → written now (run_events now l b).
Proof.
  revert b. induction l as [|[t e] l IH]; intros b Hq Hl; cbn [run_events].
  { split; simpl; [done|]. by intros x ?%elem_of_nil. }
  destruct (decide (t ≤ now)); [|by split].
  apply IH; [|by intros; apply Hl; constructor].
  destruct (gatt_event_spec e b) as (_ & _ & more & Hm & _ & Hmv). rewrite Hm.
  intros v [Hv|Hv]%elem_of_app; [by apply Hq|]. destruct (Hmv v Hv) as [addr ->]. exists t, addr.
  split; [apply Hl; constructor|done].
Qed.
Lemma catch_up_written now b : written now b → written now (catch_up now b).
Proof. intros [Hq Hf]. by apply run_events_written. Qed.

Context `{C : CryptoOps} `{KW : !Codec WrapperMessage} `{KE : !Codec EncryptedPacket}.

Lemma usable_decodes csk value p : usable_response csk value = Some p → decode value = Some p.
Proof.
  unfold usable_response. destruct (decode value) as [q|]; [|done]. simpl.
  destruct (decrypt_encrypted_packet_with_csk_nonce csk q) as [m|]; [|done].
  destruct (wm_payload m) as [[]|]; intros; by simplify_eq.
Qed.

Lemma receive_ble_written fuel start timeout p w b :
  written (w_clock w) b →
  let '(w', b', r) := receive_ble fuel start timeout p w b in
  written (w_clock w') b' ∧ match r with Some (Response q _) => in_write devices (w_clock w') q | _ => True end.
Proof.
  revert w b. induction fuel as [|fuel IH]; intros w b Hw; cbn [receive_ble]; [done|].
  destruct (decide _); [done|]. pose proof (catch_up_written _ _ Hw) as Hw1.
  set (b1 := catch_up (w_clock w) b) in *. destruct (bt_response_queue b1) as [|value queue] eqn:Hq.
  - apply (IH (set_clock (w_clock w + 20) w) b1). simpl. eapply written_later, Hw1. lia.
  - assert (Hw2 : written (w_clock w) (set_queue queue b1)).
    { destruct Hw1 as [Hw1 Hf1]. split; simpl; [|done]. intros v Hv. apply Hw1. rewrite Hq. by constructor. }
    destruct (usable_response (bt_csk (set_queue queue b1)) value) as [q|] eqn:Hu; [|by apply IH].
    destruct (store_confirmation p w (set_queue queue b1)) as [w3 b3] eqn:Es.
    apply store_confirmation_spec in Es as (Hc3 & Hf3 & Hq3). simpl. split.
    + apply catch_up_written, (written_later (w_clock w)); [lia|]. destruct Hw2 as [Hw2 Hf2].
      split; [by rewrite Hq3|by rewrite Hf3].
    + destruct (proj1 Hw1 value) as (t & addr & Hin & Ht); [rewrite Hq; by constructor|].
      exists t, addr, value. split; [done|]. split; [by eapply usable_decodes|lia].
Qed.

Lemma advertise_written n w b : written (w_clock w) b →
  let '((w', b'), _) := advertise n (w, b) in written (w_clock w') b'.
Proof.
  revert w b. induction n as [|n IH]; intros w b Hw; cbn [advertise]; [done|].
  destruct (next_answer _ _) as [r a]. destruct r as [[]|e]; [done|].
  destruct (advertising_unavailable e); [done|]. destruct n as [|n]; [done|].
  apply (IH (set_clock (w_clock w + if advertising_busy e then 150 else 100) w)). simpl.
  eapply written_later, Hw. destruct (advertising_busy e); lia.
Qed.

Lemma ble_send_written packet w b : written (w_clock w) b →
  let '((w', b'), _) := ble_send_request packet (w, b) in written (w_clock w') b'.
Proof.
  intros Hw. unfold ble_send_request, gets, modify. rewrite bind_run. cbn [snd].
  destruct (bt_advertising b); [done|]. rewrite !bind_run.
  pose proof (advertise_written MAX_ATTEMPTS w (set_request packet b) Hw) as Ha.
  destruct (advertise MAX_ATTEMPTS (w, set_request packet b)) as [[w1 b1] [[]|e]]; [|done].
  unfold register_gatt. apply catch_up_written in Ha. destruct (next_answer _ _) as [[[]|e] a]; done.
Qed.

Lemma ble_attempt_received `{H : Hex} grace fuel packet csk kp challenge servers (e e' : Env BleTransport) :
  bt_response_queue (e_transport e) = [] → bt_future (e_transport e) = devices →
  authenticate_with_transport (TR := ble_transport grace) fuel packet csk kp challenge servers e = (e', Ok (Some ())) →
  granted (in_write devices (w_clock (e_world e'))) csk challenge servers.
Proof.
  intros Hq Hf Ha. eapply (attempt_received (TR := ble_transport grace) written) in Ha.
  - eapply granted_weaken, Ha. intros p (d & [w b] & [w' b'] & addr & Hw & Hr & Hc). simpl in *.
    unfold ble_receive_response in Hr. destruct (bt_request_packet b) as [rp|]; [|done].
    pose proof (receive_ble_written (receive_fuel d b) (w_clock w) d rp w b Hw) as Hrw.
    destruct (receive_ble _ _ _ _ _ _) as [[w1 b1] [[q ad|]|]]; simplify_eq/=. rewrite <-Hc. by destruct Hrw.
  - intros p [w b] Hw. simpl in *. pose proof (ble_send_written p w b Hw) as Hs.
    by destruct (ble_send_request p (w, b)) as [[w' b'] r].
  - intros d [w b] Hw. simpl in *. unfold ble_receive_response. destruct (bt_request_packet b) as [rp|]; [|done].
    pose proof (receive_ble_written (receive_fuel d b) (w_clock w) d rp w b Hw) as Hrw.
    destruct (receive_ble _ _ _ _ _ _) as [[w1 b1] r]. by destruct Hrw.
  - split; [|by rewrite Hf]. rewrite Hq. by intros v ?%elem_of_nil.
Qed.
End ble.
