(* ===== verification/Ipc.v ===== *)
(** * Local IPC messages: [proto/ipc.proto]

    What the PAM module, the administration tools and the daemon exchange over
    the Unix socket. *)

From stdpp Require Import base gmap strings list.
From S2P Require Import Prelude Os Text Crypto Protocol.

(** The kinds of [std::io::Error] the socket code tells apart. *)
Inductive io_kind :=
| PermissionDenied
| TimedOut
| UnexpectedEof
| InvalidData
| InvalidInput
| BrokenPipe
| ConnectionReset
| WouldBlock
| Interrupted
| OtherIo.
#[global] Instance io_kind_eq_dec : EqDecision io_kind.
Proof. solve_decision. Defined.

(** [PamOutcome], an open enum carried as [i32]. *)
Definition OUTCOME_SUCCESS : Z := 0.
Definition OUTCOME_DENIED : Z := 1.
Definition OUTCOME_TIMEOUT : Z := 2.
Definition OUTCOME_IGNORE : Z := 3.
Definition OUTCOME_ERROR : Z := 4.

Record PamAuthenticateRequest := mkPamAuthenticateRequest {
  par_username : string;
  par_tty_present : bool;
  par_timeout_seconds : Z;
  par_request_id : string;
}.
Record PamCancelRequest := mkPamCancelRequest { pcr_reason : string; pcr_request_id : string }.
Record PamAuthenticateResponse := mkPamAuthenticateResponse {
  resp_outcome : Z;
  resp_detail : string;
  resp_challenge : bytes;
}.

(** ** Administration *)

Definition ADMIN_SUCCESS : Z := 0.
Definition ADMIN_UNAUTHORIZED : Z := 1.
Definition ADMIN_ERROR : Z := 2.

Record PairedServerInfo := mkPairedServerInfo {
  psi_name : string;
  psi_public_key : string;
  psi_allowed_users : list string;
  psi_paired_at : string;
}.

Record SaveConfigRequest := mkSaveConfigRequest {
  scr_hostname : string;
  scr_udp_port : Z;
  scr_enable_ble : option bool;
  scr_enable_network : option bool;
}.

Inductive AdminRequestPayload :=
| AdmGetServers
| AdmStartPairing
| AdmWaitForPairing (port : Z)
| AdmCompletePairing (port : Z)
| AdmRemoveDevice (public_key : string)
| AdmRotateCsk
| AdmSaveConfig (r : SaveConfigRequest)
| AdmRecoverTpm
| AdmGetConfig
| AdmGetDaemonStatus.

(** The payload is a protobuf [oneof], absent when unset or unknown. *)
Record AdminRequest := mkAdminRequest { adm_payload : option AdminRequestPayload }.

Inductive AdminResponsePayload :=
| AdmServers (l : list PairedServerInfo)
| AdmPairingStarted (url : string) (port : Z)
| AdmPairingSas (sas_code : string) (port : Z)
| AdmPairingCompleted (server_hex : string)
| AdmConfig (hostname : string) (udp_port : Z) (enable_ble enable_network : bool)
| AdmDaemonStatus (tpm_enabled : bool) (tpm_error : string).

Record AdminResponse := mkAdminResponse {
  adr_status : Z;
  adr_error_message : string;
  adr_payload : option AdminResponsePayload;
}.

Inductive IpcMsg :=
| MsgPamAuthenticate (r : PamAuthenticateRequest)
| MsgPamCancel (r : PamCancelRequest)
| MsgPamResponse (r : PamAuthenticateResponse)
| MsgAdminRequest (r : AdminRequest)
| MsgAdminResponse (r : AdminResponse).

Record IpcEnvelope := mkIpcEnvelope { env_msg : option IpcMsg }.

(** Integers within their wire types. *)
Definition payload_wire (p : AdminRequestPayload) : Prop :=
  match p with
  | AdmWaitForPairing port | AdmCompletePairing port => u32 port
  | AdmSaveConfig r => u32 (scr_udp_port r)
  | _ => True
  end.
Definition response_payload_wire (p : AdminResponsePayload) : Prop :=
  match p with
  | AdmPairingStarted _ port | AdmPairingSas _ port => u32 port
  | AdmConfig _ port _ _ => u32 port
  | _ => True
  end.
#[global] Instance envelope_wire : WireValue IpcEnvelope := λ e,
  match env_msg e with
  | Some (MsgPamAuthenticate r) => u32 (par_timeout_seconds r)
  | Some (MsgPamResponse r) => i32 (resp_outcome r)
  | Some (MsgAdminRequest r) => match adm_payload r with Some p => payload_wire p | None => True end
  | Some (MsgAdminResponse r) =>
      i32 (adr_status r) ∧ match adr_payload r with Some p => response_payload_wire p | None => True end
  | _ => True
  end.
