(* ===== verification/Sockets.v ===== *)
(** * Sockets and retries: [shared/src/network/udp.rs], [tcp.rs] and [discovery.rs]

    How sockets are made and configured, call by call, over a kernel that may refuse any
    call; waiting for a TCP connection; and the retransmission helper.  The two loops run
    over what successive turns meet, with the time that has passed when they look at the
    clock. *)

From stdpp Require Import base gmap strings list.
From S2P Require Import Prelude Os Text Crypto Protocol Ipc Network.

(** ** Calls *)

Inductive SockCall :=
| CSocket (v6 : bool)
| COnlyV6 (b : bool)
| CReuseAddress (b : bool)
| CReusePort (b : bool)
| CBind (ip : IpAddr) (port : Z)
| CListen (ip : IpAddr) (port : Z)
| CNonblocking (b : bool)
| CFromStd                        (* handing the socket to the runtime *)
| CLocalAddr
| CConnect (ip : IpAddr) (port : Z) (timeout : Z)
| CReadTimeout (ms : Z)
| CWriteTimeout (ms : Z)
| CSendTo (data : bytes) (ip : IpAddr) (port : Z)
| CAccept.
#[global] Instance SockCall_eq_dec : EqDecision SockCall.
Proof. solve_decision. Defined.

(** What the next calls meet ([None]: success; then all succeed), and the calls made. *)
Record Kernel := mkKernel { k_fates : list (option io_kind); k_calls : list SockCall }.
Definition KM (A : Type) : Type := M Kernel io_kind A.

Definition call (c : SockCall) : KM () := λ k,
  (mkKernel (tail (k_fates k)) (k_calls k ++ [c]),
   match head (k_fates k) with Some (Some e) => Err e | _ => Ok () end).

(** One call after the other, each with [?]. *)
Fixpoint calls (l : list SockCall) : KM () :=
  match l with
  | [] => mret ()
  | c :: l' => _ ← call c; calls l'
  end.

(** ** UDP *)

Definition UNSPECIFIED_V6 : IpAddr := V6 0.

Definition bind_dual_stack_socket (port : Z) : KM () :=
  _ ← call (CSocket true);
  _ ← call (COnlyV6 false);
  _ ← call (CReuseAddress true);
  _ ← call (CReusePort true);
  _ ← call (CBind UNSPECIFIED_V6 port);
  _ ← call (CNonblocking true);
  mret ().

Definition create_multicast_socket (port : Z) : KM () :=
  _ ← bind_dual_stack_socket port;
  _ ← call CFromStd;
  _ ← call CLocalAddr;
  mret ().

Definition create_listen_socket (port : Z) : KM () :=
  _ ← bind_dual_stack_socket port;
  _ ← call CFromStd;
  mret ().

Definition send_udp_unicast `{KE : !Codec EncryptedPacket} (ip : IpAddr) (port : Z) (packet : EncryptedPacket) : KM () :=
  call (CSendTo (encode_to_vec packet) ip port).

(** [if_nametoindex] gives 0 for no interface; a name with a NUL is refused. *)
Definition get_interface_index (has_nul : string → bool) (if_nametoindex : string → Z * io_kind) (name : string)
    : result io_kind Z :=
  if has_nul name then Err InvalidInput else
  let '(index, errno) := if_nametoindex name in
  if decide (index = 0) then Err errno else Ok index.

(** ** TCP *)

Definition STREAM_TIMEOUT : Z := 30 * 1000.

Definition create_tcp_listener (port : Z) : KM () :=
  _ ← call (CListen (V4 0) port);
  call (CNonblocking false).

Definition stream_timeouts : KM () :=
  _ ← call (CReadTimeout STREAM_TIMEOUT);
  call (CWriteTimeout STREAM_TIMEOUT).

Definition connect_tcp (ip : IpAddr) (port timeout : Z) : KM () :=
  _ ← call (CConnect ip port timeout);
  stream_timeouts.

Inductive AcceptError := AcTimeout | AcIo (k : io_kind).

(** [incoming n]: what the [n]-th [accept] gives; [elapsed n]: the time since the start
    after it. *)
Section accept.
Context (incoming : nat → result io_kind (IpAddr * Z)) (elapsed : nat → Z) (timeout : Z).

(** [None]: still waiting after [fuel] turns. *)
Fixpoint accept_loop (fuel n : nat) : M Kernel AcceptError (option (IpAddr * Z)) :=
  match fuel with
  | O => mret None
  | S fuel' =>
      match incoming n with
      | Ok peer => _ ← mapM_err AcIo stream_timeouts; mret (Some peer)
      | Err WouldBlock =>
          if decide (timeout ≤ elapsed n) then throw AcTimeout
          else accept_loop fuel' (S n)             (* after 100 ms of sleep *)
      | Err e => throw (AcIo e)
      end
  end.

Definition accept_connection (fuel : nat) : M Kernel AcceptError (option (IpAddr * Z)) :=
  _ ← mapM_err AcIo (call (CNonblocking true));
  accept_loop fuel 0.
End accept.

(** ** Retransmission *)

Section retransmit.
Context {E A : Type} (send_fn : nat → result E (option A)) (elapsed : nat → Z) (max_duration : Z).

(** [Err None]: still running after [fuel] attempts. *)
Fixpoint retransmit_loop (fuel attempt : nat) : result (option E) (option A) :=
  match fuel with
  | O => Err None
  | S fuel' =>
      match send_fn attempt with
      | Err e => Err (Some e)
      | Ok (Some r) => Ok (Some r)
      | Ok None =>
          if decide (max_duration ≤ elapsed attempt) then Ok None
          else retransmit_loop fuel' (S attempt)   (* after [get_client_retry_interval attempt] *)
      end
  end.
Definition retransmit_with_backoff (fuel : nat) : result (option E) (option A) := retransmit_loop fuel 0.
End retransmit.

(** ** Theorems *)

Lemma call_run c k : ∃ r, call c k = (mkKernel (tail (k_fates k)) (k_calls k ++ [c]), r).
Proof. by eexists. Qed.

(** A sequence of calls stops at the first refusal, with its error. *)
Lemma calls_run l k :
  ∃ done rest, l = done ++ rest ∧ k_calls (calls l k).1 = k_calls k ++ done ∧
    match (calls l k).2 with
    | Ok _ => rest = []
    | Err e => ∃ n, length done = S n ∧ k_fates k !! n = Some (Some e)
    end.
Proof.
  revert k. induction l as [|c l IH]; intros k.
  - exists [], []. cbn. by rewrite app_nil_r.
  - cbn [calls]. unfold mbind, M_bind, call. destruct k as [fates made]. cbn [k_fates k_calls].
    destruct fates as [|[e|] fates]; cbn [head tail].
    + destruct (IH (mkKernel [] (made ++ [c]))) as (d & r & -> & Hc & Hr). exists (c :: d), r. rewrite Hc. split; [done|].
      split; [cbn; by rewrite <-(assoc_L (++))|]. destruct (calls (d ++ r) _) as [k' [u|e]]; [done|].
      destruct Hr as (n & _ & Hn). by cbn in Hn.
    + exists [c], l. split; [done|]. split; [done|]. by exists 0%nat.
    + destruct (IH (mkKernel fates (made ++ [c]))) as (d & r & -> & Hc & Hr). exists (c :: d), r. rewrite Hc. split; [done|].
      split; [cbn; by rewrite <-(assoc_L (++))|]. destruct (calls (d ++ r) _) as [k' [u|e]]; [done|].
      destruct Hr as (n & Hl & Hn). exists (S n). cbn. by rewrite Hl.
Qed.

Definition dual_stack_calls (port : Z) : list SockCall :=
  [CSocket true; COnlyV6 false; CReuseAddress true; CReusePort true; CBind UNSPECIFIED_V6 port; CNonblocking true].

Lemma create_multicast_calls port k :
  create_multicast_socket port k = calls (dual_stack_calls port ++ [CFromStd; CLocalAddr]) k.
Proof.
  unfold create_multicast_socket, bind_dual_stack_socket, dual_stack_calls. cbn [calls app].
  unfold mbind, M_bind, mret, M_ret, call. destruct k as [fates made]. cbn.
  do 8 (destruct fates as [|[?|] fates]; cbn; [done|done|]). done.
Qed.

(** The daemon's socket is configured before it is bound.  Creating it makes exactly the
    listed calls in order, or stops at the first that is refused and reports its error;
    so a socket that was made accepts IPv4 and IPv6, shares address and port, is bound to
    the configured port on every address, and never blocks. *)
Theorem multicast_socket_configured port k :
  let wanted := dual_stack_calls port ++ [CFromStd; CLocalAddr] in
  let '(k', r) := create_multicast_socket port k in
  match r with
  | Ok _ => k_calls k' = k_calls k ++ wanted
  | Err e => ∃ n, k_calls k' = k_calls k ++ take (S n) wanted ∧ k_fates k !! n = Some (Some e)
  end.
Proof.
  intros wanted. rewrite create_multicast_calls. fold wanted.
  destruct (calls_run wanted k) as (d & rest & Hw & Hc & Hr). destruct (calls wanted k) as [k' [u|e]]; cbn [fst snd] in *.
  - subst rest. rewrite app_nil_r in Hw. by rewrite Hc, Hw.
  - destruct Hr as (n & Hl & Hn). exists n. split; [|done]. rewrite Hc, Hw, <-Hl. by rewrite take_app_length.
Qed.

(** What the loop of [accept] ends with, from turn [n] on. *)
Definition accepted_as (incoming : nat → result io_kind (IpAddr * Z)) (elapsed : nat → Z) (timeout : Z)
    (r : result AcceptError (option (IpAddr * Z))) : Prop :=
  match r with
  | Ok (Some peer) => ∃ n, incoming n = Ok peer ∧ ∀ m, (m < n)%nat → incoming m = Err WouldBlock
  | Ok None => False
  | Err AcTimeout => ∃ n, timeout ≤ elapsed n ∧ ∀ m, (m ≤ n)%nat → incoming m = Err WouldBlock
  | Err (AcIo e) => ∃ n, incoming n = Err e ∧ e ≠ WouldBlock
  end.

Lemma accept_loop_spec incoming elapsed timeout fuel n made :
  (∀ m, (m < n)%nat → incoming m = Err WouldBlock) →
  let '(k', r) := accept_loop incoming elapsed timeout fuel n (mkKernel [] made) in
  (accepted_as incoming elapsed timeout r ∨
   r = Ok None ∧ ∀ m, (n ≤ m < n + fuel)%nat → elapsed m < timeout) ∧
  (is_Some (match r with Ok o => o | Err _ => None end) →
   k_calls k' = made ++ [CReadTimeout STREAM_TIMEOUT; CWriteTimeout STREAM_TIMEOUT]).
Proof.
  revert n. induction fuel as [|fuel IH]; intros n Hb; cbn [accept_loop].
  { split; [right; split; [done|lia]|by intros []]. }
  destruct (incoming n) as [peer|e] eqn:Ei.
  - cbn. split; [left; by exists n|]. intros _. simpl. by rewrite <-(assoc_L (++)).
  - assert (Hio : e ≠ WouldBlock → accepted_as incoming elapsed timeout (Err (AcIo e))) by (intros ?; by exists n).
    destruct (decide (e = WouldBlock)) as [->|Hne].
    2: { destruct e; try done; cbn; (split; [left; by apply Hio|by intros []]). }
    case_decide as Ht; cbn.
    + split; [left; exists n|by intros []]. split; [done|]. intros m Hm.
      destruct (decide (m = n)) as [->|]; [done|apply Hb; lia].
    + specialize (IH (S n)). destruct (accept_loop incoming elapsed timeout fuel (S n) _) as [k' r].
      destruct IH as [IH Hcalls]. { intros m Hm. destruct (decide (m = n)) as [->|]; [done|apply Hb; lia]. }
      split; [|done]. destruct IH as [IH|[-> Hw]]; [by left|]. right. split; [done|]. intros m Hm.
      destruct (decide (m = n)) as [->|]; [lia|apply Hw; lia].
Qed.

(** Waiting for a connection ends.  When each turn takes at least the 100 ms it sleeps,
    enough turns always give an answer: the first connection that came, with its stream
    limited to 30 s, the first real error, or a timeout that is not early. *)
Theorem accept_ends incoming elapsed timeout made fuel :
  (∀ n, elapsed n + 100 ≤ elapsed (S n)) → 0 ≤ elapsed 0%nat → 0 ≤ timeout → timeout < 100 * (Z.of_nat fuel - 1) →
  let '(k', r) := accept_connection incoming elapsed timeout fuel (mkKernel [] made) in
  accepted_as incoming elapsed timeout r ∧
  (is_ok r = true → k_calls k' = made ++ [CNonblocking true; CReadTimeout STREAM_TIMEOUT; CWriteTimeout STREAM_TIMEOUT]).
Proof.
  intros Hstep H0 Ht Hfuel.
  assert (Hel : ∀ n, 100 * Z.of_nat n ≤ elapsed n) by (intros n; induction n as [|n IH]; [lia|specialize (Hstep n); lia]).
  unfold accept_connection, mbind, M_bind, mapM_err, call. cbn.
  pose proof (accept_loop_spec incoming elapsed timeout fuel 0 (made ++ [CNonblocking true]) ltac:(intros; lia)) as Hspec.
  destruct (accept_loop incoming elapsed timeout fuel 0 _) as [k' r]. destruct Hspec as [[Hr|[-> Hw]] Hcalls].
  - split; [done|]. rewrite <-(assoc_L (++)) in Hcalls. intros Hok. apply Hcalls. by destruct r as [[peer|]|].
  - exfalso. specialize (Hw (pred fuel) ltac:(lia)). specialize (Hel (pred fuel)). lia.
Qed.

(** *** The helper *)

(** Attempt [n] ends the helper with [r]. *)
Definition settles_with {E A} (send_fn : nat → result E (option A)) (elapsed : nat → Z) (max_duration : Z) (n : nat)
    (r : result (option E) (option A)) : Prop :=
  match send_fn n with
  | Err e => r = Err (Some e)
  | Ok (Some a) => r = Ok (Some a)
  | Ok None => max_duration ≤ elapsed n ∧ r = Ok None
  end.
Definition waits_at {E A} (send_fn : nat → result E (option A)) (elapsed : nat → Z) (max_duration : Z) (n : nat) : Prop :=
  send_fn n = Ok None ∧ elapsed n < max_duration.

Lemma retransmit_loop_spec {E A} (send_fn : nat → result E (option A)) elapsed max_duration fuel n :
  let r := retransmit_loop send_fn elapsed max_duration fuel n in
  (∃ last, (n ≤ last < n + fuel)%nat ∧ settles_with send_fn elapsed max_duration last r ∧
     ∀ m, (n ≤ m < last)%nat → waits_at send_fn elapsed max_duration m) ∨
  (∀ m, (n ≤ m < n + fuel)%nat → waits_at send_fn elapsed max_duration m).
Proof.
  revert n. induction fuel as [|fuel IH]; intros n; cbn [retransmit_loop]; [right; lia|].
  assert (Hhere : ∀ r, settles_with send_fn elapsed max_duration n r →
    ∃ last, (n ≤ last < n + S fuel)%nat ∧ settles_with send_fn elapsed max_duration last r ∧
     ∀ m, (n ≤ m < last)%nat → waits_at send_fn elapsed max_duration m) by (intros r Hr; exists n; split_and!; [lia..|done|lia]).
  destruct (send_fn n) as [[a|]|e] eqn:Es; [|case_decide as Hd|].
  - left. apply Hhere. unfold settles_with. by rewrite Es.
  - left. apply Hhere. unfold settles_with. by rewrite Es.
  - assert (Hw : waits_at send_fn elapsed max_duration n) by (split; [done|lia]).
    destruct (IH (S n)) as [(last & Hl & Hs & Hm)|Hm]; [left; exists last|right].
    + split; [lia|]. split; [done|]. intros m Hlt. destruct (decide (m = n)) as [->|]; [done|apply Hm; lia].
    + intros m Hlt. destruct (decide (m = n)) as [->|]; [done|apply Hm; lia].
  - left. apply Hhere. unfold settles_with. by rewrite Es.
Qed.

Lemma retry_at_least n : 200 ≤ get_client_retry_interval (Z.of_nat n).
Proof.
  unfold get_client_retry_interval. assert (1 ≤ 2 ^ Z.min (Z.of_nat n) 5); [|lia].
  change 1 with (2 ^ 0). apply Z.pow_le_mono_r; lia.
Qed.

(** Retransmission ends, and its counter stays small.  When each turn takes at least the
    interval it sleeps, the helper ends within [max_duration / 200 + 2] attempts, so its
    32-bit counter does not overflow for any duration below 27 years; it ends
    with the first attempt that fails or has a result, or without one, when an attempt
    is made at or after [max_duration], and not earlier. *)
Theorem retransmit_ends {E A} (send_fn : nat → result E (option A)) elapsed max_duration fuel :
  (∀ n, elapsed n + get_client_retry_interval (Z.of_nat n) ≤ elapsed (S n)) → 0 ≤ elapsed 0%nat →
  0 ≤ max_duration → max_duration < 200 * (Z.of_nat fuel - 1) →
  ∃ last, 200 * Z.of_nat last ≤ max_duration + 200 ∧
    settles_with send_fn elapsed max_duration last (retransmit_with_backoff send_fn elapsed max_duration fuel) ∧
    ∀ m, (m < last)%nat → waits_at send_fn elapsed max_duration m.
Proof.
  intros Hstep H0 Hd Hf.
  assert (Hel : ∀ n, 200 * Z.of_nat n ≤ elapsed n).
  { intros n. induction n as [|n IH]; [lia|]. specialize (Hstep n). pose proof (retry_at_least n). lia. }
  assert (Hbound : ∀ m, waits_at send_fn elapsed max_duration m → 200 * Z.of_nat m < max_duration).
  { intros m [_ Hm]. specialize (Hel m). lia. }
  destruct (retransmit_loop_spec send_fn elapsed max_duration fuel 0) as [(last & Hl & Hs & Hm)|Hm].
  - exists last. split; [|split; [done|intros; apply Hm; lia]].
    destruct last as [|last]; [lia|]. pose proof (Hbound last (Hm last ltac:(lia))). lia.
  - exfalso. pose proof (Hbound (pred fuel) (Hm (pred fuel) ltac:(lia))). lia.
Qed.

(** *** Witnesses *)

Lemma accept_ends_witness :
  let late n := if decide (n < 3)%nat then Err WouldBlock else Ok (V4 1, 40000) in
  accepted_as late (λ n, 100 * Z.of_nat n) 60000
    (accept_connection late (λ n, 100 * Z.of_nat n) 60000 700 (mkKernel [] [])).2.
Proof.
  intros late. pose proof (accept_ends late (λ n, 100 * Z.of_nat n) 60000 [] 700) as Ha.
  destruct (accept_connection _ _ _ _ _) as [k r].
  apply Ha; [intros; lia|lia|lia|lia].
Defined.

Lemma retransmit_ends_witness :
  ∃ last, 200 * Z.of_nat last ≤ 1000 + 200 ∧
    settles_with (λ n, if decide (n = 2%nat) then Ok (Some "hi"%string) else Ok None : result () _) (λ n, 6400 * Z.of_nat n) 1000 last
      (retransmit_with_backoff (λ n, if decide (n = 2%nat) then Ok (Some "hi"%string) else Ok None : result () _)
         (λ n, 6400 * Z.of_nat n) 1000 10).
Proof.
  destruct (retransmit_ends (λ n, if decide (n = 2%nat) then Ok (Some "hi"%string) else Ok None : result () _)
    (λ n, 6400 * Z.of_nat n) 1000 10) as (last & H1 & H2 & _).
  - intros n. unfold get_client_retry_interval.
    assert (2 ^ Z.min (Z.of_nat n) 5 ≤ 2 ^ 5) by (apply Z.pow_le_mono_r; lia). change (2 ^ 5) with 32 in *. lia.
  - lia.
  - lia.
  - lia.
  - exists last. split; [exact H1|exact H2].
Defined.
