(* ===== verification/Session.v ===== *)
(** * The daemon's state and an authentication session: [tapauthd/src/auth_handler.rs]

    [DaemonState] (loading and reloading), and [AuthSession::handle_authenticate]:
    the checks before an attempt, the request packet, the transports run in
    parallel, and the answer.  The transport tasks are run to their end with this
    session's packet, keys, challenge and servers; the session sees their completions
    and the cancel channel in the order of time, ties as [select!] resolves them, up
    to its deadline.  What the session does to the transports is logged as effects. *)

From stdpp Require Import base gmap strings list sorting.
From S2P Require Import Prelude Os Text Crypto Protocol Config PairingUrl Network Auth PeerIdentity Ble Ipc.

(** ** The daemon's state *)

Record DaemonState := mkDaemonState {
  ds_config_manager : ClientConfigManager;
  ds_paired_servers : gmap string PairedServer;
  ds_keypair : option Ed25519KeyPair;
  ds_csk : option ClientSymmetricKey;
  ds_hostname : string;
  ds_init_error : option string;
}.

Definition is_healthy (d : DaemonState) : bool :=
  bool_decide (is_Some (ds_keypair d)) && bool_decide (is_Some (ds_csk d)).

Definition get_init_error (d : DaemonState) : option string := ds_init_error d.

Section daemon_state.
Context `{C : CryptoOps} `{T : Toml} `{TT : TpmTools}.
Context `{JC : !Json ClientConfig} `{JS : !Json (gmap string PairedServer)}.
Context (feature_tpm : bool).
(** [Display] of errors, text produced by [thiserror] and the libraries. *)
Context (show_config_error : ConfigError → string).

Definition keypair_error (e : ConfigError) : string :=
  ("Failed to load keypair: " +:+ show_config_error e +:+ ". Please open tapauth-config GUI to regenerate keys.")%string.
Definition csk_error (e : ConfigError) : string :=
  ("Failed to load CSK: " +:+ show_config_error e +:+ ". Please open tapauth-config GUI to configure keys.")%string.

Definition daemon_new : M World AuthHandlerError DaemonState :=
  let m := new_manager in
  kp ← attempt (load_keypair feature_tpm m);
  let '(keypair, init_error) :=
    match kp with
    | Ok kp => (Some kp, None)
    | Err e => (None, Some (keypair_error e))
    end in
  c ← attempt (load_csk m);
  let '(csk, init_error) :=
    match c with
    | Ok csk => (Some csk, init_error)
    | Err e =>
        (None, match init_error with
               | Some prev => Some (prev +:+ "; " +:+ csk_error e)%string
               | None => Some (csk_error e)
               end)
    end in
  paired_servers ← mapM_err AE_Config (load_paired_servers m);
  config ← mapM_err AE_Config (load_config m);
  mret (mkDaemonState m paired_servers keypair csk (hostname config) init_error).

(** A value that fails to load keeps its previous value. *)
Definition reload (d : DaemonState) : M World AuthHandlerError DaemonState :=
  let m := ds_config_manager d in
  kp ← attempt (load_keypair feature_tpm m);
  let keypair := match kp with Ok kp => Some kp | Err _ => ds_keypair d end in
  c ← attempt (load_csk m);
  let csk := match c with Ok csk => Some csk | Err _ => ds_csk d end in
  s ← attempt (load_paired_servers m);
  let servers := match s with Ok s => s | Err _ => ds_paired_servers d end in
  cfg ← attempt (load_config m);
  let config := match cfg with Ok c => c | Err _ => mkClientConfig (ds_hostname d) end in
  let missing :=
    match keypair, csk with
    | Some _, Some _ => None
    | None, Some _ => Some "Keypair"%string
    | Some _, None => Some "CSK"%string
    | None, None => Some "Keypair and CSK"%string
    end in
  mret (mkDaemonState m servers keypair csk (hostname config)
    ((λ s, s +:+ " unavailable after reload. Use tapauth-config to regenerate keys.")%string <$> missing)).
End daemon_state.

(** ** Sessions *)

Record TransportsEnabled := mkTransportsEnabled { te_network : bool; te_ble : bool }.

Definition transports_any (t : TransportsEnabled) : bool := te_network t || te_ble t.

Record AuthSession := mkAuthSession {
  as_state : DaemonState;
  as_username : string;
  as_challenge : bytes;
}.

(** What the session does besides answering. *)
Inductive AuthEffect :=
| EOpenFirewall (port : Z)
| EDropFirewallGuard (port : Z)       (* what that does: [Firewall] *)
| ESpawnUdp (p : EncryptedPacket)
| ESpawnBle (p : EncryptedPacket)
| EAbortUdp
| EAbortBle
| EUdpCancel (p : EncryptedPacket)
| EBleCancel (p : EncryptedPacket)
| EBleFinalize.

(** The operating system, the cancel registry (request id to the session's end of
    the cancel channel) and the log. *)
Record SessionWorld := mkSessionWorld {
  sw_world : World;
  sw_registry : gmap string Z;
  sw_next : Z;
  sw_log : list AuthEffect;
}.

Definition sw_os {E A} (f : E → AuthHandlerError) (k : M World E A) : M SessionWorld AuthHandlerError A := λ s,
  let '(w, r) := k (sw_world s) in
  (mkSessionWorld w (sw_registry s) (sw_next s) (sw_log s), map_err f r).
Definition effect {E} (e : AuthEffect) : M SessionWorld E () :=
  modify (λ s, mkSessionWorld (sw_world s) (sw_registry s) (sw_next s) (sw_log s ++ [e])).
Definition when {S E} (b : bool) (m : M S E ()) : M S E () := if b then m else mret ().

(** How a spawned task ended. *)
Inductive Join :=
| Joined (r : result AuthHandlerError ())
| Panicked.

(** What [select!] observes: a task finished, or the cancel channel fired (a cancel
    request, or its sender was dropped). *)
Inductive AuthEvent :=
| BleDone (j : Join)
| UdpDone (j : Join)
| CancelFired.

(** How waiting ended: with a result, by the timeout, or, where the exchange runs
    inside the session, by a panic that takes the session with it. *)
Inductive Awaited :=
| Finished (r : result AuthHandlerError ())
| Expired
| Unwound.

(** What a spawned task meets besides its transport. *)
Record TaskEnv := mkTaskEnv {
  tk_entropy : bytes;            (* the random bytes it will draw *)
  tk_panic : option Z;           (* when it panics, should it last so long *)
}.

(** The surroundings of one session.  Times are those of the monotonic clock. *)
Record SessionEnv := mkSessionEnv {
  se_firewall : option bool;     (* [FirewallGuard::new] succeeds; [None]: it never returns *)
  se_socket : Udp;               (* the daemon's socket, with the datagrams this session reads *)
  se_bluez : Bluez;
  se_bluez_delay : option Z;     (* how long [BleTransport::new] takes; [None]: for ever *)
  se_devices : list (Z * GattEvent);   (* what Bluetooth devices around do *)
  se_grace : Z;                  (* grace period of the Bluetooth clean-up *)
  se_udp_task : TaskEnv;
  se_ble_task : TaskEnv;
  se_cancel : option Z;          (* when a cancel for this request is handled *)
  se_rank : AuthEvent → Z;       (* which branch [select!] takes when several are ready *)
}.

(** The order in which [select!] sees what happened. *)
Definition seen_before (rank : AuthEvent → Z) (a b : Z * AuthEvent) : Prop :=
  a.1 < b.1 ∨ (a.1 = b.1 ∧ rank a.2 ≤ rank b.2).
#[global] Instance seen_before_dec rank a b : Decision (seen_before rank a b).
Proof. unfold seen_before. apply _. Defined.

Section session.
Context `{C : CryptoOps} `{H : Hex} `{T : Toml} `{KW : !Codec WrapperMessage} `{KE : !Codec EncryptedPacket}.
Context (feature_ble : bool).
Context (show_auth_error : AuthHandlerError → string).

Definition transports_from_config : M SessionWorld AuthHandlerError TransportsEnabled :=
  config ← sw_os AE_Config tapauth_config_load;
  mret (mkTransportsEnabled (enable_network config) (feature_ble && enable_ble config)).

Definition session_new (state : DaemonState) (username : string) : M World () AuthSession :=
  challenge ← getrandom_fill 32;
  mret (mkAuthSession state username challenge).

Definition create_cancel_packet (keypair : Ed25519KeyPair) (csk : ClientSymmetricKey) (challenge : bytes)
    : M SessionWorld AuthHandlerError EncryptedPacket :=
  msg ← lift (map_err AE_Protocol (create_auth_cancel challenge));
  wrapper ← lift (map_err AE_Protocol (sign_wrapper_message (wrap_auth_cancel msg) keypair));
  sw_os AE_Protocol (create_encrypted_packet_with_csk_nonce csk wrapper).

Definition register_cancel_handler (request_id : string) : M SessionWorld AuthHandlerError () :=
  modify (λ s, mkSessionWorld (sw_world s) (<[request_id := sw_next s]> (sw_registry s)) (sw_next s + 1) (sw_log s)).

(** Both BLE effects happen in one background task. *)
Definition multicast_cancel_on_success (network ble : bool) (p : EncryptedPacket) : M SessionWorld AuthHandlerError () :=
  _ ← when ble (_ ← effect (EBleCancel p); effect EBleFinalize);
  when network (effect (EUdpCancel p)).

Definition cleanup_transports (network ble : bool) (p : EncryptedPacket) : M SessionWorld AuthHandlerError () :=
  _ ← when ble (effect EBleFinalize);
  when network (effect (EUdpCancel p)).

(** The packets get 100 ms to leave; the session may run into its deadline meanwhile,
    and then aborts nothing. *)
Definition handle_cancellation (deadline now : Z) (network ble : bool) (p : EncryptedPacket)
    : M SessionWorld AuthHandlerError Awaited :=
  _ ← when network (effect (EUdpCancel p));
  _ ← when ble (effect EBleFinalize);
  if decide (deadline < now + 100) then mret Expired else
  _ ← effect EAbortBle;
  _ ← effect EAbortUdp;
  mret (Finished (Err AE_Denied)).

(** A task that already failed is not polled again.  [tokio::time::timeout] polls the
    session before its timer, so what happens at the very deadline still counts. *)
Fixpoint await_auth_result (ble_failed udp_failed network ble : bool) (p : EncryptedPacket) (deadline : Z)
    (events : list (Z * AuthEvent)) : M SessionWorld AuthHandlerError Awaited :=
  if ble_failed && udp_failed then mret (Finished (Err AE_Denied)) else
  match events with
  | [] => mret Expired
  | (now, ev) :: es =>
      if decide (deadline < now) then mret Expired else
      match ev with
      | BleDone j =>
          if ble_failed then await_auth_result ble_failed udp_failed network ble p deadline es else
          match j with
          | Joined (Ok _) =>
              _ ← effect EAbortUdp;
              _ ← multicast_cancel_on_success network ble p;
              mret (Finished (Ok ()))
          | Joined (Err AE_ExplicitDenial) =>
              _ ← effect EAbortUdp;
              _ ← cleanup_transports network ble p;
              mret (Finished (Err AE_ExplicitDenial))
          | _ => await_auth_result true udp_failed network ble p deadline es
          end
      | UdpDone j =>
          if udp_failed then await_auth_result ble_failed udp_failed network ble p deadline es else
          match j with
          | Joined (Ok _) =>
              _ ← effect EAbortBle;
              _ ← multicast_cancel_on_success network ble p;
              mret (Finished (Ok ()))
          | Joined (Err AE_ExplicitDenial) =>
              _ ← effect EAbortBle;
              _ ← cleanup_transports network ble p;
              mret (Finished (Err AE_ExplicitDenial))
          | _ => await_auth_result ble_failed true network ble p deadline es
          end
      | CancelFired => handle_cancellation deadline now network ble p
      end
  end.

(** The socket with the configured port, and the Bluetooth transport when it is switched
    on and BlueZ lets itself be set up; the time this is done.  [None]: never. *)
Definition initialize_transports (env : SessionEnv) (now : Z) (transports : TransportsEnabled) (temporal_id : bytes)
    (keypair : Ed25519KeyPair) (csk : ClientSymmetricKey) (challenge : bytes)
    : M SessionWorld AuthHandlerError (option (Z * UdpTransport * option BleTransport)) :=
  toml_config ← sw_os AE_Config tapauth_config_load;
  let udp_transport := mkUdpTransport (se_socket env) (udp_port toml_config) in
  mret (if te_ble transports
        then (λ delay, (now + delay, udp_transport,
                ok (ble_new (se_bluez env) temporal_id csk keypair challenge (se_devices env)))) <$> se_bluez_delay env
        else Some (now, udp_transport, None)).

(** A task over a transport, from its start to its end: when it ends, and how.  [None]:
    the fuel ran out. *)
Definition run_task {Tr} `{TR : !Transport Tr} (fuel : nat) (tk : TaskEnv) (w : World) (transport : Tr)
    (packet : EncryptedPacket) (csk : ClientSymmetricKey) (keypair : Ed25519KeyPair) (challenge : bytes)
    (servers : gmap string PairedServer) : option (Z * Join) :=
  let '(e, r) := authenticate_with_transport fuel packet csk keypair challenge servers
                   (mkEnv (set_entropy (tk_entropy tk) w) transport ∅ []) in
  let ends := w_clock (e_world e) in
  match r with
  | Ok None => None
  | Ok (Some _) => Some (ends, Joined (Ok ()))
  | Err er => Some (ends, Joined (Err er))
  end ≫= λ done,
  match tk_panic tk with
  | Some t => Some (if decide (t ≤ ends) then (t, Panicked) else done)
  | None => Some done
  end.

(** Enough steps for every datagram, or everything devices do, and for the two minutes
    an attempt lasts at most. *)
Definition udp_fuel (t : UdpTransport) : nat := length (u_inbox (ut_socket t)) + 601.
Definition ble_fuel (b : BleTransport) : nat := length (bt_future b) + length (bt_response_queue b) + 601.

(** One task per transport, each with this session's packet, keys, challenge and with all
    paired servers; a transport that is off gets one that fails at once.  The result is
    what their handles will yield, and when. *)
Definition spawn_auth_tasks (env : SessionEnv) (now : Z) (s : AuthSession) (keypair : Ed25519KeyPair)
    (csk : ClientSymmetricKey) (network : bool) (ble : option BleTransport) (udp : UdpTransport)
    (packet : EncryptedPacket) : M SessionWorld AuthHandlerError (list (Z * AuthEvent)) :=
  w ← gets (λ sw, set_clock now (sw_world sw));
  let servers := ds_paired_servers (as_state s) in
  let disabled := Some (now, Joined (Err AE_TransportDisabled)) in
  ble_handle ←
    match ble with
    | Some ble =>
        _ ← effect (ESpawnBle packet);
        mret (run_task (TR := ble_transport (se_grace env)) (ble_fuel ble) (se_ble_task env) w ble
                packet csk keypair (as_challenge s) servers)
    | None => mret disabled
    end;
  udp_handle ←
    (if network
     then _ ← effect (ESpawnUdp packet);
          mret (run_task (udp_fuel udp) (se_udp_task env) w udp
                  packet csk keypair (as_challenge s) servers)
     else mret disabled);
  mret (option_list (prod_map id BleDone <$> ble_handle) ++ option_list (prod_map id UdpDone <$> udp_handle)).

(** A cancel that is handled before the session has registered finds nobody. *)
Definition cancel_event (now : Z) (cancelled : option Z) : list (Z * AuthEvent) :=
  match cancelled with
  | Some t => if decide (now ≤ t) then [(t, CancelFired)] else []
  | None => []
  end.

Definition try_parallel_authentication (env : SessionEnv) (deadline : Z) (s : AuthSession) (transports : TransportsEnabled)
    (keypair : Ed25519KeyPair) (csk : ClientSymmetricKey) (request_id : string) (packet : EncryptedPacket)
    : M SessionWorld AuthHandlerError Awaited :=
  temporal_id ← sw_os AE_Crypto (generate_current_temporal_identifier_ble csk);
  start ← gets (λ sw, w_clock (sw_world sw));
  initialized ← initialize_transports env start transports temporal_id keypair csk (as_challenge s);
  match initialized with
  | None => mret Expired
  | Some (now, udp, ble) =>
      if decide (deadline < now) then mret Expired else
      _ ← register_cancel_handler request_id;
      cancel_packet ← create_cancel_packet keypair csk (as_challenge s);
      handles ← spawn_auth_tasks env now s keypair csk (te_network transports) ble udp packet;
      await_auth_result false false (te_network transports) (bool_decide (is_Some ble)) cancel_packet deadline
        (merge_sort (seen_before (se_rank env)) (handles ++ cancel_event now (se_cancel env)))
  end.

(** Without the [ble] feature the UDP exchange runs inside the session, and nothing
    listens for a cancel. *)
Definition try_udp_authentication (env : SessionEnv) (deadline : Z) (s : AuthSession)
    (keypair : Ed25519KeyPair) (csk : ClientSymmetricKey) (packet : EncryptedPacket)
    : M SessionWorld AuthHandlerError Awaited :=
  toml_config ← sw_os AE_Config tapauth_config_load;
  w ← gets sw_world;
  let transport := mkUdpTransport (se_socket env) (udp_port toml_config) in
  _ ← effect (ESpawnUdp packet);
  mret match run_task (udp_fuel transport) (se_udp_task env) w transport packet csk keypair (as_challenge s)
               (ds_paired_servers (as_state s)) with
       | Some (ends, j) =>
           if decide (deadline < ends) then Expired
           else match j with Joined r => Finished r | Panicked => Unwound end
       | None => Expired
       end.

Definition answer (s : AuthSession) (outcome : Z) (detail : string) : PamAuthenticateResponse :=
  mkPamAuthenticateResponse outcome detail (as_challenge s).

(** [unwrap_or(30)] on the seconds. *)
Definition session_timeout_ms (timeout_seconds : option Z) : Z := default 30 timeout_seconds * 1000.

(** The attempt proper, under [tokio::time::timeout].  [None]: no answer, the session
    has panicked. *)
Definition run_attempt (env : SessionEnv) (timeout_seconds : option Z) (s : AuthSession) (transports : TransportsEnabled)
    (keypair : Ed25519KeyPair) (csk : ClientSymmetricKey) (request_id : string)
    : M SessionWorld AuthHandlerError (option PamAuthenticateResponse) :=
  request ← sw_os AE_Protocol
    (create_auth_request_with_challenge (as_username s) (ds_hostname (as_state s)) (as_challenge s));
  wrapper ← lift (map_err AE_Protocol (sign_wrapper_message (wrap_auth_request request) keypair));
  packet ← sw_os AE_Protocol (create_encrypted_packet_with_csk_nonce csk wrapper);
  start ← gets (λ sw, w_clock (sw_world sw));
  let deadline := start + session_timeout_ms timeout_seconds in
  awaited ← attempt (if feature_ble
    then try_parallel_authentication env deadline s transports keypair csk request_id packet
    else try_udp_authentication env deadline s keypair csk packet);
  match awaited with
  | Ok Unwound => mret None
  | Ok (Finished (Ok _)) =>
      mret (Some (answer s OUTCOME_SUCCESS
        ("Authenticated user " +:+ as_username s +:+ " successfully")%string))
  | Ok (Finished (Err AE_ExplicitDenial)) | Err AE_ExplicitDenial =>
      mret (Some (answer s OUTCOME_DENIED "Authentication explicitly denied by user"))
  | Ok (Finished (Err e)) | Err e =>
      mret (Some (answer s OUTCOME_IGNORE ("Authentication failed: " +:+ show_auth_error e)%string))
  | Ok Expired =>
      cancel ← attempt (create_cancel_packet keypair csk (as_challenge s));
      _ ← (match cancel with
           | Ok p => when (te_network transports) (_ ← sw_os AE_Config tapauth_config_load; effect (EUdpCancel p))
           | Err _ => mret ()
           end);
      mret (Some (answer s OUTCOME_TIMEOUT "Authentication timeout"))
  end.

(** The firewall guard is made before the timeout is armed: where that does not return,
    the session never answers.  A guard that was made is dropped on every way out, a
    panic included. *)
Definition with_firewall {A} (network : bool) (env : SessionEnv) (port : Z)
    (k : M SessionWorld AuthHandlerError (option A)) : M SessionWorld AuthHandlerError (option A) :=
  if negb network then k else
  match se_firewall env with
  | None => mret None
  | Some false => k
  | Some true =>
      _ ← effect (EOpenFirewall port);
      r ← attempt k;
      _ ← effect (EDropFirewallGuard port);
      lift r
  end.

(** The port to open: the socket's, or the configured one when it is unknown. *)
Definition session_port (env : SessionEnv) : M SessionWorld AuthHandlerError Z :=
  match u_local_port (se_socket env) with
  | Some p => mret p
  | None => config ← sw_os AE_Config tapauth_config_load; mret (udp_port config)
  end.

(** [None] stands for a session that will never answer. *)
Definition handle_authenticate (env : SessionEnv) (s : AuthSession) (timeout_seconds : option Z)
    (request_id : string)
    : M SessionWorld AuthHandlerError (option PamAuthenticateResponse) :=
  transports ← transports_from_config;
  if negb (transports_any transports)
  then mret (Some (answer s OUTCOME_IGNORE "All transports (BLE and Local Network) are disabled")) else
  let servers := ds_paired_servers (as_state s) in
  if decide (servers = ∅)
  then mret (Some (answer s OUTCOME_IGNORE "No paired devices configured")) else
  match ds_keypair (as_state s), ds_csk (as_state s) with
  | Some keypair, Some csk =>
      let allowed := filter (λ '(_, srv), is_user_allowed srv (as_username s) = true) (map_to_list servers) in
      if decide (allowed = [])
      then mret (Some (answer s OUTCOME_IGNORE
                  ("No servers authorized for user " +:+ as_username s)%string)) else
      port ← session_port env;
      with_firewall (te_network transports) env port
        (run_attempt env timeout_seconds s transports keypair csk request_id)
  | _, _ =>
      mret (Some (answer s OUTCOME_ERROR
        (default "Keypair unavailable. Please run tapauth-config to regenerate keys."%string
           (get_init_error (as_state s)))))
  end.
End session.
