(* ===== verification/SessionTheorems.v ===== *)
(** * Theorems about authentication sessions

    When a session answers success, that it stays silent when it must not try,
    that a cancel is always heard, what a timeout leaves behind, and that changed
    state on disk reaches the running daemon. *)

From stdpp Require Import base gmap strings list sorting.
From S2P Require Import Prelude Os Text Crypto Concrete Protocol ConcreteCodec Config ConfigFacts.
From S2P Require Import ConcreteConfig PairingUrl Network Auth ConcreteAuth AuthTheorems PeerIdentity Ble BleTheorems.
From S2P Require Import Reception Ipc Session.

(** ** Effects of a computation *)

(** [k] only appends effects satisfying [P] to the log. *)
Definition appends {E A} (P : AuthEffect → Prop) (k : M SessionWorld E A) : Prop :=
  ∀ s, ∃ l, sw_log (k s).1 = sw_log s ++ l ∧ Forall P l.

Section effects.
Context (P : AuthEffect → Prop).

Lemma appends_bind {E A B} (m : M SessionWorld E A) (k : A → M SessionWorld E B) :
  appends P m → (∀ a, appends P (k a)) → appends P (m ≫= k).
Proof.
  intros Hm Hk s. rewrite bind_run. destruct (Hm s) as (l & Hl & HP).
  destruct (m s) as [s1 [a|e]]; simpl in Hl; [|by exists l].
  destruct (Hk a s1) as (l' & Hl' & HP'). exists (l ++ l'). rewrite Hl', Hl, (assoc_L (++)).
  split; [done|]. by apply Forall_app.
Qed.

Lemma appends_silent {E A} (k : M SessionWorld E A) :
  (∀ s, sw_log (k s).1 = sw_log s) → appends P k.
Proof. intros Hk s. exists []. by rewrite Hk, app_nil_r. Qed.

Lemma appends_ret {E A} (a : A) : appends P (mret a : M SessionWorld E A).
Proof. by apply appends_silent. Qed.
Lemma appends_lift {E A} (r : result E A) : appends P (lift r).
Proof. by apply appends_silent. Qed.
Lemma appends_os {E A} f (k : M World E A) : appends P (sw_os f k).
Proof. apply appends_silent. intros s. unfold sw_os. by destruct (k (sw_world s)). Qed.
Lemma appends_effect {E} e : P e → appends P (effect (E := E) e).
Proof. intros He s. exists [e]. split; [done|]. by apply Forall_singleton. Qed.
Lemma appends_when {E} b (m : M SessionWorld E ()) : (b = true → appends P m) → appends P (when b m).
Proof. intros Hm. destruct b; [by apply Hm|apply appends_ret]. Qed.
Lemma appends_attempt {E F A} (m : M SessionWorld E A) : appends P m → appends P (attempt (F := F) m).
Proof. intros Hm s. unfold attempt. destruct (Hm s) as (l & Hl & HP). destruct (m s). by exists l. Qed.
Lemma appends_register id : appends P (register_cancel_handler id).
Proof. by apply appends_silent. Qed.
End effects.

#[export] Hint Resolve appends_bind appends_ret appends_lift appends_os appends_effect appends_when
  appends_attempt appends_register : tapauth.

(** Effects that are not about the firewall. *)
Definition not_firewall (e : AuthEffect) : Prop :=
  match e with EOpenFirewall _ | EDropFirewallGuard _ => False | _ => True end.
(** Effects that do not stop a task. *)
Definition not_abort (e : AuthEffect) : Prop :=
  match e with EAbortUdp | EAbortBle => False | _ => True end.

(** An event that does not settle the session by itself. *)
Definition nondecisive (ev : AuthEvent) : bool :=
  match ev with
  | BleDone (Joined (Ok _)) | UdpDone (Joined (Ok _)) => false
  | BleDone (Joined (Err AE_ExplicitDenial)) | UdpDone (Joined (Err AE_ExplicitDenial)) => false
  | CancelFired => false
  | _ => true
  end.
Definition is_ble (ev : AuthEvent) : bool := match ev with BleDone _ => true | _ => false end.
Definition is_udp (ev : AuthEvent) : bool := match ev with UdpDone _ => true | _ => false end.

Ltac appends_tac :=
  repeat first
    [ apply appends_bind; [|intros ?] | apply appends_ret | apply appends_lift | apply appends_os
    | apply appends_register | apply appends_attempt | apply appends_when; intros _
    | apply appends_effect; exact I ].

(** ** The clock of a computation *)

(** [k] leaves the clock alone. *)
Definition timeless {E A} (k : M SessionWorld E A) : Prop :=
  ∀ s, w_clock (sw_world (k s).1) = w_clock (sw_world s).

Lemma timeless_bind {E A B} (m : M SessionWorld E A) (k : A → M SessionWorld E B) :
  timeless m → (∀ a, timeless (k a)) → timeless (m ≫= k).
Proof.
  intros Hm Hk s. rewrite bind_run. specialize (Hm s). destruct (m s) as [s1 [a|e]]; simpl in *; [|done].
  by rewrite Hk.
Qed.
Lemma timeless_ret {E A} (a : A) : timeless (mret a : M SessionWorld E A).
Proof. done. Qed.
Lemma timeless_lift {E A} (r : result E A) : timeless (lift r).
Proof. done. Qed.
Lemma timeless_effect {E} e : timeless (effect (E := E) e).
Proof. done. Qed.
Lemma timeless_os {E A} f (k : M World E A) : (∀ w, w_clock (k w).1 = w_clock w) → timeless (sw_os f k).
Proof. intros Hk s. unfold sw_os. specialize (Hk (sw_world s)). by destruct (k (sw_world s)). Qed.
Lemma timeless_run {E A} (k : M SessionWorld E A) s s' r :
  timeless k → k s = (s', r) → w_clock (sw_world s') = w_clock (sw_world s).
Proof. intros Hk Hr. specialize (Hk s). by rewrite Hr in Hk. Qed.

Lemma load_clock `{T : Toml} {E} w : w_clock (tapauth_config_load (E := E) w).1 = w_clock w.
Proof.
  unfold tapauth_config_load, load_from_path. munfold. unfold fs_read, fs_call, fs_fault.
  destruct (w_faults w) as [|[]]; simpl; by case_all.
Qed.
Lemma packet_clock `{C : CryptoOps} `{KW : !Codec WrapperMessage} csk m w :
  w_clock (create_encrypted_packet_with_csk_nonce csk m w).1 = w_clock w.
Proof.
  destruct (create_encrypted_packet_with_csk_nonce csk m w) as [w' r] eqn:E.
  by apply create_packet_world in E as [en ->].
Qed.
Lemma request_clock u h ch w : w_clock (create_auth_request_with_challenge u h ch w).1 = w_clock w.
Proof. unfold create_auth_request_with_challenge, unix_now. munfold. by case_all. Qed.
Lemma identifier_clock `{C : CryptoOps} csk w : w_clock (generate_current_temporal_identifier_ble csk w).1 = w_clock w.
Proof. unfold generate_current_temporal_identifier_ble, current_time_window, unix_now. munfold. by case_all. Qed.

#[export] Hint Resolve timeless_bind timeless_ret timeless_lift timeless_effect timeless_os
  load_clock packet_clock request_clock identifier_clock : tapauth.

(** ** What a session received *)

(** The packet reached this session by then: in a datagram, or written by a device. *)
Definition received `{KE : !Codec EncryptedPacket} (env : SessionEnv) (by_time : Z) (p : EncryptedPacket) : Prop :=
  in_datagram (u_inbox (se_socket env)) by_time p ∨ in_write (se_devices env) by_time p.

Lemma received_later `{KE : !Codec EncryptedPacket} env t t' p : t ≤ t' → received env t p → received env t' p.
Proof.
  intros Hle [(a & data & addr & Hin & He & Hd & Ha)|(x & addr & value & Hin & Hd & Hx)]; [left|right].
  - exists a, data, addr. repeat split; [done..|lia].
  - exists x, addr, value. repeat split; [done..|lia].
Qed.

Section session.
Context `{C : CryptoOps} `{H : Hex} `{T : Toml} `{KW : !Codec WrapperMessage} `{KE : !Codec EncryptedPacket}.
Context (feature_ble : bool) (show_auth_error : AuthHandlerError → string).

Lemma await_nondecisive bf uf net ble p deadline pre rest :
  Forall (λ ev, ev.1 ≤ deadline ∧ nondecisive ev.2 = true) pre →
  (bf || existsb (is_ble ∘ snd) pre) && (uf || existsb (is_udp ∘ snd) pre) = false →
  await_auth_result bf uf net ble p deadline (pre ++ rest)
  = await_auth_result (bf || existsb (is_ble ∘ snd) pre) (uf || existsb (is_udp ∘ snd) pre) net ble p deadline rest.
Proof.
  intros Hpre. revert bf uf. induction Hpre as [|[t ev] pre [Ht Hev] Hpre IH]; intros bf uf Hand; simpl in *.
  - by rewrite !orb_false_r.
  - assert (Hbu : bf && uf = false).
    { by destruct bf, uf. }
    rewrite Hbu, decide_False by lia. destruct ev as [j|j|]; [..|done].
    + destruct bf; [by apply IH|]. cbn in Hand |- *.
      destruct j as [[[]|[]]|]; try done; by apply (IH true uf).
    + destruct uf; [by rewrite IH|]. cbn in Hand |- *.
      destruct j as [[[]|[]]|]; try done; by apply (IH bf true).
Qed.

(** Success comes from a task that reported it in time. *)
Definition reported (deadline : Z) (events : list (Z * AuthEvent)) : Prop :=
  ∃ t, t ≤ deadline ∧ ((t, BleDone (Joined (Ok ()))) ∈ events ∨ (t, UdpDone (Joined (Ok ()))) ∈ events).

Lemma await_success bf uf net ble p deadline events s s' :
  await_auth_result bf uf net ble p deadline events s = (s', Ok (Finished (Ok ()))) → reported deadline events.
Proof.
  revert bf uf. induction events as [|[t ev] events IH]; intros bf uf Ha; cbn [await_auth_result] in Ha;
    destruct (bf && uf); try done.
  assert (Hrec : ∀ bf' uf', await_auth_result bf' uf' net ble p deadline events s = (s', Ok (Finished (Ok ()))) →
    reported deadline ((t, ev) :: events)).
  { intros bf' uf' Hr. apply IH in Hr as (x & Hx & Hin). exists x. split; [done|].
    destruct Hin; [left|right]; by apply list_elem_of_further. }
  case_decide; [done|]. destruct ev as [j|j|]; [destruct bf|destruct uf|]; try done; try by eapply Hrec.
  - destruct j as [[[]|[]]|]; try by eapply Hrec.
    + exists t. split; [lia|]. left. apply list_elem_of_here.
    + inv_bind. by munfold.
  - destruct j as [[[]|[]]|]; try by eapply Hrec.
    + exists t. split; [lia|]. right. apply list_elem_of_here.
    + inv_bind. by munfold.
  - unfold handle_cancellation in Ha. inv_bind. case_decide; [done|]. inv_bind. by munfold.
Qed.

(** A task reports success when its attempt succeeded, at that time. *)
Lemma run_task_success {Tr} `{TR : !Transport Tr} fuel tk w (tr : Tr) packet csk kp ch servers t :
  run_task fuel tk w tr packet csk kp ch servers = Some (t, Joined (Ok ())) →
  ∃ e', authenticate_with_transport fuel packet csk kp ch servers (mkEnv (set_entropy (tk_entropy tk) w) tr ∅ [])
    = (e', Ok (Some ())) ∧ w_clock (e_world e') = t.
Proof.
  unfold run_task. destruct (authenticate_with_transport _ _ _ _ _ _ _) as [e' [[[]|]|er]]; simpl; [|done|];
    destruct (tk_panic tk); [case_decide| |case_decide|]; intros; simplify_eq; by eexists.
Qed.

Lemma spawn_granted env now s kp csk net ble udp packet sw sw' handles t :
  spawn_auth_tasks env now s kp csk net ble udp packet sw = (sw', Ok handles) →
  u_inbox (ut_socket udp) = u_inbox (se_socket env) →
  (∀ b, ble = Some b → bt_response_queue b = [] ∧ bt_future b = se_devices env) →
  (t, BleDone (Joined (Ok ()))) ∈ handles ∨ (t, UdpDone (Joined (Ok ()))) ∈ handles →
  granted (received env t) csk (as_challenge s) (ds_paired_servers (as_state s)).
Proof.
  intros Hs Hu Hb Hin. unfold spawn_auth_tasks, gets in Hs. rewrite bind_run in Hs.
  set (w := set_clock now (sw_world sw)) in *. inv_bind. unfold mret, M_ret in Hs. simplify_eq.
  assert (Hble : a = Some (t, Joined (Ok ())) ∨ a0 = Some (t, Joined (Ok ()))).
  { destruct Hin as [Hin|Hin]; apply elem_of_app in Hin as [Hin|Hin]; destruct a as [[ta ja]|], a0 as [[tu ju]|];
      simpl in Hin; try (by apply elem_of_nil in Hin); apply list_elem_of_singleton in Hin; simplify_eq; auto. }
  destruct Hble as [->| ->].
  - destruct ble as [b|]; [|by munfold]. inv_bind. unfold mret, M_ret in Hrun. injection Hrun as _ Hrun.
    destruct (Hb b eq_refl) as [Hq Hf]. apply run_task_success in Hrun as (e' & Ha & <-).
    eapply granted_weaken; [intros p Hp; right; exact Hp|].
    by eapply ble_attempt_received in Ha.
  - destruct net; [|by munfold]. inv_bind. unfold mret, M_ret in Hrun0. injection Hrun0 as _ Hrun0.
    apply run_task_success in Hrun0 as (e' & Ha & <-). apply udp_attempt_received in Ha. simpl in Ha. rewrite Hu in Ha.
    eapply granted_weaken, Ha. intros p Hp. by left.
Qed.

Lemma ble_new_fresh z tid csk kp ch devices b :
  ble_new z tid csk kp ch devices = Ok b → bt_response_queue b = [] ∧ bt_future b = devices.
Proof. unfold ble_new. intros Hb. munfold. case_all. Qed.

Lemma initialize_spec env now tr tid kp csk ch sw sw' r :
  initialize_transports env now tr tid kp csk ch sw = (sw', Ok r) →
  sw_log sw' = sw_log sw ∧ w_clock (sw_world sw') = w_clock (sw_world sw) ∧
  match r with
  | None => te_ble tr = true ∧ se_bluez_delay env = None
  | Some (t, udp, ble) => ut_socket udp = se_socket env ∧
      if te_ble tr
      then ∃ d, se_bluez_delay env = Some d ∧ t = now + d ∧
             ble = ok (ble_new (se_bluez env) tid csk kp ch (se_devices env))
      else t = now ∧ ble = None
  end.
Proof.
  unfold initialize_transports. intros Hi. inv_bind. unfold mret, M_ret in Hi.
  pose proof (timeless_run _ _ _ _ (timeless_os _ _ load_clock) Hrun) as Hc. unfold sw_os in Hrun.
  destruct (tapauth_config_load _) as [w r']. simplify_eq/=. split; [done|]. split; [done|].
  destruct (te_ble tr); [destruct (se_bluez_delay env)|]; simpl; by eauto.
Qed.

Lemma try_parallel_granted env dl s tr kp csk rid pk sw sw' :
  try_parallel_authentication env dl s tr kp csk rid pk sw = (sw', Ok (Finished (Ok ()))) →
  granted (received env dl) csk (as_challenge s) (ds_paired_servers (as_state s)).
Proof.
  unfold try_parallel_authentication. intros Ht. inv_bind. apply initialize_spec in Hrun1 as (_ & _ & Hi).
  destruct a1 as [[[now udp] ble]|]; [|done]. destruct Hi as [Hu Hb]. apply (f_equal u_inbox) in Hu.
  assert (Hfresh : ∀ b, ble = Some b → bt_response_queue b = [] ∧ bt_future b = se_devices env).
  { intros b ->. destruct (te_ble tr); [|by destruct Hb]. destruct Hb as (d & _ & _ & Hb).
    destruct (ble_new _ _ _ _ _ _) as [b'|] eqn:Eb; [|done]. simplify_eq/=. by eapply ble_new_fresh. }
  case_decide; [done|]. inv_bind. apply await_success in Ht as (t & Hle & Hin).
  eapply granted_weaken; [intros p; by apply (received_later env t)|]. eapply spawn_granted; [by eassumption..|].
  destruct Hin as [Hin|Hin]; rewrite merge_sort_Permutation in Hin; apply elem_of_app in Hin as [Hin|Hin]; auto;
    unfold cancel_event in Hin; destruct (se_cancel env); [case_decide| |case_decide|];
    set_solver.
Qed.

Lemma try_udp_granted env dl s kp csk pk sw sw' :
  try_udp_authentication env dl s kp csk pk sw = (sw', Ok (Finished (Ok ()))) →
  granted (received env dl) csk (as_challenge s) (ds_paired_servers (as_state s)).
Proof.
  unfold try_udp_authentication. intros Ht. inv_bind. unfold mret, M_ret in Ht. simplify_eq.
  destruct (run_task _ _ _ _ _ _ _ _ _) as [[t [[[]|]|]]|] eqn:Er; try done; try (case_decide; done).
  case_decide; [done|]. apply run_task_success in Er as (e' & Ha & <-). apply udp_attempt_received in Ha.
  eapply granted_weaken, Ha. intros p Hp. eapply received_later; [|by left]. lia.
Qed.

(** The deadline of an attempt that begins in [sw]. *)
Definition session_deadline (sw : SessionWorld) (to : option Z) : Z := w_clock (sw_world sw) + session_timeout_ms to.

Lemma run_attempt_granted env to s tr kp csk rid sw sw' resp :
  run_attempt feature_ble show_auth_error env to s tr kp csk rid sw = (sw', Ok (Some resp)) →
  resp_outcome resp = OUTCOME_SUCCESS →
  granted (received env (session_deadline sw to)) csk (as_challenge s) (ds_paired_servers (as_state s)).
Proof.
  unfold run_attempt. intros Hr Ho. inv_bind.
  apply timeless_run in Hrun; [|auto with tapauth]. apply timeless_run in Hrun0; [|auto with tapauth].
  apply timeless_run in Hrun1; [|auto with tapauth]. unfold gets in Hrun2. simplify_eq.
  unfold session_deadline. rewrite <-Hrun, <-Hrun0, <-Hrun1.
  unfold attempt in Hrun3. destruct (_ s3) as [sx rx] eqn:Et in Hrun3. simplify_eq.
  destruct a3 as [[[[]|er]| |]|er].
  - destruct feature_ble; [by eapply try_parallel_granted|by eapply try_udp_granted].
  - destruct er; munfold; by simplify_eq.
  - inv_bind. unfold mret, M_ret in Hr. by simplify_eq.
  - by munfold.
  - destruct er; munfold; by simplify_eq.
Qed.
End session.

(** A user some paired server may authenticate. *)
Definition user_authorized (servers : gmap string PairedServer) (u : string) : Prop :=
  ∃ id srv, servers !! id = Some srv ∧ is_user_allowed srv u = true.

Lemma allowed_nonempty (servers : gmap string PairedServer) u :
  filter (λ '(_, srv), is_user_allowed srv u = true) (map_to_list servers) ≠ [] ↔ user_authorized servers u.
Proof.
  split.
  - intros Hne. destruct (filter _ _) as [|[id srv] l] eqn:E; [done|]. exists id, srv.
    assert (Hin : (id, srv) ∈ filter (λ '(_, srv), is_user_allowed srv u = true) (map_to_list servers))
      by (rewrite E; apply list_elem_of_here).
    apply list_elem_of_filter in Hin as [Hu Hin]. by apply elem_of_map_to_list in Hin.
  - intros (id & srv & Hs & Hu) E.
    assert (Hin : (id, srv) ∈ filter (λ '(_, srv), is_user_allowed srv u = true) (map_to_list servers)).
    { apply list_elem_of_filter. by rewrite elem_of_map_to_list. }
    rewrite E in Hin. by apply elem_of_nil in Hin.
Qed.

(** The whole session by its checks. *)
Lemma handle_authenticate_granted `{C : CryptoOps} `{H : Hex} `{T : Toml} `{KW : !Codec WrapperMessage}
    `{KE : !Codec EncryptedPacket} fb show env s to rid sw sw' resp :
  handle_authenticate fb show env s to rid sw = (sw', Ok (Some resp)) → resp_outcome resp = OUTCOME_SUCCESS →
  ∃ csk, ds_csk (as_state s) = Some csk ∧
    user_authorized (ds_paired_servers (as_state s)) (as_username s) ∧
    granted (received env (session_deadline sw to)) csk (as_challenge s) (ds_paired_servers (as_state s)).
Proof.
  unfold handle_authenticate. intros Hh Ho. inv_bind.
  apply timeless_run in Hrun; [|unfold transports_from_config; eauto with tapauth].
  destruct (negb _); [by munfold; simplify_eq|]. destruct (decide _); [by munfold; simplify_eq|].
  destruct (ds_keypair (as_state s)) as [kp|], (ds_csk (as_state s)) as [csk|]; try by munfold; simplify_eq.
  destruct (decide _) as [|Ha] in Hh; [by munfold; simplify_eq|]. exists csk.
  split; [done|]. split; [by apply allowed_nonempty|]. inv_bind.
  apply timeless_run in Hrun0; [|unfold session_port; destruct (u_local_port _); eauto with tapauth].
  unfold session_deadline. rewrite <-Hrun, <-Hrun0.
  unfold with_firewall in Hh. destruct (te_network a); simpl in Hh; [|by eapply run_attempt_granted].
  destruct (se_firewall env) as [[]|]; [|by eapply run_attempt_granted|done].
  inv_bind. apply timeless_run in Hrun1; [|apply timeless_effect]. rewrite <-Hrun1. unfold attempt in Hrun2.
  destruct (run_attempt _ _ _ _ _ _ _ _ _ _) as [sx rx] eqn:Er. simplify_eq.
  unfold lift in Hh. simplify_eq. by eapply run_attempt_granted.
Qed.

(** ** Claims *)

(** C4: A session answers success only on a grant it received.  Whatever the build, the
    settings, the faults, the datagrams, the Bluetooth devices and the order of what
    happens: when [handle_authenticate] answers SUCCESS, some paired server is authorised
    for the user, and a packet in a datagram of the daemon's socket, or written by a
    Bluetooth device, that was there before the session's deadline, decrypts under the
    daemon's CSK to a grant for exactly this session's challenge, signed by a paired
    server. *)
Theorem session_success_sound `{C : CryptoOps} `{H : Hex} `{T : Toml} `{KW : !Codec WrapperMessage}
    `{KE : !Codec EncryptedPacket} fb show env s to rid sw sw' resp :
  handle_authenticate fb show env s to rid sw = (sw', Ok (Some resp)) → resp_outcome resp = OUTCOME_SUCCESS →
  ∃ csk, ds_csk (as_state s) = Some csk ∧
    user_authorized (ds_paired_servers (as_state s)) (as_username s) ∧
    granted (received env (session_deadline sw to)) csk (as_challenge s) (ds_paired_servers (as_state s)).
Proof. apply handle_authenticate_granted. Qed.

(** The daemon of an example with two phones, and a session of ann. *)
Definition toy_daemon : DaemonState :=
  mkDaemonState new_manager toy_servers (Some toy_client) (Some toy_csk) "laptop" None.
Definition ann_session : AuthSession := mkAuthSession toy_daemon "ann" toy_challenge.
Definition no_bluez : Bluez := mkBluez (Some "no bus"%string) (Ok []) (λ _, Err EmptyString) (Ok false) None.
Definition toy_session_env (inbox : list Arrival) : SessionEnv :=
  mkSessionEnv (Some true) (toy_udp inbox) no_bluez (Some 5) [] 300 (mkTaskEnv (rep 64 9) None) (mkTaskEnv [] None)
    None (λ _, 0).
Definition granting_env : SessionEnv := toy_session_env [toy_arrival (toy_grant_packet toy_phone)].
Definition toy_session_world : SessionWorld := mkSessionWorld quiet_world ∅ 0 [].
Definition no_text {A} (a : A) : string := "".

Lemma toy_session_result env r :
  (handle_authenticate true no_text env ann_session (Some 30) "r1" toy_session_world).2 = r →
  ∃ sw', handle_authenticate true no_text env ann_session (Some 30) "r1" toy_session_world = (sw', r).
Proof. destruct (handle_authenticate _ _ _ _ _ _) as [sw' r']. intros <-. by exists sw'. Qed.

Lemma toy_session_success :
  (handle_authenticate true no_text granting_env ann_session (Some 30) "r1" toy_session_world).2
  = Ok (Some (answer ann_session OUTCOME_SUCCESS "Authenticated user ann successfully")).
Proof. by vm_compute. Qed.

Lemma session_success_sound_witness : granted (received granting_env 30000) toy_csk toy_challenge toy_servers.
Proof.
  destruct (toy_session_result _ _ toy_session_success) as [sw' Hs].
  destruct (session_success_sound _ _ _ _ _ _ _ _ _ Hs eq_refl) as (csk & Hc & _ & Hg).
  injection Hc as <-. exact Hg.
Defined.

(** C35: No attempt without authorisation.  When nothing is paired, a key is
    missing, or no paired server may authenticate the user, the session is answered
    at once, never with SUCCESS, with the session's challenge; it opens no port,
    sends nothing, starts no task and registers no cancel handler. *)
Theorem refusal_is_quiet `{C : CryptoOps} `{H : Hex} `{T : Toml} `{KW : !Codec WrapperMessage}
    `{KE : !Codec EncryptedPacket} fb show env s to rid sw sw' r :
  ds_paired_servers (as_state s) = ∅ ∨ is_healthy (as_state s) = false ∨
  ¬ user_authorized (ds_paired_servers (as_state s)) (as_username s) →
  handle_authenticate fb show env s to rid sw = (sw', r) →
  sw_log sw' = sw_log sw ∧ sw_registry sw' = sw_registry sw ∧
  ∃ resp, r = Ok (Some resp) ∧ resp_challenge resp = as_challenge s ∧
    (resp_outcome resp = OUTCOME_IGNORE ∨ resp_outcome resp = OUTCOME_ERROR).
Proof.
  intros Hno Hh. unfold handle_authenticate in Hh. rewrite bind_run in Hh.
  assert (∃ w tr, transports_from_config fb sw
    = (mkSessionWorld w (sw_registry sw) (sw_next sw) (sw_log sw), Ok tr)) as (w & tr & Hc).
  { unfold transports_from_config, sw_os, tapauth_config_load, load_from_path. munfold.
    destruct (fs_read _ _) as [w [c|]]; [destruct (from_toml c)|]; by eexists _, _. }
  rewrite Hc in Hh. destruct (negb _); [munfold; simplify_eq; by eauto 10|].
  destruct (decide _) as [|Hne]; [munfold; simplify_eq; by eauto 10|].
  destruct (ds_keypair (as_state s)) as [kp|] eqn:Hk, (ds_csk (as_state s)) as [csk|] eqn:Hcsk;
    try (munfold; simplify_eq; by eauto 10).
  destruct (decide _) as [|Ha] in Hh; [munfold; simplify_eq; by eauto 10|].
  apply allowed_nonempty in Ha. exfalso. destruct Hno as [?|[Hh'|?]]; [done| |done].
  unfold is_healthy in Hh'. by rewrite Hk, Hcsk in Hh'.
Qed.

Lemma eve_unauthorized : ¬ user_authorized toy_servers "eve".
Proof. intros Hu%allowed_nonempty. by apply Hu. Qed.

Lemma refusal_is_quiet_witness :
  let eve := mkAuthSession toy_daemon "eve" toy_challenge in
  ∃ sw' resp, handle_authenticate true no_text granting_env eve
     (Some 30) "r1" toy_session_world = (sw', Ok (Some resp)) ∧ sw_log sw' = [] ∧
    (resp_outcome resp = OUTCOME_IGNORE ∨ resp_outcome resp = OUTCOME_ERROR).
Proof.
  intros eve.
  destruct (handle_authenticate true no_text granting_env eve
     (Some 30) "r1" toy_session_world) as [sw' r] eqn:E.
  destruct (refusal_is_quiet _ _ _ eve _ _ _ _ _ (or_intror (or_intror eve_unauthorized)) E)
    as (Hl & _ & resp & -> & _ & Ho).
  exists sw', resp. split; [done|]. split; [exact Hl|exact Ho].
Defined.

(** A cancel is always heard.  With BLE compiled in, as long as no transport
    has reported success or a refusal and at most one of them has failed (in any
    order and number of observations), a cancel at least 100 ms before the deadline ends
    the wait with [Denied], stops both tasks, and tells the phones when the network is in
    use. *)
Theorem cancel_always_armed net ble p deadline pre now rest s :
  Forall (λ ev, ev.1 ≤ deadline ∧ nondecisive ev.2 = true) pre →
  existsb (is_ble ∘ snd) pre && existsb (is_udp ∘ snd) pre = false → now + 100 ≤ deadline →
  ∃ l, await_auth_result false false net ble p deadline (pre ++ (now, CancelFired) :: rest) s
    = (mkSessionWorld (sw_world s) (sw_registry s) (sw_next s) (sw_log s ++ l), Ok (Finished (Err AE_Denied))) ∧
    EAbortBle ∈ l ∧ EAbortUdp ∈ l ∧ (net = true → EUdpCancel p ∈ l) ∧ (ble = true → EBleFinalize ∈ l).
Proof.
  intros Hpre Hand Hd. rewrite await_nondecisive by done. cbn [await_auth_result orb]. rewrite Hand, decide_False by lia.
  unfold handle_cancellation, when, effect. rewrite decide_False by lia. munfold.
  eexists ((if net then [EUdpCancel p] else []) ++ (if ble then [EBleFinalize] else []) ++ [EAbortBle; EAbortUdp]).
  destruct net, ble; simpl; rewrite <-?(assoc_L (++)); (split; [done|]); set_solver.
Qed.

Lemma cancel_always_armed_witness :
  ∃ l, await_auth_result false false true false (mkEncryptedPacket [] 0 []) 30000
      [(0, BleDone (Joined (Err AE_TransportDisabled))); (700, CancelFired)] toy_session_world
    = (mkSessionWorld quiet_world ∅ 0 l, Ok (Finished (Err AE_Denied))) ∧ EAbortUdp ∈ l.
Proof.
  destruct (cancel_always_armed true false (mkEncryptedPacket [] 0 []) 30000
    [(0, BleDone (Joined (Err AE_TransportDisabled)))] 700 [] toy_session_world) as (l & Hl & _ & Hu & _).
  - repeat constructor. simpl. lia.
  - done.
  - lia.
  - exists l. split; [exact Hl|exact Hu].
Defined.

Section timeout.
Context `{C : CryptoOps} `{H : Hex} `{T : Toml} `{KW : !Codec WrapperMessage} `{KE : !Codec EncryptedPacket}.

(** Before the deadline passed, nothing was stopped; a cancel may have been sent. *)
Lemma await_expired bf uf net ble p deadline events s s' :
  await_auth_result bf uf net ble p deadline events s = (s', Ok Expired) →
  ∃ l, sw_log s' = sw_log s ++ l ∧ EAbortUdp ∉ l ∧ EAbortBle ∉ l.
Proof.
  assert (Hnil : ∃ l, sw_log s = sw_log s ++ l ∧ EAbortUdp ∉ l ∧ EAbortBle ∉ l).
  { exists []. rewrite app_nil_r. set_solver. }
  revert bf uf. induction events as [|[t ev] events IH]; intros bf uf Ha; cbn [await_auth_result] in Ha;
    destruct (bf && uf); try done; [by munfold; simplify_eq|]. case_decide; [by munfold; simplify_eq|].
  destruct ev as [j|j|]; [destruct bf|destruct uf|]; try by eapply IH.
  - destruct j as [[[]|[]]|]; try (by eapply IH); inv_bind; by munfold.
  - destruct j as [[[]|[]]|]; try (by eapply IH); inv_bind; by munfold.
  - unfold handle_cancellation, when, effect in Ha. inv_bind. case_decide; [|by inv_bind; munfold].
    unfold mret, M_ret in Ha. simplify_eq.
    exists ((if net then [EUdpCancel p] else []) ++ if ble then [EBleFinalize] else []).
    destruct net, ble; munfold; simplify_eq/=; rewrite <-?(assoc_L (++)), ?app_nil_r; (split; [done|]); set_solver.
Qed.

Lemma create_cancel_packet_appends P kp csk ch : appends P (create_cancel_packet kp csk ch).
Proof. unfold create_cancel_packet. appends_tac. Qed.

(** A computation that appends nothing leaves the log as it is. *)
Lemma appends_nothing {E A} (k : M SessionWorld E A) s s' r :
  appends (λ _, False) k → k s = (s', r) → sw_log s' = sw_log s.
Proof.
  intros Hk He. destruct (Hk s) as (l & Hl & HP). rewrite He in Hl. simpl in Hl.
  destruct l as [|e l]; [by rewrite app_nil_r in Hl|]. by apply Forall_cons in HP as [[] _].
Qed.

Lemma when_log {E} b e (s s' : SessionWorld) r :
  when b (effect (E := E) e) s = (s', r) → sw_log s' = sw_log s ++ (if b then [e] else []).
Proof. destruct b; unfold when, effect; munfold; intros; simplify_eq; [done|by rewrite app_nil_r]. Qed.

Lemma not_aborted l : Forall not_abort l → EAbortUdp ∉ l ∧ EAbortBle ∉ l.
Proof. rewrite Forall_forall. intros Hl. by split; intros ?%Hl. Qed.

(** What is done after the deadline. *)
Lemma expired_tail {E} net (cancel : result E EncryptedPacket) s s' r :
  match cancel with
  | Ok p => when net (_ ← sw_os AE_Config tapauth_config_load; effect (EUdpCancel p))
  | Err _ => mret ()
  end s = (s', r) → ∃ l, sw_log s' = sw_log s ++ l ∧ EAbortUdp ∉ l ∧ EAbortBle ∉ l.
Proof.
  assert (Ha : appends not_abort match cancel with
    | Ok p => when net (_ ← sw_os AE_Config tapauth_config_load; effect (EUdpCancel p))
    | Err _ => mret () end) by (destruct cancel; appends_tac).
  intros Hr. destruct (Ha s) as (l & Hl & HP). rewrite Hr in Hl. exists l. split; [done|]. by apply not_aborted.
Qed.

Lemma spawn_log env now s kp csk net ble udp pk (sw sw' : SessionWorld) r :
  spawn_auth_tasks env now s kp csk net ble udp pk sw = (sw', r) →
  sw_log sw' = sw_log sw ++ (if ble then [ESpawnBle pk] else []) ++ (if net then [ESpawnUdp pk] else []).
Proof.
  unfold spawn_auth_tasks. destruct ble, net; unfold when, effect; munfold; intros; simplify_eq/=;
    by rewrite <-?(assoc_L (++)), ?app_nil_r.
Qed.

(** Setting up the transports does not outlast the deadline. *)
Definition set_up_by (env : SessionEnv) (tr : TransportsEnabled) (limit : Z) : Prop :=
  te_ble tr = false ∨ ∃ delay, se_bluez_delay env = Some delay ∧ delay ≤ limit.

Lemma try_parallel_expired env dl s tr kp csk rid pk sw sw' :
  try_parallel_authentication env dl s tr kp csk rid pk sw = (sw', Ok Expired) →
  ∃ l, sw_log sw' = sw_log sw ++ l ∧ EAbortUdp ∉ l ∧ EAbortBle ∉ l ∧
    (w_clock (sw_world sw) ≤ dl → set_up_by env tr (dl - w_clock (sw_world sw)) →
       (te_network tr = true → ESpawnUdp pk ∈ l) ∧
       (te_ble tr = true → (∀ tid, is_ok (ble_new (se_bluez env) tid csk kp (as_challenge s) (se_devices env)) = true) →
          ESpawnBle pk ∈ l)).
Proof.
  unfold try_parallel_authentication. intros Ht. inv_bind. apply initialize_spec in Hrun1 as (Hl1 & _ & Hi).
  pose proof (appends_nothing _ _ _ _ (appends_os _ _ _) Hrun) as Hl0.
  apply timeless_run in Hrun; [|auto with tapauth]. unfold gets in Hrun0. injection Hrun0 as <- <-.
  rewrite <-Hl0, <-Hl1. clear Hl0 Hl1. rewrite <-Hrun.
  assert (Hnone : sw' = s2 → ¬ set_up_by env tr (dl - w_clock (sw_world s0)) ∨ dl < w_clock (sw_world s0) →
    ∃ l, sw_log sw' = sw_log s2 ++ l ∧ EAbortUdp ∉ l ∧ EAbortBle ∉ l ∧
    (w_clock (sw_world s0) ≤ dl → set_up_by env tr (dl - w_clock (sw_world s0)) →
       (te_network tr = true → ESpawnUdp pk ∈ l) ∧
       (te_ble tr = true → (∀ tid, is_ok (ble_new (se_bluez env) tid csk kp (as_challenge s) (se_devices env)) = true) →
          ESpawnBle pk ∈ l))).
  { intros -> Hno. exists []. rewrite app_nil_r. split; [done|]. split; [set_solver|]. split; [set_solver|].
    intros Hle Hs. exfalso. destruct Hno; [done|lia]. }
  destruct a1 as [[[now udp] ble]|].
  2:{ destruct Hi as [Hb Hd]. unfold mret, M_ret in Ht. simplify_eq. apply Hnone; [done|]. left.
      intros [?|(d & ? & _)]; congruence. }
  destruct Hi as [Hu Hi]. case_decide as Hdl.
  { unfold mret, M_ret in Ht. simplify_eq. apply Hnone; [done|]. unfold set_up_by.
    destruct (te_ble tr); [|right; lia]. destruct Hi as (d & Hd & -> & _). left. intros [|(d' & Hd' & Hle)]; [done|].
    simplify_eq. lia. }
  inv_bind. apply await_expired in Ht as (l & Hl & Hn1 & Hn2). apply spawn_log in Hrun2.
  rewrite <-(appends_nothing _ _ _ _ (appends_register _ _) Hrun0).
  rewrite <-(appends_nothing _ _ _ _ (create_cancel_packet_appends _ _ _ _) Hrun1).
  rewrite Hl, Hrun2, <-(assoc_L (++)). eexists. split; [done|].
  split; [destruct ble, (te_network tr); set_solver|]. split; [destruct ble, (te_network tr); set_solver|].
  intros _ _. split; [intros ->; destruct ble; set_solver|]. intros Hb Hok. rewrite Hb in Hi.
  destruct Hi as (d & _ & _ & ->). specialize (Hok a). destruct (ble_new _ _ _ _ _ _); [|done]. simpl. set_solver.
Qed.
End timeout.

(** C33: A session that times out stops nothing.  With BLE compiled in, the effects
    of an attempt answered with TIMEOUT do not contain an abort of either transport
    task: a task it started goes on after the answer, listening on the daemon's socket.
    Unless setting up Bluetooth outlasts the deadline, tasks are started for the network
    when it is enabled and for Bluetooth when BlueZ can be used. *)
Theorem timeout_leaves_tasks_running `{C : CryptoOps} `{H : Hex} `{T : Toml} `{KW : !Codec WrapperMessage}
    `{KE : !Codec EncryptedPacket} show env to s tr kp csk rid sw sw' resp :
  run_attempt true show env to s tr kp csk rid sw = (sw', Ok (Some resp)) →
  resp_outcome resp = OUTCOME_TIMEOUT →
  ∃ l, sw_log sw' = sw_log sw ++ l ∧ EAbortUdp ∉ l ∧ EAbortBle ∉ l ∧
    (0 ≤ session_timeout_ms to → set_up_by env tr (session_timeout_ms to) →
       (te_network tr = true → ∃ p, ESpawnUdp p ∈ l) ∧
       (te_ble tr = true → (∀ tid, is_ok (ble_new (se_bluez env) tid csk kp (as_challenge s) (se_devices env)) = true) →
          ∃ p, ESpawnBle p ∈ l)).
Proof.
  intros Hr Ho. unfold run_attempt in Hr. inv_bind. unfold attempt, gets in Hrun2, Hrun3. simplify_eq.
  destruct (try_parallel_authentication _ _ _ _ _ _ _ _ _) as [sx rx] eqn:Et. simplify_eq.
  rewrite <-(appends_nothing _ _ _ _ (appends_os _ _ _) Hrun).
  rewrite <-(appends_nothing _ _ _ _ (appends_lift _ _) Hrun0).
  rewrite <-(appends_nothing _ _ _ _ (appends_os _ _ _) Hrun1).
  destruct a3 as [[[[]|er]| |]|er]; [|destruct er| | |destruct er];
    try (unfold mret, M_ret in Hr; simplify_eq; done).
  apply try_parallel_expired in Et as (l & Hl & Hn1 & Hn2 & Hsp). inv_bind.
  pose proof (appends_nothing _ _ _ _ (appends_attempt _ _ (create_cancel_packet_appends _ _ _ _)) Hrun2) as Hl2.
  apply expired_tail in Hrun3 as (l' & Hl3 & Hn1' & Hn2'). unfold mret, M_ret in Hr. simplify_eq.
  rewrite Hl3, Hl2, Hl, <-!(assoc_L (++)). eexists. split; [done|]. split; [set_solver|]. split; [set_solver|].
  intros Hto Hs. destruct Hsp as [Hu Hb]; [lia|by rewrite Z.add_simpl_l|].
  split; [intros Hn; apply Hu in Hn|intros Hn Hok; specialize (Hb Hn Hok)]; eexists; apply elem_of_app; by left.
Qed.

Lemma timeout_leaves_tasks_running_witness :
  ∃ sw' resp l p, run_attempt true no_text (toy_session_env []) (Some 30) ann_session
      (mkTransportsEnabled true false) toy_client toy_csk "r1" toy_session_world = (sw', Ok (Some resp)) ∧
    sw_log sw' = l ∧ EAbortUdp ∉ l ∧ ESpawnUdp p ∈ l.
Proof.
  destruct (run_attempt true no_text (toy_session_env []) (Some 30) ann_session
      (mkTransportsEnabled true false) toy_client toy_csk "r1" toy_session_world) as [sw' r] eqn:E.
  assert (r = Ok (Some (answer ann_session OUTCOME_TIMEOUT "Authentication timeout"))) as ->.
  { change r with (sw', r).2. rewrite <-E. by vm_compute. }
  destruct (timeout_leaves_tasks_running _ _ _ _ _ _ _ _ _ _ _ E eq_refl) as (l & Hl & Hu & _ & Hs).
  destruct Hs as [Hs _]; [unfold session_timeout_ms; simpl; lia|by left|].
  destruct (Hs eq_refl) as [p Hp].
  exists sw', (answer ann_session OUTCOME_TIMEOUT "Authentication timeout"), l, p.
  split; [reflexivity|]. split; [exact Hl|]. split; assumption.
Defined.

(** A rotation reaches the running daemon.  After [rotate_csk] on a ready
    store with plaintext keys, [reload] gives a daemon that uses the new CSK, has no
    paired server left, and has a key pair whenever it had one before. *)
Theorem rotation_reaches_daemon `{C : CryptoOps} `{T : Toml} `{TT : TpmTools}
    `{JC : !Json ClientConfig} `{JS : !Json (gmap string PairedServer)} ft uid d w :
  ds_config_manager d = new_manager → store_ready new_manager uid w → tpm_mode ft w = false →
  (32 ≤ length (w_entropy w))%nat →
  ∃ w1 csk d', rotate_csk new_manager w = (w1, Ok csk) ∧ csk_bytes csk = take 32 (w_entropy w) ∧
    reload ft d w1 = (w1, Ok d') ∧ ds_csk d' = Some csk ∧ ds_paired_servers d' = ∅ ∧
    (is_Some (ds_keypair d) → is_healthy d' = true).
Proof.
  intros Hm Hr Ht He. destruct (rotate_run new_manager uid w Hr He)
    as (w1 & csk & Hrot & Hb & _ & Hr1 & Hfs & Hcsk & Hsrv).
  assert (Ht1 : tpm_mode ft w1 = false).
  { unfold tpm_mode in *. rewrite (settings_fs w1 w); [done|]. by apply Hfs. }
  destruct (load_keypair_state ft new_manager w1 (sr_quiet _ _ _ Hr1) Ht1) as [rk Hk].
  destruct (load_config_state new_manager w1 (sr_quiet _ _ _ Hr1)) as [rc Hc].
  eexists w1, csk, _. split; [done|]. split; [done|]. unfold reload. rewrite Hm. unfold attempt.
  rewrite bind_run, Hk. rewrite bind_run, Hcsk. rewrite bind_run, Hsrv. rewrite bind_run, Hc.
  split; [done|]. split; [done|]. split; [done|]. intros Hs. unfold is_healthy. simpl.
  rewrite !bool_decide_eq_true_2; [done|by destruct rk].
Qed.

Lemma rotation_reaches_daemon_witness :
  ∃ w1 csk d', rotate_csk new_manager quiet_world = (w1, Ok csk) ∧
    reload true toy_daemon w1 = (w1, Ok d') ∧ ds_csk d' = Some csk ∧ ds_paired_servers d' = ∅.
Proof.
  destruct (rotation_reaches_daemon true 990 toy_daemon quiet_world eq_refl quiet_ready)
    as (w1 & csk & d' & H1 & _ & H2 & H3 & H4 & _); [by vm_compute|vm_compute; lia|].
  exists w1, csk, d'. split; [exact H1|]. split; [exact H2|]. split; [exact H3|exact H4].
Defined.

(** ** When a session is settled *)

Section settles.
Context `{C : CryptoOps} `{H : Hex} `{T : Toml} `{KW : !Codec WrapperMessage} `{KE : !Codec EncryptedPacket}.

(** Both tasks end, whatever they meet: the fuel is enough. *)
Lemma tasks_end env now s kp csk net ble udp pk sw :
  ∃ tb tu sw', spawn_auth_tasks env now s kp csk net ble udp pk sw
    = (sw', Ok [prod_map id BleDone tb; prod_map id UdpDone tu]).
Proof.
  assert (Hrun : ∀ {Tr} (TR : Transport Tr) fuel tk w (tr : Tr) packet servers,
    (∀ e : Env Tr, e_transport e = tr →
       result_of (authenticate_with_transport fuel packet csk kp (as_challenge s) servers) e ≠ Ok None) →
    is_Some (run_task fuel tk w tr packet csk kp (as_challenge s) servers)).
  { intros Tr TR fuel tk w tr packet servers Hne. unfold run_task.
    specialize (Hne (mkEnv (set_entropy (tk_entropy tk) w) tr ∅ []) eq_refl). unfold result_of in Hne.
    destruct (authenticate_with_transport _ _ _ _ _ _ _) as [e' [[[]|]|er]]; simpl in *; [| |]; try done;
      by destruct (tk_panic tk). }
  assert (∃ tb, match ble with
    | Some b => run_task (TR := ble_transport (se_grace env)) (ble_fuel b) (se_ble_task env)
                  (set_clock now (sw_world sw)) b pk csk kp (as_challenge s) (ds_paired_servers (as_state s))
    | None => Some (now, Joined (Err AE_TransportDisabled)) end = Some tb) as [tb Hb].
  { destruct ble as [b|]; [|by eexists]. apply Hrun. intros e He. apply ble_attempt_ends. rewrite He. done. }
  assert (∃ tu, (if net then run_task (udp_fuel udp) (se_udp_task env) (set_clock now (sw_world sw)) udp pk csk kp
      (as_challenge s) (ds_paired_servers (as_state s)) else Some (now, Joined (Err AE_TransportDisabled))) = Some tu)
    as [tu Hu].
  { destruct net; [|by eexists]. apply Hrun. intros e He. apply udp_attempt_ends. rewrite He. done. }
  exists tb, tu. unfold spawn_auth_tasks, effect. munfold.
  destruct ble, net; simpl; rewrite ?Hb, ?Hu; simplify_eq/=; by eexists.
Qed.

Lemma await_appends P bf uf net ble p dl events :
  (∀ e, e ∈ [EAbortUdp; EAbortBle; EUdpCancel p; EBleCancel p; EBleFinalize] → P e) →
  appends P (await_auth_result bf uf net ble p dl events).
Proof.
  intros HP. revert bf uf. induction events as [|[t ev] events IH]; intros bf uf; cbn [await_auth_result];
    destruct (bf && uf); try apply appends_ret. case_decide; [apply appends_ret|].
  assert (He : ∀ E e, e ∈ [EAbortUdp; EAbortBle; EUdpCancel p; EBleCancel p; EBleFinalize] →
    appends P (effect (E := E) e)) by (intros; apply appends_effect; auto).
  destruct ev as [j|j|]; [destruct bf|destruct uf|]; try apply IH; try apply appends_ret.
  all: try (destruct j as [[[]|[]]|]; try apply IH).
  all: unfold handle_cancellation, multicast_cancel_on_success, cleanup_transports.
  all: repeat first [apply appends_bind; [|intros ?] | apply appends_ret | apply appends_when; intros _
    | apply He; set_solver | case_decide].
Qed.

Lemma try_parallel_appends env dl s tr kp csk rid pk :
  appends not_firewall (try_parallel_authentication env dl s tr kp csk rid pk).
Proof.
  unfold try_parallel_authentication, initialize_transports, spawn_auth_tasks.
  repeat first [ apply create_cancel_packet_appends | apply await_appends; set_solver
    | by apply appends_silent | progress appends_tac | case_match ].
Qed.

Lemma run_attempt_appends fb show env to s tr kp csk rid :
  appends not_firewall (run_attempt fb show env to s tr kp csk rid).
Proof.
  unfold run_attempt, try_udp_authentication.
  repeat first [ apply try_parallel_appends | apply create_cancel_packet_appends
    | by apply appends_silent | progress appends_tac | case_match ].
Qed.

Lemma transports_appends P fb : appends P (transports_from_config fb).
Proof. unfold transports_from_config. appends_tac. Qed.

Lemma await_answers bf uf net ble p dl l s s' : await_auth_result bf uf net ble p dl l s ≠ (s', Ok Unwound).
Proof.
  revert bf uf. induction l as [|[t ev] l IH]; intros bf uf; cbn [await_auth_result]; destruct (bf && uf); try done.
  case_decide; [done|]. destruct ev as [j|j|]; [destruct bf|destruct uf|]; try exact (IH _ _).
  1,2: destruct j as [[[]|[]]|]; try exact (IH _ _); intros Et; inv_bind; by munfold.
  unfold handle_cancellation. intros Et. inv_bind. case_decide; [done|]. inv_bind. by munfold.
Qed.

Lemma try_parallel_answers env dl s tr kp csk rid pk sw sw' :
  try_parallel_authentication env dl s tr kp csk rid pk sw ≠ (sw', Ok Unwound).
Proof.
  unfold try_parallel_authentication. intros Et. inv_bind. destruct a1 as [[[now udp] ble]|]; [|done].
  case_decide; [done|]. inv_bind. by eapply await_answers.
Qed.

(** Only a panic inside the session leaves an attempt without an answer. *)
Lemma run_attempt_settles fb show env to s tr kp csk rid sw sw' :
  run_attempt fb show env to s tr kp csk rid sw = (sw', Ok None) → fb = false ∧ is_Some (tk_panic (se_udp_task env)).
Proof.
  unfold run_attempt. intros Hr. inv_bind. unfold attempt in Hrun3.
  destruct (_ s3) as [sx rx] eqn:Et in Hrun3. simplify_eq.
  destruct a3 as [[[[]|er]| |]|er]; [by munfold|by destruct er; munfold|by inv_bind; munfold| |by destruct er; munfold].
  destruct fb.
  - exfalso. by eapply try_parallel_answers.
  - split; [done|]. unfold try_udp_authentication in Et. inv_bind. unfold mret, M_ret in Et. simplify_eq.
    unfold run_task in *. destruct (authenticate_with_transport _ _ _ _ _ _ _) as [e' [[[]|]|er]]; simpl in *;
      destruct (tk_panic (se_udp_task env)); try done; case_all.
Qed.
End settles.

Definition opens (l : list AuthEffect) : nat :=
  length (filter (λ e, match e with EOpenFirewall _ => true | _ => false end = true) l).
Definition drops (l : list AuthEffect) : nat :=
  length (filter (λ e, match e with EDropFirewallGuard _ => true | _ => false end = true) l).

Lemma not_firewall_count l : Forall not_firewall l → opens l = 0%nat ∧ drops l = 0%nat.
Proof.
  induction 1 as [|e l He Hl [IHo IHc]]; [done|]. unfold opens, drops in *.
  destruct e; try done; by rewrite !filter_cons_False.
Qed.

(** When a session answers.  [handle_authenticate] gives an answer or fails, under
    its timeout, and has dropped every firewall guard it made, unless making the guard
    never returns (that is outside the timeout), or, in a build without Bluetooth, the
    exchange panics. *)
Theorem session_settles `{C : CryptoOps} `{H : Hex} `{T : Toml} `{KW : !Codec WrapperMessage}
    `{KE : !Codec EncryptedPacket} fb show env s to rid sw sw' r :
  handle_authenticate fb show env s to rid sw = (sw', r) →
  (r = Ok None → se_firewall env = None ∨ (fb = false ∧ is_Some (tk_panic (se_udp_task env)))) ∧
  ∃ l, sw_log sw' = sw_log sw ++ l ∧ opens l = drops l.
Proof.
  intros Hh. unfold handle_authenticate in Hh. rewrite bind_run in Hh.
  destruct (transports_from_config fb sw) as [s1 rt] eqn:Htr.
  assert (Hl1 : sw_log s1 = sw_log sw) by (eapply appends_nothing, Htr; apply transports_appends).
  rewrite <-Hl1. clear Hl1 Htr.
  assert (Hquick : ∀ x, (s1, x) = (sw', r) → x ≠ Ok None →
    (r = Ok None → se_firewall env = None ∨ (fb = false ∧ is_Some (tk_panic (se_udp_task env)))) ∧
    ∃ l, sw_log sw' = sw_log s1 ++ l ∧ opens l = drops l).
  { intros x Heq Hx. simplify_eq. split; [done|]. exists []. by rewrite app_nil_r. }
  destruct rt as [tr|er]; [|eapply Hquick; [exact Hh|done]].
  destruct (negb _); [eapply Hquick; [exact Hh|done]|]. destruct (decide _); [eapply Hquick; [exact Hh|done]|].
  destruct (ds_keypair (as_state s)) as [kp|], (ds_csk (as_state s)) as [csk|]; try (eapply Hquick; [exact Hh|done]).
  destruct (decide _); [eapply Hquick; [exact Hh|done]|]. rewrite bind_run in Hh.
  destruct (session_port env s1) as [s2 rp] eqn:Hp.
  assert (Hl2 : sw_log s2 = sw_log s1).
  { eapply appends_nothing, Hp. unfold session_port. destruct (u_local_port _); appends_tac. }
  rewrite <-Hl2 in *. destruct rp as [port|er]; [|simplify_eq; split; [done|]; exists []; by rewrite app_nil_r].
  clear Hp Hl2 Hquick. unfold with_firewall in Hh.
  assert (Hrun : ∀ s3 s4 ra, run_attempt fb show env to s tr kp csk rid s3 = (s4, ra) →
    (ra = Ok None → se_firewall env = None ∨ (fb = false ∧ is_Some (tk_panic (se_udp_task env)))) ∧
    ∃ l, sw_log s4 = sw_log s3 ++ l ∧ opens l = 0%nat ∧ drops l = 0%nat).
  { intros s3 s4 ra Ha. split; [intros ->; right; by eapply run_attempt_settles|].
    destruct (run_attempt_appends fb show env to s tr kp csk rid s3) as (l & Hl & HP). rewrite Ha in Hl.
    exists l. split; [done|]. by apply not_firewall_count. }
  assert (Hplain : run_attempt fb show env to s tr kp csk rid s2 = (sw', r) →
    (r = Ok None → se_firewall env = None ∨ (fb = false ∧ is_Some (tk_panic (se_udp_task env)))) ∧
    ∃ l, sw_log sw' = sw_log s2 ++ l ∧ opens l = drops l).
  { intros Ha. apply Hrun in Ha as [Hn (l & Hl & Ho & Hd)]. split; [done|]. exists l. split; [done|]. by rewrite Ho. }
  destruct (te_network tr); simpl in Hh; [|by apply Hplain].
  destruct (se_firewall env) as [[]|]; [|by apply Hplain|unfold mret, M_ret in Hh; simplify_eq; split; [by left|]; exists []; by rewrite app_nil_r].
  unfold effect, modify, attempt, lift, mbind, M_bind in Hh.
  destruct (run_attempt _ _ _ _ _ _ _ _ _ _) as [s4 ra] eqn:Ha. apply Hrun in Ha as [Hn (l & Hl & Ho & Hd)].
  simplify_eq/=. split; [done|]. rewrite Hl. exists (EOpenFirewall port :: l ++ [EDropFirewallGuard port]).
  rewrite <-!(assoc_L (++)). split; [done|]. unfold opens, drops in *.
  rewrite filter_cons_True, filter_cons_False, !filter_app by done. simpl. rewrite !length_app, Ho, Hd. done.
Qed.
