(* ===== verification/SessionGrants.v ===== *)
(** * A session and a phone that grants

    The way forward through a session: it has begun to listen on the network, and the next
    datagram is a grant.  Whose phone may send it. *)

From stdpp Require Import base gmap strings list sorting.
From S2P Require Import Prelude Os Text Crypto Concrete CryptoTheorems Protocol ConcreteCodec Config ConfigFacts.
From S2P Require Import ConcreteConfig PairingUrl Network Auth ConcreteAuth AuthTheorems PeerIdentity Ble.
From S2P Require Import Ipc Session SessionTheorems.

(** Between the two a network exchange was begun. *)
Definition listening (s s' : SessionWorld) : Prop :=
  ∃ l q, sw_log s' = sw_log s ++ l ∧ ESpawnUdp q ∈ l.

Lemma listening_quiet s s' s1 : sw_log s1 = sw_log s → listening s s' → listening s1 s'.
Proof. intros E (l & q & Hl & Hq). exists l, q. by rewrite E. Qed.
Lemma not_listening s s' : sw_log s' = sw_log s → ¬ listening s s'.
Proof.
  intros E (l & q & Hl & Hq). rewrite E in Hl. rewrite <-(app_nil_r (sw_log s)) in Hl at 1.
  apply app_inv_head in Hl. subst. by apply elem_of_nil in Hq.
Qed.

(** Other effects do not begin one. *)
Definition not_spawn (e : AuthEffect) : Prop := match e with ESpawnUdp _ => False | _ => True end.

Lemma spawn_elsewhere q l l' : Forall not_spawn l → ESpawnUdp q ∈ l ++ l' ∨ ESpawnUdp q ∈ l' ++ l → ESpawnUdp q ∈ l'.
Proof.
  rewrite Forall_forall. intros Hl. rewrite !elem_of_app. intros [[Hq|Hq]|[Hq|Hq]]; try done; by apply Hl in Hq.
Qed.

Lemma listening_before {P E A E' B} (m : M SessionWorld E A) (k : M SessionWorld E' B) s s1 s' r r' :
  appends P m → appends not_spawn k → m s = (s1, r) → k s1 = (s', r') → listening s s' → listening s s1.
Proof.
  intros Hm Hk Em Ek (l & q & Hl & Hq). destruct (Hm s) as (l1 & Hl1 & _), (Hk s1) as (l2 & Hl2 & Hn).
  rewrite Em in Hl1. rewrite Ek in Hl2. simpl in *. rewrite Hl2, Hl1, <-(assoc_L (++)) in Hl. apply app_inv_head in Hl.
  subst l. exists l1, q. split; [done|]. eapply spawn_elsewhere; [exact Hn|]. by right.
Qed.
Lemma listening_after {P E A E' B} (m : M SessionWorld E A) (k : M SessionWorld E' B) s s1 s' r r' :
  appends not_spawn m → appends P k → m s = (s1, r) → k s1 = (s', r') → listening s s' → listening s1 s'.
Proof.
  intros Hm Hk Em Ek (l & q & Hl & Hq). destruct (Hm s) as (l1 & Hl1 & Hn), (Hk s1) as (l2 & Hl2 & _).
  rewrite Em in Hl1. rewrite Ek in Hl2. simpl in *. rewrite Hl2, Hl1, <-(assoc_L (++)) in Hl. apply app_inv_head in Hl.
  subst l. exists l2, q. split; [done|]. eapply spawn_elsewhere; [exact Hn|]. by left.
Qed.

(** A step without effects that comes before the exchange succeeds. *)
Lemma silent_step {E A B} (m : M SessionWorld E A) (k : A → M SessionWorld E B) s s' r :
  appends (λ _, False) m → (m ≫= k) s = (s', r) → listening s s' →
  ∃ s1 a, m s = (s1, Ok a) ∧ k a s1 = (s', r) ∧ listening s1 s'.
Proof.
  intros Ha Hr Hl. rewrite bind_run in Hr. destruct (m s) as [s1 ra] eqn:Em.
  pose proof (appends_nothing _ _ _ _ Ha Em) as Hs. destruct ra as [a|e].
  - exists s1, a. repeat split; [done|]. by eapply listening_quiet.
  - simplify_eq. exfalso. by eapply not_listening.
Qed.

Ltac silent H L :=
  let s := fresh "s" in let a := fresh "a" in let Hm := fresh "Hstep" in
  let L' := fresh "Hl" in
  apply silent_step in H as (s & a & Hm & H & L'); [|solve [appends_tac | apply create_cancel_packet_appends]|exact L];
  clear L; rename L' into L.

Section grants.
Context `{C : CryptoOps} `{L : !CryptoLaws C} `{H : Hex} `{T : Toml}.
Context `{KW : !Codec WrapperMessage} `{LW : !CodecLaws WrapperMessage KW wrapper_wire}.
Context `{KE : !Codec EncryptedPacket} `{LE : !CodecLaws EncryptedPacket KE packet_wire}.

(** The next datagram on the socket is a grant of the phone with key [phone] for the
    challenge, sealed with the CSK, from another host, and there by [by_time]. *)
Definition grant_next (u : Udp) (phone : Ed25519KeyPair) (csk : ClientSymmetricKey) (challenge : bytes)
    (now by_time : Z) : Prop :=
  ∃ g wrapper wp wp' p ip port t rest,
    create_auth_grant phone challenge = Ok g ∧ sign_wrapper_message (wrap_auth_grant g) phone = Ok wrapper ∧
    create_encrypted_packet_with_csk_nonce csk wrapper wp = (wp', Ok p) ∧
    u_inbox u = mkArrival t (Ok (encode_to_vec p, (ip, port))) :: rest ∧ t ≤ by_time ∧
    Z.of_nat (length (encode_to_vec p)) ≤ MAX_UDP_MESSAGE_SIZE ∧
    (is_local_ip (normalize_ip ip) (Z.max now t) u).2 = false ∧ u_local_port u ≠ Some port.

(** The network task ends with success, in time. *)
Lemma grant_task tk w udp packet csk kp challenge servers id srv phone :
  wf_csk csk → wf_ed25519 phone → servers !! id = Some srv → server_key srv = Some (verifying_key_bytes phone) →
  grant_next (ut_socket udp) phone csk challenge (w_clock w) (w_clock w + 200) → tk_panic tk = None →
  ∃ t, t ≤ w_clock w + 200 ∧
    run_task (udp_fuel udp) tk w udp packet csk kp challenge servers = Some (t, Joined (Ok ())).
Proof.
  intros Hcsk Hph Hs Hk (g & wrapper & wp & wp' & p & ip & port & t & rest & Hg & Hsign & Hp & Hin & Ht & Hl & Hloc & Hport) Hpan.
  unfold udp_fuel. rewrite Nat.add_succ_r. unfold run_task.
  edestruct (udp_grant_run (length (u_inbox (ut_socket udp)) + 600) packet csk kp challenge servers id srv phone g wrapper
    wp wp' p ip port t rest (mkEnv (set_entropy (tk_entropy tk) w) udp ∅ [])) as (e' & -> & Hc); try done.
  rewrite Hpan. simpl. exists (w_clock (e_world e')). split; [|done]. rewrite Hc. simpl. lia.
Qed.

(** What a session of this kind looks like: Bluetooth is off, nobody cancels, nothing
    panics, and the phone with key [phone] is paired, for whichever users. *)
Record granting (env : SessionEnv) (s : AuthSession) (tr : TransportsEnabled) (csk : ClientSymmetricKey)
    (phone : Ed25519KeyPair) : Prop := {
  gr_network : te_network tr = true;
  gr_ble : te_ble tr = false;
  gr_cancel : se_cancel env = None;
  gr_panic : tk_panic (se_udp_task env) = None;
  gr_csk : wf_csk csk;
  gr_phone : wf_ed25519 phone;
  gr_paired : ∃ id srv, ds_paired_servers (as_state s) !! id = Some srv ∧ server_key srv = Some (verifying_key_bytes phone);
}.

Lemma spawn_grant env now s kp csk tr udp pk sw sw' r phone :
  granting env s tr csk phone → ut_socket udp = se_socket env →
  grant_next (se_socket env) phone csk (as_challenge s) now (now + 200) →
  spawn_auth_tasks env now s kp csk true None udp pk sw = (sw', r) →
  ∃ t, t ≤ now + 200 ∧
    r = Ok [(now, BleDone (Joined (Err AE_TransportDisabled))); (t, UdpDone (Joined (Ok ())))].
Proof.
  intros [_ _ _ Hpan Hcsk Hph (id & srv & Hs & Hk)] Hu Hg Hr. unfold spawn_auth_tasks, effect in Hr. rewrite <-Hu in Hg.
  destruct (grant_task (se_udp_task env) (set_clock now (sw_world sw)) udp pk csk kp (as_challenge s)
    (ds_paired_servers (as_state s)) id srv phone Hcsk Hph Hs Hk Hg Hpan) as (t & Ht & Hrun).
  munfold. simplify_eq/=. exists t. split; [done|]. by rewrite Hrun.
Qed.

Lemma try_parallel_grant env dl s tr kp csk rid pk sw sw' r phone :
  granting env s tr csk phone → w_clock (sw_world sw) + 200 ≤ dl →
  grant_next (se_socket env) phone csk (as_challenge s) (w_clock (sw_world sw)) (w_clock (sw_world sw) + 200) →
  try_parallel_authentication env dl s tr kp csk rid pk sw = (sw', r) → listening sw sw' → r = Ok (Finished (Ok ())).
Proof.
  intros Hgr Hdl Hg Ht Hl. unfold try_parallel_authentication in Ht. silent Ht Hl.
  apply timeless_run in Hstep; [|auto with tapauth]. rewrite <-Hstep in *. clear Hstep.
  rewrite bind_run in Ht. unfold gets in Ht at 1.
  apply silent_step in Ht as (s1 & i & Hi & Ht & Hl1); [|unfold initialize_transports; appends_tac|exact Hl].
  apply initialize_spec in Hi as (_ & _ & Hi). rewrite (gr_ble _ _ _ _ _ Hgr) in Hi.
  destruct i as [[[now udp] ble]|]; [|by destruct Hi]. destruct Hi as (Hu & -> & ->). rewrite decide_False in Ht by lia.
  silent Ht Hl1. silent Ht Hl1. rewrite (gr_network _ _ _ _ _ Hgr), (gr_cancel _ _ _ _ _ Hgr) in Ht. rewrite bind_run in Ht.
  destruct (spawn_auth_tasks _ _ _ _ _ _ _ _ _ _) as [s4 rh] eqn:Hsp.
  eapply spawn_grant in Hsp as (t & Htt & ->); [|done|done|done]. cbn [cancel_event] in Ht. rewrite app_nil_r in Ht.
  assert (Hsort : merge_sort (seen_before (se_rank env))
      [(w_clock (sw_world s0), BleDone (Joined (Err AE_TransportDisabled))); (t, UdpDone (Joined (Ok ())))]
    = [(w_clock (sw_world s0), BleDone (Joined (Err AE_TransportDisabled))); (t, UdpDone (Joined (Ok ())))] ∨
    merge_sort (seen_before (se_rank env))
      [(w_clock (sw_world s0), BleDone (Joined (Err AE_TransportDisabled))); (t, UdpDone (Joined (Ok ())))]
    = [(t, UdpDone (Joined (Ok ()))); (w_clock (sw_world s0), BleDone (Joined (Err AE_TransportDisabled)))]).
  { cbn. case_decide; auto. }
  destruct Hsort as [E|E]; rewrite E in Ht; cbn [await_auth_result andb] in Ht; rewrite !decide_False in Ht by lia;
    unfold multicast_cancel_on_success, when, effect in Ht; munfold; by simplify_eq.
Qed.

Lemma try_udp_grant env dl s tr kp csk pk sw sw' r phone :
  granting env s tr csk phone → w_clock (sw_world sw) + 200 ≤ dl →
  grant_next (se_socket env) phone csk (as_challenge s) (w_clock (sw_world sw)) (w_clock (sw_world sw) + 200) →
  try_udp_authentication env dl s kp csk pk sw = (sw', r) → listening sw sw' → r = Ok (Finished (Ok ())).
Proof.
  intros [_ _ _ Hpan Hcsk Hph (id & srv & Hs & Hk)] Hdl Hg Ht Hl. unfold try_udp_authentication in Ht. silent Ht Hl.
  apply timeless_run in Hstep; [|auto with tapauth]. rewrite <-Hstep in *. rewrite bind_run in Ht. unfold gets in Ht.
  edestruct (grant_task (se_udp_task env) (sw_world s0) (mkUdpTransport (se_socket env) (udp_port a)) pk csk kp (as_challenge s)
    (ds_paired_servers (as_state s)) id srv phone Hcsk Hph Hs Hk Hg Hpan) as (t & Ht' & Hrun).
  rewrite bind_run in Ht. unfold effect, modify, mret, M_ret in Ht. rewrite Hrun, decide_False in Ht by lia. by simplify_eq.
Qed.

Lemma run_attempt_grant fb show env to s tr kp csk rid sw sw' r phone :
  granting env s tr csk phone → 200 ≤ session_timeout_ms to →
  grant_next (se_socket env) phone csk (as_challenge s) (w_clock (sw_world sw)) (w_clock (sw_world sw) + 200) →
  run_attempt fb show env to s tr kp csk rid sw = (sw', r) → listening sw sw' →
  ∃ resp, r = Ok (Some resp) ∧ resp_outcome resp = OUTCOME_SUCCESS.
Proof.
  intros Hgr Hto Hg Hr Hl. unfold run_attempt in Hr. silent Hr Hl. silent Hr Hl. silent Hr Hl.
  apply timeless_run in Hstep; [|auto with tapauth]. apply timeless_run in Hstep0; [|auto with tapauth].
  apply timeless_run in Hstep1; [|auto with tapauth]. rewrite bind_run in Hr. unfold gets in Hr at 1.
  rewrite <-Hstep, <-Hstep0, <-Hstep1 in Hg. rewrite bind_run in Hr. unfold attempt in Hr at 1.
  set (dl := w_clock (sw_world s2) + session_timeout_ms to) in *.
  set (att := if fb then try_parallel_authentication env dl s tr kp csk rid a1
              else try_udp_authentication env dl s kp csk a1) in Hr.
  destruct (att s2) as [s3 ra] eqn:Ea.
  assert (Hfin : listening s2 s3 → ra = Ok (Finished (Ok ()))).
  { intros Hl'. unfold att in Ea. destruct fb;
      [eapply try_parallel_grant|eapply try_udp_grant]; [exact Hgr| |exact Hg|exact Ea|exact Hl'|exact Hgr| |exact Hg|exact Ea|exact Hl'];
      unfold dl; lia. }
  rewrite Hfin in Hr; [unfold mret, M_ret in Hr; simplify_eq; by eexists|].
  eapply listening_before; [| |exact Ea|exact Hr|exact Hl].
  - unfold att. destruct fb; [apply try_parallel_appends|]. unfold try_udp_authentication.
    repeat first [by apply (appends_silent not_firewall) | progress appends_tac].
  - repeat first [apply create_cancel_packet_appends | by apply appends_silent | progress appends_tac | case_match].
Qed.
End grants.

(** Whose grant is accepted.  Let a session have begun to listen on the network, with
    Bluetooth off, no cancel, no panic and a timeout of 200 ms or more, and let the next
    datagram, there within the first retry interval, be a grant by the key of any paired
    phone for the session's challenge.  Then the session answers SUCCESS. *)
Lemma session_grant_accepted `{C : CryptoOps} `{L : !CryptoLaws C} `{H : Hex} `{T : Toml}
    `{KW : !Codec WrapperMessage} `{LW : !CodecLaws WrapperMessage KW wrapper_wire}
    `{KE : !Codec EncryptedPacket} `{LE : !CodecLaws EncryptedPacket KE packet_wire}
    fb show env s to rid sw sw' r tr csk phone :
  let now := w_clock (sw_world sw) in
  (transports_from_config fb sw).2 = Ok tr → ds_csk (as_state s) = Some csk →
  granting env s tr csk phone → 200 ≤ session_timeout_ms to →
  grant_next (se_socket env) phone csk (as_challenge s) now (now + 200) →
  handle_authenticate fb show env s to rid sw = (sw', r) → listening sw sw' →
  ∃ resp, r = Ok (Some resp) ∧ resp_outcome resp = OUTCOME_SUCCESS.
Proof.
  intros now Htr Hcsk Hgr Hto Hg Hh Hl. unfold handle_authenticate in Hh.
  apply silent_step in Hh as (s1 & tr' & Hs1 & Hh & Hl1); [|apply transports_appends|exact Hl].
  rewrite Hs1 in Htr. simplify_eq/=. apply timeless_run in Hs1; [|unfold transports_from_config; eauto with tapauth].
  unfold now in *. rewrite <-Hs1 in *. clear now.
  assert (Hquick : ∀ x : result AuthHandlerError (option PamAuthenticateResponse), (s1, x) = (sw', r) →
    ∃ resp, r = Ok (Some resp) ∧ resp_outcome resp = OUTCOME_SUCCESS).
  { intros x Hx. simplify_eq. exfalso. by eapply not_listening. }
  destruct (negb _); [by eapply Hquick|]. destruct (decide _) in Hh; [by eapply Hquick|].
  rewrite Hcsk in Hh. destruct (ds_keypair (as_state s)) as [kp|]; [|by eapply Hquick].
  destruct (decide _) in Hh; [by eapply Hquick|].
  apply silent_step in Hh as (s2 & port & Hs2 & Hh & Hl2);
    [|unfold session_port; destruct (u_local_port _); appends_tac|exact Hl1].
  apply timeless_run in Hs2; [|unfold session_port; destruct (u_local_port _); eauto with tapauth].
  rewrite <-Hs2 in *. unfold with_firewall in Hh. rewrite (gr_network _ _ _ _ _ Hgr) in Hh. cbn [negb] in Hh.
  destruct (se_firewall env) as [[]|].
  - rewrite bind_run in Hh. destruct (effect (EOpenFirewall port) s2) as [s3 [[]|e]] eqn:Eo; [|done].
    rewrite bind_run in Hh. unfold attempt in Hh at 1.
    destruct (run_attempt fb show env to s tr kp csk rid s3) as [s4 ra] eqn:Er.
    assert (Hl4 : listening s2 s4).
    { eapply (listening_before (P := λ _, True) (_ ← effect (EOpenFirewall port); run_attempt fb show env to s tr kp csk rid)
        (_ ← effect (EDropFirewallGuard port); lift ra)); [| | |exact Hh|exact Hl2].
      - apply appends_bind; [by apply appends_effect|intros _ x].
        destruct (run_attempt_appends fb show env to s tr kp csk rid x) as (l & Hl0 & _). exists l. split; [done|].
        by apply Forall_true.
      - appends_tac.
      - by rewrite bind_run, Eo. }
    eapply listening_after in Hl4; [|..|exact Eo|exact Er]; [|by apply appends_effect|apply run_attempt_appends].
    assert (Hc3 : w_clock (sw_world s3) = w_clock (sw_world s2)) by (by eapply timeless_run, Eo).
    rewrite <-Hc3 in Hg. destruct (run_attempt_grant _ _ _ _ _ _ _ _ _ _ _ _ _ Hgr Hto Hg Er Hl4) as (resp & -> & Ho).
    exists resp. split; [|done]. rewrite bind_run in Hh. unfold effect, modify, lift in Hh. by simplify_eq.
  - by eapply run_attempt_grant.
  - unfold mret, M_ret in Hh. simplify_eq. exfalso. by eapply not_listening.
Qed.

(** ** Claims *)

(** C40: The phone need not be one authorised for the user.  Let a session have begun to
    listen on the network, with Bluetooth off, no cancel, no panic and a timeout of at
    least 200 ms, and let the next datagram, there within the first retry interval, be a
    grant for the session's challenge by the key of some phone the daemon is paired with,
    sealed with the CSK.  The session answers SUCCESS; the users that phone is paired for
    play no part. *)
Theorem unauthorized_device_accepted `{C : CryptoOps} `{L : !CryptoLaws C} `{H : Hex} `{T : Toml}
    `{KW : !Codec WrapperMessage} `{LW : !CodecLaws WrapperMessage KW wrapper_wire}
    `{KE : !Codec EncryptedPacket} `{LE : !CodecLaws EncryptedPacket KE packet_wire}
    fb show env s to rid sw sw' r tr csk phone :
  let now := w_clock (sw_world sw) in
  (transports_from_config fb sw).2 = Ok tr → ds_csk (as_state s) = Some csk →
  granting env s tr csk phone → 200 ≤ session_timeout_ms to →
  grant_next (se_socket env) phone csk (as_challenge s) now (now + 200) →
  handle_authenticate fb show env s to rid sw = (sw', r) → listening sw sw' →
  ∃ resp, r = Ok (Some resp) ∧ resp_outcome resp = OUTCOME_SUCCESS.
Proof. apply session_grant_accepted. Qed.

(** The phone with the key [toy_client] is paired for bob only. *)
Definition bob_env : SessionEnv := toy_session_env [toy_arrival (toy_grant_packet toy_client)].

Lemma bob_grants : grant_next (se_socket bob_env) toy_client toy_csk toy_challenge 0 200.
Proof.
  set (g := mkAuthenticationGrant (sign_ed25519 toy_client toy_challenge)).
  destruct (sign_wrapper_message (wrap_auth_grant g) toy_client) as [w|] eqn:Ew; [|by vm_compute in Ew].
  destruct (create_encrypted_packet_with_csk_nonce toy_csk w quiet_world) as [wp rp] eqn:Ep.
  assert (rp = Ok (toy_grant_packet toy_client)) as ->.
  { change rp with (wp, rp).2. rewrite <-Ep. injection Ew as <-. by vm_compute. }
  exists g, w, quiet_world, wp, (toy_grant_packet toy_client), phone_addr.1, phone_addr.2, 100, [].
  by split_and!; try exact Ep; vm_compute.
Qed.

Lemma unauthorized_device_accepted_witness :
  is_user_allowed (server_of toy_client ["bob"%string]) "ann" = false ∧
  ∃ sw' resp, handle_authenticate false no_text bob_env ann_session (Some 30) "r1" toy_session_world
    = (sw', Ok (Some resp)) ∧ resp_outcome resp = OUTCOME_SUCCESS.
Proof.
  split; [vm_compute; reflexivity|].
  destruct (handle_authenticate false no_text bob_env ann_session (Some 30) "r1" toy_session_world) as [sw' r] eqn:E.
  assert (Hlog : ∃ l q, sw_log sw' = l ∧ ESpawnUdp q ∈ l).
  { change sw' with (sw', r).1. rewrite <-E. vm_compute. eexists _, _. split; [reflexivity|].
    apply list_elem_of_further, list_elem_of_here. }
  destruct Hlog as (l & q & Hl & Hq).
  destruct (unauthorized_device_accepted false no_text bob_env ann_session (Some 30) "r1" toy_session_world sw' r
    (mkTransportsEnabled true false) toy_csk toy_client) as (resp & -> & Ho).
  - vm_compute. reflexivity.
  - reflexivity.
  - split; try reflexivity; [by split..|]. exists "b"%string, (server_of toy_client ["bob"%string]).
    split; vm_compute; reflexivity.
  - vm_compute. discriminate.
  - exact bob_grants.
  - exact E.
  - exists l, q. split; [exact Hl|exact Hq].
  - exists sw', resp. split; [reflexivity|exact Ho].
Defined.
