(* ===== verification/ConcreteIpc.v ===== *)
(** * A concrete codec for the IPC messages

    Stands in for the generated protobuf code of [ipc.proto] when definitions are
    evaluated on concrete inputs. *)

From stdpp Require Import base gmap strings list countable.
From Stdlib Require Import Strings.Byte.
From S2P Require Import Prelude Os Text Crypto Protocol ConcreteCodec Ipc.

(** ** Administrative payloads as tuples *)

Definition request_code (p : AdminRequestPayload) : Z * string * Z * (option bool * option bool) :=
  match p with
  | AdmGetServers => (0, EmptyString, 0, (None, None))
  | AdmStartPairing => (1, EmptyString, 0, (None, None))
  | AdmWaitForPairing port => (2, EmptyString, port, (None, None))
  | AdmCompletePairing port => (3, EmptyString, port, (None, None))
  | AdmRemoveDevice k => (4, k, 0, (None, None))
  | AdmRotateCsk => (5, EmptyString, 0, (None, None))
  | AdmSaveConfig r => (6, scr_hostname r, scr_udp_port r, (scr_enable_ble r, scr_enable_network r))
  | AdmRecoverTpm => (7, EmptyString, 0, (None, None))
  | AdmGetConfig => (8, EmptyString, 0, (None, None))
  | AdmGetDaemonStatus => (9, EmptyString, 0, (None, None))
  end.
Definition request_uncode (c : Z * string * Z * (option bool * option bool)) : option AdminRequestPayload :=
  let '(tag, s, n, (b1, b2)) := c in
  match tag with
  | 0 => Some AdmGetServers
  | 1 => Some AdmStartPairing
  | 2 => Some (AdmWaitForPairing n)
  | 3 => Some (AdmCompletePairing n)
  | 4 => Some (AdmRemoveDevice s)
  | 5 => Some AdmRotateCsk
  | 6 => Some (AdmSaveConfig (mkSaveConfigRequest s n b1 b2))
  | 7 => Some AdmRecoverTpm
  | 8 => Some AdmGetConfig
  | 9 => Some AdmGetDaemonStatus
  | _ => None
  end.
Lemma request_uncode_code p : request_uncode (request_code p) = Some p.
Proof. by destruct p as [| | | | | |[]| | |]. Qed.

Definition info_code (i : PairedServerInfo) : string * string * list string * string :=
  (psi_name i, psi_public_key i, psi_allowed_users i, psi_paired_at i).
Definition info_uncode (c : string * string * list string * string) : PairedServerInfo :=
  let '(n, k, u, p) := c in mkPairedServerInfo n k u p.

Definition response_code (p : AdminResponsePayload)
    : Z * list (string * string * list string * string) * string * Z * (bool * bool) :=
  match p with
  | AdmServers l => (0, info_code <$> l, EmptyString, 0, (false, false))
  | AdmPairingStarted url port => (1, [], url, port, (false, false))
  | AdmPairingSas sas port => (2, [], sas, port, (false, false))
  | AdmPairingCompleted k => (3, [], k, 0, (false, false))
  | AdmConfig h port b n => (4, [], h, port, (b, n))
  | AdmDaemonStatus t e => (5, [], e, 0, (t, false))
  end.
Definition response_uncode (c : Z * list (string * string * list string * string) * string * Z * (bool * bool))
    : option AdminResponsePayload :=
  let '(tag, l, s, n, (b1, b2)) := c in
  match tag with
  | 0 => Some (AdmServers (info_uncode <$> l))
  | 1 => Some (AdmPairingStarted s n)
  | 2 => Some (AdmPairingSas s n)
  | 3 => Some (AdmPairingCompleted s)
  | 4 => Some (AdmConfig s n b1 b2)
  | 5 => Some (AdmDaemonStatus b1 s)
  | _ => None
  end.
Lemma response_uncode_code p : response_uncode (response_code p) = Some p.
Proof.
  destruct p as [l| | | | |]; try done. cbn. do 2 f_equal. rewrite <-list_fmap_compose.
  rewrite <-(list_fmap_id l) at 2. apply list_fmap_ext. by intros _ [] _.
Qed.

(** ** Envelopes *)

Definition msg_fields (m : IpcMsg) : list bytes :=
  match m with
  | MsgPamAuthenticate r =>
      [[x00]; num_field (par_username r, par_tty_present r, par_timeout_seconds r, par_request_id r)]
  | MsgPamCancel r => [[x01]; num_field (pcr_reason r, pcr_request_id r)]
  | MsgPamResponse r => [[x02]; num_field (resp_outcome r, resp_detail r); resp_challenge r]
  | MsgAdminRequest r => [[x03]; num_field (request_code <$> adm_payload r)]
  | MsgAdminResponse r =>
      [[x04]; num_field (adr_status r, adr_error_message r); num_field (response_code <$> adr_payload r)]
  end.

Definition msg_unfields (l : list bytes) : option IpcMsg :=
  match l with
  | [[x00]; f] =>
      '(u, t, s, i) ← num_unfield (A := string * bool * Z * string) f;
      Some (MsgPamAuthenticate (mkPamAuthenticateRequest u t s i))
  | [[x01]; f] =>
      '(r, i) ← num_unfield (A := string * string) f; Some (MsgPamCancel (mkPamCancelRequest r i))
  | [[x02]; f; c] =>
      '(o, d) ← num_unfield (A := Z * string) f; Some (MsgPamResponse (mkPamAuthenticateResponse o d c))
  | [[x03]; f] =>
      o ← num_unfield (A := option (Z * string * Z * (option bool * option bool))) f;
      match o with
      | None => Some (MsgAdminRequest (mkAdminRequest None))
      | Some c => p ← request_uncode c; Some (MsgAdminRequest (mkAdminRequest (Some p)))
      end
  | [[x04]; f; g] =>
      '(s, e) ← num_unfield (A := Z * string) f;
      o ← num_unfield
            (A := option (Z * list (string * string * list string * string) * string * Z * (bool * bool))) g;
      match o with
      | None => Some (MsgAdminResponse (mkAdminResponse s e None))
      | Some c => p ← response_uncode c; Some (MsgAdminResponse (mkAdminResponse s e (Some p)))
      end
  | _ => None
  end.

Lemma msg_unfields_fields m : msg_unfields (msg_fields m) = Some m.
Proof.
  destruct m as [[]|[]|[]|[[p|]]|[s e [p|]]]; cbn -[num_unfield num_field request_uncode request_code
    response_uncode response_code]; rewrite ?num_unfield_field; try done.
  - cbn -[request_uncode request_code]. by rewrite request_uncode_code.
  - cbn -[response_uncode response_code num_unfield num_field]. by rewrite response_uncode_code.
Qed.

#[export] Instance toy_ipc_codec : Codec IpcEnvelope := field_codec
  (λ e, match env_msg e with None => [[]] | Some m => msg_fields m end)
  (λ l, match l with [[]] => Some (mkIpcEnvelope None) | _ => m ← msg_unfields l; Some (mkIpcEnvelope (Some m)) end).
#[export] Instance toy_ipc_laws : CodecLaws IpcEnvelope toy_ipc_codec envelope_wire.
Proof.
  apply field_codec_laws. intros [[m|]]; [|done]. cbn [env_msg].
  pose proof (msg_unfields_fields m) as Hm. by destruct m; cbn [msg_fields] in *; rewrite Hm.
Qed.
