(* ===== verification/Jni.v ===== *)
(** * Android bindings: [shared/src/jni_api.rs], [jni/*.rs], [error.rs]

    What the Kotlin application calls.  The virtual machine is a state: the world
    underneath, the exception that is pending, and a script of what its operations will
    do.  A helper that returns [None] after throwing is a failing step; an entry point
    turns that into [null].  The operations of the bodies check their slices, so the
    guards against panics are not reached. *)

From stdpp Require Import base gmap strings list.
From Stdlib Require Import Strings.Ascii.
From S2P Require Import Prelude Os Text Crypto Protocol PairingUrl Pairing Auth.

(** ** The virtual machine *)

Inductive Throwable :=
| IllegalArgumentException
| IllegalStateException
| OutOfMemoryError
| IOException
| GeneralSecurityException
| AEADBadTagException
| BadPaddingException
| InvalidKeyException.

(** How an operation of the machine goes wrong. *)
Inductive JFault := JErr (e : string) | JPanic.

Record Jvm := mkJvm {
  jv_world : World;
  jv_faults : list (option JFault);             (* of the next operations; then none *)
  jv_throws : bool;                             (* throwing works *)
  jv_pending : option (Throwable * string);
}.

(** Java values; a reference argument is [None] when it is [null]. *)
Inductive JValue :=
| JNull
| JBytes (b : bytes)
| JString (s : string)
| JInt (n : Z)
| JLong (n : Z)
| JBool (b : bool)
| JArray (l : list JValue)
| JObject (class : string) (fields : list JValue).

Definition JM (A : Type) : Type := M Jvm () A.

(** ** Throwing ([jni/exceptions.rs]) *)

Definition throw_exception {A} (class : Throwable) (message : string) : JM A := λ j,
  (mkJvm (jv_world j) (jv_faults j) (jv_throws j) (if jv_throws j then Some (class, message) else jv_pending j), Err ()).

Definition throw_illegal_argument {A} := @throw_exception A IllegalArgumentException.
Definition throw_illegal_state {A} := @throw_exception A IllegalStateException.
Definition throw_out_of_memory {A} := @throw_exception A OutOfMemoryError.
Definition throw_io_exception {A} := @throw_exception A IOException.
Definition throw_security_exception {A} := @throw_exception A GeneralSecurityException.
Definition throw_aead_bad_tag {A} := @throw_exception A AEADBadTagException.
Definition throw_bad_padding {A} := @throw_exception A BadPaddingException.
Definition throw_invalid_key {A} := @throw_exception A InvalidKeyException.

(** [error.rs] *)
Inductive TapAuthError :=
| TE_InvalidInput (s : string)
| TE_Io (s : string)
| TE_ProtoDecode (s : string)
| TE_AeadBadTag
| TE_Crypto (s : string)
| TE_State (s : string).

Definition throw_tapauth_error {A} (err : TapAuthError) : JM A :=
  match err with
  | TE_InvalidInput msg => throw_illegal_argument msg
  | TE_Io err => throw_io_exception err
  | TE_ProtoDecode err => throw_io_exception err
  | TE_AeadBadTag => throw_aead_bad_tag "AEAD tag verification failed"
  | TE_Crypto msg => throw_security_exception msg
  | TE_State msg => throw_illegal_state msg
  end.

(** ** Operations of the machine *)

(** One operation, that has the outcome [r] unless the script says otherwise. *)
Definition jni_op {A} (r : result string A) (on_error : JFault → JM A) : JM A := λ j,
  let '(f, rest) := match jv_faults j with [] => (None, []) | f :: l => (f, l) end in
  let j1 := mkJvm (jv_world j) rest (jv_throws j) (jv_pending j) in
  match f, r with
  | Some f, _ => on_error f j1
  | None, Err e => on_error (JErr e) j1
  | None, Ok a => (j1, Ok a)
  end.

Definition fault_text (f : JFault) : string := match f with JErr e => e | JPanic => "panic" end.

(** Code that needs the system underneath. *)
Definition on_world {E A} (k : M World E A) (on_error : E → JM A) : JM A := λ j,
  let '(w, r) := k (jv_world j) in
  let j1 := mkJvm w (jv_faults j) (jv_throws j) (jv_pending j) in
  match r with Ok a => (j1, Ok a) | Err e => on_error e j1 end.

(** A [Result] whose error is thrown. *)
Definition or_throw {E A} (r : result E A) (on_error : E → JM A) : JM A :=
  match r with Ok a => mret a | Err e => on_error e end.

(** Casts. *)
Definition as_u32 (n : Z) : Z := n mod 2 ^ 32.
Definition as_u64 (n : Z) : Z := n mod 2 ^ 64.
Definition as_i32 (n : Z) : Z := (n + 2 ^ 31) mod 2 ^ 32 - 2 ^ 31.
Definition as_i64 (n : Z) : Z := (n + 2 ^ 63) mod 2 ^ 64 - 2 ^ 63.

Definition jcat : string → string → string := String.append.
Definition show_nat (n : nat) : string := String.string_of_list_ascii (dec (N.of_nat n)).
Infix "+++" := jcat (at level 60, right associativity).

Section conversions.
(** The text of the error for a null reference. *)
Context (null_error : string).

(** ** Conversions ([jni/conversions.rs]) *)

Definition jintarray_to_vec (array : option (list Z)) : JM (list Z) :=
  jni_op (ok_or null_error array) (λ f,
    match f with
    | JErr e => throw_illegal_argument ("failed to get int array length: " +++ e)
    | JPanic => throw_illegal_argument "failed to read int array: panic"
    end).

Definition jbytearray_to_vec (array : option bytes) (name : string) : JM bytes :=
  jni_op (ok_or null_error array) (λ f, throw_illegal_argument ("failed to read " +++ name +++ ": " +++ fault_text f)).

Definition jbytearray_to_fixed (n : nat) (array : option bytes) (name : string) : JM bytes :=
  bytes ← jbytearray_to_vec array name;
  if decide (length bytes = n) then mret bytes
  else throw_illegal_argument (name +++ " must be " +++ show_nat n +++ " bytes").

Definition jstring_to_rust (s : option string) (name : string) : JM string :=
  jni_op (ok_or null_error s) (λ f, throw_illegal_argument ("failed to read " +++ name +++ ": " +++ fault_text f)).

Definition vec_to_jbytearray (b : bytes) : JM JValue :=
  jni_op (Ok (JBytes b)) (λ f, throw_out_of_memory ("failed to allocate byte array: " +++ fault_text f)).

Definition string_to_jstring (s : string) : JM JValue :=
  jni_op (Ok (JString s)) (λ f, throw_out_of_memory ("failed to allocate string: " +++ fault_text f)).

(** 32 bytes, or the first half of 64. *)
Definition jbytearray_to_ed25519_keypair `{CryptoOps} (array : option bytes) (name : string) : JM Ed25519KeyPair :=
  bytes ← jbytearray_to_vec array name;
  signing_key ← (if decide (length bytes = 64%nat)
    then match slice_to 32 bytes with
         | Some slice => mret slice
         | None => throw_illegal_argument "invalid key buffer length"
         end
    else if decide (length bytes = 32%nat) then mret bytes
    else throw_illegal_argument (name +++ " must be 32 bytes (signing key) or 64 bytes (full keypair)"));
  mret (from_signing_key_bytes signing_key).

(** ** Arrays ([jni/arrays.rs]) *)

Definition new_object_array (len : nat) (class_sig : string) : JM (list JValue) :=
  _ ← jni_op (Ok ()) (λ f, throw_illegal_state ("failed to find class " +++ class_sig +++ ": " +++ fault_text f));
  jni_op (Ok (replicate len JNull)) (λ f, throw_out_of_memory ("failed to create object array: " +++ fault_text f)).

(** The index is a constant in every call. *)
Definition set_object_array_element (array : list JValue) (index : nat) (value : JValue) : JM (list JValue) :=
  _ ← jni_op (Ok ()) (λ f, throw_illegal_state ("failed to access array reference: " +++ fault_text f));
  _ ← jni_op (Ok ()) (λ f, throw_illegal_state ("failed to read array length: " +++ fault_text f));
  if decide (length array ≤ index)%nat then throw_illegal_state ("array index " +++ show_nat index
    +++ " out of bounds for length " +++ show_nat (length array)) else
  jni_op (Ok (<[index := value]> array)) (λ f, throw_illegal_state ("failed to set array element: " +++ fault_text f)).

Definition make_keypair_array (private_key public_key : bytes) : JM JValue :=
  private_array ← vec_to_jbytearray private_key;
  public_array ← vec_to_jbytearray public_key;
  a0 ← new_object_array 2 "[B";
  a1 ← set_object_array_element a0 0 private_array;
  a2 ← set_object_array_element a1 1 public_array;
  mret (JArray a2).

Definition make_bytes_string_array (b : bytes) (s : string) : JM JValue :=
  byte_array ← vec_to_jbytearray b;
  java_string ← string_to_jstring s;
  a0 ← new_object_array 2 "java/lang/Object";
  a1 ← set_object_array_element a0 0 byte_array;
  a2 ← set_object_array_element a1 1 java_string;
  mret (JArray a2).

(** ** Objects ([jni/objects.rs]) *)

(** The constructor signatures are constants that parse. *)
Definition create_object (class_name : string) (args : list JValue) : JM JValue :=
  _ ← jni_op (Ok ()) (λ f, throw_illegal_state ("failed to find class " +++ class_name +++ ": " +++ fault_text f));
  jni_op (Ok (JObject class_name args)) (λ f,
    throw_illegal_state ("failed to create object of type " +++ class_name +++ ": " +++ fault_text f)).

Definition java_auth_request (challenge : bytes) (username hostname : string) (timestamp_unix_seconds : Z)
    (signature_algorithm : Z) (signature : bytes) : JM JValue :=
  challenge_array ← vec_to_jbytearray challenge;
  username_str ← string_to_jstring username;
  hostname_str ← string_to_jstring hostname;
  signature_array ← vec_to_jbytearray signature;
  create_object "dev/rourunisen/tapauth/crypto/AuthRequest"
    [challenge_array; username_str; hostname_str; JLong timestamp_unix_seconds; JInt signature_algorithm; signature_array].

Definition java_challenge_object (class_name : string) (challenge : bytes) (signature_algorithm : Z) (signature : bytes)
    : JM JValue :=
  challenge_array ← vec_to_jbytearray challenge;
  signature_array ← vec_to_jbytearray signature;
  create_object class_name [challenge_array; JInt signature_algorithm; signature_array].

Definition java_grant_confirmation := java_challenge_object "dev/rourunisen/tapauth/crypto/GrantConfirmation".
Definition java_authentication_cancel := java_challenge_object "dev/rourunisen/tapauth/crypto/AuthenticationCancel".

Definition java_pairing_response (version : Z) (x25519_public_key ed25519_public_key : bytes) (device_name : string)
    (symmetric hash signature : Z) : JM JValue :=
  x25519_array ← vec_to_jbytearray x25519_public_key;
  ed25519_array ← vec_to_jbytearray ed25519_public_key;
  device_name_str ← string_to_jstring device_name;
  create_object "dev/rourunisen/tapauth/crypto/PairingResponse"
    [JInt version; x25519_array; ed25519_array; device_name_str; JInt symmetric; JInt hash; JInt signature].

Definition java_pairing_complete (success : bool) (hash_algorithm : Z) (encrypted_csk_hash : bytes) : JM JValue :=
  hash_array ← vec_to_jbytearray encrypted_csk_hash;
  create_object "dev/rourunisen/tapauth/crypto/PairingComplete" [JBool success; JInt hash_algorithm; hash_array].

Definition java_encrypted_packet_info (temporal_identifier : bytes) (encryption_algorithm : Z) (ciphertext : bytes) : JM JValue :=
  temporal_id_array ← vec_to_jbytearray temporal_identifier;
  ciphertext_array ← vec_to_jbytearray ciphertext;
  create_object "dev/rourunisen/tapauth/crypto/EncryptedPacketInfo"
    [temporal_id_array; JInt encryption_algorithm; ciphertext_array].
End conversions.

(** ** Protobuf ([jni/protobuf.rs]) *)

(** Encoding into a vector does not fail. *)
Definition decode_message {A} `{Codec A} (decode_error : string) (b : bytes) : JM A :=
  match decode b with Some m => mret m | None => throw_io_exception ("protobuf decode failed: " +++ decode_error) end.
Definition encode_message {A} `{Codec A} (m : A) : JM bytes := mret (encode_to_vec m).
