(* ===== verification/JniApi.v ===== *)
(** * The entry points of the Android bindings: [shared/src/jni_api.rs]

    Under the names Kotlin calls them by. *)

From stdpp Require Import base gmap strings list.
From Stdlib Require Import Strings.Ascii.
From S2P Require Import Prelude Os Text Crypto Protocol PairingUrl Pairing Auth Jni.

Section api.
Context `{C : CryptoOps} `{H : Hex} `{KW : !Codec WrapperMessage} `{KE : !Codec EncryptedPacket}.
Context `{KH : !Codec PairingHello} `{KR : !Codec PairingResponse}.
Context `{KM : !Codec PairingCskMessage} `{KC : !Codec PairingComplete}.
(** Texts of errors. *)
Context (null_error decode_error : string).
Context (show_crypto_error : CryptoError → string) (show_protocol_error : ProtocolError → string).
Context (show_random_error : string).

#[local] Abbreviation to_vec := (jbytearray_to_vec null_error).
#[local] Abbreviation to_fixed := (jbytearray_to_fixed null_error).
#[local] Abbreviation to_string := (jstring_to_rust null_error).
#[local] Abbreviation to_keypair := (jbytearray_to_ed25519_keypair null_error).
#[local] Abbreviation to_ints := (jintarray_to_vec null_error).

(** [From<CryptoError> for TapAuthError] *)
Definition tapauth_error (err : CryptoError) : TapAuthError :=
  match err with
  | InvalidKeyLength => TE_InvalidInput ("crypto: " +++ show_crypto_error err)
  | DecryptionFailed => TE_AeadBadTag
  | InvalidSignature => TE_Crypto "signature verification internal error"
  | KeyDerivationFailed => TE_Crypto "KDF failed"
  | EncryptionFailed => TE_Crypto "encryption failed"
  | RandomGenerationFailed => TE_Crypto "random generation failed"
  | SystemTimeError => TE_State "system time error"
  end.

(** ** Keys *)

Definition generateKeypair : JM JValue :=
  keypair ← on_world ed25519_generate (λ e, throw_tapauth_error (tapauth_error e));
  make_keypair_array (signing_key_bytes keypair) (verifying_key_bytes keypair).

Definition generateX25519Keypair : JM JValue :=
  keypair ← on_world x25519_generate (λ e, throw_tapauth_error (tapauth_error e));
  make_keypair_array (x25519_secret_bytes keypair) (x25519_public_bytes keypair).

Definition keyExchange (our_private_key their_public_key : option bytes) : JM JValue :=
  our_key_array ← to_fixed 32 our_private_key "private key";
  their_key_array ← to_fixed 32 their_public_key "public key";
  shared_secret ← or_throw (diffie_hellman (x25519_from_secret_bytes our_key_array) their_key_array)
    (λ err, throw_illegal_argument ("key exchange failed: " +++ show_crypto_error err));
  psk ← or_throw (derive_psk_from_x25519 shared_secret)
    (λ err, throw_illegal_argument ("PSK derivation failed: " +++ show_crypto_error err));
  vec_to_jbytearray (psk_bytes psk).

Definition getSas (psk client_public server_public : option bytes) : JM JValue :=
  psk_array ← to_fixed 32 psk "PSK";
  client_pub_array ← to_fixed 32 client_public "client_public";
  server_pub_array ← to_fixed 32 server_public "server_public";
  sas ← or_throw (derive_sas (mkPsk psk_array) client_pub_array server_pub_array)
    (λ err, throw_illegal_argument (show_crypto_error err));
  string_to_jstring sas.

(** ** Encryption *)

Definition decryptWithPsk (psk ciphertext : option bytes) : JM JValue :=
  psk_array ← to_fixed 32 psk "PSK";
  ciphertext_bytes ← to_vec ciphertext "ciphertext";
  plaintext ← or_throw (decrypt_with_psk (mkPsk psk_array) ciphertext_bytes)
    (λ err, throw_aead_bad_tag ("decryption failed: " +++ show_crypto_error err));
  vec_to_jbytearray plaintext.

Definition encryptWithPsk (psk plaintext : option bytes) : JM JValue :=
  psk_array ← to_fixed 32 psk "PSK";
  plaintext_bytes ← to_vec plaintext "plaintext";
  ciphertext ← on_world (encrypt_with_psk (mkPsk psk_array) plaintext_bytes)
    (λ err, throw_security_exception ("encryption failed: " +++ show_crypto_error err));
  vec_to_jbytearray ciphertext.

Definition sha256Hex (data : option bytes) : JM JValue :=
  data_bytes ← to_vec data "data";
  string_to_jstring (hex_encode (sha256 data_bytes)).

(** ** Parsing *)

Definition parseAuthRequest (request_bytes : option bytes) : JM JValue :=
  data ← to_vec request_bytes "request_bytes";
  wrapper ← decode_message decode_error data : JM WrapperMessage;
  match wm_payload wrapper with
  | Some (PAuthRequest req) =>
      java_auth_request (ar_challenge req) (ar_username req) (ar_hostname req)
        (as_i64 (ar_timestamp_unix_seconds req)) (wm_signature_algorithm wrapper) (wm_signature wrapper)
  | _ => throw_io_exception "WrapperMessage does not contain AuthenticationRequest"
  end.

Definition parseEncryptedPacketStructure (packet_bytes : option bytes) : JM JValue :=
  data ← to_vec packet_bytes "packet_bytes";
  encrypted_packet ← decode_message decode_error data : JM EncryptedPacket;
  java_encrypted_packet_info (ep_temporal_identifier encrypted_packet) (ep_encryption_algorithm encrypted_packet)
    (ep_ciphertext encrypted_packet).

Definition extractTemporalIdentifier (packet_bytes : option bytes) : JM JValue :=
  data ← to_vec packet_bytes "packet_bytes";
  encrypted_packet ← decode_message decode_error data : JM EncryptedPacket;
  if negb (bool_decide (length (ep_temporal_identifier encrypted_packet) = 16%nat))
  then throw_io_exception ("invalid temporal_identifier length: "
    +++ show_nat (length (ep_temporal_identifier encrypted_packet)) +++ ", expected 16")
  else vec_to_jbytearray (ep_temporal_identifier encrypted_packet).

Definition determineMessageType (wrapper_message_bytes : option bytes) : JM JValue :=
  data ← to_vec wrapper_message_bytes "wrapper_message_bytes";
  wrapper ← decode_message decode_error data : JM WrapperMessage;
  string_to_jstring (match wm_payload wrapper with
    | Some (PAuthRequest _) => "AUTH_REQUEST"
    | Some (PAuthGrant _) => "AUTH_GRANT"
    | Some (PAuthDenial _) => "AUTH_DENIAL"
    | Some (PGrantConfirmation _) => "GRANT_CONFIRMATION"
    | Some (PAuthCancel _) => "AUTH_CANCEL"
    | None => "UNKNOWN"
    end).

(** ** Temporal identifiers *)

Definition generateTemporalId (csk : option bytes) (timestamp_seconds : Z) : JM JValue :=
  csk_array ← to_fixed 32 csk "csk";
  let time_window := as_u64 timestamp_seconds / TIME_WINDOW_SECONDS in
  identifier ← or_throw (generate_temporal_identifier (mkCsk csk_array) time_window)
    (λ err, throw_security_exception ("failed to generate temporal ID: " +++ show_crypto_error err));
  vec_to_jbytearray identifier.

Definition generateTemporalIdBle (csk : option bytes) (timestamp_seconds : Z) : JM JValue :=
  csk_array ← to_fixed 32 csk "csk";
  let time_window := as_u64 timestamp_seconds / TIME_WINDOW_SECONDS in
  identifier ← or_throw (generate_temporal_identifier_ble (mkCsk csk_array) time_window)
    (λ err, throw_security_exception ("failed to generate temporal ID: " +++ show_crypto_error err));
  vec_to_jbytearray identifier.

Definition verifyTemporalId (id csk : option bytes) : JM bool :=
  id_bytes ← to_vec id "id";
  csk_array ← to_fixed 32 csk "csk";
  let failed err := throw_security_exception ("failed to verify temporal ID: " +++ show_crypto_error err) in
  if decide (length id_bytes = 16%nat) then on_world (verify_temporal_identifier (mkCsk csk_array) id_bytes) failed
  else if decide (length id_bytes = 10%nat) then on_world (verify_temporal_identifier_ble (mkCsk csk_array) id_bytes) failed
  else throw_illegal_argument ("temporal ID must be 10 or 16 bytes, got " +++ show_nat (length id_bytes)).

(** ** Sealing with a derived nonce *)

Definition encryptWithCsk (csk challenge : option bytes) (context : option string) (plaintext : option bytes) : JM JValue :=
  csk_array ← to_fixed 32 csk "csk";
  challenge_array ← to_fixed 32 challenge "challenge";
  context_str ← to_string context "context";
  plaintext_bytes ← to_vec plaintext "plaintext";
  ciphertext ← or_throw (encrypt_with_csk (mkCsk csk_array) challenge_array (bytes_of_string context_str) plaintext_bytes)
    (λ err, throw_security_exception ("encryption failed: " +++ show_crypto_error err));
  vec_to_jbytearray ciphertext.

Definition decryptWithCsk (csk challenge : option bytes) (context : option string) (ciphertext : option bytes) : JM JValue :=
  csk_array ← to_fixed 32 csk "csk";
  challenge_array ← to_fixed 32 challenge "challenge";
  context_str ← to_string context "context";
  ciphertext_bytes ← to_vec ciphertext "ciphertext";
  plaintext ← or_throw (decrypt_with_csk (mkCsk csk_array) challenge_array (bytes_of_string context_str) ciphertext_bytes)
    (λ err, throw_aead_bad_tag ("decryption failed: " +++ show_crypto_error err));
  vec_to_jbytearray plaintext.

(** ** Signatures *)

(** [show_key_error]: the text of the crate's error for a malformed key. *)
Context (show_key_error : string).

Definition verifySignature (public_key message signature : option bytes) : JM bool :=
  public_key_array ← to_fixed 32 public_key "public_key";
  message_bytes ← to_vec message "message";
  signature_array ← to_fixed 64 signature "signature";
  if negb (ed25519_key_valid public_key_array) then throw_invalid_key ("invalid public key: " +++ show_key_error)
  else mret (ed25519_verify public_key_array message_bytes signature_array).

Definition signData (private_key message : option bytes) : JM JValue :=
  private_key_array ← to_fixed 32 private_key "private_key";
  message_bytes ← to_vec message "message";
  vec_to_jbytearray (ed25519_sign private_key_array message_bytes).

(** The request as it was signed: without its signature. *)
Definition serializeAuthRequestForVerification (challenge : option bytes) (username hostname : option string)
    (timestamp_unix_seconds signature_algorithm : Z) : JM JValue :=
  challenge_bytes ← to_vec challenge "challenge";
  username_str ← to_string username "username";
  hostname_str ← to_string hostname "hostname";
  let auth_request := mkAuthenticationRequest challenge_bytes username_str hostname_str (as_u64 timestamp_unix_seconds) in
  buf ← encode_message (mkWrapperMessage 1 signature_algorithm [] (Some (PAuthRequest auth_request)));
  vec_to_jbytearray buf.

Definition parseGrantConfirmation (confirmation_bytes : option bytes) : JM JValue :=
  data ← to_vec confirmation_bytes "confirmation_bytes";
  wrapper ← decode_message decode_error data : JM WrapperMessage;
  match wm_payload wrapper with
  | Some (PGrantConfirmation conf) =>
      java_grant_confirmation (gc_challenge conf) (wm_signature_algorithm wrapper) (wm_signature wrapper)
  | _ => throw_io_exception "WrapperMessage does not contain GrantConfirmation"
  end.

Definition parseAuthenticationCancel (cancel_bytes : option bytes) : JM JValue :=
  data ← to_vec cancel_bytes "cancel_bytes";
  wrapper ← decode_message decode_error data : JM WrapperMessage;
  match wm_payload wrapper with
  | Some (PAuthCancel c) =>
      java_authentication_cancel (ac_challenge c) (wm_signature_algorithm wrapper) (wm_signature wrapper)
  | _ => throw_io_exception "WrapperMessage does not contain AuthenticationCancel"
  end.

(** ** Answers *)

Definition createGrantWrapperMessage (signed_challenge private_key : option bytes) : JM JValue :=
  signed_challenge_bytes ← to_vec signed_challenge "signed_challenge";
  keypair ← to_keypair private_key "private_key";
  wrapper ← or_throw (sign_wrapper_message
      (mkWrapperMessage 1 SIGNATURE_ED25519 [] (Some (PAuthGrant (mkAuthenticationGrant signed_challenge_bytes)))) keypair)
    (λ err, throw_io_exception ("failed to sign wrapper: " +++ show_protocol_error err));
  buf ← encode_message wrapper;
  vec_to_jbytearray buf.

Definition createDenialWrapperMessage (challenge private_key : option bytes) : JM JValue :=
  challenge_bytes ← to_fixed 32 challenge "challenge";
  keypair ← to_keypair private_key "private_key";
  wrapper ← or_throw (sign_wrapper_message
      (mkWrapperMessage 1 SIGNATURE_ED25519 [] (Some (PAuthDenial (mkAuthenticationDenial challenge_bytes)))) keypair)
    (λ err, throw_io_exception ("failed to sign wrapper: " +++ show_protocol_error err));
  buf ← encode_message wrapper;
  vec_to_jbytearray buf.

(** ** Packets *)

Definition createEncryptedPacket (csk wrapper_message_bytes : option bytes) : JM JValue :=
  csk_array ← to_fixed 32 csk "csk";
  payload ← to_vec wrapper_message_bytes "wrapper_message_bytes";
  nonce ← on_world (getrandom_fill 12)
    (λ _, throw_security_exception ("random generation failed: " +++ show_random_error));
  ciphertext_with_nonce ← or_throw (encrypt_aes_gcm csk_array nonce payload [])
    (λ err, throw_security_exception ("encryption failed: " +++ show_crypto_error err));
  let ciphertext := nonce ++ ciphertext_with_nonce in
  temporal_id ← on_world (generate_current_temporal_identifier (mkCsk csk_array))
    (λ err, throw_security_exception ("temporal ID generation failed: " +++ show_crypto_error err));
  buf ← encode_message (mkEncryptedPacket temporal_id SYMMETRIC_AES_256_GCM ciphertext);
  vec_to_jbytearray buf.

Definition decryptEncryptedPacket (csk encrypted_packet_bytes : option bytes) : JM JValue :=
  csk_array ← to_fixed 32 csk "csk";
  packet_bytes ← to_vec encrypted_packet_bytes "encrypted_packet_bytes";
  encrypted_packet ← decode_message decode_error packet_bytes : JM EncryptedPacket;
  let ciphertext := ep_ciphertext encrypted_packet in
  if decide (length ciphertext < 12)%nat then throw_security_exception "ciphertext too short - missing nonce" else
  nonce ← or_throw (ok_or () (slice_to 12 ciphertext)) (λ _, throw_security_exception "failed to extract nonce");
  actual_ciphertext ← or_throw (ok_or () (slice_from 12 ciphertext))
    (λ _, throw_security_exception "failed to extract ciphertext");
  wrapper_bytes ← or_throw (decrypt_aes_gcm csk_array nonce actual_ciphertext [])
    (λ _, throw_security_exception "decryption failed");
  vec_to_jbytearray wrapper_bytes.

(** ** Pairing messages *)

Definition createPairingHello (version : Z) (x25519_public_key ed25519_public_key : option bytes) (device_name : option string)
    (supported_symmetric supported_hash supported_signature : option (list Z)) : JM JValue :=
  x25519_bytes ← to_vec x25519_public_key "x25519_public_key";
  ed25519_bytes ← to_vec ed25519_public_key "ed25519_public_key";
  device_name_str ← to_string device_name "device_name";
  symmetric_algos ← to_ints supported_symmetric;
  hash_algos ← to_ints supported_hash;
  signature_algos ← to_ints supported_signature;
  buf ← encode_message (mkPairingHello (as_u32 version) x25519_bytes ed25519_bytes device_name_str
                          symmetric_algos hash_algos signature_algos);
  vec_to_jbytearray buf.

Definition parsePairingResponse (response_bytes : option bytes) : JM JValue :=
  data ← to_vec response_bytes "response_bytes";
  response ← decode_message decode_error data : JM PairingResponse;
  java_pairing_response (as_i32 (pr_version response)) (pr_x25519_public_key response) (pr_ed25519_public_key response)
    (pr_device_name response) (pr_selected_symmetric response) (pr_selected_hash response) (pr_selected_signature response).

Definition createPairingCskMessage (encrypted_csk : option bytes) (username : option string) : JM JValue :=
  encrypted_csk_bytes ← to_vec encrypted_csk "encrypted_csk";
  username_str ← to_string username "username";
  buf ← encode_message (mkPairingCskMessage encrypted_csk_bytes username_str);
  vec_to_jbytearray buf.

Definition parsePairingCskMessage (message_bytes : option bytes) : JM JValue :=
  data ← to_vec message_bytes "message_bytes";
  csk_msg ← decode_message decode_error data : JM PairingCskMessage;
  make_bytes_string_array (pm_encrypted_csk csk_msg) (pm_username csk_msg).

Definition createPairingComplete (success : bool) (hash_algorithm : Z) (encrypted_csk_hash : option bytes) : JM JValue :=
  hash_bytes ← to_vec encrypted_csk_hash "encrypted_csk_hash";
  buf ← encode_message (mkPairingComplete success hash_algorithm hash_bytes);
  vec_to_jbytearray buf.

Definition parsePairingComplete (complete_bytes : option bytes) : JM JValue :=
  data ← to_vec complete_bytes "complete_bytes";
  complete ← decode_message decode_error data : JM PairingComplete;
  java_pairing_complete (pc_success complete) (pc_hash_algorithm complete) (pc_csk_hash complete).
End api.

(** What Java gets: [null], or [false], after a failure. *)
Definition exported (k : JM JValue) (j : Jvm) : Jvm * JValue :=
  let '(j', r) := k j in (j', match r with Ok v => v | Err _ => JNull end).
Definition exported_bool (k : JM bool) (j : Jvm) : Jvm * bool :=
  let '(j', r) := k j in (j', match r with Ok b => b | Err _ => false end).
