(* ===== verification/JniTheorems.v ===== *)
(** * Theorems about the Android bindings

    Failures are exceptions, results have the types Kotlin declares, and the phone and
    the daemon understand each other. *)

From stdpp Require Import base gmap strings list.
From Stdlib Require Import Strings.Ascii Strings.Byte.
From S2P Require Import Prelude Os Text Crypto Concrete CryptoTheorems Protocol ConcreteCodec Config PairingUrl.
From S2P Require Import Pairing PairingTheorems Network Auth ConcreteAuth AuthTheorems Ipc Session SessionTheorems Jni JniApi.

(** ** Every entry point *)

Inductive JniCall :=
| CallGenerateKeypair
| CallGenerateX25519Keypair
| CallKeyExchange (our_private_key their_public_key : option bytes)
| CallGetSas (psk client_public server_public : option bytes)
| CallDecryptWithPsk (psk ciphertext : option bytes)
| CallEncryptWithPsk (psk plaintext : option bytes)
| CallSha256 (data : option bytes)
| CallParseAuthRequest (b : option bytes)
| CallParseEncryptedPacketStructure (b : option bytes)
| CallExtractTemporalIdentifier (b : option bytes)
| CallDetermineMessageType (b : option bytes)
| CallGenerateTemporalId (csk : option bytes) (timestamp : Z)
| CallGenerateTemporalIdBle (csk : option bytes) (timestamp : Z)
| CallVerifyTemporalId (id csk : option bytes)
| CallEncryptWithCsk (csk challenge : option bytes) (context : option string) (plaintext : option bytes)
| CallDecryptWithCsk (csk challenge : option bytes) (context : option string) (ciphertext : option bytes)
| CallVerifySignature (public_key message signature : option bytes)
| CallSignData (private_key message : option bytes)
| CallSerializeAuthRequest (challenge : option bytes) (username hostname : option string) (timestamp algorithm : Z)
| CallParseGrantConfirmation (b : option bytes)
| CallParseAuthenticationCancel (b : option bytes)
| CallCreateGrant (signed_challenge private_key : option bytes)
| CallCreateDenial (challenge private_key : option bytes)
| CallCreateEncryptedPacket (csk wrapper : option bytes)
| CallDecryptEncryptedPacket (csk packet : option bytes)
| CallCreatePairingHello (version : Z) (x ed : option bytes) (name : option string) (sym hash sig : option (list Z))
| CallParsePairingResponse (b : option bytes)
| CallCreatePairingCskMessage (encrypted_csk : option bytes) (username : option string)
| CallParsePairingCskMessage (b : option bytes)
| CallCreatePairingComplete (success : bool) (hash_algorithm : Z) (hash : option bytes)
| CallParsePairingComplete (b : option bytes).

(** ** Failing with an exception *)

(** On a machine that can throw: a step fails exactly when it leaves an exception. *)
Definition throws {A} (k : JM A) : Prop := ∀ j j' r,
  jv_throws j = true → jv_pending j = None → k j = (j', r) →
  jv_throws j' = true ∧ (is_ok r = true ↔ jv_pending j' = None).

(** A step that does nothing but throw. *)
Definition raises {A} (k : JM A) : Prop := ∃ class message, k = throw_exception class message.

Create HintDb jni discriminated.

Lemma throws_mret {A} (a : A) : throws (mret a).
Proof. intros j j' r Ht Hp. unfold mret, M_ret. by intros [= <- <-]. Qed.
Lemma throws_raises {A} (k : JM A) : raises k → throws k.
Proof. intros (c & m & ->) j j' r Ht Hp. unfold throw_exception. rewrite Ht. by intros [= <- <-]. Qed.
Lemma throws_bind {A B} (k : JM A) (f : A → JM B) : throws k → (∀ a, throws (f a)) → throws (k ≫= f).
Proof.
  intros Hk Hf j j' r Ht Hp. unfold mbind, M_bind. destruct (k j) as [j1 [a|e]] eqn:E.
  - destruct (Hk _ _ _ Ht Hp E) as [Ht1 Hp1]. apply Hf; [done|by apply Hp1].
  - intros [= <- <-]. destruct (Hk _ _ _ Ht Hp E) as [Ht1 Hp1]. split; [done|]. by rewrite <-Hp1.
Qed.
Lemma throws_op {A} (r : result string A) f : (∀ e, raises (f e)) → throws (jni_op r f).
Proof.
  intros Hf j j' r' Ht Hp. unfold jni_op. destruct (match jv_faults j with [] => _ | _ => _ end) as [flt rest].
  assert (Hr : ∀ e, f e (mkJvm (jv_world j) rest (jv_throws j) (jv_pending j)) = (j', r') →
    jv_throws j' = true ∧ (is_ok r' = true ↔ jv_pending j' = None)).
  { intros e. by apply (throws_raises _ (Hf e)). }
  destruct flt as [flt|]; [apply Hr|]. destruct r as [a|e]; [|apply Hr]. by intros [= <- <-].
Qed.
Lemma throws_on_world {E A} (k : M World E A) f : (∀ e, raises (f e)) → throws (on_world k f).
Proof.
  intros Hf j j' r Ht Hp. unfold on_world. destruct (k (jv_world j)) as [w [a|e]]; [by intros [= <- <-]|].
  by apply (throws_raises _ (Hf e)).
Qed.
Lemma throws_or_throw {E A} (r : result E A) f : (∀ e, raises (f e)) → throws (or_throw r f).
Proof. intros Hf. destruct r as [a|e]; [apply throws_mret|apply throws_raises, Hf]. Qed.

Lemma raises_exception {A} c m : raises (@throw_exception A c m).
Proof. by exists c, m. Qed.
Lemma raises_tapauth {A} e : raises (@throw_tapauth_error A e).
Proof. destruct e; apply raises_exception. Qed.

#[export] Hint Resolve throws_mret raises_exception raises_tapauth : jni.
#[export] Hint Extern 0 (raises (throw_illegal_argument _)) => apply raises_exception : jni.
#[export] Hint Extern 0 (raises (throw_illegal_state _)) => apply raises_exception : jni.
#[export] Hint Extern 0 (raises (throw_out_of_memory _)) => apply raises_exception : jni.
#[export] Hint Extern 0 (raises (throw_io_exception _)) => apply raises_exception : jni.
#[export] Hint Extern 0 (raises (throw_security_exception _)) => apply raises_exception : jni.
#[export] Hint Extern 0 (raises (throw_aead_bad_tag _)) => apply raises_exception : jni.
#[export] Hint Extern 0 (raises (throw_invalid_key _)) => apply raises_exception : jni.

(** Follow the structure of an entry point. *)
Ltac throws :=
  repeat first
    [ progress intros
    | apply throws_op
    | apply throws_on_world
    | apply throws_or_throw
    | apply throws_bind
    | match goal with
      | |- throws (match ?x with _ => _ end) => destruct x
      | |- throws (let _ := _ in _) => cbn zeta
      | |- raises (match ?x with _ => _ end) => destruct x
      end
    | apply throws_raises; solve [auto with jni]
    | solve [auto with jni] ].

Section helpers.
Context (null_error : string).
Lemma throws_to_vec a n : throws (jbytearray_to_vec null_error a n).
Proof. unfold jbytearray_to_vec. throws. Qed.
Lemma throws_to_fixed k a n : throws (jbytearray_to_fixed null_error k a n).
Proof. unfold jbytearray_to_fixed. apply throws_bind; [apply throws_to_vec|]. throws. Qed.
Lemma throws_to_string a n : throws (jstring_to_rust null_error a n).
Proof. unfold jstring_to_rust. throws. Qed.
Lemma throws_to_ints a : throws (jintarray_to_vec null_error a).
Proof. unfold jintarray_to_vec. throws. Qed.
Lemma throws_to_keypair `{CryptoOps} a n : throws (jbytearray_to_ed25519_keypair null_error a n).
Proof. unfold jbytearray_to_ed25519_keypair. apply throws_bind; [apply throws_to_vec|]. throws. Qed.
Lemma throws_bytes b : throws (vec_to_jbytearray b).
Proof. unfold vec_to_jbytearray. throws. Qed.
Lemma throws_string s : throws (string_to_jstring s).
Proof. unfold string_to_jstring. throws. Qed.
Lemma throws_new_array n s : throws (new_object_array n s).
Proof. unfold new_object_array. throws. Qed.
Lemma throws_set_element a i v : throws (set_object_array_element a i v).
Proof. unfold set_object_array_element. throws. Qed.
Lemma throws_object c l : throws (create_object c l).
Proof. unfold create_object. throws. Qed.
Lemma throws_decode {A} `{Codec A} e b : throws (decode_message (A := A) e b).
Proof. unfold decode_message. throws. Qed.
Lemma throws_encode {A} `{Codec A} (m : A) : throws (encode_message m).
Proof. apply throws_mret. Qed.
End helpers.

#[export] Hint Resolve throws_to_vec throws_to_fixed throws_to_string throws_to_ints throws_to_keypair throws_bytes
  throws_string throws_new_array throws_set_element throws_object throws_decode throws_encode : jni.

Section calls.
Context `{C : CryptoOps} `{H : Hex} `{KW : !Codec WrapperMessage} `{KE : !Codec EncryptedPacket}.
Context `{KH : !Codec PairingHello} `{KR : !Codec PairingResponse}.
Context `{KM : !Codec PairingCskMessage} `{KC : !Codec PairingComplete}.
Context (null_error decode_error : string).
Context (show_crypto_error : CryptoError → string) (show_protocol_error : ProtocolError → string).
Context (show_random_error show_key_error : string).

(** The entry point of each call, by its result: a reference or a truth value. *)
Definition jni_call (c : JniCall) : JM JValue + JM bool :=
  match c with
  | CallGenerateKeypair => inl (generateKeypair show_crypto_error)
  | CallGenerateX25519Keypair => inl (generateX25519Keypair show_crypto_error)
  | CallKeyExchange a b => inl (keyExchange null_error show_crypto_error a b)
  | CallGetSas p a b => inl (getSas null_error show_crypto_error p a b)
  | CallDecryptWithPsk p x => inl (decryptWithPsk null_error show_crypto_error p x)
  | CallEncryptWithPsk p x => inl (encryptWithPsk null_error show_crypto_error p x)
  | CallSha256 d => inl (sha256Hex null_error d)
  | CallParseAuthRequest b => inl (parseAuthRequest null_error decode_error b)
  | CallParseEncryptedPacketStructure b => inl (parseEncryptedPacketStructure null_error decode_error b)
  | CallExtractTemporalIdentifier b => inl (extractTemporalIdentifier null_error decode_error b)
  | CallDetermineMessageType b => inl (determineMessageType null_error decode_error b)
  | CallGenerateTemporalId k t => inl (generateTemporalId null_error show_crypto_error k t)
  | CallGenerateTemporalIdBle k t => inl (generateTemporalIdBle null_error show_crypto_error k t)
  | CallVerifyTemporalId i k => inr (verifyTemporalId null_error show_crypto_error i k)
  | CallEncryptWithCsk k c x p => inl (encryptWithCsk null_error show_crypto_error k c x p)
  | CallDecryptWithCsk k c x p => inl (decryptWithCsk null_error show_crypto_error k c x p)
  | CallVerifySignature k m s => inr (verifySignature null_error show_key_error k m s)
  | CallSignData k m => inl (signData null_error k m)
  | CallSerializeAuthRequest c u h t a => inl (serializeAuthRequestForVerification null_error c u h t a)
  | CallParseGrantConfirmation b => inl (parseGrantConfirmation null_error decode_error b)
  | CallParseAuthenticationCancel b => inl (parseAuthenticationCancel null_error decode_error b)
  | CallCreateGrant s k => inl (createGrantWrapperMessage null_error show_protocol_error s k)
  | CallCreateDenial c k => inl (createDenialWrapperMessage null_error show_protocol_error c k)
  | CallCreateEncryptedPacket k m => inl (createEncryptedPacket null_error show_crypto_error show_random_error k m)
  | CallDecryptEncryptedPacket k p => inl (decryptEncryptedPacket null_error decode_error k p)
  | CallCreatePairingHello v x e n s h g => inl (createPairingHello null_error v x e n s h g)
  | CallParsePairingResponse b => inl (parsePairingResponse null_error decode_error b)
  | CallCreatePairingCskMessage e u => inl (createPairingCskMessage null_error e u)
  | CallParsePairingCskMessage b => inl (parsePairingCskMessage null_error decode_error b)
  | CallCreatePairingComplete s a h => inl (createPairingComplete null_error s a h)
  | CallParsePairingComplete b => inl (parsePairingComplete null_error decode_error b)
  end.

Lemma jni_call_throws c : match jni_call c with inl k => throws k | inr k => throws k end.
Proof. destruct c; simpl; throws. Qed.
End calls.

(** ** What a step returns *)

Definition returns {A} (k : JM A) (P : A → Prop) : Prop := ∀ j j' a, k j = (j', Ok a) → P a.

Lemma returns_raises {A} (k : JM A) P : raises k → returns k P.
Proof. by intros (c & m & ->) j j' a. Qed.
Lemma returns_mret {A} (a : A) (P : A → Prop) : P a → returns (mret a) P.
Proof. by intros HP j j' b [= _ <-]. Qed.
Lemma returns_bind {A B} (k : JM A) (f : A → JM B) P : returns k (λ a, returns (f a) P) → returns (k ≫= f) P.
Proof.
  intros Hk j j' b. unfold mbind, M_bind. destruct (k j) as [j1 [a|]] eqn:E; [|done]. by apply (Hk _ _ _ E).
Qed.
Lemma returns_op {A} (r : result string A) f (P : A → Prop) :
  (∀ e, raises (f e)) → (∀ a, r = Ok a → P a) → returns (jni_op r f) P.
Proof.
  intros Hf HP j j' a. unfold jni_op. destruct (match jv_faults j with [] => _ | _ => _ end) as [flt rest].
  destruct flt as [flt|]; [apply (returns_raises _ _ (Hf _))|]. destruct r as [b|e]; [|apply (returns_raises _ _ (Hf _))].
  intros [= _ <-]. by apply HP.
Qed.
Lemma returns_on_world {E A} (k : M World E A) f (P : A → Prop) :
  (∀ e, raises (f e)) → (∀ w w' a, k w = (w', Ok a) → P a) → returns (on_world k f) P.
Proof.
  intros Hf HP j j' a. unfold on_world. destruct (k (jv_world j)) as [w [b|e]] eqn:Ek; [|apply (returns_raises _ _ (Hf e))].
  intros [= _ <-]. by eapply HP.
Qed.
Lemma returns_or_throw {E A} (r : result E A) f (P : A → Prop) :
  (∀ e, raises (f e)) → (∀ a, r = Ok a → P a) → returns (or_throw r f) P.
Proof. intros Hf HP. destruct r as [a|e]; [by apply returns_mret, HP|apply returns_raises, Hf]. Qed.

Section helper_results.
Context (null_error : string).
Lemma returns_to_vec a n (P : bytes → Prop) : (∀ b, a = Some b → P b) → returns (jbytearray_to_vec null_error a n) P.
Proof. intros HP. apply returns_op; [by auto with jni|]. intros b Hb%ok_or_Ok. by apply HP. Qed.
Lemma returns_to_fixed k a n (P : bytes → Prop) :
  (∀ b, a = Some b → length b = k → P b) → returns (jbytearray_to_fixed null_error k a n) P.
Proof.
  intros HP. apply returns_bind, returns_to_vec. intros b ?. case_decide; [by apply returns_mret, HP|].
  apply returns_raises. auto with jni.
Qed.
Lemma returns_to_string a n (P : string → Prop) : (∀ s, P s) → returns (jstring_to_rust null_error a n) P.
Proof. intros HP. apply returns_op; [by auto with jni|]. intros. apply HP. Qed.
Lemma returns_to_ints a (P : list Z → Prop) : (∀ l, P l) → returns (jintarray_to_vec null_error a) P.
Proof. intros HP. apply returns_op; [intros []; by auto with jni|]. intros. apply HP. Qed.
Lemma returns_to_keypair `{CryptoOps} a n (P : Ed25519KeyPair → Prop) :
  (∀ b, a = Some b → length b = 32%nat ∨ length b = 64%nat → P (from_signing_key_bytes (take 32 b))) →
  returns (jbytearray_to_ed25519_keypair null_error a n) P.
Proof.
  intros HP. apply returns_bind, returns_to_vec. intros b Hb. apply returns_bind. case_decide.
  - unfold slice_to. case_decide; [|lia]. apply returns_mret, returns_mret, HP; [done|by right].
  - case_decide as Hl; [|apply returns_raises; auto with jni]. apply returns_mret, returns_mret.
    rewrite <-(take_ge b 32) by lia. apply HP; [done|by left].
Qed.
Lemma returns_bytes b (P : JValue → Prop) : P (JBytes b) → returns (vec_to_jbytearray b) P.
Proof. intros HP. apply returns_op; [by auto with jni|]. by intros a [= <-]. Qed.
Lemma returns_string s (P : JValue → Prop) : P (JString s) → returns (string_to_jstring s) P.
Proof. intros HP. apply returns_op; [by auto with jni|]. by intros a [= <-]. Qed.
Lemma returns_object c l (P : JValue → Prop) : P (JObject c l) → returns (create_object c l) P.
Proof.
  intros HP. apply returns_bind, returns_op; [by auto with jni|]. intros _ _.
  apply returns_op; [by auto with jni|]. by intros a [= <-].
Qed.
Lemma returns_new_array n s (P : list JValue → Prop) : P (replicate n JNull) → returns (new_object_array n s) P.
Proof.
  intros HP. apply returns_bind, returns_op; [by auto with jni|]. intros _ _.
  apply returns_op; [by auto with jni|]. by intros a [= <-].
Qed.
Lemma returns_set_element l i v (P : list JValue → Prop) :
  (i < length l → P (<[i := v]> l))%nat → returns (set_object_array_element l i v) P.
Proof.
  intros HP. apply returns_bind, returns_op; [by auto with jni|]. intros _ _.
  apply returns_bind, returns_op; [by auto with jni|]. intros _ _.
  case_decide; [apply returns_raises; auto with jni|]. apply returns_op; [by auto with jni|].
  intros a [= <-]. apply HP. lia.
Qed.
Lemma returns_decode {A} `{Codec A} e b (P : A → Prop) :
  (∀ m, decode b = Some m → P m) → returns (decode_message e b) P.
Proof.
  intros HP. unfold decode_message. destruct (decode b); [by apply returns_mret, HP|]. apply returns_raises. auto with jni.
Qed.
Lemma returns_encode {A} `{Codec A} (m : A) (P : bytes → Prop) : P (encode_to_vec m) → returns (encode_message m) P.
Proof. apply returns_mret. Qed.
End helper_results.

(** Compute what an entry point returns, up to facts about its parts. *)
Ltac returns :=
  repeat first
    [ progress intros
    | apply returns_to_vec | apply returns_to_fixed | apply returns_to_string | apply returns_to_ints
    | apply returns_to_keypair | apply returns_bytes | apply returns_string | apply returns_object
    | apply returns_new_array | apply returns_set_element | apply returns_decode | apply returns_encode
    | apply returns_on_world; [solve [auto with jni]|]
    | apply returns_or_throw; [solve [auto with jni]|]
    | apply returns_bind
    | match goal with
      | |- returns (match ?x with _ => _ end) _ => destruct x eqn:?
      | |- returns (let _ := _ in _) _ => cbn zeta
      end
    | apply returns_raises; solve [auto with jni]
    | apply returns_mret ].

(** ** Types of Java *)

Inductive JType :=
| TyBytes (n : option nat)        (* a byte array, of a known length *)
| TyString (n : option nat)
| TyInt
| TyLong
| TyBool
| TyArray (l : list JType)
| TyObject (class : string) (fields : list JType).

Definition sized {A} (n : option nat) (l : list A) : Prop := match n with Some k => length l = k | None => True end.

Inductive typed : JType → JValue → Prop :=
| typed_bytes n b : sized n b → typed (TyBytes n) (JBytes b)
| typed_string n s : sized n (chars s) → typed (TyString n) (JString s)
| typed_int n : typed TyInt (JInt n)
| typed_long n : - 2 ^ 63 ≤ n < 2 ^ 63 → typed TyLong (JLong n)
| typed_bool b : typed TyBool (JBool b)
| typed_array ts vs : Forall2 typed ts vs → typed (TyArray ts) (JArray vs)
| typed_object c ts vs : Forall2 typed ts vs → typed (TyObject c ts) (JObject c vs).

(** Reduce typing to the sizes. *)
Ltac typing :=
  repeat match goal with
  | |- typed _ _ => constructor
  | |- Forall2 typed _ _ => constructor
  | |- sized None _ => exact I
  | |- sized (Some _) _ => cbn [sized]
  end.

(** What the declarations of the Kotlin class promise. *)
Definition result_type (c : JniCall) : JType :=
  match c with
  | CallGenerateKeypair | CallGenerateX25519Keypair => TyArray [TyBytes (Some 32); TyBytes (Some 32)]%nat
  | CallKeyExchange _ _ => TyBytes (Some 32%nat)
  | CallGetSas _ _ _ => TyString (Some 6%nat)
  | CallSha256 _ | CallDetermineMessageType _ => TyString None
  | CallParseAuthRequest _ => TyObject "dev/rourunisen/tapauth/crypto/AuthRequest"
      [TyBytes None; TyString None; TyString None; TyLong; TyInt; TyBytes None]
  | CallParseEncryptedPacketStructure _ => TyObject "dev/rourunisen/tapauth/crypto/EncryptedPacketInfo"
      [TyBytes None; TyInt; TyBytes None]
  | CallExtractTemporalIdentifier _ | CallGenerateTemporalId _ _ => TyBytes (Some 16%nat)
  | CallGenerateTemporalIdBle _ _ => TyBytes (Some 10%nat)
  | CallVerifyTemporalId _ _ | CallVerifySignature _ _ _ => TyBool
  | CallSignData _ _ => TyBytes (Some 64%nat)
  | CallParseGrantConfirmation _ => TyObject "dev/rourunisen/tapauth/crypto/GrantConfirmation"
      [TyBytes None; TyInt; TyBytes None]
  | CallParseAuthenticationCancel _ => TyObject "dev/rourunisen/tapauth/crypto/AuthenticationCancel"
      [TyBytes None; TyInt; TyBytes None]
  | CallParsePairingResponse _ => TyObject "dev/rourunisen/tapauth/crypto/PairingResponse"
      [TyInt; TyBytes None; TyBytes None; TyString None; TyInt; TyInt; TyInt]
  | CallParsePairingCskMessage _ => TyArray [TyBytes None; TyString None]
  | CallParsePairingComplete _ => TyObject "dev/rourunisen/tapauth/crypto/PairingComplete" [TyBool; TyInt; TyBytes None]
  | _ => TyBytes None
  end.

Lemma as_i64_range n : - 2 ^ 63 ≤ as_i64 n < 2 ^ 63.
Proof. unfold as_i64. pose proof (Z.mod_pos_bound (n + 2 ^ 63) (2 ^ 64)). lia. Qed.

(** Sizes of keys, identifiers and codes. *)
Section sizes.
Context `{C : CryptoOps} `{L : !CryptoLaws C}.
Lemma signing_size w w' kp : ed25519_generate w = (w', Ok kp) → length (signing_key_bytes kp) = 32%nat.
Proof. by intros [? _]%ed25519_generate_wf. Qed.
Lemma verifying_size w w' kp : ed25519_generate w = (w', Ok kp) → length (verifying_key_bytes kp) = 32%nat.
Proof. intros Hg%ed25519_generate_wf. by apply verifying_key_length. Qed.
Lemma x_secret_size w w' kp : x25519_generate w = (w', Ok kp) → length (x25519_secret_bytes kp) = 32%nat.
Proof. by intros [? _]%x25519_generate_wf. Qed.
Lemma x_public_size w w' kp : x25519_generate w = (w', Ok kp) → length (x25519_public_bytes kp) = 32%nat.
Proof. intros [Hl ->]%x25519_generate_wf. by apply x25519_public_length. Qed.
Lemma psk_size s psk : derive_psk_from_x25519 s = Ok psk → length (psk_bytes psk) = 32%nat.
Proof.
  unfold derive_psk_from_x25519. destruct (hkdf_total s (bytes_of_string "tapauth-pairing-key") 32) as (o & -> & Ho); [lia|].
  by intros [= <-].
Qed.
Lemma sas_size psk a b sas : derive_sas psk a b = Ok sas → length (chars sas) = 6%nat.
Proof. destruct (derive_sas_total psk a b) as (n & -> & Hn). intros [= <-]. by apply fmt06_length. Qed.
Lemma temporal_size csk win i : generate_temporal_identifier csk win = Ok i → length i = 16%nat.
Proof. destruct (generate_temporal_total csk win) as (? & -> & ? & _). by intros [= <-]. Qed.
Lemma temporal_ble_size csk win i : generate_temporal_identifier_ble csk win = Ok i → length i = 10%nat.
Proof. destruct (generate_temporal_total csk win) as (? & _ & Hl & ->). intros [= <-]. rewrite length_take. lia. Qed.
End sizes.
#[export] Hint Resolve signing_size verifying_size x_secret_size x_public_size psk_size sas_size temporal_size
  temporal_ble_size as_i64_range ed25519_sign_length : jni.

Section claims.
Context `{C : CryptoOps} `{L : !CryptoLaws C} `{H : Hex} `{KW : !Codec WrapperMessage} `{KE : !Codec EncryptedPacket}.
Context `{KH : !Codec PairingHello} `{KR : !Codec PairingResponse}.
Context `{KM : !Codec PairingCskMessage} `{KC : !Codec PairingComplete}.
Context (null_error decode_error : string).
Context (show_crypto_error : CryptoError → string) (show_protocol_error : ProtocolError → string).
Context (show_random_error show_key_error : string).

#[local] Abbreviation entry := (jni_call null_error decode_error show_crypto_error show_protocol_error
  show_random_error show_key_error).

(** What Java sees of a call. *)
Definition java_call (c : JniCall) (j : Jvm) : Jvm * JValue :=
  match entry c with
  | inl k => exported k j
  | inr k => let '(j', b) := exported_bool k j in (j', JBool b)
  end.

Lemma call_typed c k : entry c = inl k → returns k (typed (result_type c)).
Proof.
  destruct c; simpl; intros [= <-]; returns; simpl; typing; eauto with jni.
  by match goal with Hb : negb _ = false |- _ => apply negb_false_iff, bool_decide_eq_true in Hb end.
Qed.

(** C24: Failures are exceptions.  In a virtual machine that can throw, with no exception
    pending, every entry point returns [null] exactly when it leaves an exception
    pending; the two that return a truth value return [false] in that case.  This
    holds whatever arguments are null or malformed and whichever operations of the
    machine fail. *)
Theorem jni_null_iff_exception c j j' v :
  jv_throws j = true → jv_pending j = None → java_call c j = (j', v) →
  match entry c with
  | inl _ => v = JNull ↔ is_Some (jv_pending j')
  | inr _ => (∃ b, v = JBool b) ∧ (is_Some (jv_pending j') → v = JBool false)
  end.
Proof.
  intros Ht Hp. unfold java_call, exported, exported_bool.
  pose proof (jni_call_throws null_error decode_error show_crypto_error show_protocol_error show_random_error show_key_error c) as Hc.
  destruct (entry c) as [k|k] eqn:Ee; destruct (k j) as [j1 r] eqn:Ek; destruct (Hc _ _ _ Ht Hp Ek) as [_ Hr]; intros [= <- <-].
  - destruct r as [v|[]].
    + apply (call_typed _ _ Ee) in Ek. rewrite (proj1 Hr eq_refl). split; [intros ->; by inversion Ek|by intros []].
    + split; [intros _|done]. destruct (jv_pending j1); [by eexists|]. by pose proof (proj2 Hr eq_refl).
  - split; [by eexists|]. intros [e He]. destruct r as [b|]; [|done]. rewrite (proj1 Hr eq_refl) in He. done.
Qed.

(** C25: Results have the declared types.  A call that leaves no exception returns a value of
    the type Kotlin declares: keys of 32 bytes, identifiers of 16 or 10, signatures of
    64, a short authentication string of six characters, objects of the named class
    with fields of the right types and a timestamp within [Long]. *)
Theorem jni_result_typed c j j' v :
  jv_throws j = true → jv_pending j = None → java_call c j = (j', v) → jv_pending j' = None →
  typed (result_type c) v.
Proof.
  intros Ht Hp. unfold java_call, exported, exported_bool.
  pose proof (jni_call_throws null_error decode_error show_crypto_error show_protocol_error show_random_error show_key_error c) as Hc.
  destruct (entry c) as [k|k] eqn:Ee; destruct (k j) as [j1 r] eqn:Ek; destruct (Hc _ _ _ Ht Hp Ek) as [_ Hr]; intros [= <- <-] Hn.
  - destruct r as [v|[]]; [by apply (call_typed _ _ Ee) in Ek|]. by pose proof (proj2 Hr Hn).
  - destruct c; simplify_eq/=; constructor.
Qed.
End claims.

(** ** The phone and the daemon *)

Lemma as_u64_as_i64 n : u64 n → as_u64 (as_i64 n) = n.
Proof.
  intros Hn. unfold as_u64, as_i64. rewrite Zminus_mod_idemp_l. replace (n + 2 ^ 63 - 2 ^ 63) with n by lia.
  by apply Z.mod_small.
Qed.

(** A machine on which nothing goes wrong. *)
Section quiet.
Context (null_error : string) (j : Jvm) (Hq : jv_faults j = []).
Lemma op_quiet {A} (a : A) f : jni_op (Ok a) f j = (j, Ok a).
Proof. unfold jni_op. rewrite Hq. destruct j. simpl in *. by subst. Qed.
Lemma to_vec_quiet b n : jbytearray_to_vec null_error (Some b) n j = (j, Ok b).
Proof. apply op_quiet. Qed.
Lemma to_fixed_quiet k b n : length b = k → jbytearray_to_fixed null_error k (Some b) n j = (j, Ok b).
Proof.
  intros Hb. unfold jbytearray_to_fixed, mbind, M_bind. rewrite to_vec_quiet. by rewrite decide_True.
Qed.
Lemma to_string_quiet s n : jstring_to_rust null_error (Some s) n j = (j, Ok s).
Proof. apply op_quiet. Qed.
Lemma bytes_quiet b : vec_to_jbytearray b j = (j, Ok (JBytes b)).
Proof. apply op_quiet. Qed.
Lemma string_quiet s : string_to_jstring s j = (j, Ok (JString s)).
Proof. apply op_quiet. Qed.
Lemma object_quiet c l : create_object c l j = (j, Ok (JObject c l)).
Proof. unfold create_object, mbind, M_bind. rewrite op_quiet. apply op_quiet. Qed.
End quiet.

(** Run an entry point on such a machine. *)
Ltac quiet_run :=
  repeat (unfold mbind, M_bind; first
    [ rewrite to_fixed_quiet by done | rewrite to_vec_quiet by done | rewrite to_string_quiet by done
    | rewrite bytes_quiet by done | rewrite string_quiet by done | rewrite object_quiet by done ]).

Section phone.
Context `{C : CryptoOps} `{L : !CryptoLaws C} `{H : Hex}.
Context `{KW : !Codec WrapperMessage} `{LW : !CodecLaws WrapperMessage KW wrapper_wire}.
Context `{KE : !Codec EncryptedPacket} `{LE : !CodecLaws EncryptedPacket KE packet_wire}.
Context (null_error decode_error : string).
Context (show_crypto_error : CryptoError → string) (show_protocol_error : ProtocolError → string).
Context (show_random_error show_key_error : string).

Lemma sign_data_returns sk m :
  returns (signData null_error (Some sk) (Some m)) (λ v, v = JBytes (ed25519_sign sk m) ∧ length sk = 32%nat).
Proof. unfold signData. returns. by simplify_eq. Qed.

Lemma create_grant_returns sg sk :
  returns (createGrantWrapperMessage null_error show_protocol_error (Some sg) (Some sk))
    (λ v, ∃ wr, v = JBytes (encode_to_vec wr) ∧
      sign_wrapper_message (wrap_auth_grant (mkAuthenticationGrant sg)) (from_signing_key_bytes (take 32 sk)) = Ok wr).
Proof. unfold createGrantWrapperMessage. returns. simplify_eq. by eexists. Qed.

Lemma create_packet_returns csk payload :
  returns (createEncryptedPacket null_error show_crypto_error show_random_error (Some csk) (Some payload))
    (λ v, ∃ p, v = JBytes (encode_to_vec p) ∧ wire_ok p ∧ length csk = 32%nat ∧
      decrypt_with_csk_and_prepended_nonce (mkCsk csk) (ep_ciphertext p) = Ok payload).
Proof.
  unfold createEncryptedPacket. returns. simplify_eq. eexists. split; [done|]. split; [done|]. split; [done|].
  match goal with Hr : getrandom_fill _ _ = _ |- _ => apply getrandom_fill_Ok in Hr as [Hn _] end.
  by apply unseal_seal.
Qed.

(** C3: The daemon accepts the phone's answer.  Kotlin signs the challenge with [signData],
    wraps the signature with [createGrantWrapperMessage] and seals it with
    [createEncryptedPacket], whatever state the machine is in; when the three calls
    return, and a transport delivers the packet within the first retry interval, the
    daemon's attempt succeeds for a server paired under that key. *)
Theorem phone_grant_accepted {T : Type} `{TR : !Transport T} sk csk challenge sg wb pb p addr
    fuel packet kp servers id s (e : Env T) s1 s2 j1 j1' j2 j2' j3 j3' :
  length challenge = 32%nat →
  servers !! id = Some s → server_key s = Some (ed25519_public sk) →
  signData null_error (Some sk) (Some challenge) j1 = (j1', Ok (JBytes sg)) →
  createGrantWrapperMessage null_error show_protocol_error (Some sg) (Some sk) j2 = (j2', Ok (JBytes wb)) →
  createEncryptedPacket null_error show_crypto_error show_random_error (Some csk) (Some wb) j3 = (j3', Ok (JBytes pb)) →
  decode pb = Some p →
  send_request packet (e_world e, e_transport e) = (s1, Ok ()) →
  receive_response 200 s1 = (s2, Ok (Response p addr)) →
  result_of (authenticate_with_transport (S fuel) packet (mkCsk csk) kp challenge servers) e = Ok (Some ()).
Proof.
  intros Hch Hs Hk [Hsg Hsk]%sign_data_returns (wr & Hwb & Hsign)%create_grant_returns Hp Hdec Hsend Hrecv.
  apply create_packet_returns in Hp as (q & Hpb & Hw & Hl & Hd). simplify_eq.
  rewrite decode_encode in Hdec by done. simplify_eq. rewrite take_ge in Hsign by lia.
  assert (wire_ok wr) by (unfold sign_wrapper_message in Hsign; simplify_eq; by repeat split).
  eapply (delivered_grant_accepted _ packet (mkCsk csk) kp challenge servers id s _ wr p addr); [done|done| | |done|done].
  - unfold decrypt_encrypted_packet_with_csk_nonce. rewrite Hd. simpl. by rewrite decode_encode.
  - apply (grant_verifies (from_signing_key_bytes sk) challenge (mkAuthenticationGrant (ed25519_sign sk challenge)));
      [by apply from_signing_key_bytes_wf| |done].
    unfold create_auth_grant. rewrite (proj2 (challenge_ok_true _)); done.
Qed.

Lemma packet_opens csk wr w w' p :
  wf_csk csk → create_encrypted_packet_with_csk_nonce csk wr w = (w', Ok p) →
  decrypt_with_csk_and_prepended_nonce csk (ep_ciphertext p) = Ok (encode_to_vec wr).
Proof.
  intros Hk. unfold create_encrypted_packet_with_csk_nonce. munfold.
  destruct (generate_current_temporal_identifier csk w) as [w1 [ti|]]; [|done]. simpl.
  destruct (encrypt_with_csk_and_random_nonce csk (encode_to_vec wr) w1) as [w2 [ct|]] eqn:E; [|done].
  simpl. intros; simplify_eq. exact (decrypt_encrypt_csk csk _ _ _ _ Hk E).
Qed.

Lemma decrypt_packet_quiet csk p pt j :
  jv_faults j = [] → wf_csk csk → wire_ok p → decrypt_with_csk_and_prepended_nonce csk (ep_ciphertext p) = Ok pt →
  decryptEncryptedPacket null_error decode_error (Some (csk_bytes csk)) (Some (encode_to_vec p)) j = (j, Ok (JBytes pt)).
Proof.
  intros Hq Hk Hw Hd. unfold decryptEncryptedPacket. quiet_run.
  unfold decode_message. rewrite decode_encode by done. unfold mret, M_ret.
  unfold decrypt_with_csk_and_prepended_nonce in Hd. case_decide; [done|].
  destruct (slice_to 12 (ep_ciphertext p)) as [n|]; [|done]. destruct (slice_from 12 (ep_ciphertext p)) as [c|]; [|done].
  simpl in Hd. simpl. unfold mret, M_ret. rewrite Hd. simpl. unfold mret, M_ret. by quiet_run.
Qed.

(** C23: The phone reads the daemon's request and can check it.  From the packet of a signed
    request, on a machine where nothing fails: the packet opens, its type is reported,
    the parsed object has the request's fields, and the bytes rebuilt from those fields,
    with the time cast to a [Long] and back, verify under the daemon's key. *)
Theorem phone_reads_request csk kp r wr w w' p j :
  jv_faults j = [] → wf_csk csk → wf_ed25519 kp → u64 (ar_timestamp_unix_seconds r) →
  sign_wrapper_message (wrap_auth_request r) kp = Ok wr →
  create_encrypted_packet_with_csk_nonce csk wr w = (w', Ok p) →
  let ts := as_i64 (ar_timestamp_unix_seconds r) in
  ∃ wb sg data,
    decryptEncryptedPacket null_error decode_error (Some (csk_bytes csk)) (Some (encode_to_vec p)) j = (j, Ok (JBytes wb)) ∧
    determineMessageType null_error decode_error (Some wb) j = (j, Ok (JString "AUTH_REQUEST")) ∧
    parseAuthRequest null_error decode_error (Some wb) j
      = (j, Ok (JObject "dev/rourunisen/tapauth/crypto/AuthRequest"
           [JBytes (ar_challenge r); JString (ar_username r); JString (ar_hostname r); JLong ts; JInt 1; JBytes sg])) ∧
    serializeAuthRequestForVerification null_error (Some (ar_challenge r)) (Some (ar_username r)) (Some (ar_hostname r)) ts 1 j
      = (j, Ok (JBytes data)) ∧
    verifySignature null_error show_key_error (Some (verifying_key_bytes kp)) (Some data) (Some sg) j = (j, Ok true).
Proof.
  intros Hq Hcsk Hkp Hts Hsign Hp ts. pose proof (create_packet_wire _ _ _ _ _ Hp) as Hpw.
  pose proof (verify_sign_wrapper _ _ _ Hkp Hsign) as Hv.
  exists (encode_to_vec wr), (wm_signature wr), (encode_to_vec (unsigned wr)).
  split; [by apply decrypt_packet_quiet; [..|eapply packet_opens]|].
  assert (Hwr : wm_payload wr = Some (PAuthRequest r) ∧ wm_signature_algorithm wr = 1 ∧ wm_version wr = 1 ∧
    length (wm_signature wr) = 64%nat).
  { unfold sign_wrapper_message in Hsign. simplify_eq. split_and!; try done. simpl. apply ed25519_sign_length, Hkp. }
  destruct Hwr as (Hpay & Halg & Hver & Hlen).
  assert (Hwire : wire_ok wr).
  { unfold wire_ok, wrapper_wire. rewrite Hpay, Halg, Hver. done. }
  unfold determineMessageType, parseAuthRequest, serializeAuthRequestForVerification, verifySignature, decode_message.
  split; [|split; [|split]].
  - quiet_run. rewrite decode_encode by done. unfold mret, M_ret. rewrite Hpay. by quiet_run.
  - quiet_run. rewrite decode_encode by done. unfold mret, M_ret. rewrite Hpay, Halg. unfold java_auth_request. by quiet_run.
  - quiet_run. unfold encode_message, mret, M_ret, ts. rewrite as_u64_as_i64 by done. quiet_run.
    do 3 f_equal. unfold unsigned. rewrite Hpay, Halg, Hver. by destruct r.
  - apply verify_wrapper_signature_Ok, verify_ed25519_Ok in Hv as (Hkv & _ & Hv').
    pose proof (verifying_key_length _ Hkp). quiet_run. by rewrite Hkv, Hv'.
Qed.

(** The identifier depends on the time only. *)
Lemma temporal_frame csk w : ∃ r, ∀ e, generate_current_temporal_identifier csk (set_entropy e w) = (set_entropy e w, r).
Proof.
  unfold generate_current_temporal_identifier, current_time_window, unix_now. munfold.
  case_decide; simpl; by eexists.
Qed.

(** The binding's own packet maker is the library's.  On a machine where nothing fails,
    [createEncryptedPacket] returns bytes exactly when
    [create_encrypted_packet_with_csk_nonce] makes a packet of the same message under
    the same key, from the same randomness and time, and they are its encoding;
    both leave the system in the same state. *)
Theorem jni_packet_same csk wr j w' b :
  jv_faults j = [] → length csk = 32%nat →
  (∃ j', createEncryptedPacket null_error show_crypto_error show_random_error (Some csk) (Some (encode_to_vec wr)) j
       = (j', Ok (JBytes b)) ∧ jv_world j' = w') ↔
  (∃ p, create_encrypted_packet_with_csk_nonce (mkCsk csk) wr (jv_world j) = (w', Ok p) ∧ b = encode_to_vec p).
Proof.
  intros Hq Hk. destruct j as [w fl th pe]. simpl in *. subst fl.
  destruct (temporal_frame (mkCsk csk) w) as [r Hr].
  assert (Hr0 : generate_current_temporal_identifier (mkCsk csk) w = (w, r)).
  { specialize (Hr (w_entropy w)). by destruct w. }
  unfold createEncryptedPacket, create_encrypted_packet_with_csk_nonce, encrypt_with_csk_and_random_nonce, encode_message.
  quiet_run. munfold. rewrite Hr0. unfold on_world, getrandom_fill. simpl.
  destruct (decide (12 ≤ length (w_entropy w))%nat).
  - simpl. destruct (encrypt_aes_gcm csk (take 12 (w_entropy w)) (encode_to_vec wr) []) as [c|e]; simpl; unfold mret, M_ret.
    + rewrite Hr. destruct r as [ti|e]; simpl.
      * rewrite bytes_quiet by done. split.
        { intros (j' & [= <- <-] & <-). by eexists. }
        intros (p & [= <- <-] & ->). by eexists.
      * split; [by intros (j' & ? & _)|by intros (p & ? & _)].
    + destruct r; simpl; split; [by intros (j' & ? & _)|by intros (p & ? & _)|by intros (j' & ? & _)|by intros (p & ? & _)].
  - destruct r; simpl; split; [by intros (j' & ? & _)|by intros (p & ? & _)|by intros (j' & ? & _)|by intros (p & ? & _)].
Qed.
End phone.

(** ** Witnesses: a phone *)

Definition toy_jvm : Jvm := mkJvm quiet_world [] true None.
Definition toy_sk : bytes := signing_key_bytes toy_phone.

Lemma jni_null_iff_exception_witness :
  ∃ j', java_call "null" "" no_text no_text "" "" (CallSignData (Some [x01]) None) toy_jvm = (j', JNull) ∧
    is_Some (jv_pending j').
Proof.
  destruct (java_call "null" "" no_text no_text "" "" (CallSignData (Some [x01]) None) toy_jvm) as [j' v] eqn:E.
  assert (v = JNull) as -> by (change v with (j', v).2; rewrite <-E; vm_compute; exact eq_refl).
  exists j'. split; [exact eq_refl|].
  exact (proj1 (jni_null_iff_exception "null" "" no_text no_text "" "" _ toy_jvm j' JNull eq_refl eq_refl E) eq_refl).
Defined.

Lemma jni_result_typed_witness :
  ∃ j' v, java_call "null" "" no_text no_text "" "" CallGenerateKeypair toy_jvm = (j', v) ∧
    typed (TyArray [TyBytes (Some 32%nat); TyBytes (Some 32%nat)]) v.
Proof.
  destruct (java_call "null" "" no_text no_text "" "" CallGenerateKeypair toy_jvm) as [j' v] eqn:E.
  exists j', v. split; [exact eq_refl|].
  apply (jni_result_typed "null" "" no_text no_text "" "" CallGenerateKeypair toy_jvm j' v eq_refl eq_refl E).
  change j' with (j', v).1. rewrite <-E. vm_compute. exact eq_refl.
Defined.

(** The bytes a call returned. *)
Definition returned_bytes (k : JM JValue) (j : Jvm) : bytes := match k j with (_, Ok (JBytes b)) => b | _ => [] end.

Definition toy_signed : bytes := returned_bytes (signData "null" (Some toy_sk) (Some toy_challenge)) toy_jvm.
Definition toy_wrapped : bytes :=
  returned_bytes (createGrantWrapperMessage "null" no_text (Some toy_signed) (Some toy_sk)) toy_jvm.
Definition toy_sealed : bytes :=
  returned_bytes (createEncryptedPacket "null" no_text "" (Some (csk_bytes toy_csk)) (Some toy_wrapped)) toy_jvm.
Definition toy_answer : EncryptedPacket := default (mkEncryptedPacket [] 0 []) (decode toy_sealed).

Lemma returned (k : JM JValue) (j : Jvm) b : is_ok (k j).2 = true → (∀ v, (k j).2 = Ok v → v = JBytes b) → ∃ j', k j = (j', Ok (JBytes b)).
Proof. destruct (k j) as [j' [v|]]; [|done]. intros _ Hv. rewrite (Hv v eq_refl). by exists j'. Qed.

Lemma phone_grant_accepted_witness :
  result_of (authenticate_with_transport 602 (mkEncryptedPacket [] 0 []) toy_csk toy_client toy_challenge toy_servers)
    (toy_env [toy_arrival toy_answer]) = Ok (Some ()).
Proof.
  destruct (returned (signData "null" (Some toy_sk) (Some toy_challenge)) toy_jvm toy_signed) as [j1 H1];
    [vm_compute; exact eq_refl|vm_compute; by intros v [= <-]|].
  destruct (returned (createGrantWrapperMessage "null" no_text (Some toy_signed) (Some toy_sk)) toy_jvm toy_wrapped) as [j2 H2];
    [vm_compute; exact eq_refl|vm_compute; by intros v [= <-]|].
  destruct (returned (createEncryptedPacket "null" no_text "" (Some (csk_bytes toy_csk)) (Some toy_wrapped)) toy_jvm toy_sealed)
    as [j3 H3]; [vm_compute; exact eq_refl|vm_compute; by intros v [= <-]|].
  set (e := toy_env [toy_arrival toy_answer]).
  destruct (send_request (mkEncryptedPacket [] 0 []) (e_world e, e_transport e)) as [s1 r1] eqn:E1.
  assert (r1 = Ok ()) as -> by (by injection E1).
  destruct (receive_response 200 s1) as [s2 r2] eqn:E2.
  assert (r2 = Ok (Response toy_answer phone_addr)) as ->.
  { change r2 with (s2, r2).2. rewrite <-E2. change s1 with (s1, Ok () : result AuthHandlerError ()).1.
    rewrite <-E1. vm_compute. exact eq_refl. }
  apply (phone_grant_accepted "null" no_text no_text "" toy_sk (csk_bytes toy_csk) toy_challenge toy_signed toy_wrapped
    toy_sealed toy_answer phone_addr 601 (mkEncryptedPacket [] 0 []) toy_client toy_servers "a"
    (server_of toy_phone ["ann"%string]) e s1 s2 toy_jvm j1 toy_jvm j2 toy_jvm j3 eq_refl eq_refl);
    [vm_compute; exact eq_refl|exact H1|exact H2|exact H3|vm_compute; exact eq_refl|exact E1|exact E2].
Defined.

Definition toy_auth_request : AuthenticationRequest := mkAuthenticationRequest toy_challenge "ann" "laptop" 1700000000.

Lemma phone_reads_request_witness :
  ∃ (p : EncryptedPacket) wb, decryptEncryptedPacket "null" "" (Some (csk_bytes toy_csk)) (Some (encode_to_vec p)) toy_jvm = (toy_jvm, Ok (JBytes wb)) ∧
    determineMessageType "null" "" (Some wb) toy_jvm = (toy_jvm, Ok (JString "AUTH_REQUEST")).
Proof.
  destruct (sign_wrapper_message (wrap_auth_request toy_auth_request) toy_client) as [wr|] eqn:Ew; [|by vm_compute in Ew].
  destruct (create_encrypted_packet_with_csk_nonce toy_csk wr quiet_world) as [w' [p|e]] eqn:Ep.
  - destruct (phone_reads_request "null" "" "" toy_csk toy_client toy_auth_request wr quiet_world w' p toy_jvm)
      as (wb & sg & data & H1 & H2 & _); [exact eq_refl|exact eq_refl|by split|by vm_compute|exact Ew|exact Ep|].
    exists p, wb. split; [exact H1|exact H2].
  - exfalso. injection Ew as <-. apply (f_equal snd) in Ep. revert Ep. vm_compute. intros [=].
Defined.

Lemma jni_packet_same_witness :
  ∃ p w', create_encrypted_packet_with_csk_nonce toy_csk (wrap_auth_request toy_auth_request) quiet_world = (w', Ok p) ∧
    ∃ j', createEncryptedPacket "null" no_text "" (Some (csk_bytes toy_csk))
      (Some (encode_to_vec (wrap_auth_request toy_auth_request))) toy_jvm = (j', Ok (JBytes (encode_to_vec p))) ∧ jv_world j' = w'.
Proof.
  destruct (create_encrypted_packet_with_csk_nonce toy_csk (wrap_auth_request toy_auth_request) quiet_world) as [w' [p|e]] eqn:Ep.
  - exists p, w'. split; [exact eq_refl|].
    apply (proj2 (jni_packet_same "null" no_text "" (csk_bytes toy_csk) (wrap_auth_request toy_auth_request) toy_jvm w'
      (encode_to_vec p) eq_refl eq_refl)). exists p. split; [exact Ep|exact eq_refl].
  - exfalso. apply (f_equal snd) in Ep. revert Ep. vm_compute. intros [=].
Defined.
