(* ===== verification/Admin.v ===== *)
(** * Administration: [tapauthd/src/admin_handler.rs]

    Requests of the configuration tools: pairing, removal, key rotation, settings,
    status.  Sockets, the firewall and the network addresses of the host are what the
    request's surroundings ([AdminEnv]) say they are. *)

From stdpp Require Import base gmap strings list.
From Stdlib Require Import Strings.Ascii.
From S2P Require Import Prelude Os Text Crypto Protocol Config PairingUrl Pairing Network Auth Ipc Session.
From S2P Require Import PeerIdentity.

(** ** Pairing in progress *)

Record PendingPairing := mkPendingPairing {
  pp_firewall_guard : bool;
  pp_session : ClientPairingSession;
  pp_url : list ascii;
  pp_port : Z;
  pp_generation : Z;
}.

Record ActivePairing := mkActivePairing {
  ap_stream : Stream;
  ap_session : ClientPairingSession;
  ap_server_public_key : bytes;
  ap_server_device_name : string;
  ap_port : Z;
  ap_firewall_guard : bool;
  ap_generation : Z;
}.

Inductive PairingState :=
| PsPending (p : PendingPairing)
| PsActive (a : ActivePairing).

(** What the handlers share: the machine, the daemon's state, the pairing in
    progress and the counter of generations. *)
Record AdminState := mkAdminState {
  ad_world : World;
  ad_daemon : DaemonState;
  ad_pairing : option PairingState;
  ad_generation : Z;
}.

(** The surroundings of one request. *)
Record AdminEnv := mkAdminEnv {
  ae_peer : PeerEnv;
  ae_local_ip : option IpAddr;                 (* [local_ip_address::local_ip] *)
  ae_netifas : option (list (string * IpAddr));
  ae_bind : result string Z;                   (* port of the new TCP listener *)
  ae_firewall : result string ();              (* opening that port *)
  ae_accept : option (result string Stream);   (* the phone's connection; [None]: 300 s passed *)
  ae_meanwhile : AdminState → AdminState;      (* what others did during that wait *)
  ae_now : Z;                                  (* [Utc::now], nanoseconds *)
}.

(** ** Responses *)

Definition err_resp (status : Z) (msg : string) : AdminResponse := mkAdminResponse status msg None.
Definition empty_success : AdminResponse := mkAdminResponse ADMIN_SUCCESS "" None.
Definition success_with (p : AdminResponsePayload) : AdminResponse := mkAdminResponse ADMIN_SUCCESS "" (Some p).

(** A handler may answer early: its error is the answer. *)
Definition AM (A : Type) : Type := M AdminState AdminResponse A.

Definition refuse {A} (msg : string) : AM A := throw (err_resp ADMIN_ERROR msg).

Definition on_os_state {A} (k : M World ConfigError A) : AM (result ConfigError A) := λ s,
  let '(w, r) := k (ad_world s) in
  (mkAdminState w (ad_daemon s) (ad_pairing s) (ad_generation s), Ok r).
Definition set_pairing (p : option PairingState) : AM () :=
  modify (λ s, mkAdminState (ad_world s) (ad_daemon s) p (ad_generation s)).
Definition set_world (w : World) : AM () :=
  modify (λ s, mkAdminState w (ad_daemon s) (ad_pairing s) (ad_generation s)).

(** [PAIRING_GENERATION.fetch_add(1)] *)
Definition next_generation : AM Z := λ s,
  (mkAdminState (ad_world s) (ad_daemon s) (ad_pairing s) ((ad_generation s + 1) mod 2 ^ 64), Ok (ad_generation s)).

(** ** Addresses for the QR code *)

Definition find_non_loopback_ipv4 (netifas : option (list (string * IpAddr))) : option Z :=
  l ← netifas;
  head (omap (λ '(_, ip), match ip with V4 a => if is_loopback ip then None else Some a | V6 _ => None end) l).
Definition find_non_loopback_ipv6 (netifas : option (list (string * IpAddr))) : option Z :=
  l ← netifas;
  head (omap (λ '(_, ip), match ip with
    | V6 a => if is_loopback ip || bool_decide (a = 0) then None else Some a
    | V4 _ => None
    end) l).
Definition pairing_ipv4 (env : AdminEnv) : option Z :=
  match ae_local_ip env with
  | Some (V4 a) => if is_loopback (V4 a) then find_non_loopback_ipv4 (ae_netifas env) else Some a
  | _ => find_non_loopback_ipv4 (ae_netifas env)
  end.

Section handlers.
Context `{C : CryptoOps} `{H : Hex} `{T : Toml} `{TT : TpmTools} `{I6 : Ipv6Text}.
Context `{JC : !Json ClientConfig} `{JS : !Json (gmap string PairedServer)}.
Context `{KH : !Codec PairingHello} `{KR : !Codec PairingResponse}.
Context `{KM : !Codec PairingCskMessage} `{KC : !Codec PairingComplete}.
Context (feature_tpm : bool).
(** [Display] of errors and of times. *)
Context (show_config_error : ConfigError → string) (show_crypto_error : CryptoError → string).
Context (show_protocol_error : ProtocolError → string).
Context (show_peer_error : PeerIdentityError → string) (to_rfc3339 : Z → string).

Definition manager : AM ClientConfigManager := gets (λ s, ds_config_manager (ad_daemon s)).

(** An error that is answered with a message. *)
Definition or_refuse {E A} (r : result E A) (msg : E → string) : AM A :=
  match r with Ok a => mret a | Err e => refuse (msg e) end.

Definition handle_get_servers (username : string) : AM AdminResponse :=
  m ← manager;
  r ← on_os_state (load_paired_servers m);
  servers ← or_refuse r (λ e, ("Failed to load servers: " +:+ show_config_error e)%string);
  let infos := (λ '(pk, s), mkPairedServerInfo (ps_name s) pk (allowed_users s) (to_rfc3339 (paired_at s))) <$>
                 filter (λ '(_, s), is_user_allowed s username = true) (map_to_list servers) in
  mret (success_with (AdmServers infos)).

(** The persistent key pair, made on first use. *)
Definition pairing_keypair : AM Ed25519KeyPair :=
  m ← manager;
  r ← on_os_state (load_keypair feature_tpm m);
  match r with
  | Ok kp => mret kp
  | Err CE_InvalidConfig =>
      g ← on_os_state (generate_and_save_keypair feature_tpm m);
      or_refuse g (λ e, ("Keypair generation failed: " +:+ show_config_error e)%string)
  | Err e => refuse ("Failed to load keypair: " +:+ show_config_error e)%string
  end.

Definition handle_start_pairing (env : AdminEnv) : AM AdminResponse :=
  keypair ← pairing_keypair;
  let ipv4 := pairing_ipv4 env in
  let ipv6 := find_non_loopback_ipv6 (ae_netifas env) in
  port ← or_refuse (ae_bind env) (λ e, e);
  _ ← or_refuse (ae_firewall env) (λ e, ("Firewall error: " +:+ e)%string);
  s ← get;
  let '(w, session) := client_new keypair (ad_world s) in
  _ ← set_world w;
  session ← or_refuse session (λ e, ("Session creation failed: " +:+ show_crypto_error e)%string);
  let url := generate_pairing_url (chars (hex_encode (x25519_public_key session))) (Z.to_N port)
               (Z.to_N <$> ipv4) (Z.to_N <$> ipv6) in
  gen ← next_generation;
  current ← gets ad_pairing;
  match current with
  | Some _ => refuse "A pairing session is already in progress. Cancel or complete it first."
  | None =>
      _ ← set_pairing (Some (PsPending (mkPendingPairing true session url port gen)));
      mret (success_with (AdmPairingStarted (String.string_of_list_ascii url) port))
  end.

(** The two timers started with a pairing, when they fire. *)
Definition pairing_timeout (generation : Z) (p : option PairingState) : option PairingState :=
  match p with
  | Some (PsPending q) => if decide (pp_generation q = generation) then None else p
  | _ => p
  end.
Definition active_pairing_timeout (generation : Z) (p : option PairingState) : option PairingState :=
  match p with
  | Some (PsActive a) => if decide (ap_generation a = generation) then None else p
  | _ => p
  end.

Definition port_text (p : Z) : string := String.string_of_list_ascii (dec (Z.to_N p)).
Definition check_port (requested expected : Z) : AM () :=
  if decide (requested ≠ 0 ∧ requested ≠ expected)
  then refuse ("Port mismatch: expected " +:+ port_text expected +:+ ", got " +:+ port_text requested)%string
  else mret ().

Definition daemon_hostname (w : World) : string := default "Unknown"%string (w_hostname w).

(** First half, under the lock: the pending pairing is taken out. *)
Definition take_pending (port : Z) : AM PendingPairing :=
  current ← gets ad_pairing;
  match current with
  | Some (PsActive _) => refuse "Pairing already in active phase"
  | None => refuse "No pending pairing session"
  | Some (PsPending pending) =>
      _ ← check_port port (pp_port pending);
      _ ← set_pairing None;
      mret pending
  end.

(** Second half: the phone has connected, or not. *)
Definition accept_pending (env : AdminEnv) (pending : PendingPairing) : AM AdminResponse :=
  match ae_accept env with
  | None => refuse "Timeout waiting for connection"
  | Some (Err e) => refuse ("Accept error: " +:+ e)%string
  | Some (Ok stream) =>
      s ← get;
      let '(peer, r) := initiate_pairing (daemon_hostname (ad_world s))
                          (mkPeer (ad_world s) stream (pp_session pending)) in
      _ ← set_world (p_world peer);
      match r with
      | Err e => refuse ("Pairing initiation failed: " +:+ show_protocol_error e)%string
      | Ok (server_public_key, server_device_name, sas) =>
          now_there ← gets ad_pairing;
          match now_there with
          | Some _ => refuse "Pairing session was superseded by a newer request"
          | None =>
              _ ← set_pairing (Some (PsActive (mkActivePairing (p_stream peer) (p_session peer) server_public_key
                    server_device_name (pp_port pending) (pp_firewall_guard pending) (pp_generation pending))));
              mret (success_with (AdmPairingSas (format_sas sas) (pp_port pending)))
          end
      end
  end.

(** The lock is free in between: other requests and the timers run meanwhile. *)
Definition handle_wait_for_pairing (env : AdminEnv) (port : Z) : AM AdminResponse :=
  pending ← take_pending port;
  _ ← modify (ae_meanwhile env);
  accept_pending env pending.

(** The key to hand to the phone: the stored one, or a new one when there is none
    yet. *)
Definition pairing_csk : AM ClientSymmetricKey :=
  m ← manager;
  r ← on_os_state (load_csk m);
  match r with
  | Ok c => mret c
  | Err CE_InvalidConfig =>
      there ← on_os_state (has_csk_file m);
      match there with
      | Ok true => refuse "CSK file is corrupt.  Use `Rotate CSK` in settings to regenerate (this will invalidate all existing pairings)."
      | _ =>
          s ← get;
          let '(w, c) := csk_generate (ad_world s) in
          _ ← set_world w;
          or_refuse c (λ e, ("CSK generation failed: " +:+ show_crypto_error e)%string)
      end
  | Err e => refuse ("Failed to load CSK: " +:+ show_config_error e)%string
  end.

(** First half, under the lock: the active pairing is taken out. *)
Definition take_active (port : Z) : AM ActivePairing :=
  current ← gets ad_pairing;
  match current with
  | Some (PsPending _) => refuse "Pairing still pending, wait for connection first"
  | None => refuse "No active pairing session"
  | Some (PsActive active) =>
      _ ← check_port port (ap_port active);
      _ ← set_pairing None;
      mret active
  end.

(** Second half: the key goes to the phone, then both are stored. *)
Definition confirm_pairing (env : AdminEnv) (username : string) (active : ActivePairing) : AM AdminResponse :=
  csk ← pairing_csk;
  s ← get;
  let '(peer, r) := finish_pairing csk username (mkPeer (ad_world s) (ap_stream active) (ap_session active)) in
  _ ← set_world (p_world peer);
  _ ← or_refuse r (λ e, ("Pairing completion failed: " +:+ show_protocol_error e)%string);
  m ← manager;
  saved ← on_os_state (save_csk m csk);
  _ ← or_refuse saved (λ e, ("Paired on phone, but saving local key failed: " +:+ show_config_error e +:+
         ". Ensure tapauthd is installed and the 'tapauthd' user and group exist, then retry pairing.")%string);
  let server_hex := hex_encode (ap_server_public_key active) in
  let paired_server := mkPairedServer (ap_server_device_name active) server_hex [username] (ae_now env) in
  added ← on_os_state (add_paired_server m server_hex paired_server);
  _ ← or_refuse added (λ e, ("Failed to save paired server: " +:+ show_config_error e)%string);
  mret (success_with (AdmPairingCompleted server_hex)).

Definition handle_complete_pairing (env : AdminEnv) (username : string) (port : Z) : AM AdminResponse :=
  active ← take_active port;
  confirm_pairing env username active.

Definition handle_remove_device (username public_key : string) : AM AdminResponse :=
  m ← manager;
  r ← on_os_state (remove_user_from_pairing m public_key username);
  _ ← or_refuse r (λ e, ("Failed to remove device: " +:+ show_config_error e)%string);
  mret empty_success.

Definition handle_rotate_csk : AM AdminResponse :=
  m ← manager;
  r ← on_os_state (rotate_csk m);
  _ ← or_refuse r (λ e, ("Failed to rotate CSK: " +:+ show_config_error e)%string);
  mret empty_success.

Definition handle_save_config (req : SaveConfigRequest) : AM AdminResponse :=
  if decide (scr_udp_port req = 0 ∨ 65535 < scr_udp_port req)
  then refuse "Invalid UDP port: must be 1-65535" else
  let hostname := trim (scr_hostname req) in
  if decide (hostname = EmptyString) then refuse "Hostname must not be empty" else
  r ← on_os_state tapauth_config_load;
  loaded ← or_refuse r (λ _, EmptyString);
  let toml_config := mkTapAuthConfig (pam_operation_timeout_secs loaded) (pam_gui_timeout_secs loaded)
        (scr_udp_port req) (default (enable_network loaded) (scr_enable_network req))
        (default (enable_ble loaded) (scr_enable_ble req)) (use_tpm loaded) (tpm_pcr_policy loaded) in
  saved ← on_os_state (mapM_err CE_Io (tapauth_config_save toml_config));
  _ ← or_refuse saved (λ e, ("Failed to save TOML config: " +:+ show_config_error e)%string);
  m ← manager;
  done ← on_os_state (save_config m (mkClientConfig hostname));
  _ ← or_refuse done (λ e, ("Failed to save client config: " +:+ show_config_error e)%string);
  mret empty_success.

Definition handle_recover_tpm : AM AdminResponse :=
  if negb feature_tpm then refuse "TPM support not compiled in" else
  m ← manager;
  r ← on_os_state (recover_from_tpm_failure feature_tpm m);
  _ ← or_refuse r (λ e, ("TPM recovery failed: " +:+ show_config_error e)%string);
  mret empty_success.

Definition handle_get_config : AM AdminResponse :=
  m ← manager;
  r ← on_os_state (load_config m);
  d ← on_os_state default_client_config;
  let client_config := match r with Ok c => c | Err _ => match d with Ok c => c | Err _ => mkClientConfig "" end end in
  t ← on_os_state tapauth_config_load;
  toml_config ← or_refuse t (λ _, EmptyString);
  mret (success_with (AdmConfig (hostname client_config) (udp_port toml_config) (enable_ble toml_config)
    (enable_network toml_config))).

Definition handle_get_daemon_status : AM AdminResponse :=
  d ← gets ad_daemon;
  let tpm_error := if feature_tpm && bool_decide (ds_keypair d = None)
                   then default "TPM key unseal failed"%string (get_init_error d) else EmptyString in
  mret (success_with (AdmDaemonStatus feature_tpm tpm_error)).

(** The response of a handler, early or not. *)
Definition answer_of (k : AM AdminResponse) (s : AdminState) : AdminState * AdminResponse :=
  let '(s', r) := k s in (s', match r with Ok a => a | Err a => a end).

Definition dispatch (env : AdminEnv) (username : string) (p : option AdminRequestPayload) : AM AdminResponse * bool :=
  match p with
  | Some AdmGetServers => (handle_get_servers username, false)
  | Some AdmStartPairing => (handle_start_pairing env, false)
  | Some (AdmWaitForPairing port) => (handle_wait_for_pairing env port, false)
  | Some (AdmCompletePairing port) => (handle_complete_pairing env username port, true)
  | Some (AdmRemoveDevice public_key) => (handle_remove_device username public_key, true)
  | Some AdmRotateCsk => (handle_rotate_csk, true)
  | Some (AdmSaveConfig req) => (handle_save_config req, true)
  | Some AdmRecoverTpm => (handle_recover_tpm, true)
  | Some AdmGetConfig => (handle_get_config, false)
  | Some AdmGetDaemonStatus => (handle_get_daemon_status, false)
  | None => (refuse "Empty admin request", false)
  end.

(** After a request that may have changed the disk, the daemon's state is loaded
    again, whatever the answer. *)
Definition reload_daemon (s : AdminState) : AdminState :=
  let '(w, r) := reload feature_tpm (ad_daemon s) (ad_world s) in
  mkAdminState w (match r with Ok d => d | Err _ => ad_daemon s end) (ad_pairing s) (ad_generation s).

Definition handle_admin_request (env : AdminEnv) (request : AdminRequest) (caller_pid caller_uid : Z)
    (s : AdminState) : AdminState * AdminResponse :=
  match resolve_peer (ae_peer env) caller_pid caller_uid with
  | Err e => (s, err_resp ADMIN_ERROR (show_peer_error e))
  | Ok identity =>
      match check_authorization show_peer_error (ae_peer env) identity with
      | Err e => (s, err_resp ADMIN_UNAUTHORIZED (show_peer_error e))
      | Ok _ =>
          let '(handler, needs_reload) := dispatch env (pe_username identity) (adm_payload request) in
          let '(s1, response) := answer_of handler s in
          ((if (needs_reload : bool) then reload_daemon s1 else s1), response)
      end
  end.
End handlers.
