(* ===== verification/AdminTheorems.v ===== *)
(** * Theorems about administration

    Who may administer, what each request does to the stored and the running state,
    and the life of a pairing in progress. *)

From stdpp Require Import base gmap strings list relations.
From Stdlib Require Import Strings.Ascii Strings.Byte.
From S2P Require Import Prelude Os Text Crypto Concrete Protocol ConcreteCodec Config ConfigFacts.
From S2P Require Import ConcreteConfig ConfigTheorems PairingUrl Pairing PairingTheorems Network Auth.
From S2P Require Import ConcreteAuth Ipc Session SessionTheorems PeerIdentity Admin.

(** ** Authorisation *)

(** What it takes to administer: a process and a user the system knows, and the
    word of PolKit, or root where there is no PolKit. *)
Definition may_administer (env : PeerEnv) (pid uid : Z) (identity : PeerIdentity) : Prop :=
  0 < pid ∧ pe_pid identity = pid ∧ pe_uid identity = uid ∧
  en_user env uid = Ok (Some (pe_username identity)) ∧
  read_process_start_time env pid = Ok (pe_start_time identity) ∧
  (check_polkit env identity = Ok true ∨
   ∃ e, check_polkit env identity = Err e ∧ polkit_unavailable e = true ∧ uid = 0).

Lemma resolve_peer_Ok env pid uid identity :
  resolve_peer env pid uid = Ok identity ↔
  0 < pid ∧ pe_pid identity = pid ∧ pe_uid identity = uid ∧
  en_user env uid = Ok (Some (pe_username identity)) ∧
  read_process_start_time env pid = Ok (pe_start_time identity).
Proof.
  unfold resolve_peer. case_decide; [split; [done|lia]|].
  destruct (en_user env uid) as [[u|]|]; simpl; [|naive_solver..].
  destruct (read_process_start_time env pid); simpl; [|naive_solver].
  destruct identity. naive_solver lia.
Qed.

Lemma check_authorization_Ok show env identity :
  check_authorization show env identity = Ok () ↔
  check_polkit env identity = Ok true ∨
  ∃ e, check_polkit env identity = Err e ∧ polkit_unavailable e = true ∧ pe_uid identity = 0.
Proof.
  unfold check_authorization. destruct (check_polkit env identity) as [[]|e]; [naive_solver..|].
  destruct (polkit_unavailable e) eqn:E; [case_decide|].
  - split; [by eauto 6|done].
  - split; [done|]. intros [?|(? & [= <-] & _ & ?)]; done.
  - split; [by intros [=]|]. intros [?|(? & [= <-] & ? & _)]; congruence.
Qed.

(** ** Early answers are refusals *)

Create HintDb admin discriminated.

Definition refuses {A} (k : AM A) : Prop := ∀ s s' a, k s = (s', Err a) → adr_status a = ADMIN_ERROR.

Lemma refuses_bind {A B} (k : AM A) (f : A → AM B) : refuses k → (∀ a, refuses (f a)) → refuses (k ≫= f).
Proof.
  intros Hk Hf s s' a. unfold mbind, M_bind. destruct (k s) as [s1 [b|b]] eqn:E; [by apply Hf|].
  intros. simplify_eq. by eapply Hk.
Qed.
Lemma refuses_refuse {A} msg : refuses (refuse msg : AM A).
Proof. intros s s' a. unfold refuse, throw. by intros [= _ <-]. Qed.
Lemma refuses_mret {A} (a : A) : refuses (mret a).
Proof. by intros s s' b H. Qed.
Lemma refuses_or_refuse {E A} (r : result E A) msg : refuses (or_refuse r msg).
Proof. destruct r; [apply refuses_mret|apply refuses_refuse]. Qed.
Lemma refuses_gets {A} (f : AdminState → A) : refuses (gets f).
Proof. by intros s s' b H. Qed.
Lemma refuses_get : refuses get.
Proof. by intros s s' b H. Qed.
Lemma refuses_modify f : refuses (modify f).
Proof. by intros s s' b H. Qed.
Lemma refuses_on_os {A} (k : M World ConfigError A) : refuses (on_os_state k).
Proof. intros s s' b. unfold on_os_state. by destruct (k (ad_world s)). Qed.
Lemma refuses_check_port a b : refuses (check_port a b).
Proof. unfold check_port. case_decide; [apply refuses_refuse|apply refuses_mret]. Qed.

#[export] Hint Resolve refuses_refuse refuses_mret refuses_or_refuse refuses_gets refuses_get refuses_modify
  refuses_on_os refuses_check_port : admin.

(** Follow the structure of a handler. *)
Ltac refuses :=
  repeat first
    [ progress auto with admin
    | apply refuses_bind; [|intros ?]
    | match goal with |- refuses (match ?x with _ => _ end) => destruct x end ].

Section admin.
Context `{C : CryptoOps} `{H : Hex} `{T : Toml} `{TT : TpmTools} `{I6 : Ipv6Text}.
Context `{JC : !Json ClientConfig} `{JS : !Json (gmap string PairedServer)}.
Context `{KH : !Codec PairingHello} `{KR : !Codec PairingResponse}.
Context `{KM : !Codec PairingCskMessage} `{KC : !Codec PairingComplete}.
Context (feature_tpm : bool).
Context (show_config_error : ConfigError → string) (show_crypto_error : CryptoError → string).
Context (show_protocol_error : ProtocolError → string).
Context (show_peer_error : PeerIdentityError → string) (to_rfc3339 : Z → string).

#[local] Notation handle := (handle_admin_request feature_tpm show_config_error show_crypto_error
  show_protocol_error show_peer_error to_rfc3339).

(** Nothing is done for others. *)
Lemma authorised_change env request pid uid s s' response :
  handle env request pid uid s = (s', response) →
  s' ≠ s ∨ adr_status response = ADMIN_SUCCESS →
  ∃ identity, may_administer (ae_peer env) pid uid identity.
Proof.
  unfold handle_admin_request. intros Hh Hs.
  destruct (resolve_peer _ _ _) as [identity|e] eqn:Hp; [|naive_solver].
  destruct (check_authorization _ _ _) as [[]|e] eqn:Ha; [|naive_solver].
  exists identity. apply resolve_peer_Ok in Hp as (? & ? & <- & ? & ?).
  apply check_authorization_Ok in Ha. by repeat split.
Qed.

(** C8: Only an authorised caller gets anything done: when a request changes any state,
    or is answered with success, the caller's process and user exist and PolKit said
    yes, or there is no PolKit and the caller is root. *)
Theorem admin_needs_authorization env request pid uid s s' response :
  handle env request pid uid s = (s', response) →
  s' ≠ s ∨ adr_status response = ADMIN_SUCCESS →
  ∃ identity, may_administer (ae_peer env) pid uid identity.
Proof. apply authorised_change. Qed.

(** ** Reloading *)

Lemma load_csk_state m w : w_faults w = [] → ∃ r, load_csk m w = (w, r) ∧ ∀ c, r = Ok c → wf_csk c.
Proof.
  intros Hq. unfold load_csk. rewrite bind_run, path_exists_quiet by done.
  destruct (negb _); [by eexists|]. rewrite bind_run.
  destruct (read_secure_file_state (join (config_dir m) CLIENT_SYMMETRIC_KEY_FILE) w Hq) as [[d|e] ->]; [|by eexists].
  case_bool_decide; simpl; eexists; (split; [done|]); intros; by simplify_eq.
Qed.

Lemma load_paired_servers_state m w : w_faults w = [] → ∃ r, load_paired_servers m w = (w, r).
Proof.
  intros Hq. unfold load_paired_servers. rewrite bind_run, path_exists_quiet by done.
  destruct (negb _); [by eexists|]. rewrite bind_run.
  destruct (read_secure_file_state (join (config_dir m) PAIRED_SERVERS_FILE) w Hq) as [[d|e] ->]; by eexists.
Qed.

(** What a reload takes over from the disk when nothing fails. *)
Definition reloaded (m : ClientConfigManager) (w : World) (d : DaemonState) : Prop :=
  ds_config_manager d = m ∧
  (∀ t, load_paired_servers m w = (w, Ok t) → ds_paired_servers d = t) ∧
  (∀ c, load_csk m w = (w, Ok c) → ds_csk d = Some c) ∧
  (∀ c, load_config m w = (w, Ok c) → ds_hostname d = hostname c).

Lemma reload_quiet s :
  w_faults (ad_world s) = [] → tpm_mode feature_tpm (ad_world s) = false →
  ∃ d, reload_daemon feature_tpm s = mkAdminState (ad_world s) d (ad_pairing s) (ad_generation s) ∧
    reloaded (ds_config_manager (ad_daemon s)) (ad_world s) d.
Proof.
  intros Hq Ht. destruct s as [w d p g]. simpl in *. unfold reload_daemon, reload, attempt. simpl.
  destruct (load_keypair_state feature_tpm (ds_config_manager d) w Hq Ht) as [rk Hk].
  destruct (load_csk_state (ds_config_manager d) w Hq) as (rc & Hc & _).
  destruct (load_paired_servers_state (ds_config_manager d) w Hq) as [rs Hs].
  destruct (load_config_state (ds_config_manager d) w Hq) as [rf Hf].
  rewrite bind_run, Hk, bind_run, Hc, bind_run, Hs, bind_run, Hf. eexists. split; [done|].
  unfold reloaded. rewrite Hs, Hc, Hf. split; [done|]. simpl. by repeat split; intros; simplify_eq.
Qed.

(** ** Completing a pairing *)

Context `{!JsonLaws (gmap string PairedServer) JS}.

Lemma finish_pairing_world csk u p p' :
  finish_pairing csk u p = (p', Ok ()) → ∃ e, p_world p' = set_entropy e (p_world p).
Proof.
  unfold finish_pairing. intros Hf. inv_bind.
  assert (∃ e, p_world s = set_entropy e (p_world p)) as [e He].
  { unfold send_csk_message in Hrun. inv_bind. unfold session, gets, lift in Hrun0, Hrun1. simplify_eq/=.
    unfold on_world, encrypt_with_psk in Hrun2. munfold.
    destruct (getrandom_fill 12 _) as [w1 [n|]] eqn:Hn; [|done]. simpl in *.
    apply getrandom_fill_Ok in Hn as (_ & -> & _).
    destruct (encrypt_aes_gcm _ _ _ _); simplify_eq/=.
    apply send_message_frame in Hrun as (_ & -> & _). by eexists. }
  unfold receive_pairing_complete in Hf. inv_bind. apply receive_message_Ok in Hrun0 as (_ & Hw & _).
  destruct (negb _); [done|]. inv_bind. unfold session, gets, lift in *. simplify_eq/=.
  destruct (decide _); [|done]. unfold mret, M_ret in Hf. simplify_eq. rewrite Hw, He. by eexists.
Qed.

Definition with_world (w : World) (s : AdminState) : AdminState :=
  mkAdminState w (ad_daemon s) (ad_pairing s) (ad_generation s).

Lemma set_entropy_id w : set_entropy (w_entropy w) w = w.
Proof. by destruct w. Qed.

(** The key handed out is the stored one, or a new one. *)
Lemma pairing_csk_Ok s s' csk :
  w_faults (ad_world s) = [] →
  pairing_csk show_config_error show_crypto_error s = (s', Ok csk) →
  wf_csk csk ∧ (∃ e, s' = with_world (set_entropy e (ad_world s)) s) ∧
  (∀ c, load_csk (ds_config_manager (ad_daemon s)) (ad_world s) = (ad_world s, Ok c) → csk = c).
Proof.
  intros Hq. destruct s as [w d p g]. simpl in *. unfold pairing_csk, manager, on_os_state, set_world. munfold.
  destruct (load_csk_state (ds_config_manager d) w Hq) as (r & Hr & Hwf). rewrite Hr.
  assert (Hid : mkAdminState w d p g = with_world (set_entropy (w_entropy w) w) (mkAdminState w d p g))
    by by rewrite set_entropy_id.
  destruct r as [c|[]]; try done.
  - intros. simplify_eq. split; [by apply Hwf|]. split; [by eexists|]. intros; by simplify_eq.
  - unfold has_csk_file. rewrite path_exists_quiet by done. case_bool_decide; [done|].
    simpl. destruct (csk_generate w) as [w1 [c|]] eqn:Hg; [|done]. unfold or_refuse. munfold. intros. simplify_eq/=.
    split; [by eapply csk_generate_wf|]. split; [|done].
    unfold csk_generate in Hg. munfold. destruct (getrandom_fill 32 w) as [w2 [b|]] eqn:Hb; simplify_eq/=.
    apply getrandom_fill_Ok in Hb as (_ & -> & _). by eexists.
Qed.

Lemma pairing_csk_refuses : refuses (pairing_csk show_config_error show_crypto_error).
Proof. unfold pairing_csk, manager, set_world. refuses. Qed.
Lemma complete_refuses env u port :
  refuses (handle_complete_pairing show_config_error show_crypto_error show_protocol_error env u port).
Proof.
  unfold handle_complete_pairing, take_active, confirm_pairing, manager, set_pairing, set_world.
  pose proof pairing_csk_refuses. refuses.
Qed.

(** A pairing that was completed. *)
Lemma complete_pairing_run env u port s s' response uid t :
  ds_config_manager (ad_daemon s) = new_manager → store_ready new_manager uid (ad_world s) →
  load_paired_servers new_manager (ad_world s) = (ad_world s, Ok t) →
  handle_complete_pairing show_config_error show_crypto_error show_protocol_error env u port s = (s', Ok response) →
  ∃ active csk e peer, let key := hex_encode (ap_server_public_key active) in
    ad_pairing s = Some (PsActive active) ∧ (port = 0 ∨ port = ap_port active) ∧
    ad_pairing s' = None ∧ ad_daemon s' = ad_daemon s ∧
    response = success_with (AdmPairingCompleted key) ∧
    finish_pairing csk u (mkPeer (set_entropy e (ad_world s)) (ap_stream active) (ap_session active)) = (peer, Ok ()) ∧
    (∀ c, load_csk new_manager (ad_world s) = (ad_world s, Ok c) → csk = c) ∧
    store_ready new_manager uid (ad_world s') ∧ settings (ad_world s') = settings (ad_world s) ∧
    load_csk new_manager (ad_world s') = (ad_world s', Ok csk) ∧
    load_paired_servers new_manager (ad_world s')
    = (ad_world s', Ok (<[key := mkPairedServer (ap_server_device_name active) key [u] (ae_now env)]> t)).
Proof.
  intros Hm Hr Hl Hh. unfold handle_complete_pairing, take_active, confirm_pairing, check_port, set_pairing, set_world, manager, on_os_state,
    or_refuse, refuse in Hh. munfold.
  destruct (ad_pairing s) as [[|active]|] eqn:Hp; [done| |done].
  case_decide as Hport; [done|]. simpl in Hh.
  destruct (pairing_csk _ _ _) as [s1 [csk|]] eqn:Hc; [|done].
  apply pairing_csk_Ok in Hc as (Hwf & [e ->] & Hold); [|apply Hr]. simpl in *. rewrite Hm in Hold.
  destruct (finish_pairing _ _ _) as [peer [[]|]] eqn:Hf; [|done].
  apply finish_pairing_world in Hf as Hw. destruct Hw as [e' Hw]. simpl in *. rewrite Hm, Hw in Hh.
  assert (Hr1 : store_ready new_manager uid (set_entropy e' (set_entropy e (ad_world s)))) by by auto with tapauth.
  rewrite (save_csk_run _ uid) in Hh by done. simpl in Hh. unfold add_paired_server in Hh. munfold.
  set (w2 := saved new_manager uid CLIENT_SYMMETRIC_KEY_FILE _ _) in Hh.
  assert (Hr2 : store_ready new_manager uid w2) by (unfold w2; by auto with tapauth).
  assert (Hl2 : load_paired_servers new_manager w2 = (w2, Ok t)).
  { eapply load_paired_servers_same; [| | | |exact Hl]; [by apply Hr|by apply Hr|done|].
    unfold w2. by rewrite saved_lookup_ne. }
  rewrite Hl2 in Hh. destruct (save_paired_servers_run new_manager uid w2
    (<[hex_encode (ap_server_public_key active) := mkPairedServer (ap_server_device_name active)
       (hex_encode (ap_server_public_key active)) [u] (ae_now env)]> t) Hr2) as (b & Hb & Hs).
  rewrite Hs in Hh. munfold. simplify_eq. simpl.
  eexists active, csk, e, peer. split; [done|]. split; [lia|]. do 5 (split; [done|]).
  split; [by auto with tapauth|]. split; [by rewrite settings_saved; unfold w2; rewrite settings_saved|]. split.
  - rewrite (load_csk_run _ uid _ (csk_bytes csk)); [by destruct csk|by auto with tapauth|done|].
    rewrite saved_lookup_ne by done. apply saved_lookup.
  - erewrite load_paired_servers_run; [|by auto with tapauth|apply saved_lookup]. by rewrite Hb.
Qed.

(** ** Whole requests *)

Lemma handle_authorised env request pid uid identity s :
  may_administer (ae_peer env) pid uid identity →
  handle env request pid uid s
  = let '(k, needs_reload) := dispatch feature_tpm show_config_error show_crypto_error show_protocol_error
                                to_rfc3339 env (pe_username identity) (adm_payload request) in
    let '(s1, response) := answer_of k s in
    ((if (needs_reload : bool) then reload_daemon feature_tpm s1 else s1), response).
Proof.
  intros (Hp & Hpid & Hu & Hn & Ht & Ha). unfold handle_admin_request.
  assert (resolve_peer (ae_peer env) pid uid = Ok identity) as -> by by apply resolve_peer_Ok.
  rewrite <-Hu in Ha. by rewrite (proj2 (check_authorization_Ok _ _ _) Ha).
Qed.

(** A completed pairing, from the request to the reloaded daemon. *)
Lemma complete_request_run env request pid uid identity port tuid s s' response t :
  adm_payload request = Some (AdmCompletePairing port) → may_administer (ae_peer env) pid uid identity →
  ds_config_manager (ad_daemon s) = new_manager → store_ready new_manager tuid (ad_world s) →
  tpm_mode feature_tpm (ad_world s) = false → load_paired_servers new_manager (ad_world s) = (ad_world s, Ok t) →
  handle env request pid uid s = (s', response) → adr_status response = ADMIN_SUCCESS →
  ∃ active csk e peer, let key := hex_encode (ap_server_public_key active) in
    let u := pe_username identity in
    let t' := <[key := mkPairedServer (ap_server_device_name active) key [u] (ae_now env)]> t in
    ad_pairing s = Some (PsActive active) ∧ (port = 0 ∨ port = ap_port active) ∧ ad_pairing s' = None ∧
    response = success_with (AdmPairingCompleted key) ∧
    finish_pairing csk u (mkPeer (set_entropy e (ad_world s)) (ap_stream active) (ap_session active)) = (peer, Ok ()) ∧
    (∀ c, load_csk new_manager (ad_world s) = (ad_world s, Ok c) → csk = c) ∧
    load_csk new_manager (ad_world s') = (ad_world s', Ok csk) ∧ ds_csk (ad_daemon s') = Some csk ∧
    load_paired_servers new_manager (ad_world s') = (ad_world s', Ok t') ∧ ds_paired_servers (ad_daemon s') = t'.
Proof.
  intros Hreq Hauth Hm Hr Ht Hl Hh Hst. rewrite (handle_authorised _ _ _ _ _ _ Hauth), Hreq in Hh. simpl in Hh.
  unfold answer_of in Hh.
  destruct (handle_complete_pairing _ _ _ _ _ _ s) as [s1 [a|a]] eqn:E.
  - destruct (complete_pairing_run _ _ _ _ _ _ _ _ Hm Hr Hl E)
      as (active & csk & e & peer & Hp & Hport & Hn & Hd & -> & Hf & Hold & Hr1 & Hset & Hc1 & Hl1).
    destruct (reload_quiet s1) as (d & Hd1 & _ & Hs & Hc & _); [apply Hr1| |].
    { unfold tpm_mode in *. by rewrite Hset. }
    rewrite Hd, Hm in *. rewrite Hd1 in Hh. simplify_eq. eexists active, csk, e, peer. simpl. by eauto 20.
  - apply complete_refuses in E. by simplify_eq; rewrite E in Hst.
Qed.

(** C17: A completed pairing takes effect.  Let the key store be ready (its directory and
    files in order, no file operation failing, neither in the request nor in the reload
    after it), without the TPM, and let its table of paired servers be readable.  When an
    authorised [CompletePairing] request is then answered with success, a pairing was
    waiting for confirmation, on the request's port unless the request names port 0, and
    the phone confirmed, under the pairing key, the very CSK that is now stored: the one
    stored before, if there was one.  The phone is stored with the caller as its only
    user, the daemon already works with this CSK and this table, and the pairing is
    over. *)
Theorem completed_pairing_effective env request pid uid identity port tuid s s' response t :
  adm_payload request = Some (AdmCompletePairing port) → may_administer (ae_peer env) pid uid identity →
  ds_config_manager (ad_daemon s) = new_manager → store_ready new_manager tuid (ad_world s) →
  tpm_mode feature_tpm (ad_world s) = false → load_paired_servers new_manager (ad_world s) = (ad_world s, Ok t) →
  handle env request pid uid s = (s', response) → adr_status response = ADMIN_SUCCESS →
  ∃ active csk e peer, let key := hex_encode (ap_server_public_key active) in
    let u := pe_username identity in
    let t' := <[key := mkPairedServer (ap_server_device_name active) key [u] (ae_now env)]> t in
    ad_pairing s = Some (PsActive active) ∧ (port = 0 ∨ port = ap_port active) ∧ ad_pairing s' = None ∧
    response = success_with (AdmPairingCompleted key) ∧
    finish_pairing csk u (mkPeer (set_entropy e (ad_world s)) (ap_stream active) (ap_session active)) = (peer, Ok ()) ∧
    (∀ c, load_csk new_manager (ad_world s) = (ad_world s, Ok c) → csk = c) ∧
    load_csk new_manager (ad_world s') = (ad_world s', Ok csk) ∧ ds_csk (ad_daemon s') = Some csk ∧
    load_paired_servers new_manager (ad_world s') = (ad_world s', Ok t') ∧ ds_paired_servers (ad_daemon s') = t'.
Proof. apply complete_request_run. Qed.

(** Pairing again replaces the users.  When a phone that several users of the host
    share is paired once more, the entry afterwards lets nobody but the caller
    authenticate, on disk and in the daemon. *)
Theorem repairing_drops_other_users env request pid uid identity port tuid s s' response t active :
  adm_payload request = Some (AdmCompletePairing port) → may_administer (ae_peer env) pid uid identity →
  ds_config_manager (ad_daemon s) = new_manager → store_ready new_manager tuid (ad_world s) →
  tpm_mode feature_tpm (ad_world s) = false → load_paired_servers new_manager (ad_world s) = (ad_world s, Ok t) →
  ad_pairing s = Some (PsActive active) →
  handle env request pid uid s = (s', response) → adr_status response = ADMIN_SUCCESS →
  ∃ srv, ds_paired_servers (ad_daemon s') !! hex_encode (ap_server_public_key active) = Some srv ∧
    load_paired_servers new_manager (ad_world s') = (ad_world s', Ok (ds_paired_servers (ad_daemon s'))) ∧
    ∀ v, is_user_allowed srv v = true ↔ v = pe_username identity.
Proof.
  intros Hreq Hauth Hm Hr Ht Hl Hp Hh Hst.
  destruct (complete_request_run _ _ _ _ _ _ _ _ _ _ _ Hreq Hauth Hm Hr Ht Hl Hh Hst)
    as (active' & csk & e & peer & Hp' & _ & _ & _ & _ & _ & _ & _ & Hl' & Hs). simplify_eq.
  rewrite Hs, Hl', lookup_insert_eq. eexists. split; [done|]. split; [done|]. intros v.
  unfold is_user_allowed. simpl. rewrite orb_false_r. by rewrite bool_decide_eq_true.
Qed.

Lemma remove_user_settings uid w w' r id u :
  store_ready new_manager uid w → remove_user_from_pairing new_manager id u w = (w', r) → settings w' = settings w.
Proof.
  intros Hr. unfold remove_user_from_pairing. munfold.
  destruct (load_paired_servers_state new_manager w (sr_quiet _ _ _ Hr)) as [[t|e] ->]; [|intros; by simplify_eq].
  destruct (t !! id) as [s|]; [|intros; by simplify_eq].
  case_bool_decide; match goal with |- context [save_paired_servers _ ?t' _] =>
    destruct (save_paired_servers_run new_manager uid w t' Hr) as (b & _ & ->) end;
    intros; simplify_eq; apply settings_saved.
Qed.

(** C21: A removal updates the table of the running daemon.  On a ready store (no file
    operation failing), without the TPM and with a readable table, an authorised
    [RemoveDevice] request succeeds, and the table of paired servers, on disk and in the
    running daemon, is the old one with exactly the caller taken out of the users of that
    phone, and the phone's entry gone when nobody is left; every other entry is as before.
    This is about the table: a phone that stays paired for somebody else remains able to
    grant the caller's requests when another of the caller's phones is paired. *)
Theorem removal_reaches_daemon env request pid uid identity id tuid s t :
  adm_payload request = Some (AdmRemoveDevice id) → may_administer (ae_peer env) pid uid identity →
  ds_config_manager (ad_daemon s) = new_manager → store_ready new_manager tuid (ad_world s) →
  tpm_mode feature_tpm (ad_world s) = false → load_paired_servers new_manager (ad_world s) = (ad_world s, Ok t) →
  ∃ s', handle env request pid uid s = (s', empty_success) ∧
    load_paired_servers new_manager (ad_world s')
    = (ad_world s', Ok (table_op (OpRemoveUser id (pe_username identity)) t)) ∧
    ds_paired_servers (ad_daemon s') = table_op (OpRemoveUser id (pe_username identity)) t.
Proof.
  intros Hreq Hauth Hm Hr Ht Hl. rewrite (handle_authorised _ _ _ _ _ _ Hauth), Hreq. simpl.
  unfold answer_of, handle_remove_device, manager, on_os_state. munfold. rewrite Hm.
  destruct (remove_user_run _ _ _ _ id (pe_username identity) Hr Hl) as (w1 & Hrun & Hr1 & Hl1).
  rewrite Hrun. simpl.
  destruct (reload_quiet (with_world w1 s)) as (d & Hd & _ & Hs & _); [apply Hr1| |].
  { simpl. unfold tpm_mode in *. rewrite <-Ht. by rewrite (remove_user_settings _ _ _ _ _ _ Hr Hrun). }
  eexists. split; [unfold with_world in Hd; by rewrite Hd|]. simpl in *. rewrite Hm in Hs. split; [done|]. by apply Hs.
Qed.

(** ** Pairing with the TPM *)

(** With the TPM switched on no pairing can start.  Sealing never writes a file
    [client_key.tpm]; without one, [StartPairing] is refused and nothing changes, no
    matter which sealed parts exist: a missing key is reported as an I/O error, for
    which the handler does not make a new key. *)
Theorem tpm_pairing_never_starts env s :
  w_faults (ad_world s) = [] → tpm_mode feature_tpm (ad_world s) = true →
  w_fs (ad_world s) !! tpm_key_path (ds_config_manager (ad_daemon s)) = None →
  ∃ e, handle_start_pairing feature_tpm show_config_error show_crypto_error env s
       = (s, Err (err_resp ADMIN_ERROR ("Failed to load keypair: " +:+ show_config_error (CE_Io e))%string)).
Proof.
  intros Hq Ht Hf. unfold tpm_mode in Ht. apply andb_true_iff in Ht as [Hft Ht].
  assert (∃ e, load_keypair feature_tpm (ds_config_manager (ad_daemon s)) (ad_world s)
          = (ad_world s, Err (CE_Io e))) as [e He].
  { unfold load_keypair. rewrite Hft. simpl. rewrite bind_run, tapauth_config_load_quiet by done. rewrite Ht. simpl.
    rewrite bind_run, path_exists_quiet by done. destruct (negb _); [by eexists|].
    unfold mapM_err, load_sealed_keypair. rewrite bind_run. unfold is_tpm_available, gets.
    destruct (negb _); [by eexists|]. rewrite bind_run, path_exists_quiet by done.
    rewrite Hf, bool_decide_false by by inversion 1. by eexists. }
  exists e. unfold handle_start_pairing, pairing_keypair, manager, on_os_state, refuse. munfold. rewrite He.
  by destruct s.
Qed.

(** ** Settings *)

Context `{!JsonLaws ClientConfig JC} `{!TomlLaws T}.

Lemma save_config_run m uid w c :
  store_ready m uid w →
  ∃ b, from_json b = Some c ∧ save_config m c w = (saved m uid CLIENT_CONFIG_FILE b w, Ok ()).
Proof.
  intros Hr. destruct (json_roundtrip c) as (b & Hb & Hd). exists b. split; [done|].
  rewrite <-save_run by done. unfold save_config. rewrite !bind_run. destruct (init m w) as [w' [[]|]]; [|done].
  unfold lift. by rewrite bind_run, Hb.
Qed.

Lemma load_config_run m uid w b c :
  store_ready m uid w → from_json b = Some c →
  w_fs w !! join (config_dir m) CLIENT_CONFIG_FILE = Some (mkFile b (perm 6 0 0) uid) →
  load_config m w = (w, Ok c).
Proof.
  intros Hr Hb Hf. destruct (read_own m uid w CLIENT_CONFIG_FILE b Hr Hf) as [He Hd].
  unfold load_config. rewrite bind_run, He. simpl. rewrite bind_run, Hd. unfold lift. by rewrite Hb.
Qed.

Lemma ready_settings uid w b u d :
  store_ready new_manager uid w → (∀ p, p ≠ "/etc/tapauth"%string → d !! p = w_dirs w !! p) →
  store_ready new_manager uid (set_fs (<[DEFAULT_CONFIG_PATH := mkFile b (perm 6 4 4) u]> (w_fs w)) (set_dirs d w)).
Proof.
  intros [Hq Hu Hz He Hf Hd] Hdirs. split; simpl; try done.
  - intros n f. rewrite lookup_insert_ne by (symmetry; apply state_not_settings). apply Hf.
  - intros md v. rewrite Hdirs by done. apply Hd.
Qed.

(** The settings a valid request asks for. *)
Definition requested (req : SaveConfigRequest) (c : TapAuthConfig) : TapAuthConfig :=
  mkTapAuthConfig (pam_operation_timeout_secs c) (pam_gui_timeout_secs c) (scr_udp_port req)
    (default (enable_network c) (scr_enable_network req)) (default (enable_ble c) (scr_enable_ble req))
    (use_tpm c) (tpm_pcr_policy c).

Lemma save_config_request_run req uid s :
  ds_config_manager (ad_daemon s) = new_manager → store_ready new_manager uid (ad_world s) →
  w_euid (ad_world s) = 0 → toml_ok (settings (ad_world s)) →
  1 ≤ scr_udp_port req ≤ 65535 → trim (scr_hostname req) ≠ EmptyString →
  ∃ w, handle_save_config show_config_error req s = (with_world w s, Ok empty_success) ∧
    store_ready new_manager uid w ∧ settings w = requested req (settings (ad_world s)) ∧
    load_config new_manager w = (w, Ok (mkClientConfig (trim (scr_hostname req)))).
Proof.
  intros Hm Hr He (Ht1 & Ht2 & _) Hp Hh.
  unfold handle_save_config, manager, on_os_state, or_refuse, refuse. rewrite decide_False by lia.
  rewrite decide_False by done. munfold. rewrite tapauth_config_load_quiet by apply Hr. simpl.
  destruct (settings_save_run (ad_world s) (requested req (settings (ad_world s)))) as (b & u & d & Hs & Hb & Hd);
    [apply Hr|done|split; [done|]; split; [done|]; simpl; lia|].
  unfold requested in Hs. rewrite Hs. simpl. rewrite Hm.
  pose proof (ready_settings uid _ b u d Hr Hd) as Hr1.
  destruct (save_config_run new_manager uid _ (mkClientConfig (trim (scr_hostname req))) Hr1) as (bc & Hbc & Hsc).
  rewrite Hsc. eexists. split; [done|]. split; [by auto with tapauth|]. split.
  - rewrite settings_saved. unfold settings at 1. simpl. rewrite lookup_insert_eq. simpl. by rewrite Hb.
  - eapply load_config_run; [by auto with tapauth|exact Hbc|]. apply saved_lookup.
Qed.

Lemma admin_save_run env request pid uid identity req tuid s :
  adm_payload request = Some (AdmSaveConfig req) → may_administer (ae_peer env) pid uid identity →
  ds_config_manager (ad_daemon s) = new_manager → store_ready new_manager tuid (ad_world s) →
  w_euid (ad_world s) = 0 → toml_ok (settings (ad_world s)) → tpm_mode feature_tpm (ad_world s) = false →
  1 ≤ scr_udp_port req ≤ 65535 → trim (scr_hostname req) ≠ EmptyString →
  ∃ s', handle env request pid uid s = (s', empty_success) ∧
    settings (ad_world s') = requested req (settings (ad_world s)) ∧
    ds_hostname (ad_daemon s') = trim (scr_hostname req) ∧ ds_config_manager (ad_daemon s') = new_manager ∧
    store_ready new_manager tuid (ad_world s') ∧
    load_config new_manager (ad_world s') = (ad_world s', Ok (mkClientConfig (trim (scr_hostname req)))).
Proof.
  intros Hreq Hauth Hm Hr He Ht Htpm Hp Hh.
  rewrite (handle_authorised _ _ _ _ _ _ Hauth), Hreq. simpl. unfold answer_of.
  destruct (save_config_request_run req tuid s Hm Hr He Ht Hp Hh) as (w & Hrun & Hr1 & Hset & Hcfg). rewrite Hrun.
  destruct (reload_quiet (with_world w s)) as (d & Hd & Hdm & _ & _ & Hn); [apply Hr1| |].
  { unfold tpm_mode in *. simpl. by rewrite Hset. }
  eexists. split; [by rewrite Hd|]. simpl in *. rewrite Hm in *. split; [done|]. split; [apply (Hn _ Hcfg)|]. split; [congruence|]. by split.
Qed.

Lemma admin_get_config_run env request pid uid identity c s :
  adm_payload request = Some AdmGetConfig → may_administer (ae_peer env) pid uid identity →
  w_faults (ad_world s) = [] →
  load_config (ds_config_manager (ad_daemon s)) (ad_world s) = (ad_world s, Ok c) →
  handle env request pid uid s = (s, success_with (AdmConfig (hostname c) (udp_port (settings (ad_world s)))
    (enable_ble (settings (ad_world s))) (enable_network (settings (ad_world s))))).
Proof.
  intros Hreq Hauth Hq Hcfg. rewrite (handle_authorised _ _ _ _ _ _ Hauth), Hreq. simpl. destruct s as [w d p g].
  unfold answer_of, handle_get_config, manager, on_os_state, or_refuse. munfold. rewrite Hcfg. simpl.
  by rewrite tapauth_config_load_quiet.
Qed.

(** Saved settings are the ones reported afterwards.  On a ready store, written as
    root, an authorised [SaveConfig] request with a port between 1 and 65535 and a host
    name that is not blank succeeds; a following [GetConfig] reports the trimmed name,
    the port and the transport switches, each switch that was left out keeping its
    value.  Timeouts and TPM settings stay, and the daemon already has the name. *)
Theorem saved_config_read_back env request request' pid uid identity req tuid s :
  adm_payload request = Some (AdmSaveConfig req) → adm_payload request' = Some AdmGetConfig →
  may_administer (ae_peer env) pid uid identity →
  ds_config_manager (ad_daemon s) = new_manager → store_ready new_manager tuid (ad_world s) →
  w_euid (ad_world s) = 0 → toml_ok (settings (ad_world s)) → tpm_mode feature_tpm (ad_world s) = false →
  1 ≤ scr_udp_port req ≤ 65535 → trim (scr_hostname req) ≠ EmptyString →
  ∃ s', handle env request pid uid s = (s', empty_success) ∧
    handle env request' pid uid s' = (s', success_with (AdmConfig (trim (scr_hostname req)) (scr_udp_port req)
      (default (enable_ble (settings (ad_world s))) (scr_enable_ble req))
      (default (enable_network (settings (ad_world s))) (scr_enable_network req)))) ∧
    settings (ad_world s') = requested req (settings (ad_world s)) ∧
    ds_hostname (ad_daemon s') = trim (scr_hostname req).
Proof.
  intros Hreq Hreq' Hauth Hm Hr He Ht Htpm Hp Hh.
  destruct (admin_save_run env request pid uid identity req tuid s) as (s' & Hs & Hset & Hn & Hm' & Hr' & Hcfg); [done..|].
  exists s'. split; [done|]. split; [|done]. rewrite <-Hm' in Hcfg.
  rewrite (admin_get_config_run _ _ _ _ _ _ _ Hreq' Hauth (sr_quiet _ _ _ Hr') Hcfg). by rewrite Hset.
Qed.
End admin.

(** ** Concrete requests *)

Definition stat_line : string := "42 (tapauth gui) S 1 42 42 0 -1 0 0 0 0 0 0 0 0 0 20 0 1 0 777 0".
Definition toy_peer_env : PeerEnv := mkPeerEnv
  (λ uid, Ok (if decide (uid = 1000) then Some "ann"%string else None)) (λ _, Some stat_line)
  (Ok (λ q, Reply (bool_decide (pq_uid q = 1000)))).
Definition toy_admin_env : AdminEnv :=
  mkAdminEnv toy_peer_env (Some (V4 3232235876)) None (Ok 40123) (Ok ()) None id 1700000000000000000.
Definition toy_identity : PeerIdentity := mkPeerIdentity 42 1000 "ann" 777.
Definition toy_handle := handle_admin_request true no_text no_text no_text no_text no_text.

Lemma toy_authorised : may_administer (ae_peer toy_admin_env) 42 1000 toy_identity.
Proof. split_and!; [lia|exact eq_refl|exact eq_refl|exact eq_refl|vm_compute; exact eq_refl|left; exact eq_refl]. Qed.

(** A phone that has shown its code and answers with a valid confirmation. *)
Definition toy_psk : PairingSymmetricKey := mkPsk (rep 32 9).
Definition toy_confirmation : bytes :=
  match (encrypt_with_psk toy_psk (sha256 (rep 32 7)) quiet_world).2 with
  | Ok c => wire_frame (mkPairingComplete true HASH_SHA256 c)
  | Err _ => []
  end.
Definition toy_active : ActivePairing :=
  mkActivePairing (mkStream toy_confirmation [] [])
    (mkClientSession toy_xc toy_client None (Some toy_psk) None [] [] []) (verifying_key_bytes toy_phone) "phone" 40123 true 0.
Definition toy_phone_key : string := hex_encode (verifying_key_bytes toy_phone).

Definition toy_admin (w : World) (p : option PairingState) : AdminState := mkAdminState w toy_daemon p 1.
Definition toy_complete : AdminRequest := mkAdminRequest (Some (AdmCompletePairing 40123)).

Lemma admin_needs_authorization_witness :
  ∃ identity, may_administer toy_peer_env 42 1000 identity.
Proof.
  apply (admin_needs_authorization true no_text no_text no_text no_text no_text toy_admin_env
    (mkAdminRequest (Some AdmGetDaemonStatus)) 42 1000 (toy_admin quiet_world None) (toy_admin quiet_world None)
    (success_with (AdmDaemonStatus true ""))); [by vm_compute|by right].
Defined.

Lemma completed_pairing_effective_witness :
  ∃ s' response, toy_handle toy_admin_env toy_complete 42 1000 (toy_admin quiet_world (Some (PsActive toy_active)))
    = (s', response) ∧ adr_status response = ADMIN_SUCCESS ∧ ds_csk (ad_daemon s') = Some (mkCsk (rep 32 7)).
Proof.
  assert (Hrun : let '(s', response) := toy_handle toy_admin_env toy_complete 42 1000
      (toy_admin quiet_world (Some (PsActive toy_active))) in
    adr_status response = ADMIN_SUCCESS ∧ ds_csk (ad_daemon s') = Some (mkCsk (rep 32 7))) by by vm_compute.
  destruct (toy_handle _ _ _ _ _) as [s' response] eqn:E. destruct Hrun as [Hs Hc].
  destruct (completed_pairing_effective true no_text no_text no_text no_text no_text toy_admin_env toy_complete
    42 1000 toy_identity 40123 990 (toy_admin quiet_world (Some (PsActive toy_active))) s' response ∅ eq_refl toy_authorised eq_refl quiet_ready ltac:(by vm_compute)
    ltac:(by vm_compute) E Hs) as (a & csk & e & peer & _ & _ & _ & _ & _ & _ & _ & Hd & _).
  exists s', response. split; [exact eq_refl|]. split; [exact Hs|exact Hc].
Defined.

(** A store that knows the phone, used by two users. *)
Definition shared_world : World :=
  state_of (save_paired_servers new_manager {[toy_phone_key := server_of toy_phone ["ann"%string; "bob"%string]]}) quiet_world.
Lemma shared_ready :
  store_ready new_manager 990 shared_world ∧
  load_paired_servers new_manager shared_world
  = (shared_world, Ok {[toy_phone_key := server_of toy_phone ["ann"%string; "bob"%string]]}).
Proof.
  destruct (save_load_servers new_manager 990 quiet_world
    {[toy_phone_key := server_of toy_phone ["ann"%string; "bob"%string]]} quiet_ready) as (w & Hs & Hr & Hl).
  unfold shared_world, state_of. by rewrite Hs.
Qed.

Lemma repairing_drops_other_users_witness :
  ∃ s' response srv,
    toy_handle toy_admin_env toy_complete 42 1000 (toy_admin shared_world (Some (PsActive toy_active))) = (s', response) ∧
    ds_paired_servers (ad_daemon s') !! toy_phone_key = Some srv ∧ is_user_allowed srv "bob" = false.
Proof.
  assert (Hrun : let '(s', response) := toy_handle toy_admin_env toy_complete 42 1000
      (toy_admin shared_world (Some (PsActive toy_active))) in adr_status response = ADMIN_SUCCESS) by by vm_compute.
  destruct (toy_handle _ _ _ _ _) as [s' response] eqn:E. destruct shared_ready as [Hr Hl].
  destruct (repairing_drops_other_users true no_text no_text no_text no_text no_text toy_admin_env toy_complete
    42 1000 toy_identity 40123 990 (toy_admin shared_world (Some (PsActive toy_active))) s' response _ toy_active eq_refl toy_authorised eq_refl Hr ltac:(by vm_compute)
    Hl eq_refl E Hrun) as (srv & Hs & _ & Hu).
  exists s', response, srv. split; [exact eq_refl|]. split; [exact Hs|]. apply not_true_is_false. by rewrite Hu.
Defined.

Lemma removal_reaches_daemon_witness :
  ∃ s', toy_handle toy_admin_env (mkAdminRequest (Some (AdmRemoveDevice toy_phone_key))) 42 1000 (toy_admin shared_world None)
    = (s', empty_success) ∧
    ds_paired_servers (ad_daemon s') !! toy_phone_key = Some (server_of toy_phone ["bob"%string]).
Proof.
  destruct shared_ready as [Hr Hl].
  destruct (removal_reaches_daemon true no_text no_text no_text no_text no_text toy_admin_env
    (mkAdminRequest (Some (AdmRemoveDevice toy_phone_key))) 42 1000 toy_identity toy_phone_key 990
    (toy_admin shared_world None) _ eq_refl toy_authorised eq_refl Hr ltac:(by vm_compute) Hl) as (s' & H & _ & Hs).
  exists s'. split; [exact H|]. rewrite Hs. cbn [table_op]. rewrite lookup_partial_alter_eq, lookup_singleton_eq. exact eq_refl.
Defined.

#[export] Instance toy_client_config_json_laws : JsonLaws ClientConfig toy_client_config_json := toy_json_laws.

Lemma saved_config_read_back_witness :
  ∃ s', toy_handle toy_admin_env (mkAdminRequest (Some (AdmSaveConfig (mkSaveConfigRequest "  desk " 5000 None (Some false)))))
      42 1000 (toy_admin quiet_world None) = (s', empty_success) ∧
    toy_handle toy_admin_env (mkAdminRequest (Some AdmGetConfig)) 42 1000 s'
    = (s', success_with (AdmConfig "desk" 5000 true false)).
Proof.
  destruct (saved_config_read_back true no_text no_text no_text no_text no_text toy_admin_env
    (mkAdminRequest (Some (AdmSaveConfig (mkSaveConfigRequest "  desk " 5000 None (Some false)))))
    (mkAdminRequest (Some AdmGetConfig)) 42 1000 toy_identity (mkSaveConfigRequest "  desk " 5000 None (Some false)) 990
    (toy_admin quiet_world None) eq_refl eq_refl toy_authorised eq_refl quiet_ready eq_refl)
    as (s' & H1 & H2 & _); [by vm_compute|by vm_compute|by vm_compute|by vm_compute|].
  exists s'. split; [exact H1|exact H2].
Defined.

Lemma tpm_pairing_never_starts_witness :
  ∃ e, handle_start_pairing true no_text no_text toy_admin_env (toy_admin (with_settings tpm_settings quiet_world) None)
       = (toy_admin (with_settings tpm_settings quiet_world) None,
          Err (err_resp ADMIN_ERROR ("Failed to load keypair: " +:+ no_text (CE_Io e))%string)).
Proof. apply (tpm_pairing_never_starts true no_text no_text); by vm_compute. Defined.
