(* ===== verification/PairingLife.v ===== *)
(** * The life of a pairing in progress

    The pairing slot of [tapauthd/src/admin_handler.rs] under every interleaving of
    requests and timers.  A waiting request gives the slot up while the phone
    connects, so its two halves are steps of their own. *)

From stdpp Require Import base gmap strings list relations.
From S2P Require Import Prelude Os Text Crypto Concrete Protocol ConcreteCodec Config ConfigFacts.
From S2P Require Import ConcreteConfig PairingUrl Pairing PairingTheorems Network Auth.
From S2P Require Import ConcreteAuth Ipc Session SessionTheorems PeerIdentity Admin AdminTheorems.

(** A timer that was started and has not fired yet. *)
Inductive Timer :=
| TPending (generation : Z)
| TActive (generation : Z).

#[export] Instance timer_eq_dec : EqDecision Timer.
Proof. solve_decision. Defined.

Definition fire (t : Timer) (p : option PairingState) : option PairingState :=
  match t with TPending g => pairing_timeout g p | TActive g => active_pairing_timeout g p end.

(** The timer that bounds a phase of a pairing. *)
Definition timer_of (p : PairingState) : Timer :=
  match p with PsPending q => TPending (pp_generation q) | PsActive a => TActive (ap_generation a) end.

Lemma fire_spec t p : fire t (Some p) = if decide (t = timer_of p) then None else Some p.
Proof.
  destruct t as [g|g], p as [q|a]; simpl; repeat case_decide; simplify_eq/=; done.
Qed.

Record Life := mkLife {
  lf_state : AdminState;
  lf_timers : list Timer;
  lf_waiting : list PendingPairing;    (* taken out by requests that wait for the phone *)
}.

Definition with_pairing (p : option PairingState) (s : AdminState) : AdminState :=
  mkAdminState (ad_world s) (ad_daemon s) p (ad_generation s).

(** Timers after a step that starts one for the slot when it succeeds. *)
Definition arm {A} (r : result AdminResponse A) (s : AdminState) (l : list Timer) : list Timer :=
  match r, ad_pairing s with Ok _, Some p => timer_of p :: l | _, _ => l end.

(** ** Steps that leave the slot alone *)

Definition slot_kept (s s' : AdminState) : Prop :=
  ad_pairing s' = ad_pairing s ∧ ad_generation s' = ad_generation s.
Definition keeps {A} (k : AM A) : Prop := ∀ s s' r, k s = (s', r) → slot_kept s s'.

Lemma keeps_bind {A B} (k : AM A) (f : A → AM B) : keeps k → (∀ a, keeps (f a)) → keeps (k ≫= f).
Proof.
  intros Hk Hf s s' r. unfold mbind, M_bind. destruct (k s) as [s1 [b|b]] eqn:E; apply Hk in E as [E1 E2].
  - intros [E3 E4]%Hf. split; congruence.
  - intros. by simplify_eq.
Qed.
Lemma keeps_pure {A} (r : result AdminResponse A) : keeps (λ s, (s, r)).
Proof. intros s s' r' H. by simplify_eq. Qed.
Lemma keeps_or_refuse {E A} (r : result E A) msg : keeps (or_refuse r msg).
Proof. destruct r; apply keeps_pure. Qed.
Lemma keeps_on_os {A} (k : M World ConfigError A) : keeps (on_os_state k).
Proof. intros s s' r. unfold on_os_state. destruct (k _). intros. by simplify_eq. Qed.
Lemma keeps_gets {A} (f : AdminState → A) : keeps (gets f).
Proof. intros s s' r H. unfold gets in H. by simplify_eq. Qed.
Lemma keeps_get : keeps get.
Proof. intros s s' r H. unfold get in H. by simplify_eq. Qed.
Lemma keeps_set_world w : keeps (set_world w).
Proof. intros s s' r H. unfold set_world, modify in H. by simplify_eq. Qed.
Lemma keeps_mret {A} (a : A) : keeps (mret a).
Proof. apply keeps_pure. Qed.
Lemma keeps_refuse {A} msg : keeps (refuse msg : AM A).
Proof. apply keeps_pure. Qed.
Lemma keeps_check_port a b : keeps (check_port a b).
Proof. unfold check_port. case_decide; apply keeps_pure. Qed.

#[export] Hint Resolve keeps_or_refuse keeps_on_os keeps_gets keeps_get keeps_set_world keeps_mret keeps_refuse
  keeps_check_port : admin.

Ltac keeps :=
  repeat first
    [ progress auto with admin
    | apply keeps_bind; [|intros ?]
    | match goal with |- keeps (match ?x with _ => _ end) => destruct x end ].

Section life.
Context `{C : CryptoOps} `{H : Hex} `{T : Toml} `{TT : TpmTools} `{I6 : Ipv6Text}.
Context `{JC : !Json ClientConfig} `{JS : !Json (gmap string PairedServer)}.
Context `{KH : !Codec PairingHello} `{KR : !Codec PairingResponse}.
Context `{KM : !Codec PairingCskMessage} `{KC : !Codec PairingComplete}.
Context (feature_tpm : bool).
Context (show_config_error : ConfigError → string) (show_crypto_error : CryptoError → string).
Context (show_protocol_error : ProtocolError → string) (to_rfc3339 : Z → string).

#[local] Notation start := (handle_start_pairing feature_tpm show_config_error show_crypto_error).

(** Requests that are not about pairing. *)
Definition other_request (p : AdminRequestPayload) : bool :=
  match p with
  | AdmStartPairing | AdmWaitForPairing _ | AdmCompletePairing _ => false
  | _ => true
  end.

(** Any request or timer, in any order. *)
Inductive life_step : Life → Life → Prop :=
| life_start env s s' r l ws :
    start env s = (s', r) → life_step (mkLife s l ws) (mkLife s' (arm r s' l) ws)
| life_take port s s' p l ws :
    take_pending port s = (s', Ok p) → life_step (mkLife s l ws) (mkLife s' l (p :: ws))
| life_accept env p s s' r l ws1 ws2 :
    accept_pending show_protocol_error env p s = (s', r) →
    life_step (mkLife s l (ws1 ++ p :: ws2)) (mkLife s' (arm r s' l) (ws1 ++ ws2))
| life_take_active port s s' a l ws :
    take_active port s = (s', Ok a) → life_step (mkLife s l ws) (mkLife s' l ws)
| life_confirm env u a s s' r l ws :
    confirm_pairing show_config_error show_crypto_error show_protocol_error env u a s = (s', r) →
    life_step (mkLife s l ws) (mkLife s' l ws)
| life_fire s l1 t l2 ws :
    life_step (mkLife s (l1 ++ t :: l2) ws) (mkLife (with_pairing (fire t (ad_pairing s)) s) (l1 ++ l2) ws)
| life_other env u p s s' r l ws :
    other_request p = true →
    (dispatch feature_tpm show_config_error show_crypto_error show_protocol_error to_rfc3339 env u (Some p)).1 s = (s', r) →
    life_step (mkLife s l ws) (mkLife s' l ws)
| life_reload s l ws : life_step (mkLife s l ws) (mkLife (reload_daemon feature_tpm s) l ws).

(** ** What each step does to the slot *)

Lemma pairing_keypair_keeps : keeps (pairing_keypair feature_tpm show_config_error).
Proof. unfold pairing_keypair, manager. keeps. Qed.
Lemma pairing_csk_keeps : keeps (pairing_csk show_config_error show_crypto_error).
Proof. unfold pairing_csk, manager. keeps. Qed.

Lemma other_keeps env u p :
  other_request p = true →
  keeps (dispatch feature_tpm show_config_error show_crypto_error show_protocol_error to_rfc3339 env u (Some p)).1.
Proof.
  destruct p; simpl; try done; intros _;
    unfold handle_get_servers, handle_remove_device, handle_rotate_csk, handle_save_config, handle_recover_tpm,
      handle_get_config, handle_get_daemon_status, manager; keeps.
Qed.

(** A run splits at a part that leaves the slot alone. *)
Lemma keeps_step {A B} (k : AM A) (f : A → AM B) s s' r :
  keeps k → (k ≫= f) s = (s', r) →
  (slot_kept s s' ∧ is_ok r = false) ∨ ∃ s1 a, slot_kept s s1 ∧ f a s1 = (s', r).
Proof.
  intros Hk. unfold mbind, M_bind. destruct (k s) as [s1 [a|a]] eqn:E; apply Hk in E.
  - right. by exists s1, a.
  - intros. simplify_eq. by left.
Qed.

(** ** Generations only: the slot as the timer that bounds it *)

Record Gens := mkGens {
  g_slot : option Timer;
  g_next : Z;
  g_timers : list Timer;
  g_waiting : list Z;
}.

Definition gens (lf : Life) : Gens :=
  mkGens (timer_of <$> ad_pairing (lf_state lf)) (ad_generation (lf_state lf)) (lf_timers lf)
    (pp_generation <$> lf_waiting lf).

Definition bump (g : Z) : Z := (g + 1) mod 2 ^ 64.

Inductive gens_step : Gens → Gens → Prop :=
| gs_same x : gens_step x x
| gs_skip sl g l ws : gens_step (mkGens sl g l ws) (mkGens sl (bump g) l ws)
| gs_start g l ws : gens_step (mkGens None g l ws) (mkGens (Some (TPending g)) (bump g) (TPending g :: l) ws)
| gs_take h g l ws : gens_step (mkGens (Some (TPending h)) g l ws) (mkGens None g l (h :: ws))
| gs_drop sl h g l ws1 ws2 : gens_step (mkGens sl g l (ws1 ++ h :: ws2)) (mkGens sl g l (ws1 ++ ws2))
| gs_activate h g l ws1 ws2 :
    gens_step (mkGens None g l (ws1 ++ h :: ws2)) (mkGens (Some (TActive h)) g (TActive h :: l) (ws1 ++ ws2))
| gs_finish h g l ws : gens_step (mkGens (Some (TActive h)) g l ws) (mkGens None g l ws)
| gs_fire sl t g l1 l2 ws :
    gens_step (mkGens sl g (l1 ++ t :: l2) ws) (mkGens (if decide (sl = Some t) then None else sl) g (l1 ++ l2) ws).

(** Generations that have not been active. *)
Definition early (x : Gens) : list Z :=
  match g_slot x with Some (TPending h) => h :: g_waiting x | _ => g_waiting x end.
Definition timer_gen (t : Timer) : Z := match t with TPending g | TActive g => g end.

Record gens_ok (n : nat) (x : Gens) : Prop := {
  go_next : 0 ≤ g_next x ≤ Z.of_nat n;
  go_timers : NoDup (g_timers x);
  go_armed t : g_slot x = Some t → t ∈ g_timers x;
  go_early : NoDup (early x);
  go_inactive h : h ∈ early x → TActive h ∉ g_timers x;
  go_early_old h : h ∈ early x → h < g_next x;
  go_timers_old t : t ∈ g_timers x → timer_gen t < g_next x;
}.

Lemma gens_step_ok n x x' :
  Z.of_nat (S n) < 2 ^ 64 → gens_step x x' → gens_ok n x → gens_ok (S n) x'.
Proof.
  intros Hn Hs [Hg Ht Ha He Hi Heo Hto].
  assert (Hb : bump (g_next x) = g_next x + 1) by (apply Z.mod_small; lia).
  destruct Hs; simpl in *; rewrite ?Hb in *.
  - split; unfold early; simpl; try done; lia.
  - split; unfold early; simpl; try done; try lia; intros h' Hh; [apply Heo in Hh|apply Hto in Hh]; lia.
  - unfold early in *. simpl in *. assert (TPending g ∉ l) by (intros Hin; apply Hto in Hin; simpl in Hin; lia).
    assert (g ∉ ws) by (intros Hin; apply Heo in Hin; lia).
    split; unfold early; simpl; try lia.
    + by constructor.
    + intros t [= <-]. by constructor.
    + by constructor.
    + intros h. rewrite !elem_of_cons. intros [->|Hh] [|Hin]; [done| |done|by eapply Hi].
      apply Hto in Hin. simpl in Hin. lia.
    + intros h [->|Hh]%elem_of_cons; [lia|]. apply Heo in Hh. lia.
    + intros t [->|Hh]%elem_of_cons; [simpl; lia|]. apply Hto in Hh. lia.
  - split; unfold early; simpl; try done; lia.
  - assert (Hp : early (mkGens sl g l (ws1 ++ h :: ws2)) ≡ₚ h :: early (mkGens sl g l (ws1 ++ ws2))).
    { unfold early. simpl. destruct sl as [[]|]; rewrite <-Permutation_middle; [apply perm_swap|done..]. }
    split; simpl; try done; try lia.
    + rewrite Hp in He. by inversion He.
    + intros h' Hh'. apply Hi. rewrite Hp. by constructor.
    + intros h' Hh'. apply Heo. rewrite Hp. by constructor.
  - unfold early in *. simpl in *. rewrite <-Permutation_middle in He. apply NoDup_cons in He as [Hh He].
    setoid_rewrite <-Permutation_middle in Hi. setoid_rewrite <-Permutation_middle in Heo.
    split; unfold early; simpl; try done; try lia.
    + constructor; [|done]. apply Hi. by constructor.
    + intros t [= <-]. by constructor.
    + intros h' Hh' [|Hin]%elem_of_cons; [by simplify_eq|]. eapply Hi; [|exact Hin]. by constructor.
    + intros h' Hh'. apply Heo. by constructor.
    + intros t [->|Hin]%elem_of_cons; [|by apply Hto]. simpl. apply Heo. by constructor.
  - split; unfold early; simpl; try done; lia.
  - unfold early in *. simpl in *. rewrite <-Permutation_middle in Ht. apply NoDup_cons in Ht as [Hnt Ht].
    setoid_rewrite <-Permutation_middle in Ha. setoid_rewrite <-Permutation_middle in Hi.
    setoid_rewrite <-Permutation_middle in Hto.
    assert (Hsub : early (mkGens (if decide (sl = Some t) then None else sl) g (l1 ++ l2) ws)
      `sublist_of` early (mkGens sl g (l1 ++ t :: l2) ws)).
    { unfold early. simpl. case_decide; [|done]. destruct t; subst; simpl; [by constructor|done]. }
    split; simpl; try done; try lia.
    + intros t'. case_decide as Hd; [done|]. intros ->. specialize (Ha _ eq_refl).
      by apply elem_of_cons in Ha as [->|].
    + by eapply sublist_NoDup.
    + intros h Hh Hin. eapply Hi; [by eapply elem_of_sublist|]. by constructor.
    + intros h Hh. apply Heo. by eapply elem_of_sublist.
    + intros t' Hin. apply Hto. by constructor.
Qed.

(** ** The handlers as steps on generations *)

Lemma gens_same s s' l ws : slot_kept s s' → gens_step (gens (mkLife s l ws)) (gens (mkLife s' l ws)).
Proof. intros [Hp Hg]. unfold gens. simpl. rewrite Hp, Hg. constructor. Qed.

Lemma arm_err {A} (r : result AdminResponse A) s l : is_ok r = false → arm r s l = l.
Proof. by destruct r. Qed.

Lemma start_gens env s s' r l ws :
  start env s = (s', r) → gens_step (gens (mkLife s l ws)) (gens (mkLife s' (arm r s' l) ws)).
Proof.
  intros Hs. unfold handle_start_pairing in Hs.
  assert (Hdone : ∀ s1, slot_kept s s1 → slot_kept s1 s' ∧ is_ok r = false →
    gens_step (gens (mkLife s l ws)) (gens (mkLife s' (arm r s' l) ws))).
  { intros s1 [H1 H2] [[H3 H4] Hr]. rewrite arm_err by done. apply gens_same. split; congruence. }
  apply keeps_step in Hs as [Hs|(s1 & kp & Hk1 & Hs)]; [by eapply (Hdone s)| |apply pairing_keypair_keeps].
  apply keeps_step in Hs as [Hs|(s2 & port & Hk2 & Hs)]; [by eapply Hdone| |by auto with admin].
  apply keeps_step in Hs as [Hs|(s3 & ? & Hk3 & Hs)];
    [eapply (Hdone s2); [|done]; destruct Hk1, Hk2; split; congruence| |by auto with admin].
  munfold. destruct (client_new kp (ad_world s3)) as [w sess]. munfold.
  destruct sess as [sess|]; unfold or_refuse, refuse in Hs; munfold.
  2:{ simplify_eq. apply gens_same. destruct Hk1, Hk2, Hk3. split; simpl; congruence. }
  assert (Hk : slot_kept s s3) by (destruct Hk1, Hk2, Hk3; split; congruence). destruct Hk as [Hp Hg].
  unfold set_pairing in Hs. munfold. destruct (ad_pairing s3) as [p|] eqn:Hp3; simplify_eq; unfold gens, arm; simpl.
  - rewrite <-Hp, Hg. simpl. constructor.
  - rewrite <-Hp, Hg. simpl. constructor.
Qed.

Lemma take_gens port s s' p l ws :
  take_pending port s = (s', Ok p) → gens_step (gens (mkLife s l ws)) (gens (mkLife s' l (p :: ws))).
Proof.
  unfold take_pending, check_port, set_pairing, refuse. munfold.
  destruct (ad_pairing s) as [[q|]|] eqn:Hp; [|done..]. case_decide; [done|]. intros [= <- <-].
  unfold gens. simpl. rewrite Hp. constructor.
Qed.

Lemma accept_gens env p s s' r l ws1 ws2 :
  accept_pending show_protocol_error env p s = (s', r) →
  gens_step (gens (mkLife s l (ws1 ++ p :: ws2))) (gens (mkLife s' (arm r s' l) (ws1 ++ ws2))).
Proof.
  intros Ha. unfold gens. simpl. rewrite !fmap_app. simpl.
  assert (Hdrop : slot_kept s s' → is_ok r = false →
    gens_step (mkGens (timer_of <$> ad_pairing s) (ad_generation s) l ((pp_generation <$> ws1) ++ pp_generation p :: (pp_generation <$> ws2)))
      (mkGens (timer_of <$> ad_pairing s') (ad_generation s') (arm r s' l) ((pp_generation <$> ws1) ++ (pp_generation <$> ws2)))).
  { intros [-> ->] Hr. rewrite arm_err by done. constructor. }
  unfold accept_pending, set_world, set_pairing, refuse in Ha. munfold.
  destruct (ae_accept env) as [[stream|]|]; [|by simplify_eq; apply Hdrop..].
  destruct (initiate_pairing _ _) as [peer [[[k n] sas]|]]; simpl in Ha; [|by simplify_eq; apply Hdrop].
  destruct (ad_pairing s) eqn:Hp; simpl in Ha; simplify_eq; [by apply Hdrop|].
  simpl. constructor.
Qed.

Lemma take_active_gens port s s' a l ws :
  take_active port s = (s', Ok a) → gens_step (gens (mkLife s l ws)) (gens (mkLife s' l ws)).
Proof.
  unfold take_active, check_port, set_pairing, refuse. munfold.
  destruct (ad_pairing s) as [[|q]|] eqn:Hp; [done| |done]. case_decide; [done|]. intros [= <- <-].
  unfold gens. simpl. rewrite Hp. constructor.
Qed.

Lemma confirm_keeps env u a :
  keeps (confirm_pairing show_config_error show_crypto_error show_protocol_error env u a).
Proof. unfold confirm_pairing, manager. pose proof pairing_csk_keeps. keeps. Qed.

Lemma life_gens lf lf' : life_step lf lf' → gens_step (gens lf) (gens lf').
Proof.
  intros [env s s' r l ws Hs|port s s' p l ws Hs|env p s s' r l ws1 ws2 Hs|port s s' a l ws Hs
         |env u a s s' r l ws Hs|s l1 t l2 ws|env u p s s' r l ws Ho Hs|s l ws].
  - by eapply start_gens.
  - by eapply take_gens.
  - by eapply accept_gens.
  - by eapply take_active_gens.
  - eapply gens_same, confirm_keeps, Hs.
  - unfold gens. simpl. assert (timer_of <$> fire t (ad_pairing s)
      = if decide (timer_of <$> ad_pairing s = Some t) then None else timer_of <$> ad_pairing s) as ->; [|constructor].
    destruct (ad_pairing s) as [p|]; [|by destruct t]. rewrite fire_spec. simpl.
    do 2 case_decide; simplify_eq; done.
  - eapply gens_same, other_keeps; done.
  - apply gens_same. unfold reload_daemon. by destruct (reload _ _ _).
Qed.

Lemma gens_nsteps n lf lf' :
  nsteps life_step n lf lf' → gens_ok 0 (gens lf) → Z.of_nat n < 2 ^ 64 → gens_ok n (gens lf').
Proof.
  revert lf'. induction n as [|n IH]; intros lf' Hn Hok Hb; [by inversion Hn; subst|].
  apply nsteps_inv_r in Hn as (lf1 & Hn & Hs). eapply gens_step_ok; [done|by apply life_gens|].
  apply IH; [done..|lia].
Qed.

(** C22: No pairing holds the slot for good, and no timer ends a pairing it was not started
    for.  From a daemon that has just started, after any sequence of fewer than
    2^64 steps (requests, halves of waiting requests, timers, reloads), when the slot
    holds a pairing, exactly one of the running timers ends it, namely the one started
    for this phase of this pairing; every other leaves it alone. *)
Theorem pairing_slot_timed n s lf p :
  ad_pairing s = None → ad_generation s = 0 → Z.of_nat n < 2 ^ 64 →
  nsteps life_step n (mkLife s [] []) lf → ad_pairing (lf_state lf) = Some p →
  ∃ l1 t l2, lf_timers lf = l1 ++ t :: l2 ∧ fire t (Some p) = None ∧ t = timer_of p ∧
    ∀ t', t' ∈ l1 ++ l2 → fire t' (Some p) = Some p.
Proof.
  intros Hp Hg Hn Hs Hlf. destruct (gens_nsteps n _ lf Hs) as [_ Ht Ha _ _ _ _]; [|done|].
  { unfold gens. simpl. rewrite Hp, Hg. split; try constructor; simpl; try done; by intros ? ?%elem_of_nil. }
  simpl in *. specialize (Ha (timer_of p)). rewrite Hlf in Ha. specialize (Ha eq_refl).
  apply list_elem_of_split in Ha as (l1 & l2 & E). rewrite E in *.
  rewrite <-Permutation_middle in Ht. apply NoDup_cons in Ht as [Hnin _].
  exists l1, (timer_of p), l2. split; [done|]. rewrite fire_spec, decide_True by done.
  split; [done|]. split; [done|]. intros t' Ht'. rewrite fire_spec, decide_False; [done|]. by intros ->.
Qed.
End life.

Lemma pairing_slot_timed_witness :
  ∃ s' r p l1 t l2, handle_start_pairing true no_text no_text toy_admin_env (mkAdminState quiet_world toy_daemon None 0) = (s', r) ∧
    ad_pairing s' = Some p ∧ arm r s' [] = l1 ++ t :: l2 ∧ fire t (Some p) = None.
Proof.
  assert (Hrun : let '(s', r) := handle_start_pairing true no_text no_text toy_admin_env
      (mkAdminState quiet_world toy_daemon None 0) in bool_decide (is_Some (timer_of <$> ad_pairing s')) = true)
    by (vm_compute; exact eq_refl).
  destruct (handle_start_pairing _ _ _ _ _) as [s' r] eqn:E.
  apply bool_decide_eq_true_1 in Hrun as [t0 Ht]. destruct (ad_pairing s') as [p|] eqn:Hp; [|done].
  destruct (pairing_slot_timed true no_text no_text no_text no_text 1 (mkAdminState quiet_world toy_daemon None 0)
    (mkLife s' (arm r s' []) []) p eq_refl eq_refl eq_refl) as (l1 & t & l2 & Hl & Hf & _).
  - eapply nsteps_l; [|constructor]. eapply (life_start _ _ _ _ _ toy_admin_env). exact E.
  - exact Hp.
  - exists s', r, p, l1, t, l2. split; [exact eq_refl|]. split; [exact Hp|]. split; [exact Hl|exact Hf].
Defined.
