(* ===== verification/Daemon.v ===== *)
(** * The daemon's socket: [tapauthd/src/main.rs]

    Framing, dispatch of one request per connection, deduplication of requests,
    the cancel registry, and start-up helpers.  The handling of a connection is written
    over any administrative handler; [serve] is the daemon with the one of [Admin]. *)

From stdpp Require Import base gmap strings list.
From S2P Require Import Prelude Os Text Crypto Protocol Config PairingUrl Pairing Network Auth Ipc Session.
From S2P Require Import PeerIdentity Admin.

(** ** Connections *)

Inductive DaemonError :=
| DE_Io (k : io_kind)
| DE_Prost
| DE_AuthHandler (e : AuthHandlerError).

(** One accepted connection. *)
Record Conn := mkConn {
  cn_cred : option (Z * Z);      (* peer pid and uid, when the kernel tells *)
  cn_in : bytes;                 (* what the peer sends within three seconds *)
  cn_eof : bool;                 (* it then closes its side, or stays silent *)
  cn_write : option io_kind;     (* the error a write meets, if any *)
  cn_out : bytes;
}.

(** [read_framed] under the three-second timeout of [handle_conn]: a silent peer
    is a timeout, a closed one an early end. *)
Definition read_exact_conn (n : nat) (c : Conn) : result DaemonError (bytes * Conn) :=
  if decide (n ≤ length (cn_in c))%nat
  then Ok (take n (cn_in c), mkConn (cn_cred c) (drop n (cn_in c)) (cn_eof c) (cn_write c) (cn_out c))
  else Err (DE_Io (if cn_eof c then UnexpectedEof else TimedOut)).

Definition MAX_FRAME : Z := 10 * 1024 * 1024.

Definition read_framed (c : Conn) : result DaemonError (bytes * Conn) :=
  '(len_buf, c1) ← read_exact_conn 4 c;
  let len := from_be_bytes len_buf in
  if decide (MAX_FRAME < len) then Err (DE_Io InvalidData) else
  read_exact_conn (Z.to_nat len) c1.

Section framing.
Context `{KI : !Codec IpcEnvelope}.

(** The length is cast with [as u32]. *)
Definition write_framed (m : IpcEnvelope) (c : Conn) : result DaemonError Conn :=
  let msg_bytes := encode_to_vec m in
  let len := Z.of_nat (length msg_bytes) mod 2 ^ 32 in
  match cn_write c with
  | Some k => Err (DE_Io k)
  | None => Ok (mkConn (cn_cred c) (cn_in c) (cn_eof c) None (cn_out c ++ to_be_bytes 4 len ++ msg_bytes))
  end.

(** A client that has gone away is not an error. *)
Definition write_response (m : IpcEnvelope) (c : Conn) : result DaemonError Conn :=
  match write_framed m c with
  | Ok c' => Ok c'
  | Err (DE_Io k) =>
      if decide (k = BrokenPipe ∨ k = ConnectionReset ∨ k = UnexpectedEof) then Ok c else Err (DE_Io k)
  | Err e => Err e
  end.
End framing.

Definition envelope_pam_response (r : PamAuthenticateResponse) : IpcEnvelope :=
  mkIpcEnvelope (Some (MsgPamResponse r)).
Definition envelope_admin_response (r : AdminResponse) : IpcEnvelope :=
  mkIpcEnvelope (Some (MsgAdminResponse r)).

(** ** Server state *)

(** The shared state; [recent_requests] maps a user to the time of the last
    accepted request, [sv_pairing] is the pairing in progress. *)
Record Server := mkServer {
  sv_daemon : DaemonState;
  sv_session : SessionWorld;
  sv_recent : gmap string Z;
  sv_pairing : option PairingState;
  sv_generation : Z;
}.
Definition set_sessions (sw : SessionWorld) (s : Server) : Server :=
  mkServer (sv_daemon s) sw (sv_recent s) (sv_pairing s) (sv_generation s).
Definition set_recent (r : gmap string Z) (s : Server) : Server :=
  mkServer (sv_daemon s) (sv_session s) r (sv_pairing s) (sv_generation s).

Definition DEDUP_WINDOW : Z := 1000.
Definition RECENT_RETENTION : Z := 2000.

(** A server handler does not fail: its errors are answers. *)
Definition SM (A : Type) : Type := Server → Server * A.

Definition pam_answer (outcome : Z) (detail : string) : PamAuthenticateResponse :=
  mkPamAuthenticateResponse outcome detail [].

Section server.
Context `{C : CryptoOps} `{H : Hex} `{T : Toml} `{KW : !Codec WrapperMessage} `{KE : !Codec EncryptedPacket}.
Context `{KI : !Codec IpcEnvelope}.
Context (feature_ble : bool) (show_auth_error : AuthHandlerError → string).
(** Text of an error of the random source. *)
Context (random_error : string).

(** [daemon] is the snapshot taken when the connection was accepted.  [None]: the
    session never answers. *)
Definition handle_pam_authenticate (env : SessionEnv) (req : PamAuthenticateRequest) (daemon : DaemonState)
    : SM (option PamAuthenticateResponse) := λ s,
  let now := w_clock (sw_world (sv_session s)) in
  let recent := filter (λ '(_, t), now - t < RECENT_RETENTION) (sv_recent s) in
  let is_duplicate := match recent !! par_username req with
                      | Some t => bool_decide (now - t < DEDUP_WINDOW)
                      | None => false
                      end in
  if is_duplicate
  then (set_recent recent s,
        Some (pam_answer OUTCOME_IGNORE "Duplicate request - another authentication is in progress"))
  else
    let s1 := set_recent (<[par_username req := now]> recent) s in
    let sw := sv_session s1 in
    match session_new daemon (par_username req) (sw_world sw) with
    | (w, Err _) =>
        (set_sessions (mkSessionWorld w (sw_registry sw) (sw_next sw) (sw_log sw)) s1,
         Some (pam_answer OUTCOME_ERROR ("Internal error: " +:+ random_error)%string))
    | (w, Ok sess) =>
        let '(sw', r) := handle_authenticate feature_ble show_auth_error env sess
                           (Some (par_timeout_seconds req)) (par_request_id req)
                           (mkSessionWorld w (sw_registry sw) (sw_next sw) (sw_log sw)) in
        (set_sessions sw' s1,
         match r with
         | Ok resp => resp
         | Err e => Some (pam_answer OUTCOME_ERROR ("Internal error: " +:+ show_auth_error e)%string)
         end)
    end.

(** The entry leaves the registry and its session is told; the number is the
    session whose channel fired. *)
Definition handle_pam_cancel (req : PamCancelRequest) : SM (PamAuthenticateResponse * option Z) := λ s,
  let sw := sv_session s in
  match sw_registry sw !! pcr_request_id req with
  | Some session =>
      (set_sessions
         (mkSessionWorld (sw_world sw) (delete (pcr_request_id req) (sw_registry sw)) (sw_next sw) (sw_log sw)) s,
       (pam_answer OUTCOME_IGNORE "Cancel forwarded", Some session))
  | None => (s, (pam_answer OUTCOME_IGNORE "No matching request to cancel", None))
  end.

(** The administrative handler. *)
Context (admin : AdminRequest → Z → Z → SM AdminResponse).

Definition unknown_message : PamAuthenticateResponse := pam_answer OUTCOME_ERROR "Unknown IPC message".

(** One frame is read, one answer is written.  [None]: a session never answers,
    and nothing is written. *)
Definition handle_conn (env : SessionEnv) (c : Conn) (daemon : DaemonState)
    : SM (option (result DaemonError Conn)) := λ s,
  match cn_cred c with
  | None => (s, Some (Err (DE_Io PermissionDenied)))
  | Some (caller_pid, caller_uid) =>
      match read_framed c with
      | Err e => (s, Some (Err e))
      | Ok (req_bytes, c1) =>
          if decide (req_bytes = []) then (s, Some (Ok c1)) else
          match decode req_bytes with
          | Some (mkIpcEnvelope (Some (MsgPamAuthenticate req))) =>
              let '(s1, r) := handle_pam_authenticate env req daemon s in
              (s1, (λ resp, write_response (envelope_pam_response resp) c1) <$> r)
          | Some (mkIpcEnvelope (Some (MsgPamCancel req))) =>
              let '(s1, (resp, _)) := handle_pam_cancel req s in
              (s1, Some (write_response (envelope_pam_response resp) c1))
          | Some (mkIpcEnvelope (Some (MsgAdminRequest req))) =>
              let '(s1, resp) := admin req caller_pid caller_uid s in
              (s1, Some (write_response (envelope_admin_response resp) c1))
          | _ => (s, Some (write_response (envelope_pam_response unknown_message) c1))
          end
      end
  end.
End server.

(** ** The daemon with its administrative handler *)

(** The part of the server that administration works on. *)
Definition admin_view (s : Server) : AdminState :=
  mkAdminState (sw_world (sv_session s)) (sv_daemon s) (sv_pairing s) (sv_generation s).
Definition admin_update (a : AdminState) (s : Server) : Server :=
  let sw := sv_session s in
  mkServer (ad_daemon a) (mkSessionWorld (ad_world a) (sw_registry sw) (sw_next sw) (sw_log sw)) (sv_recent s)
    (ad_pairing a) (ad_generation a).

Section serve.
Context `{C : CryptoOps} `{H : Hex} `{T : Toml} `{TT : TpmTools} `{I6 : Ipv6Text}.
Context `{JC : !Json ClientConfig} `{JS : !Json (gmap string PairedServer)}.
Context `{KH : !Codec PairingHello} `{KR : !Codec PairingResponse}.
Context `{KM : !Codec PairingCskMessage} `{KC : !Codec PairingComplete}.
Context `{KW : !Codec WrapperMessage} `{KE : !Codec EncryptedPacket} `{KI : !Codec IpcEnvelope}.
Context (feature_ble feature_tpm : bool).
Context (show_auth_error : AuthHandlerError → string) (random_error : string).
Context (show_config_error : ConfigError → string) (show_crypto_error : CryptoError → string).
Context (show_protocol_error : ProtocolError → string).
Context (show_peer_error : PeerIdentityError → string) (to_rfc3339 : Z → string).

Definition daemon_admin (env : AdminEnv) (req : AdminRequest) (pid uid : Z) : SM AdminResponse := λ s,
  let '(a, resp) := handle_admin_request feature_tpm show_config_error show_crypto_error show_protocol_error
                      show_peer_error to_rfc3339 env req pid uid (admin_view s) in
  (admin_update a s, resp).

Definition serve (env : SessionEnv) (admin_env : AdminEnv) (c : Conn) : SM (option (result DaemonError Conn)) := λ s,
  handle_conn feature_ble show_auth_error random_error (daemon_admin admin_env) env c (sv_daemon s) s.
End serve.

(** ** Start-up *)

(** What [adopt_systemd_socket] sees: [LISTEN_FDS] and [LISTEN_PID] as parsed
    integers, and our process id.  [true]: file descriptor 3 is adopted. *)
Definition adopt_systemd_socket (listen_fds listen_pid : option Z) (pid : Z) : bool :=
  match listen_fds with
  | Some n =>
      if decide (0 < n)
      then bool_decide (default 0 listen_pid = pid) && bool_decide (1 ≤ n)
      else false
  | None => false
  end.

Inductive DropError := UserNotFound | SetGidFailed | SetUidFailed.

(** [setgid] and [setuid]: whether the kernel grants the calls.  The user and group the
    process has afterwards; the group may have changed although the user did not. *)
Definition drop_privileges_to_tapauthd (tapauthd : option (Z * Z)) (setgid setuid : bool) (ids : Z * Z)
    : (Z * Z) * result DropError () :=
  match tapauthd with
  | None => (ids, Err UserNotFound)
  | Some (target_uid, target_gid) =>
      let '(euid, _) := ids in
      if decide (euid = target_uid) then (ids, Ok ()) else
      if negb setgid then (ids, Err SetGidFailed) else
      if negb setuid then ((euid, target_gid), Err SetUidFailed) else
      ((target_uid, target_gid), Ok ())
  end.
