(* ===== verification/DaemonTheorems.v ===== *)
(** * Theorems about the daemon's socket

    Framing, one request per connection, deduplication, cancellation, and where
    an answer of success comes from. *)

From stdpp Require Import base gmap strings list.
From S2P Require Import Prelude Os Text Crypto Concrete Protocol ConcreteCodec Config ConfigFacts.
From S2P Require Import ConcreteConfig Network Auth ConcreteAuth AuthTheorems Ipc Session.
From S2P Require Import PairingUrl PeerIdentity Ble Reception SessionTheorems ConcreteIpc Daemon.

#[local] Opaque to_be_bytes.

(** ** Frames *)

Definition ipc_frame `{Codec IpcEnvelope} (m : IpcEnvelope) : bytes :=
  to_be_bytes 4 (Z.of_nat (length (encode_to_vec m))) ++ encode_to_vec m.

Definition conn_of (cred : option (Z * Z)) (input : bytes) (eof : bool) : Conn :=
  mkConn cred input eof None [].

Section frames.
Context `{KI : !Codec IpcEnvelope}.

Lemma read_exact_conn_app cred d rest eof wr o :
  read_exact_conn (length d) (mkConn cred (d ++ rest) eof wr o) = Ok (d, mkConn cred rest eof wr o).
Proof.
  unfold read_exact_conn. cbn [cn_in cn_cred cn_eof cn_write cn_out].
  rewrite decide_True by (rewrite length_app; lia). by rewrite drop_app_length, take_app_length.
Qed.

(** A frame within the limit is read whole, and nothing beyond it. *)
Lemma read_framed_frame cred d rest eof wr o :
  Z.of_nat (length d) ≤ MAX_FRAME →
  read_framed (mkConn cred (to_be_bytes 4 (Z.of_nat (length d)) ++ d ++ rest) eof wr o)
  = Ok (d, mkConn cred rest eof wr o).
Proof.
  intros Hl. unfold read_framed, MAX_FRAME in *.
  pose proof (read_exact_conn_app cred (to_be_bytes 4 (Z.of_nat (length d))) (d ++ rest) eof wr o) as H4.
  rewrite length_to_be_bytes in H4. rewrite H4. cbn [mbind result_bind].
  rewrite from_to_be_bytes_small by lia. rewrite decide_False by lia.
  rewrite Nat2Z.id. apply read_exact_conn_app.
Qed.
End frames.

Section server.
Context `{C : CryptoOps} `{H : Hex} `{T : Toml} `{KW : !Codec WrapperMessage} `{KE : !Codec EncryptedPacket}.
Context (fb : bool) (show : AuthHandlerError → string) (rnd : string).

(** A success answer is the session's. *)
Lemma pam_authenticate_success env req daemon s s' resp :
  handle_pam_authenticate fb show rnd env req daemon s = (s', Some resp) →
  resp_outcome resp = OUTCOME_SUCCESS →
  ∃ sess sw sw', as_state sess = daemon ∧ as_username sess = par_username req ∧
    as_challenge sess = take 32 (w_entropy (sw_world (sv_session s))) ∧ length (as_challenge sess) = 32%nat ∧
    w_clock (sw_world sw) = w_clock (sw_world (sv_session s)) ∧
    handle_authenticate fb show env sess (Some (par_timeout_seconds req)) (par_request_id req) sw
    = (sw', Ok (Some resp)).
Proof.
  unfold handle_pam_authenticate. intros Hh Ho. destruct (match _ with Some t => _ | None => _ end); [by simplify_eq|].
  unfold session_new in Hh. rewrite bind_run in Hh. cbn [sv_session set_recent] in Hh.
  destruct (getrandom_fill 32 _) as [w [ch|]] eqn:Eg; [|by simplify_eq].
  apply getrandom_fill_Ok in Eg as (Hl & -> & He). unfold mret, M_ret in Hh.
  destruct (handle_authenticate _ _ _ _ _ _ _) as [sw' r] eqn:Ha. simplify_eq.
  destruct r as [ro|]; simplify_eq.
  eexists (mkAuthSession daemon (par_username req) ch), _, _. split; [done|]. split; [done|].
  split; [|split; [done|split; [|exact Ha]]]; simpl; [|done]. rewrite He. by rewrite take_app_exact.
Qed.
End server.

(** The whole path from an answer of success back to the phone's signature. *)
Lemma pam_authenticate_granted `{C : CryptoOps} `{H : Hex} `{T : Toml} `{KW : !Codec WrapperMessage}
    `{KE : !Codec EncryptedPacket} fb show rnd env req daemon s s' resp :
  let challenge := take 32 (w_entropy (sw_world (sv_session s))) in
  let deadline := w_clock (sw_world (sv_session s)) + par_timeout_seconds req * 1000 in
  handle_pam_authenticate fb show rnd env req daemon s = (s', Some resp) →
  resp_outcome resp = OUTCOME_SUCCESS →
  ∃ csk, ds_csk daemon = Some csk ∧ user_authorized (ds_paired_servers daemon) (par_username req) ∧
    length challenge = 32%nat ∧ granted (received env deadline) csk challenge (ds_paired_servers daemon).
Proof.
  intros challenge deadline Hh Ho.
  destruct (pam_authenticate_success _ _ _ _ _ _ _ _ _ Hh Ho)
    as (sess & sw & sw' & <- & <- & Hch & Hlen & Hclock & Ha).
  destruct (handle_authenticate_granted _ _ _ _ _ _ _ _ _ Ha Ho) as (csk & Hcsk & Hu & Hg).
  exists csk. split; [done|]. split; [done|]. unfold challenge. rewrite <-Hch. split; [done|].
  unfold session_deadline in Hg. by rewrite Hclock in Hg.
Qed.

(** ** Claims *)

(** The daemon's success is a grant for a fresh challenge.  When
    [handle_pam_authenticate] answers SUCCESS, the session's challenge is the next 32
    bytes of the random source, some paired server is authorised for the requested
    user, and a packet that reached the daemon before the session's deadline decrypts
    under the CSK to a grant that signs exactly this challenge under a paired server's
    key. *)
Theorem daemon_success_sound `{C : CryptoOps} `{H : Hex} `{T : Toml} `{KW : !Codec WrapperMessage}
    `{KE : !Codec EncryptedPacket} fb show rnd env req daemon s s' resp :
  let challenge := take 32 (w_entropy (sw_world (sv_session s))) in
  let deadline := w_clock (sw_world (sv_session s)) + par_timeout_seconds req * 1000 in
  handle_pam_authenticate fb show rnd env req daemon s = (s', Some resp) →
  resp_outcome resp = OUTCOME_SUCCESS →
  ∃ csk, ds_csk daemon = Some csk ∧ user_authorized (ds_paired_servers daemon) (par_username req) ∧
    length challenge = 32%nat ∧ granted (received env deadline) csk challenge (ds_paired_servers daemon).
Proof. intros challenge deadline. apply pam_authenticate_granted. Qed.

(** One request per connection.  Whatever follows the first frame on a
    connection has no effect: the answer and the server's state are those of the
    first frame alone.  In particular a cancel sent on the connection of the request
    it is meant to cancel is never read. *)
Theorem second_frame_ignored `{C : CryptoOps} `{H : Hex} `{T : Toml} `{KW : !Codec WrapperMessage}
    `{KE : !Codec EncryptedPacket} `{KI : !Codec IpcEnvelope} fb show rnd admin env cred m rest eof daemon s :
  Z.of_nat (length (encode_to_vec m)) ≤ MAX_FRAME →
  let run input := handle_conn fb show rnd admin env (conn_of cred input eof) daemon s in
  (run (ipc_frame m ++ rest)).1 = (run (ipc_frame m)).1 ∧
  match (run (ipc_frame m ++ rest)).2, (run (ipc_frame m)).2 with
  | Some (Ok c), Some (Ok c0) => cn_out c = cn_out c0 ∧ (is_Some cred → cn_in c = rest)
  | r, r0 => r = r0
  end.
Proof.
  intros Hl run. unfold run, handle_conn, conn_of, ipc_frame. cbn [cn_cred].
  destruct cred as [[pid uid]|]; [|done].
  pose proof (read_framed_frame (Some (pid, uid)) _ rest eof None [] Hl) as H1.
  pose proof (read_framed_frame (Some (pid, uid)) _ [] eof None [] Hl) as H2.
  rewrite app_nil_r in H2. rewrite <-(assoc_L (++)), H1, H2.
  destruct (decide (encode_to_vec m = [])) as [He|He]; [by repeat split|].
  assert (Hw : ∀ e, match write_response e (mkConn (Some (pid, uid)) rest eof None []),
                          write_response e (mkConn (Some (pid, uid)) [] eof None []) with
    | Ok c, Ok c0 => cn_out c = cn_out c0 ∧ (is_Some (Some (pid, uid)) → cn_in c = rest)
    | r, r0 => Some r = Some r0 end).
  { intros e. cbn. by split. }
  destruct (decode (encode_to_vec m)) as [[[[rq|rq|rq|rq|rq]|]]|]; try by split; [done|apply Hw].
  - destruct (handle_pam_authenticate _ _ _ _ _ _ _) as [s1 [resp|]]; split; try done; apply Hw.
  - destruct (handle_pam_cancel rq s) as [s1 [resp x]]. split; [done|apply Hw].
  - destruct (admin rq pid uid s) as [s1 resp]. split; [done|apply Hw].
Qed.

(** ** A concrete daemon *)

(** Its random source yields the challenge that the concrete phone signs. *)
Definition fresh_world : World := mkWorld (toy_challenge ++ rep 64 7) 1700000000 5000 ∅ ∅ [] 0 (Some 990) (Some "laptop"%string).
Definition toy_server : Server :=
  mkServer toy_daemon (mkSessionWorld fresh_world ∅ 0 []) {["bob"%string := 4500]} None 0.
Definition ann_request : PamAuthenticateRequest := mkPamAuthenticateRequest "ann" true 30 "r1".
Lemma toy_pam_success :
  resp_outcome <$> (handle_pam_authenticate true no_text "" granting_env ann_request toy_daemon toy_server).2
  = Some OUTCOME_SUCCESS.
Proof. by vm_compute. Qed.

Lemma daemon_success_sound_witness : granted (received granting_env 35000) toy_csk toy_challenge toy_servers.
Proof.
  destruct (handle_pam_authenticate true no_text "" granting_env ann_request toy_daemon toy_server)
    as [s' r] eqn:E.
  pose proof toy_pam_success as Hs. rewrite E in Hs. destruct r as [resp|]; [|done].
  injection Hs as Hs.
  destruct (daemon_success_sound true no_text EmptyString granting_env ann_request
    toy_daemon toy_server s' resp E Hs) as (csk & Hc & _ & _ & Hg).
  injection Hc as <-. exact Hg.
Defined.

Definition toy_admin (r : AdminRequest) (pid uid : Z) : SM AdminResponse := λ s, (s, mkAdminResponse 0 "" None).

Lemma second_frame_ignored_witness :
  let cancel := ipc_frame (mkIpcEnvelope (Some (MsgPamCancel (mkPamCancelRequest "user" "r1")))) in
  let run input := handle_conn true no_text "" toy_admin granting_env (conn_of (Some (7, 1000)) input false)
                     toy_daemon toy_server in
  let frame := ipc_frame (mkIpcEnvelope (Some (MsgPamAuthenticate ann_request))) in
  (run (frame ++ cancel)).1 = (run frame).1.
Proof.
  intros cancel run frame. refine (proj1 (second_frame_ignored true no_text "" toy_admin granting_env _
    (mkIpcEnvelope (Some (MsgPamAuthenticate ann_request))) cancel false toy_daemon toy_server _)).
  by vm_compute.
Defined.

(** ** Requests in quick succession *)

Section dedup.
(** The time of the last accepted request of a user, if it counts at [now]. *)
Definition fresh_request (s : Server) (user : string) (now : Z) : option Z :=
  t ← sv_recent s !! user; if decide (now - t < DEDUP_WINDOW) then Some t else None.

Lemma recent_lookup now u (m : gmap string Z) :
  filter (λ '(_, t), now - t < RECENT_RETENTION) m !! u
  = (t ← m !! u; if decide (now - t < RECENT_RETENTION) then Some t else None).
Proof.
  rewrite map_lookup_filter. destruct (m !! u) as [t|]; simpl; [|done].
  by case_decide; [rewrite option_guard_True|rewrite option_guard_False].
Qed.

(** Forgetting entries older than 2000 ms loses no window. *)
Lemma recent_fresh s u now later :
  now ≤ later →
  (filter (λ '(_, t), now - t < RECENT_RETENTION) (sv_recent s) !! u ≫= λ t,
     if decide (later - t < DEDUP_WINDOW) then Some t else None) = fresh_request s u later.
Proof.
  intros Hl. unfold fresh_request. rewrite recent_lookup.
  destruct (sv_recent s !! u) as [t|]; simpl; [|done]. unfold RECENT_RETENTION, DEDUP_WINDOW in *.
  by repeat case_decide; simpl; repeat case_decide; try lia.
Qed.
End dedup.

(** C36: Requests in quick succession.  A request of a user whose last accepted one
    is less than 1000 ms old is answered IGNORE without touching any session, and
    does not push the window forward; any other request is accepted, exactly as by a
    daemon that remembers nothing, and opens a new window.  Users do not affect one
    another. *)
Theorem duplicate_requests `{C : CryptoOps} `{H : Hex} `{T : Toml} `{KW : !Codec WrapperMessage}
    `{KE : !Codec EncryptedPacket} fb show rnd env req daemon s :
  let now := w_clock (sw_world (sv_session s)) in
  let user := par_username req in
  let '(s', r) := handle_pam_authenticate fb show rnd env req daemon s in
  match fresh_request s user now with
  | Some t => sv_session s' = sv_session s ∧ resp_outcome <$> r = Some OUTCOME_IGNORE ∧
      sv_recent s' !! user = Some t
  | None =>
      let '(s0, r0) := handle_pam_authenticate fb show rnd env req daemon (set_recent ∅ s) in
      sv_session s' = sv_session s0 ∧ r = r0 ∧ sv_recent s' !! user = Some now
  end ∧
  ∀ u later, u ≠ user → now ≤ later → fresh_request s' u later = fresh_request s u later.
Proof.
  intros now user. unfold handle_pam_authenticate. cbn [sv_session sv_recent sv_daemon set_recent set_sessions].
  rewrite map_filter_empty, lookup_empty. fold now user.
  set (recent := filter _ (sv_recent s)).
  assert (Hu : ∀ u later, now ≤ later →
    (recent !! u ≫= λ t, if decide (later - t < DEDUP_WINDOW) then Some t else None) = fresh_request s u later)
    by (intros; by apply recent_fresh).
  pose proof (Hu user now (Z.le_refl _)) as Hnow.
  assert (Hrest : ∀ sw u later, u ≠ user → now ≤ later →
    fresh_request (set_recent (<[user := now]> recent) (set_sessions sw s)) u later = fresh_request s u later).
  { intros sw u later Hne Hl. rewrite <-Hu by done. unfold fresh_request. cbn [sv_recent set_recent set_sessions].
    by rewrite lookup_insert_ne. }
  destruct (recent !! user) as [t|] eqn:Et; simpl in Hnow.
  - case_bool_decide as Hd.
    + rewrite decide_True in Hnow by done. rewrite <-Hnow. split; [by repeat split|].
      intros u later _ Hl. by rewrite <-Hu.
    + rewrite decide_False in Hnow by done. rewrite <-Hnow.
      destruct (session_new _ _ _) as [w [sess|e]]; [destruct (handle_authenticate _ _ _ _ _ _) as [sw' r]|];
        cbn [sv_session sv_recent sv_daemon set_recent set_sessions]; rewrite lookup_insert_eq; by repeat split; try apply Hrest.
  - rewrite <-Hnow.
      destruct (session_new _ _ _) as [w [sess|e]]; [destruct (handle_authenticate _ _ _ _ _ _) as [sw' r]|];
        cbn [sv_session sv_recent sv_daemon set_recent set_sessions]; rewrite lookup_insert_eq; by repeat split; try apply Hrest.
Qed.

(** ** Cancellation *)

(** A sequence of cancel requests, with the sessions they signal. *)
Fixpoint cancel_all (reqs : list PamCancelRequest) : SM (list (option Z)) := λ s,
  match reqs with
  | [] => (s, [])
  | r :: reqs' =>
      let '(s1, (_, x)) := handle_pam_cancel r s in
      let '(s2, xs) := cancel_all reqs' s1 in (s2, x :: xs)
  end.

Lemma handle_pam_cancel_registry r s :
  sw_registry (sv_session (handle_pam_cancel r s).1) = delete (pcr_request_id r) (sw_registry (sv_session s)).
Proof.
  unfold handle_pam_cancel. destruct (sw_registry (sv_session s) !! pcr_request_id r) eqn:E; simpl; [done|].
  by rewrite delete_id.
Qed.

Lemma cancel_all_other reqs s id :
  Forall (λ r, pcr_request_id r ≠ id) reqs →
  sw_registry (sv_session (cancel_all reqs s).1) !! id = sw_registry (sv_session s) !! id.
Proof.
  intros Hr. revert s. induction Hr as [|r reqs Hne Hr IH]; intros s; simpl; [done|].
  pose proof (handle_pam_cancel_registry r s) as Hd.
  destruct (handle_pam_cancel r s) as [s1 [resp x]]. specialize (IH s1).
  destruct (cancel_all reqs s1) as [s2 xs]. simpl in *. by rewrite IH, Hd, lookup_delete_ne.
Qed.

(** A cancel reaches its own session, once.  After a session has registered
    its request id, and any number of cancels for other requests, a cancel for this
    id signals exactly that session and nothing else changes; every later cancel for
    the id, until it is registered again, signals nobody and changes nothing. *)
Theorem cancel_signals_once s id sw' others reason reason' :
  register_cancel_handler id (sv_session s) = (sw', Ok ()) →
  Forall (λ r, pcr_request_id r ≠ id) others →
  let s1 := (cancel_all others (set_sessions sw' s)).1 in
  let '(s2, (resp, signalled)) := handle_pam_cancel (mkPamCancelRequest reason id) s1 in
  signalled = Some (sw_next (sv_session s)) ∧ resp_outcome resp = OUTCOME_IGNORE ∧
  sv_recent s2 = sv_recent s1 ∧ sw_world (sv_session s2) = sw_world (sv_session s1) ∧
  (∀ other, other ≠ id → sw_registry (sv_session s2) !! other = sw_registry (sv_session s1) !! other) ∧
  ∀ more, Forall (λ r, pcr_request_id r ≠ id) more →
    let s3 := (cancel_all more s2).1 in
    let '(s4, (_, again)) := handle_pam_cancel (mkPamCancelRequest reason' id) s3 in
    again = None ∧ s4 = s3.
Proof.
  intros Hreg Ho. apply (cancel_all_other _ (set_sessions sw' s)) in Ho.
  unfold register_cancel_handler, modify in Hreg. injection Hreg as <-. cbn [sv_session sw_registry set_sessions] in Ho.
  rewrite lookup_insert_eq in Ho. intros s1. fold s1 in Ho. unfold handle_pam_cancel at 1.
  cbn [pcr_request_id]. rewrite Ho. cbn [sv_session sw_registry sv_recent sw_world set_sessions].
  repeat split; try done.
  - intros other Hne. by rewrite lookup_delete_ne.
  - intros more Hm. set (s2 := set_sessions _ s1). apply (cancel_all_other _ s2) in Hm. set (s3 := (cancel_all more s2).1) in *.
    unfold handle_pam_cancel. cbn [pcr_request_id]. rewrite Hm.
    unfold s2. cbn [sv_session sw_registry set_sessions]. by rewrite lookup_delete_eq.
Qed.

Lemma cancel_signals_once_witness :
  ∃ s2 resp, handle_pam_cancel (mkPamCancelRequest "user" "r1")
    (cancel_all [mkPamCancelRequest "user" "r0"] (mkServer toy_daemon
       (mkSessionWorld fresh_world {["r1"%string := 0]} 1 []) {["bob"%string := 4500]} None 0)).1
  = (s2, (resp, Some 0)).
Proof.
  pose proof (cancel_signals_once toy_server "r1" _ [mkPamCancelRequest "user" "r0"] "user" "user"
    eq_refl) as H. cbn [toy_server sv_daemon sv_session sv_recent sv_pairing sv_generation set_sessions sw_next] in H.
  destruct (handle_pam_cancel _ _) as [s2 [resp x]].
  destruct H as [-> _]; [by repeat constructor|]. by exists s2, resp.
Defined.
