(* ===== verification/CancelBoard.v ===== *)
(** * Concurrent sessions and their cancellation

    [register_cancel_handler] of [tapauthd/src/auth_handler.rs] and [handle_pam_cancel] of
    [tapauthd/src/main.rs] under every interleaving of sessions that begin and end and
    of cancels.  A session waits on the receiving end of a channel whose sending end is
    in the registry: it is woken when a cancel takes the entry out and sends, and also
    when the sending end is dropped because another entry takes its place. *)

From stdpp Require Import base gmap strings list.
From S2P Require Import Prelude Os Text Crypto Concrete Protocol ConcreteCodec Config ConfigFacts.
From S2P Require Import ConcreteConfig Network Auth ConcreteAuth Ipc Session SessionTheorems.
From S2P Require Import ConcreteIpc Daemon DaemonTheorems.

(** ** Sessions and channels *)

(** The receiving end, with the request id it was registered under. *)
Record Channel := mkChannel { ch_id : string; ch_fired : bool; ch_ended : bool }.

Record Board := mkBoard { bd_server : Server; bd_channels : gmap Z Channel }.

Inductive BoardEvent :=
| SOpen (request_id : string)          (* a session registers *)
| SCancel (req : PamCancelRequest)     (* a cancel on a connection of its own *)
| SEnd (session : Z).                  (* a session is over, however it went *)

Definition fire_channel (n : option Z) (m : gmap Z Channel) : gmap Z Channel :=
  match n with Some n => alter (λ c, mkChannel (ch_id c) true (ch_ended c)) n m | None => m end.

Definition board_step (b : Board) (ev : BoardEvent) : Board :=
  let s := bd_server b in
  match ev with
  | SOpen request_id =>
      let sw := sv_session s in
      mkBoard (set_sessions (register_cancel_handler request_id sw).1 s)
        (<[sw_next sw := mkChannel request_id false false]>
           (fire_channel (sw_registry sw !! request_id) (bd_channels b)))
  | SCancel req =>
      let '(s', (_, target)) := handle_pam_cancel req s in
      mkBoard s' (fire_channel target (bd_channels b))
  | SEnd n =>
      mkBoard s (alter (λ c, mkChannel (ch_id c) (ch_fired c) true) n (bd_channels b))
  end.
Definition board_run (b : Board) (evs : list BoardEvent) : Board := foldl board_step b evs.

Definition registry_of (b : Board) : gmap string Z := sw_registry (sv_session (bd_server b)).
Definition next_of (b : Board) : Z := sw_next (sv_session (bd_server b)).

(** ** The invariant: an entry is the channel of a session nothing has woken *)

Record board_ok (b : Board) : Prop := {
  bo_entry id n : registry_of b !! id = Some n ↔
    ∃ c, bd_channels b !! n = Some c ∧ ch_id c = id ∧ ch_fired c = false;
  bo_next n : is_Some (bd_channels b !! n) → n < next_of b;
}.

Lemma fire_lookup o m n c :
  fire_channel o m !! n = Some c ↔
  ∃ c0, m !! n = Some c0 ∧ c = mkChannel (ch_id c0) (ch_fired c0 || bool_decide (o = Some n)) (ch_ended c0).
Proof.
  destruct o as [k|]; cbn [fire_channel].
  - rewrite lookup_alter_Some. split.
    + intros [(-> & c0 & H & ->)|[Hne H]]; eexists; (split; [exact H|]).
      * by rewrite bool_decide_eq_true_2, orb_true_r.
      * rewrite bool_decide_eq_false_2, orb_false_r by congruence. by destruct c.
    + intros (c0 & H & ->). destruct (decide (k = n)) as [->|Hne]; [left|right].
      * split; [done|]. exists c0. split; [done|]. by rewrite bool_decide_eq_true_2, orb_true_r.
      * split; [done|]. rewrite bool_decide_eq_false_2, orb_false_r by congruence. by destruct c0.
  - split; [intros H; exists c|intros (c0 & H & ->)]; rewrite bool_decide_eq_false_2, orb_false_r by done;
      [by destruct c|by destruct c0].
Qed.

Lemma cancel_step req b :
  board_step b (SCancel req)
  = mkBoard (handle_pam_cancel req (bd_server b)).1
      (fire_channel (registry_of b !! pcr_request_id req) (bd_channels b)).
Proof.
  unfold board_step, handle_pam_cancel, registry_of.
  destruct (sw_registry (sv_session (bd_server b)) !! pcr_request_id req); done.
Qed.
Lemma cancel_next req b : next_of (board_step b (SCancel req)) = next_of b.
Proof.
  rewrite cancel_step. unfold next_of, handle_pam_cancel. cbn.
  by destruct (sw_registry (sv_session (bd_server b)) !! pcr_request_id req).
Qed.
Lemma cancel_registry req b : registry_of (board_step b (SCancel req)) = delete (pcr_request_id req) (registry_of b).
Proof. rewrite cancel_step. unfold registry_of. cbn. apply handle_pam_cancel_registry. Qed.

(** Taking the channel out of the registry under [id]. *)
Lemma fired_entry b id k c :
  board_ok b → fire_channel (registry_of b !! id) (bd_channels b) !! k = Some c → ch_fired c = false →
  bd_channels b !! k = Some c ∧ ch_id c ≠ id.
Proof.
  intros [He _] (c0 & Hc & ->)%fire_lookup Hf. cbn in Hf. apply orb_false_iff in Hf as [Hf Hn].
  apply bool_decide_eq_false in Hn. rewrite bool_decide_eq_false_2, orb_false_r by done. cbn.
  split; [by destruct c0|]. intros Hid. apply Hn, He. by exists c0.
Qed.
Lemma unfired_entry b id k c :
  board_ok b → bd_channels b !! k = Some c → ch_fired c = false → ch_id c ≠ id →
  fire_channel (registry_of b !! id) (bd_channels b) !! k = Some c.
Proof.
  intros [He _] Hc Hf Hid. apply fire_lookup. exists c. split; [done|]. rewrite bool_decide_eq_false_2.
  - rewrite orb_false_r. by destruct c.
  - intros (c0 & Hc0 & ? & _)%He. by simplify_eq.
Qed.

Lemma board_step_ok b ev : board_ok b → board_ok (board_step b ev).
Proof.
  intros Hok. pose proof Hok as [He Hn]. destruct ev as [id|req|n].
  - assert (Hfree : bd_channels b !! next_of b = None).
    { destruct (bd_channels b !! next_of b) eqn:E; [|done]. assert (next_of b < next_of b) by (apply Hn; by rewrite E). lia. }
    split.
    + intros id' k. change (registry_of (board_step b (SOpen id))) with (<[id := next_of b]> (registry_of b)).
      cbn [board_step bd_channels]. fold (registry_of b) (next_of b). rewrite lookup_insert_Some. split.
      * intros [[<- <-]|[Hne Hk]]; [eexists; split; [apply lookup_insert_eq|done]|].
        apply He in Hk as (c & Hc & <- & Hf). exists c. split; [|done]. rewrite lookup_insert_ne; [by apply unfired_entry|].
        intros <-. by rewrite Hfree in Hc.
      * intros (c & Hc & <- & Hf). apply lookup_insert_Some in Hc as [[<- <-]|[Hne Hc]]; [by left|right].
        destruct (fired_entry _ _ _ _ Hok Hc Hf) as [Hc' Hid]. split; [done|]. apply He. by exists c.
    + intros k [c Hc]. change (next_of (board_step b (SOpen id))) with (next_of b + 1). cbn [board_step bd_channels] in Hc.
      apply lookup_insert_Some in Hc as [[<- _]|[_ (c0 & Hc & _)%fire_lookup]]; [unfold next_of; lia|].
      assert (k < next_of b) by (apply Hn; by rewrite Hc). lia.
  - split.
    + intros id' k. rewrite cancel_registry, cancel_step. cbn [bd_channels]. rewrite lookup_delete_Some, He. split.
      * intros [Hne (c & Hc & <- & Hf)]. exists c. split; [by apply unfired_entry|done].
      * intros (c & Hc & <- & Hf). destruct (fired_entry _ _ _ _ Hok Hc Hf) as [Hc' Hid]. split; [done|]. by exists c.
    + intros k Hk. rewrite cancel_next. apply Hn. rewrite cancel_step in Hk. cbn in Hk.
      destruct Hk as [c (c0 & Hc & _)%fire_lookup]. by rewrite Hc.
  - split.
    + intros id' k. change (registry_of (board_step b (SEnd n))) with (registry_of b). rewrite He. cbn.
      setoid_rewrite lookup_alter_Some. split.
      * intros (c & Hc & <- & Hf). destruct (decide (n = k)) as [->|]; [|by exists c; auto].
        exists (mkChannel (ch_id c) (ch_fired c) true). split; [left; eauto|done].
      * intros (c & [(-> & c0 & Hc & ->)|[_ Hc]] & <- & Hf); [by exists c0|by exists c].
    + intros k Hk. apply Hn. cbn in Hk. destruct Hk as [c [(-> & c0 & Hc & _)|[_ Hc]]%lookup_alter_Some]; by rewrite Hc.
Qed.

Lemma board_run_ok b evs : board_ok b → board_ok (board_run b evs).
Proof. revert b. induction evs as [|ev evs IH]; intros b Hb; [done|]. by apply IH, board_step_ok. Qed.

(** ** One channel over time *)

(** An event that wakes whoever waits under [id]. *)
Definition wakes (id : string) (ev : BoardEvent) : Prop :=
  match ev with SOpen id' => id' = id | SCancel req => pcr_request_id req = id | SEnd _ => False end.
#[export] Instance wakes_dec id ev : Decision (wakes id ev).
Proof. destruct ev; cbn; apply _. Defined.

Lemma channel_step b ev n c :
  board_ok b → bd_channels b !! n = Some c →
  ∃ c', bd_channels (board_step b ev) !! n = Some c' ∧ ch_id c' = ch_id c ∧
    ch_fired c' = ch_fired c || bool_decide (wakes (ch_id c) ev).
Proof.
  intros Hok Hc. pose proof Hok as [He Hn].
  assert (Hlt : n < next_of b) by (apply Hn; by rewrite Hc).
  assert (Hfire : ∀ id, ∃ c', fire_channel (registry_of b !! id) (bd_channels b) !! n = Some c' ∧ ch_id c' = ch_id c ∧
    ch_fired c' = ch_fired c || bool_decide (id = ch_id c)).
  { intros id. eexists. split; [apply fire_lookup; by exists c|]. split; [done|]. cbn.
    destruct (ch_fired c) eqn:Hf; [done|]. cbn. apply bool_decide_ext. rewrite He. split.
    - intros (c0 & Hc0 & <- & _). by simplify_eq.
    - intros ->. by exists c. }
  destruct ev as [id|req|k].
  - destruct (Hfire id) as (c' & H1 & H2 & H3). exists c'. split; [|by split].
    cbn [board_step bd_channels]. fold (registry_of b) (next_of b). by rewrite lookup_insert_ne by lia.
  - destruct (Hfire (pcr_request_id req)) as (c' & H1 & H2 & H3). exists c'. by rewrite cancel_step.
  - cbn [board_step bd_channels]. rewrite orb_false_r. destruct (decide (k = n)) as [->|Hne].
    + rewrite lookup_alter_eq, Hc. by eexists.
    + rewrite lookup_alter_ne by done. by exists c.
Qed.

Lemma channel_run b evs n c :
  board_ok b → bd_channels b !! n = Some c →
  ∃ c', bd_channels (board_run b evs) !! n = Some c' ∧ ch_id c' = ch_id c ∧
    (ch_fired c' = true ↔ ch_fired c = true ∨ Exists (wakes (ch_id c)) evs).
Proof.
  revert b c. induction evs as [|ev evs IH]; intros b c Hok Hc.
  - exists c. split; [done|]. split; [done|]. rewrite Exists_nil. tauto.
  - destruct (channel_step b ev n c Hok Hc) as (c1 & Hc1 & Hid & Hf1).
    destruct (IH (board_step b ev) c1) as (c' & Hc' & Hid' & Hf'); [by apply board_step_ok|done|].
    exists c'. split; [done|]. split; [congruence|]. rewrite Hf', Hf1, Hid, Exists_cons, orb_true_iff, bool_decide_eq_true. tauto.
Qed.

(** ** What a cancel reaches *)

Definition quiet_board (s : Server) : Board := mkBoard s ∅.

Lemma quiet_board_ok s : sw_registry (sv_session s) = ∅ → board_ok (quiet_board s).
Proof.
  intros Hr. split.
  - intros id n. unfold registry_of. cbn. rewrite Hr. split; [by rewrite lookup_empty|].
    intros (c & Hc & _). by rewrite lookup_empty in Hc.
  - intros n [c Hc]. cbn in Hc. by rewrite lookup_empty in Hc.
Qed.

Lemma board_run_app b l k : board_run b (l ++ k) = board_run (board_run b l) k.
Proof. apply foldl_app. Qed.

(** C29: The channel a session waits on is signalled exactly when, after it registered, a cancel names its request id or another session registers under that id: cancels of other requests, and the ends of any sessions, never reach it, whatever the interleaving. *)
Theorem cancel_exact s pre id post :
  sw_registry (sv_session s) = ∅ →
  let opened := board_run (quiet_board s) pre in
  ∃ c, bd_channels (board_run (quiet_board s) (pre ++ SOpen id :: post)) !! next_of opened = Some c ∧
    ch_id c = id ∧ (ch_fired c = true ↔ Exists (wakes id) post).
Proof.
  intros Hr opened. rewrite board_run_app. change (board_run _ (SOpen id :: post)) with (board_run (board_step opened (SOpen id)) post).
  assert (Hok : board_ok opened) by by apply board_run_ok, quiet_board_ok.
  destruct (channel_run (board_step opened (SOpen id)) post (next_of opened) (mkChannel id false false)) as (c & Hc & Hid & Hf).
  - by apply board_step_ok.
  - apply lookup_insert_eq.
  - exists c. split; [done|]. split; [done|]. rewrite Hf. cbn. naive_solver.
Qed.

Definition toy_cancel (id : string) : PamCancelRequest := mkPamCancelRequest "skip" id.

Lemma cancel_exact_witness :
  sw_registry (sv_session toy_server) = ∅ ∧
  ∃ c, bd_channels (board_run (quiet_board toy_server)
         ([SOpen "a"] ++ SOpen "b" :: [SEnd 0; SCancel (toy_cancel "a"); SCancel (toy_cancel "b")]))
         !! next_of (board_run (quiet_board toy_server) [SOpen "a"]) = Some c ∧ ch_id c = "b"%string ∧ ch_fired c = true.
Proof.
  split; [reflexivity|].
  destruct (cancel_exact toy_server [SOpen "a"] "b" [SEnd 0; SCancel (toy_cancel "a"); SCancel (toy_cancel "b")] eq_refl)
    as (c & Hc & Hid & Hf).
  exists c. split; [exact Hc|]. split; [exact Hid|]. apply Hf. right. right. left. reflexivity.
Defined.

(** ** What is left in the registry *)

Definition opened_ids (evs : list BoardEvent) : list string :=
  omap (λ ev, match ev with SOpen id => Some id | _ => None end) evs.
Definition is_cancel (ev : BoardEvent) : Prop := match ev with SCancel _ => True | _ => False end.

(** Nothing but a cancel takes an entry out: without one, every request id ever registered stays in the registry, the sessions being over or not. *)
Theorem registry_keeps_ended b evs :
  Forall (λ ev, ¬ is_cancel ev) evs →
  dom (registry_of (board_run b evs)) = dom (registry_of b) ∪ list_to_set (opened_ids evs).
Proof.
  revert b. induction evs as [|ev evs IH]; intros b Hall; [set_solver|].
  apply Forall_cons in Hall as [Hev Hall]. change (board_run b (ev :: evs)) with (board_run (board_step b ev) evs).
  rewrite IH by done. destruct ev as [id|req|n]; [|by destruct Hev|done].
  change (registry_of (board_step b (SOpen id))) with (<[id := next_of b]> (registry_of b)). cbn. set_solver.
Qed.

Lemma registry_keeps_ended_witness :
  Forall (λ ev, ¬ is_cancel ev) [SOpen "a"; SEnd 0; SOpen "b"; SEnd 1] ∧
  "a"%string ∈ dom (registry_of (board_run (quiet_board toy_server) [SOpen "a"; SEnd 0; SOpen "b"; SEnd 1])).
Proof.
  assert (H : Forall (λ ev, ¬ is_cancel ev) [SOpen "a"; SEnd 0; SOpen "b"; SEnd 1]) by (repeat constructor; exact id).
  split; [exact H|]. rewrite (registry_keeps_ended (quiet_board toy_server) _ H). set_solver.
Defined.

(** A second request under an id in use ends the wait of the first: its sender is dropped, and [await_auth_result] takes that for a cancel. *)
Theorem reused_id_cancels :
  ch_fired <$> (bd_channels (board_run (quiet_board toy_server) [SOpen "a"; SOpen "a"]) !! 0) = Some true.
Proof. reflexivity. Qed.

(** The same for a whole request: it was answered with SUCCESS, and its entry is still there. *)
Theorem answered_request_registered :
  let '(s, r) := handle_pam_authenticate true no_text "" granting_env ann_request toy_daemon toy_server in
  resp_outcome <$> r = Some OUTCOME_SUCCESS ∧ sw_registry (sv_session s) !! par_request_id ann_request = Some 0.
Proof. vm_compute. done. Qed.
