(* ===== verification/Frames.v ===== *)
(** * What the store's operations leave alone

    [keeps p k]: whatever faults the file system has, running [k] leaves the contents of
    the file [p] as they were.  Every operation of [Config] keeps every file but its own;
    the tactic [frame] proves it. *)

From stdpp Require Import base gmap strings list.
From S2P Require Import Prelude Os Text Crypto Protocol Config ConfigFacts Pairing.

Definition contents (p : string) (w : World) : option bytes := f_data <$> w_fs w !! p.
Definition keeps {E A} (p : string) (k : M World E A) : Prop := ∀ w, contents p (k w).1 = contents p w.

Section frames.
Context (p : string).

Lemma file_keeps_pure {E A} (k : M World E A) : (∀ w, (k w).1 = w) → keeps p k.
Proof. intros Hk w. by rewrite Hk. Qed.
Lemma keeps_ret {E A} (a : A) : keeps (E := E) p (mret a).
Proof. by apply file_keeps_pure. Qed.
Lemma keeps_throw {E A} (e : E) : keeps (A := A) p (throw e).
Proof. by apply file_keeps_pure. Qed.
Lemma keeps_lift {E A} (r : result E A) : keeps p (lift r).
Proof. by apply file_keeps_pure. Qed.
Lemma file_keeps_gets {E A} (f : World → A) : keeps (E := E) p (gets f).
Proof. by apply file_keeps_pure. Qed.
Lemma file_keeps_bind {E A B} (k : M World E A) (g : A → M World E B) :
  keeps p k → (∀ a, keeps p (g a)) → keeps p (k ≫= g).
Proof.
  intros Hk Hg w. unfold mbind, M_bind. specialize (Hk w). destruct (k w) as [w' [a|e]]; [|done].
  by rewrite Hg, <-Hk.
Qed.
Lemma keeps_map_err {E F A} (f : E → F) (k : M World E A) : keeps p k → keeps p (mapM_err f k).
Proof. intros Hk w. specialize (Hk w). unfold mapM_err. by destruct (k w). Qed.
Lemma keeps_attempt {E F A} (k : M World E A) : keeps p k → keeps (E := F) p (attempt k).
Proof. intros Hk w. specialize (Hk w). unfold attempt. by destruct (k w). Qed.
Lemma keeps_getrandom n : keeps p (getrandom_fill n).
Proof. intros w. unfold getrandom_fill. by case_decide. Qed.

(** ** Calls on files *)

Lemma keeps_fs_call {A} (k : M World io_error A) : keeps p k → keeps p (fs_call k).
Proof.
  intros Hk w. unfold fs_call. destruct (fs_fault_run w) as (f & l & ->). destruct f; [|done..]. by rewrite Hk.
Qed.
Lemma keeps_path_exists {E} q : keeps (E := E) p (path_exists q).
Proof. intros w. unfold path_exists. destruct (fs_fault_run w) as (f & l & ->). by destruct f. Qed.
Lemma keeps_dir_exists {E} q : keeps (E := E) p (dir_exists q).
Proof. intros w. unfold dir_exists. destruct (fs_fault_run w) as (f & l & ->). by destruct f. Qed.
Lemma keeps_metadata q : keeps p (fs_metadata q).
Proof. by apply keeps_fs_call, file_keeps_pure. Qed.
Lemma keeps_read q : keeps p (fs_read q).
Proof. by apply keeps_fs_call, file_keeps_pure. Qed.
Lemma keeps_create_dir q : keeps p (fs_create_dir q).
Proof. apply keeps_fs_call. intros w. by destruct (w_dirs w !! q). Qed.
Lemma keeps_dir_metadata q : keeps p (fs_dir_metadata q).
Proof. by apply keeps_fs_call, file_keeps_pure. Qed.
Lemma keeps_dir_set_mode q m : keeps p (fs_dir_set_mode q m).
Proof. apply keeps_fs_call. intros w. destruct (w_dirs w !! q) as [[]|]; [|done]. by case_match. Qed.
Lemma keeps_dir_chown q u : keeps p (fs_dir_chown q u).
Proof. apply keeps_fs_call. intros w. destruct (w_dirs w !! q) as [[]|]; [|done]. by case_match. Qed.

(** Mode and owner may change. *)
Lemma contents_attributes q f g w :
  w_fs w !! q = Some f → f_data g = f_data f → contents p (set_fs (<[q := g]> (w_fs w)) w) = contents p w.
Proof.
  intros Hq Hg. unfold contents. cbn. destruct (decide (q = p)) as [->|Hne].
  - rewrite lookup_insert_eq, Hq. cbn. by rewrite Hg.
  - by rewrite lookup_insert_ne.
Qed.
Lemma keeps_set_mode q m : keeps p (fs_set_mode q m).
Proof.
  apply keeps_fs_call. intros w. destruct (w_fs w !! q) as [f|] eqn:Ef; [|done]. case_match; [done|].
  by apply (contents_attributes q f).
Qed.
Lemma keeps_chown q u : keeps p (fs_chown q u).
Proof.
  apply keeps_fs_call. intros w. destruct (w_fs w !! q) as [f|] eqn:Ef; [|done]. case_match; [done|].
  by apply (contents_attributes q f).
Qed.

(** Another file may be written or removed. *)
Lemma contents_put q d w : q ≠ p → contents p (put_file q d w) = contents p w.
Proof. intros Hne. unfold contents, put_file. cbn. by rewrite lookup_insert_ne. Qed.
Lemma keeps_write q d : q ≠ p → keeps p (fs_write q d).
Proof.
  intros Hne w. unfold fs_write. destruct (fs_fault_run w) as (f & l & ->). destruct f; [|done|]; cbn; by rewrite contents_put.
Qed.
Lemma keeps_remove q : q ≠ p → keeps p (fs_remove q).
Proof.
  intros Hne. apply keeps_fs_call. intros w. destruct (w_fs w !! q); [|done]. unfold contents. cbn. by rewrite lookup_delete_ne.
Qed.
End frames.

Create HintDb frame.
#[export] Hint Resolve keeps_ret keeps_throw keeps_lift file_keeps_gets keeps_getrandom keeps_path_exists keeps_dir_exists
  keeps_metadata keeps_read keeps_create_dir keeps_dir_metadata keeps_dir_set_mode keeps_dir_chown keeps_set_mode
  keeps_chown : frame.

Ltac frame :=
  repeat first
    [ solve [auto with frame]
    | apply file_keeps_bind; [|intros ?]
    | apply keeps_map_err
    | apply keeps_attempt
    | apply keeps_write
    | apply keeps_remove
    | progress unfold io, chown_to_tapauthd, is_euid_privileged_for_writes, is_euid_tapauthd, is_root, tapauthd_uid
    | progress case_match ].

(** ** The operations *)

Section operations.
Context (p : string).

Lemma keeps_ensure_directory q : keeps p (ensure_secure_directory q).
Proof. unfold ensure_secure_directory. frame. Qed.
Lemma keeps_init m : keeps p (init m).
Proof. apply keeps_ensure_directory. Qed.
Lemma keeps_read_secure q : keeps p (read_secure_file q).
Proof. unfold read_secure_file. frame. Qed.
Lemma keeps_write_secure q d : q ≠ p → keeps p (write_secure_file q d).
Proof. intros Hne. unfold write_secure_file. frame. Qed.
End operations.
#[export] Hint Resolve keeps_init keeps_read_secure keeps_write_secure : frame.

Section store.
Context `{C : CryptoOps} `{T : Toml} `{TT : TpmTools} `{!TpmToolsLaws TT}.
Context `{JC : !Json ClientConfig} `{JS : !Json (gmap string PairedServer)}.
Context (ft : bool).

Lemma keeps_tool p {E} (tool : World → World * option bool) :
  (∀ w, w_fs (tool w).1 !! p = w_fs w !! p) → keeps (E := E) p (run_tool tool).
Proof. intros Ht w. specialize (Ht w). unfold run_tool, contents. destruct (tool w). cbn in *. by rewrite Ht. Qed.

Lemma keeps_load_settings p {E} : keeps (E := E) p tapauth_config_load.
Proof. unfold tapauth_config_load, load_from_path. frame. Qed.
Lemma keeps_save_settings p c : DEFAULT_CONFIG_PATH ≠ p → keeps p (tapauth_config_save c).
Proof. intros Hne. unfold tapauth_config_save, save_to_path. frame. Qed.

Lemma keeps_load_servers p m : keeps p (load_paired_servers m).
Proof. unfold load_paired_servers. frame. Qed.
Lemma keeps_load_csk p m : keeps p (load_csk m).
Proof. unfold load_csk. frame. Qed.
Lemma keeps_load_config p m : keeps p (load_config m).
Proof. unfold load_config, default_client_config. frame. Qed.
Lemma keeps_save_csk p m csk : join (config_dir m) CLIENT_SYMMETRIC_KEY_FILE ≠ p → keeps p (save_csk m csk).
Proof. intros Hne. unfold save_csk. frame. Qed.
Lemma keeps_save_config p m c : join (config_dir m) CLIENT_CONFIG_FILE ≠ p → keeps p (save_config m c).
Proof. intros Hne. unfold save_config. frame. Qed.
Lemma keeps_remove_if_exists p q : q ≠ p → keeps p (remove_if_exists q).
Proof. intros Hne. unfold remove_if_exists. frame. Qed.

(** The files of a sealed key. *)
Definition sealed_apart (q p : string) : Prop :=
  with_extension q "tmp_in" ≠ p ∧ with_extension q "pub" ≠ p ∧ with_extension q "priv" ≠ p ∧
  with_extension q "tmp_out" ≠ p ∧ with_extension (with_extension q "tmp_out") "ctx" ≠ p.

Lemma keeps_unseal p q : sealed_apart q p → keeps p (unseal_data_with_tpm q).
Proof.
  intros (? & ? & ? & ? & ?). unfold unseal_data_with_tpm. cbv zeta.
  apply file_keeps_bind; [apply keeps_tool; intros w; by apply tpm2_load_frame|intros ?].
  apply file_keeps_bind; [apply keeps_lift|intros ?].
  apply file_keeps_bind; [apply keeps_tool; intros w; by apply tpm2_unseal_frame|intros ?]. frame.
Qed.
Lemma keeps_seal p d q pcrs : sealed_apart q p → keeps p (seal_data_with_tpm d q pcrs).
Proof.
  intros (? & ? & ? & ? & ?). unfold seal_data_with_tpm. cbv zeta. apply file_keeps_bind; [frame|intros ?].
  apply file_keeps_bind; [apply keeps_tool; intros w; by apply tpm2_create_frame|intros ?]. frame.
Qed.
Hint Resolve keeps_load_settings keeps_unseal keeps_seal : frame.

Lemma keeps_load_keypair p m : sealed_apart (tpm_key_path m) p → keeps p (load_keypair ft m).
Proof.
  intros Ha. unfold load_keypair, load_keypair_file, load_sealed_keypair, is_tpm_available. frame.
Qed.
Lemma keeps_save_keypair p m kp :
  sealed_apart (tpm_key_path m) p → join (config_dir m) CLIENT_KEY_FILE ≠ p → keeps p (save_keypair ft m kp).
Proof. intros Ha Hne. unfold save_keypair, save_keypair_file, is_tpm_available. frame. Qed.
Lemma keeps_generate_keypair p : keeps p ed25519_generate.
Proof. unfold ed25519_generate. frame. Qed.
Lemma keeps_generate_csk p : keeps p csk_generate.
Proof. unfold csk_generate. frame. Qed.
Lemma keeps_client_new p kp : keeps p (client_new kp).
Proof. unfold client_new, x25519_generate. frame. Qed.
End store.
