(* ===== verification/Tasks.v ===== *)
(** * Tasks: programs whose steps interleave

    A task is a program over a state it shares with others: a tree of atomic steps.  A
    pool runs any number of them, one step of one task at a time, in the order the
    events say.  [wp] is a small program logic for such programs: every step keeps an
    invariant of the shared state and changes it only as a guarantee allows; between two
    steps of a task the others do the same.  Nothing makes a task go on: one that waits
    for somebody who stays silent is one that the events give no more turns. *)

From stdpp Require Import base gmap list.
From S2P Require Import Prelude.

(** ** Programs *)

Inductive Prog (S A : Type) : Type :=
| Ret (a : A)
| Step {X : Type} (k : S → S * X) (c : X → Prog S A).
Arguments Ret {S A} a.
Arguments Step {S A X} k c.

Section programs.
Context {S : Type}.

Fixpoint prog_bind {A B} (p : Prog S A) (g : A → Prog S B) : Prog S B :=
  match p with
  | Ret a => g a
  | Step k c => Step k (λ x, prog_bind (c x) g)
  end.

(** A program run without anybody else. *)
Fixpoint prog_run {A} (p : Prog S A) (s : S) : S * A :=
  match p with
  | Ret a => (s, a)
  | Step k c => let '(s', x) := k s in prog_run (c x) s'
  end.

Lemma prog_run_bind {A B} (p : Prog S A) (g : A → Prog S B) s :
  prog_run (prog_bind p g) s = let '(s', a) := prog_run p s in prog_run (g a) s'.
Proof. revert s. induction p as [a|X k c IH]; intros s; cbn; [done|]. destruct (k s) as [s' x]. apply IH. Qed.

End programs.

(** ** Programs that may fail early *)

Definition PM (S E A : Type) : Type := Prog S (result E A).
#[global] Instance PM_ret {S E} : MRet (PM S E) := λ A a, Ret (Ok a).
#[global] Instance PM_bind {S E} : MBind (PM S E) := λ A B g p,
  prog_bind p (λ r, match r with Ok a => g a | Err e => Ret (Err e) end).

Section fallible.
Context {S : Type}.

(** One atomic step. *)
Definition atomically {E A} (k : M S E A) : PM S E A := Step k Ret.
Definition fail {E A} (e : E) : PM S E A := Ret (Err e).
(** The result as a value. *)
Definition trial {E F A} (p : PM S E A) : PM S F (result E A) := prog_bind p (λ r, Ret (Ok r)).

Lemma run_PM_bind {E A B} (p : PM S E A) (g : A → PM S E B) s :
  prog_run (p ≫= g) s
  = match prog_run p s with (s', Ok a) => prog_run (g a) s' | (s', Err e) => (s', Err e) end.
Proof. unfold mbind, PM_bind. rewrite prog_run_bind. by destruct (prog_run p s) as [s' [a|e]]. Qed.
End fallible.

(** ** A logic for one task among others *)

Section logic.
Context {S : Type} (I : S → Prop) (G : relation S) `{!PreOrder G}.

(** [s] is the state the task has seen last. *)
Fixpoint wp {A} (p : Prog S A) (s : S) (Φ : S → A → Prop) : Prop :=
  match p with
  | Ret a => Φ s a
  | Step k c => ∀ s1, G s s1 → I s1 → let '(s2, x) := k s1 in I s2 ∧ G s1 s2 ∧ wp (c x) s2 Φ
  end.
Definition harmless_task {A} (p : Prog S A) (s : S) : Prop := wp p s (λ _ _, True).

Lemma wp_bind {A B} (p : Prog S A) (g : A → Prog S B) s Φ :
  wp p s (λ s a, wp (g a) s Φ) → wp (prog_bind p g) s Φ.
Proof.
  revert s. induction p as [a|X k c IH]; intros s Hp; cbn in *; [done|]. intros s1 Hg HI.
  specialize (Hp s1 Hg HI). destruct (k s1) as [s2 x]. destruct Hp as (? & ? & Hp). auto.
Qed.
Lemma wp_weaken {A} (p : Prog S A) s Φ Ψ : (∀ s a, Φ s a → Ψ s a) → wp p s Φ → wp p s Ψ.
Proof.
  intros Hi. revert s. induction p as [a|X k c IH]; intros s Hp; cbn in *; [by apply Hi|]. intros s1 Hg HI.
  specialize (Hp s1 Hg HI). destruct (k s1) as [s2 x]. destruct Hp as (? & ? & Hp). auto.
Qed.
Lemma wp_later {A} (p : Prog S A) s s1 : G s s1 → harmless_task p s → harmless_task p s1.
Proof. intros Hg. destruct p as [a|X k c]; cbn; [done|]. intros Hp s2 Hg2. apply Hp. by etrans. Qed.

Lemma wp_PM_bind {E A B} (p : PM S E A) (g : A → PM S E B) s Φ :
  wp p s (λ s r, match r with Ok a => wp (g a) s Φ | Err e => Φ s (Err e) end) → wp (p ≫= g) s Φ.
Proof. intros Hp. apply wp_bind. eapply wp_weaken; [|exact Hp]. by intros s' [a|e]. Qed.
Lemma wp_trial {E F A} (p : PM S E A) s (Φ : S → result F (result E A) → Prop) :
  wp p s (λ s r, Φ s (Ok r)) → wp (trial p) s Φ.
Proof. intros Hp. by apply wp_bind. Qed.
Lemma wp_atomically {E A} (k : M S E A) s (Φ : S → result E A → Prop) :
  (∀ s1, G s s1 → I s1 → I (k s1).1 ∧ G s1 (k s1).1 ∧ Φ (k s1).1 (k s1).2) → wp (atomically k) s Φ.
Proof. intros Hk s1 Hg HI. specialize (Hk s1 Hg HI). by destruct (k s1) as [s2 x]. Qed.
End logic.

(** ** Pools *)

Record Pool (S A : Type) := mkPool {
  pl_state : S;
  pl_tasks : gmap nat (Prog S A);
  pl_next : nat;
  pl_done : list (nat * A);
}.
Arguments mkPool {S A}. Arguments pl_state {S A}. Arguments pl_tasks {S A}. Arguments pl_next {S A}. Arguments pl_done {S A}.

Inductive PoolEvent (S A : Type) :=
| PStart (p : Prog S A)
| PGo (i : nat)
| POther (f : S → S).                  (* somebody else *)
Arguments PStart {S A}. Arguments PGo {S A}. Arguments POther {S A}.

Section pool.
Context {S A : Type}.
Implicit Types pl : Pool S A.

Definition pool_step (ev : PoolEvent S A) pl : Pool S A :=
  match ev with
  | PStart p => mkPool (pl_state pl) (<[pl_next pl := p]> (pl_tasks pl)) (Datatypes.S (pl_next pl)) (pl_done pl)
  | PGo i =>
      match pl_tasks pl !! i with
      | None => pl
      | Some (Ret a) => mkPool (pl_state pl) (delete i (pl_tasks pl)) (pl_next pl) (pl_done pl ++ [(i, a)])
      | Some (Step k c) =>
          let '(s, x) := k (pl_state pl) in mkPool s (<[i := c x]> (pl_tasks pl)) (pl_next pl) (pl_done pl)
      end
  | POther f => mkPool (f (pl_state pl)) (pl_tasks pl) (pl_next pl) (pl_done pl)
  end.
Definition pool_run (evs : list (PoolEvent S A)) pl : Pool S A := foldl (flip pool_step) pl evs.

Lemma pool_run_app evs1 evs2 pl : pool_run (evs1 ++ evs2) pl = pool_run evs2 (pool_run evs1 pl).
Proof. apply foldl_app. Qed.

Context (I : S → Prop) (G : relation S) `{!PreOrder G}.

Definition event_ok (ev : PoolEvent S A) : Prop :=
  match ev with
  | PStart p => ∀ s, I s → harmless_task I G p s
  | PGo _ => True
  | POther f => ∀ s, I s → I (f s) ∧ G s (f s)
  end.
Definition pool_ok pl : Prop := I (pl_state pl) ∧ map_Forall (λ _ p, harmless_task I G p (pl_state pl)) (pl_tasks pl).

Lemma pool_step_ok ev pl : event_ok ev → pool_ok pl → pool_ok (pool_step ev pl) ∧ G (pl_state pl) (pl_state (pool_step ev pl)).
Proof.
  intros He [HI Ht]. destruct ev as [p|i|f]; cbn.
  - split; [|done]. split; [done|]. apply map_Forall_insert_2; [by apply He|done].
  - destruct (pl_tasks pl !! i) as [[a|X k c]|] eqn:Ei; [| |by repeat split].
    + split; [|done]. split; [done|]. by apply map_Forall_delete.
    + pose proof (Ht i _ Ei (pl_state pl) (reflexivity _) HI) as Hi. destruct (k (pl_state pl)) as [s x].
      destruct Hi as (HI' & HG & Hx). split; [|done]. split; [done|]. apply map_Forall_insert_2; [done|].
      intros j q Hj. eapply wp_later; [done|exact HG|]. by apply (Ht j).
  - destruct (He _ HI) as [HI' HG]. split; [|done]. split; [done|]. intros j q Hj.
    eapply wp_later; [done|exact HG|]. by apply (Ht j).
Qed.

Lemma pool_run_ok evs pl :
  Forall event_ok evs → pool_ok pl → pool_ok (pool_run evs pl) ∧ G (pl_state pl) (pl_state (pool_run evs pl)).
Proof.
  revert pl. induction evs as [|ev evs IH]; intros pl Hall Hok; [done|].
  apply Forall_cons in Hall as [He Hall]. destruct (pool_step_ok ev pl He Hok) as [Hok1 HG1].
  destruct (IH (pool_step ev pl) Hall Hok1) as [Hok2 HG2]. split; [exact Hok2|]. etrans; [exact HG1|exact HG2].
Qed.
End pool.
