(* ===== verification/AdminTasks.v ===== *)
(** * Administrative requests as tasks

    [tapauthd] serves connections on several threads.  Here a request of
    [tapauthd/src/admin_handler.rs] is a program whose steps are the calls on files, the
    sections under a lock and the exchanges with a phone; between two steps other
    requests and the timers run.  As in the code, the daemon's state is read once, when
    the request begins; keys and pairings are read and written in separate steps; and
    the state made by the reload is stored in a step of its own.  Run alone, a task is
    the handler of [Admin].

    A step is a call that returned.  A request that waits for a phone, for PolKit or for a
    lock that does not come is a task that gets no more turns, and no theorem says that a
    request is answered. *)

From stdpp Require Import base gmap strings list.
From Stdlib Require Import Strings.Ascii.
From S2P Require Import Prelude Os Text Crypto Protocol Config PairingUrl Pairing Network Auth Ipc Session.
From S2P Require Import PeerIdentity Admin PairingLife Tasks.

(** ** What the tasks share *)

(** Besides the state of the handlers, the history of confirmed pairings: the device, the
    user it was paired for, and the process and user the request came from. *)
Record Confirmed := mkConfirmed { cf_server : string; cf_user : string; cf_pid : Z; cf_uid : Z }.
Record Common := mkCommon { cm_admin : AdminState; cm_confirmed : list Confirmed }.

Definition on_admin {E A} (k : M AdminState E A) : M Common E A := λ c,
  let '(s, r) := k (cm_admin c) in (mkCommon s (cm_confirmed c), r).
Definition on_files {E A} (k : M World E A) : M AdminState E A := λ s,
  let '(w, r) := k (ad_world s) in (mkAdminState w (ad_daemon s) (ad_pairing s) (ad_generation s), r).

(** A handler's program, and one that works on files. *)
Abbreviation AP := (PM Common AdminResponse).
Abbreviation CP := (PM Common ConfigError).

(** One step under a lock, or without sharing; one call on files; what it gave. *)
Definition act {A} (k : AM A) : AP A := atomically (on_admin k).
Definition call {E A} (k : M World E A) : PM Common E A := atomically (on_admin (on_files k)).
Definition confirmed (cf : Confirmed) : AP () :=
  atomically (λ c, (mkCommon (cm_admin c) (cm_confirmed c ++ [cf]), Ok ())).

Definition refuse_task {A} (msg : string) : AP A := fail (err_resp ADMIN_ERROR msg).
Definition or_refuse_task {E A} (r : result E A) (msg : E → string) : AP A :=
  match r with Ok a => mret a | Err e => refuse_task (msg e) end.

Section tasks.
Context `{C : CryptoOps} `{H : Hex} `{T : Toml} `{TT : TpmTools} `{I6 : Ipv6Text}.
Context `{JC : !Json ClientConfig} `{JS : !Json (gmap string PairedServer)}.
Context `{KH : !Codec PairingHello} `{KR : !Codec PairingResponse}.
Context `{KM : !Codec PairingCskMessage} `{KC : !Codec PairingComplete}.
Context (feature_tpm : bool).
Context (show_config_error : ConfigError → string) (show_crypto_error : CryptoError → string).
Context (show_protocol_error : ProtocolError → string).
Context (show_peer_error : PeerIdentityError → string) (to_rfc3339 : Z → string).

Implicit Types m : ClientConfigManager.

(** ** The store: reading and writing are separate steps *)

Definition add_paired_server_task m (id : string) (server : PairedServer) : CP () :=
  servers ← call (load_paired_servers m);
  call (save_paired_servers m (<[id := server]> servers)).

Definition remove_user_task m (id username : string) : CP bool :=
  servers ← call (load_paired_servers m);
  match servers !! id with
  | Some server =>
      let server' := retain_other_users username server in
      if bool_decide (allowed_users server' = [])
      then _ ← call (save_paired_servers m (delete id servers)); mret true
      else _ ← call (save_paired_servers m (<[id := server']> servers)); mret false
  | None => mret true
  end.

Definition generate_keypair_task m : CP Ed25519KeyPair :=
  keypair ← call (mapM_err CE_Crypto ed25519_generate);
  _ ← call (save_keypair feature_tpm m keypair);
  mret keypair.

Definition rotate_csk_task m : CP ClientSymmetricKey :=
  _ ← trial (call (clear_paired_servers m));
  csk ← call (mapM_err CE_Crypto csk_generate);
  _ ← call (save_csk m csk);
  mret csk.

Definition recover_task m : CP () :=
  _ ← call (remove_if_exists (with_extension (tpm_key_path m) "pub"));
  _ ← call (remove_if_exists (with_extension (tpm_key_path m) "priv"));
  _ ← call (remove_if_exists (join (config_dir m) CLIENT_KEY_FILE));
  _ ← call (clear_paired_servers m);
  _ ← generate_keypair_task m;
  _ ← rotate_csk_task m;
  mret ().

(** ** The handlers; [d] is the daemon's state when the request began *)

Definition get_servers_task (d : DaemonState) (username : string) : AP AdminResponse :=
  r ← trial (call (load_paired_servers (ds_config_manager d)));
  servers ← or_refuse_task r (λ e, ("Failed to load servers: " +:+ show_config_error e)%string);
  let infos := (λ '(pk, s), mkPairedServerInfo (ps_name s) pk (allowed_users s) (to_rfc3339 (paired_at s))) <$>
                 filter (λ '(_, s), is_user_allowed s username = true) (map_to_list servers) in
  mret (success_with (AdmServers infos)).

Definition pairing_keypair_task (d : DaemonState) : AP Ed25519KeyPair :=
  r ← trial (call (load_keypair feature_tpm (ds_config_manager d)));
  match r with
  | Ok kp => mret kp
  | Err CE_InvalidConfig =>
      g ← trial (generate_keypair_task (ds_config_manager d));
      or_refuse_task g (λ e, ("Keypair generation failed: " +:+ show_config_error e)%string)
  | Err e => refuse_task ("Failed to load keypair: " +:+ show_config_error e)%string
  end.

Definition start_pairing_task (env : AdminEnv) (d : DaemonState) : AP AdminResponse :=
  keypair ← pairing_keypair_task d;
  let ipv4 := pairing_ipv4 env in
  let ipv6 := find_non_loopback_ipv6 (ae_netifas env) in
  port ← or_refuse_task (ae_bind env) (λ e, e);
  _ ← or_refuse_task (ae_firewall env) (λ e, ("Firewall error: " +:+ e)%string);
  session ← trial (call (client_new keypair));
  session ← or_refuse_task session (λ e, ("Session creation failed: " +:+ show_crypto_error e)%string);
  let url := generate_pairing_url (chars (hex_encode (x25519_public_key session))) (Z.to_N port)
               (Z.to_N <$> ipv4) (Z.to_N <$> ipv6) in
  gen ← act next_generation;
  act (current ← gets ad_pairing;
       match current with
       | Some _ => refuse "A pairing session is already in progress. Cancel or complete it first."
       | None =>
           _ ← set_pairing (Some (PsPending (mkPendingPairing true session url port gen)));
           mret (success_with (AdmPairingStarted (String.string_of_list_ascii url) port))
       end).

(** The exchange with the phone; the stream and the session are the task's own. *)
Definition initiate_step (pending : PendingPairing) (stream : Stream)
    : AM (Peer ClientPairingSession * result ProtocolError (bytes * string * string)) :=
  s ← get;
  let '(peer, r) := initiate_pairing (daemon_hostname (ad_world s)) (mkPeer (ad_world s) stream (pp_session pending)) in
  _ ← set_world (p_world peer);
  mret (peer, r).

Definition wait_for_pairing_task (env : AdminEnv) (port : Z) : AP AdminResponse :=
  pending ← act (take_pending port);
  match ae_accept env with
  | None => refuse_task "Timeout waiting for connection"
  | Some (Err e) => refuse_task ("Accept error: " +:+ e)%string
  | Some (Ok stream) =>
      '(peer, r) ← act (initiate_step pending stream);
      match r with
      | Err e => refuse_task ("Pairing initiation failed: " +:+ show_protocol_error e)%string
      | Ok (server_public_key, server_device_name, sas) =>
          act (now_there ← gets ad_pairing;
               match now_there with
               | Some _ => refuse "Pairing session was superseded by a newer request"
               | None =>
                   _ ← set_pairing (Some (PsActive (mkActivePairing (p_stream peer) (p_session peer) server_public_key
                         server_device_name (pp_port pending) (pp_firewall_guard pending) (pp_generation pending))));
                   mret (success_with (AdmPairingSas (format_sas sas) (pp_port pending)))
               end)
      end
  end.

Definition pairing_csk_task (d : DaemonState) : AP ClientSymmetricKey :=
  let m := ds_config_manager d in
  r ← trial (call (load_csk m));
  match r with
  | Ok c => mret c
  | Err CE_InvalidConfig =>
      there ← trial (call (E := ConfigError) (has_csk_file m));
      match there with
      | Ok true => refuse_task "CSK file is corrupt.  Use `Rotate CSK` in settings to regenerate (this will invalidate all existing pairings)."
      | _ =>
          c ← trial (call csk_generate);
          or_refuse_task c (λ e, ("CSK generation failed: " +:+ show_crypto_error e)%string)
      end
  | Err e => refuse_task ("Failed to load CSK: " +:+ show_config_error e)%string
  end.

Definition finish_step (csk : ClientSymmetricKey) (username : string) (active : ActivePairing) : AM (result ProtocolError ()) :=
  s ← get;
  let '(peer, r) := finish_pairing csk username (mkPeer (ad_world s) (ap_stream active) (ap_session active)) in
  _ ← set_world (p_world peer);
  mret r.

Definition complete_pairing_task (env : AdminEnv) (d : DaemonState) (username : string) (pid uid port : Z)
    : AP AdminResponse :=
  let m := ds_config_manager d in
  active ← act (take_active port);
  csk ← pairing_csk_task d;
  r ← act (finish_step csk username active);
  _ ← or_refuse_task r (λ e, ("Pairing completion failed: " +:+ show_protocol_error e)%string);
  let server_hex := hex_encode (ap_server_public_key active) in
  _ ← confirmed (mkConfirmed server_hex username pid uid);
  saved ← trial (call (save_csk m csk));
  _ ← or_refuse_task saved (λ e, ("Paired on phone, but saving local key failed: " +:+ show_config_error e +:+
         ". Ensure tapauthd is installed and the 'tapauthd' user and group exist, then retry pairing.")%string);
  let paired_server := mkPairedServer (ap_server_device_name active) server_hex [username] (ae_now env) in
  added ← trial (add_paired_server_task m server_hex paired_server);
  _ ← or_refuse_task added (λ e, ("Failed to save paired server: " +:+ show_config_error e)%string);
  mret (success_with (AdmPairingCompleted server_hex)).

Definition remove_device_task (d : DaemonState) (username public_key : string) : AP AdminResponse :=
  r ← trial (remove_user_task (ds_config_manager d) public_key username);
  _ ← or_refuse_task r (λ e, ("Failed to remove device: " +:+ show_config_error e)%string);
  mret empty_success.

Definition rotate_task (d : DaemonState) : AP AdminResponse :=
  r ← trial (rotate_csk_task (ds_config_manager d));
  _ ← or_refuse_task r (λ e, ("Failed to rotate CSK: " +:+ show_config_error e)%string);
  mret empty_success.

Definition save_config_task (d : DaemonState) (req : SaveConfigRequest) : AP AdminResponse :=
  if decide (scr_udp_port req = 0 ∨ 65535 < scr_udp_port req)
  then refuse_task "Invalid UDP port: must be 1-65535" else
  let hostname := trim (scr_hostname req) in
  if decide (hostname = EmptyString) then refuse_task "Hostname must not be empty" else
  r ← trial (call (E := ConfigError) tapauth_config_load);
  loaded ← or_refuse_task r (λ _, EmptyString);
  let toml_config := mkTapAuthConfig (pam_operation_timeout_secs loaded) (pam_gui_timeout_secs loaded)
        (scr_udp_port req) (default (enable_network loaded) (scr_enable_network req))
        (default (enable_ble loaded) (scr_enable_ble req)) (use_tpm loaded) (tpm_pcr_policy loaded) in
  saved ← trial (call (mapM_err CE_Io (tapauth_config_save toml_config)));
  _ ← or_refuse_task saved (λ e, ("Failed to save TOML config: " +:+ show_config_error e)%string);
  done ← trial (call (save_config (ds_config_manager d) (mkClientConfig hostname)));
  _ ← or_refuse_task done (λ e, ("Failed to save client config: " +:+ show_config_error e)%string);
  mret empty_success.

Definition recover_tpm_task (d : DaemonState) : AP AdminResponse :=
  if negb feature_tpm then refuse_task "TPM support not compiled in" else
  r ← trial (recover_task (ds_config_manager d));
  _ ← or_refuse_task r (λ e, ("TPM recovery failed: " +:+ show_config_error e)%string);
  mret empty_success.

Definition get_config_task (d : DaemonState) : AP AdminResponse :=
  r ← trial (call (load_config (ds_config_manager d)));
  dc ← trial (call (E := ConfigError) default_client_config);
  let client_config := match r with Ok c => c | Err _ => match dc with Ok c => c | Err _ => mkClientConfig "" end end in
  t ← trial (call (E := ConfigError) tapauth_config_load);
  toml_config ← or_refuse_task t (λ _, EmptyString);
  mret (success_with (AdmConfig (hostname client_config) (udp_port toml_config) (enable_ble toml_config)
    (enable_network toml_config))).

Definition daemon_status_task (d : DaemonState) : AP AdminResponse :=
  let tpm_error := if feature_tpm && bool_decide (ds_keypair d = None)
                   then default "TPM key unseal failed"%string (get_init_error d) else EmptyString in
  mret (success_with (AdmDaemonStatus feature_tpm tpm_error)).

(** ** The reload: four reads, then the new state is stored *)

Definition reload_task (d : DaemonState) : AP () :=
  let m := ds_config_manager d in
  kp ← trial (call (load_keypair feature_tpm m));
  let keypair := match kp with Ok kp => Some kp | Err _ => ds_keypair d end in
  c ← trial (call (load_csk m));
  let csk := match c with Ok csk => Some csk | Err _ => ds_csk d end in
  s ← trial (call (load_paired_servers m));
  let servers := match s with Ok s => s | Err _ => ds_paired_servers d end in
  cfg ← trial (call (load_config m));
  let config := match cfg with Ok c => c | Err _ => mkClientConfig (ds_hostname d) end in
  let missing :=
    match keypair, csk with
    | Some _, Some _ => None
    | None, Some _ => Some "Keypair"%string
    | Some _, None => Some "CSK"%string
    | None, None => Some "Keypair and CSK"%string
    end in
  let new_daemon := mkDaemonState m servers keypair csk (hostname config)
    ((λ s, s +:+ " unavailable after reload. Use tapauth-config to regenerate keys.")%string <$> missing) in
  act (modify (λ s, mkAdminState (ad_world s) new_daemon (ad_pairing s) (ad_generation s))).

(** ** A whole request *)

Definition dispatch_task (env : AdminEnv) (d : DaemonState) (username : string) (pid uid : Z)
    (p : option AdminRequestPayload) : AP AdminResponse * bool :=
  match p with
  | Some AdmGetServers => (get_servers_task d username, false)
  | Some AdmStartPairing => (start_pairing_task env d, false)
  | Some (AdmWaitForPairing port) => (wait_for_pairing_task env port, false)
  | Some (AdmCompletePairing port) => (complete_pairing_task env d username pid uid port, true)
  | Some (AdmRemoveDevice public_key) => (remove_device_task d username public_key, true)
  | Some AdmRotateCsk => (rotate_task d, true)
  | Some (AdmSaveConfig req) => (save_config_task d req, true)
  | Some AdmRecoverTpm => (recover_tpm_task d, true)
  | Some AdmGetConfig => (get_config_task d, false)
  | Some AdmGetDaemonStatus => (daemon_status_task d, false)
  | None => (refuse_task "Empty admin request", false)
  end.

Definition admin_task (env : AdminEnv) (request : AdminRequest) (caller_pid caller_uid : Z) : AP AdminResponse :=
  d ← act (gets ad_daemon);
  match resolve_peer (ae_peer env) caller_pid caller_uid with
  | Err e => fail (err_resp ADMIN_ERROR (show_peer_error e))
  | Ok identity =>
      match check_authorization show_peer_error (ae_peer env) identity with
      | Err e => fail (err_resp ADMIN_UNAUTHORIZED (show_peer_error e))
      | Ok _ =>
          let '(handler, needs_reload) :=
            dispatch_task env d (pe_username identity) caller_pid caller_uid (adm_payload request) in
          r ← trial handler;
          _ ← (if (needs_reload : bool) then reload_task d else mret ());
          match r with Ok resp => mret resp | Err resp => fail resp end
      end
  end.
End tasks.
