(* ===== verification/AdminAlone.v ===== *)
(** * A task that runs alone is the handler of [Admin]

    Step by step, the programs of [AdminTasks] do what the handlers of [Admin] do at
    once: the two translations of the handlers agree. *)

From stdpp Require Import base gmap strings list.
From Stdlib Require Import Strings.Ascii.
From S2P Require Import Prelude Os Text Crypto Protocol Config PairingUrl Pairing Network Auth Ipc Session.
From S2P Require Import PeerIdentity Admin PairingLife Tasks AdminTasks.

(** ** Programs and handlers *)

(** From states whose daemon is [d], the program does what the handler does. *)
Definition alone_at {E A} (d : DaemonState) (c : Common) (p : PM Common E A) (k : M AdminState E A) : Prop :=
  ∃ c' r, prog_run p c = (c', r) ∧ k (cm_admin c) = (cm_admin c', r) ∧ ad_daemon (cm_admin c') = d.
Definition alone {E A} (d : DaemonState) (p : PM Common E A) (k : M AdminState E A) : Prop :=
  ∀ c, ad_daemon (cm_admin c) = d → alone_at d c p k.

Lemma alone_ext {E A} d (p : PM Common E A) (k k' : M AdminState E A) : (∀ s, k s = k' s) → alone d p k → alone d p k'.
Proof. intros Hk Hp c Hd. destruct (Hp c Hd) as (c' & r & ? & ? & ?). exists c', r. by rewrite <-Hk. Qed.
Lemma alone_ret {E A} d (a : A) : alone (E := E) d (mret a) (mret a).
Proof. intros c Hd. by exists c, (Ok a). Qed.
Lemma alone_fail {E A} d (e : E) : alone (A := A) d (fail e) (throw e).
Proof. intros c Hd. by exists c, (Err e). Qed.
Lemma alone_bind {E A B} d (p : PM Common E A) (g : A → PM Common E B) k h :
  alone d p k → (∀ a, alone d (g a) (h a)) → alone d (p ≫= g) (k ≫= h).
Proof.
  intros Hp Hg c Hd. destruct (Hp c Hd) as (c1 & r & Hr & Hk & Hd1). unfold alone_at.
  rewrite run_PM_bind, Hr, bind_run, Hk. destruct r as [a|e]; [by apply Hg|by exists c1, (Err e)].
Qed.
(** A step that leaves the daemon as it is. *)
Lemma alone_act {A} d (k : AM A) : (∀ s, ad_daemon (k s).1 = ad_daemon s) → alone d (act k) k.
Proof.
  intros Hk c <-. unfold alone_at, act, atomically, on_admin. cbn. specialize (Hk (cm_admin c)).
  destruct (k (cm_admin c)) as [s r]. by exists (mkCommon s (cm_confirmed c)), r.
Qed.
Lemma alone_call {E A} d (k : M World E A) : alone d (call k) (on_files k).
Proof.
  intros c <-. unfold alone_at, call, atomically, on_admin, on_files. cbn. destruct (k (ad_world (cm_admin c))) as [w r].
  by eexists (mkCommon _ _), r.
Qed.
Lemma alone_trial {E F A} d (p : PM Common E A) (k : M AdminState E A) : alone d p k → alone (E := F) d (trial p) (attempt k).
Proof.
  intros Hp c Hd. destruct (Hp c Hd) as (c' & r & Hr & Hk & Hd'). exists c', (Ok r). unfold trial, attempt.
  by rewrite prog_run_bind, Hr, Hk.
Qed.
Lemma alone_os {A} d (p : CP A) (k : M World ConfigError A) : alone d p (on_files k) → alone d (trial p) (on_os_state k).
Proof.
  intros Hp. eapply alone_ext; [|by apply alone_trial]. intros s. unfold attempt, on_files, on_os_state.
  by destruct (k (ad_world s)).
Qed.
Lemma alone_refuse {A} d msg : alone (A := A) d (refuse_task msg) (refuse msg).
Proof. apply alone_fail. Qed.
Lemma alone_or_refuse {E A} d (r : result E A) msg : alone d (or_refuse_task r msg) (or_refuse r msg).
Proof. destruct r; [apply alone_ret|apply alone_refuse]. Qed.
(** The manager of the state that was read is the manager. *)
Lemma alone_manager {B} d (p : AP B) k : alone d p (k (ds_config_manager d)) → alone d p (manager ≫= k).
Proof. intros Hp c Hd. destruct (Hp c Hd) as (c' & r & ? & Hk & ?). exists c', r. split_and!; [done| |done].
  rewrite bind_run. cbn. by rewrite Hd. Qed.

(** The same for what works on files. *)
Lemma alone_files_bind {E A B} d (p : PM Common E A) (g : A → PM Common E B) k h :
  alone d p (on_files k) → (∀ a, alone d (g a) (on_files (h a))) → alone d (p ≫= g) (on_files (k ≫= h)).
Proof.
  intros Hp Hg. eapply alone_ext; [|by apply (alone_bind d p g (on_files k) (λ a, on_files (h a)))].
  intros s. rewrite bind_run. unfold on_files. rewrite bind_run. by destruct (k (ad_world s)) as [w [a|e]].
Qed.
Lemma alone_files_ret {E A} d (a : A) : alone (E := E) d (mret a) (on_files (mret a)).
Proof. eapply alone_ext; [|apply alone_ret]. by intros []. Qed.
Lemma alone_files_trial {E F A} d (p : PM Common E A) (k : M World E A) :
  alone d p (on_files k) → alone (E := F) d (trial p) (on_files (attempt k)).
Proof.
  intros Hp. eapply alone_ext; [|by apply alone_trial]. intros s. unfold attempt, on_files. by destruct (k (ad_world s)).
Qed.

(** Code that takes the world out and puts it back. *)
Lemma alone_world {E A B} d (k : M World E A) (g : result E A → AP B) (f : result E A → AM B) :
  (∀ r, alone d (g r) (f r)) →
  alone d (trial (call k) ≫= g) (s ← get; let '(w, r) := k (ad_world s) in _ ← set_world w; f r).
Proof.
  intros Hg. eapply alone_ext; [|apply (alone_bind d _ g (attempt (on_files k)) f); [by apply alone_trial, alone_call|done]].
  intros s. rewrite bind_run. unfold attempt, on_files. cbn.
  change ((get ≫= ?h) s) with (h s s). cbn beta. by destruct (k (ad_world s)) as [w r].
Qed.

(** The history is nothing to the handlers. *)
Lemma alone_confirmed {A} d cf (p : AP A) k : alone d p k → alone d (_ ← confirmed cf; p) k.
Proof. intros Hp c Hd. apply (Hp (mkCommon (cm_admin c) (cm_confirmed c ++ [cf])) Hd). Qed.

Create HintDb alone.
#[export] Hint Resolve alone_ret alone_fail alone_call alone_refuse alone_or_refuse alone_files_ret : alone.
(** Through the shared structure of a program and a handler. *)
Ltac alone :=
  repeat first
    [ solve [auto with alone]
    | apply alone_manager
    | apply alone_world; intros ?
    | apply alone_confirmed
    | apply alone_os
    | apply alone_files_trial
    | apply alone_files_bind; [|intros ?]
    | apply alone_bind; [|intros ?]
    | progress case_match
    | apply alone_act; intros ? ].

Ltac unroll := unfold mbind, M_bind, mret, M_ret, gets, get, modify; cbn.

Section alone.
Context `{C : CryptoOps} `{H : Hex} `{T : Toml} `{TT : TpmTools} `{I6 : Ipv6Text}.
Context `{JC : !Json ClientConfig} `{JS : !Json (gmap string PairedServer)}.
Context `{KH : !Codec PairingHello} `{KR : !Codec PairingResponse}.
Context `{KM : !Codec PairingCskMessage} `{KC : !Codec PairingComplete}.
Context (ft : bool).
Context (show_config : ConfigError → string) (show_crypto : CryptoError → string).
Context (show_protocol : ProtocolError → string).
Context (show_peer : PeerIdentityError → string) (rfc : Z → string).
Implicit Types (m : ClientConfigManager) (d : DaemonState).

Lemma add_server_alone d m id s : alone d (add_paired_server_task m id s) (on_files (add_paired_server m id s)).
Proof. unfold add_paired_server_task, add_paired_server. alone. Qed.
Lemma remove_user_alone d m id u : alone d (remove_user_task m id u) (on_files (remove_user_from_pairing m id u)).
Proof. unfold remove_user_task, remove_user_from_pairing. alone. Qed.
Lemma generate_keypair_alone d m : alone d (generate_keypair_task ft m) (on_files (generate_and_save_keypair ft m)).
Proof. unfold generate_keypair_task, generate_and_save_keypair. alone. Qed.
Lemma rotate_alone d m : alone d (rotate_csk_task m) (on_files (rotate_csk m)).
Proof. unfold rotate_csk_task, rotate_csk, generate_and_save_csk. alone. Qed.
Hint Resolve add_server_alone remove_user_alone generate_keypair_alone rotate_alone : alone.
Lemma recover_alone d m : alone d (recover_task ft m) (on_files (recover_from_tpm_failure ft m)).
Proof. unfold recover_task, recover_from_tpm_failure. alone. Qed.
Hint Resolve recover_alone : alone.

Lemma get_servers_alone d u : alone d (get_servers_task show_config rfc d u) (handle_get_servers show_config rfc u).
Proof. unfold get_servers_task, handle_get_servers. alone. Qed.
Lemma pairing_keypair_alone d : alone d (pairing_keypair_task ft show_config d) (pairing_keypair ft show_config).
Proof. unfold pairing_keypair_task, pairing_keypair. alone. Qed.
Hint Resolve pairing_keypair_alone : alone.
Lemma start_pairing_alone d env :
  alone d (start_pairing_task ft show_config show_crypto env d) (handle_start_pairing ft show_config show_crypto env).
Proof. unfold start_pairing_task, handle_start_pairing. alone. unroll. by destruct (ad_pairing _). Qed.
Lemma pairing_csk_alone d : alone d (pairing_csk_task show_config show_crypto d) (pairing_csk show_config show_crypto).
Proof. unfold pairing_csk_task, pairing_csk. alone. Qed.
Hint Resolve pairing_csk_alone : alone.
Lemma remove_device_alone d u pk : alone d (remove_device_task show_config d u pk) (handle_remove_device show_config u pk).
Proof. unfold remove_device_task, handle_remove_device. alone. Qed.
Lemma rotate_task_alone d : alone d (rotate_task show_config d) (handle_rotate_csk show_config).
Proof. unfold rotate_task, handle_rotate_csk. alone. Qed.
Lemma save_config_alone d req : alone d (save_config_task show_config d req) (handle_save_config show_config req).
Proof. unfold save_config_task, handle_save_config. alone. Qed.
Lemma recover_tpm_alone d : alone d (recover_tpm_task ft show_config d) (handle_recover_tpm ft show_config).
Proof. unfold recover_tpm_task, handle_recover_tpm. alone. Qed.
Lemma check_port_daemon (r e : Z) s : (check_port r e s).1 = s.
Proof. unfold check_port. by case_decide. Qed.
Lemma take_pending_daemon port s : ad_daemon (take_pending port s).1 = ad_daemon s.
Proof.
  unfold take_pending. unroll. destruct (ad_pairing s) as [[p|a]|]; try done.
  pose proof (check_port_daemon port (pp_port p) s). destruct (check_port _ _ s) as [s' [[]|e]]; by simplify_eq/=.
Qed.
Lemma take_active_daemon port s : ad_daemon (take_active port s).1 = ad_daemon s.
Proof.
  unfold take_active. unroll. destruct (ad_pairing s) as [[p|a]|]; try done.
  pose proof (check_port_daemon port (ap_port a) s). destruct (check_port _ _ s) as [s' [[]|e]]; by simplify_eq/=.
Qed.

Lemma initiate_daemon pending stream s : ad_daemon (initiate_step pending stream s).1 = ad_daemon s.
Proof. unfold initiate_step. unroll. by destruct (initiate_pairing _ _). Qed.
Lemma finish_daemon csk u active s : ad_daemon (finish_step csk u active s).1 = ad_daemon s.
Proof. unfold finish_step. unroll. by destruct (finish_pairing _ _ _). Qed.

Lemma accept_split env pending s :
  match ae_accept env with
  | None => refuse "Timeout waiting for connection"
  | Some (Err e) => refuse ("Accept error: " +:+ e)%string
  | Some (Ok stream) =>
      '(peer, r) ← initiate_step pending stream;
      match r with
      | Err e => refuse ("Pairing initiation failed: " +:+ show_protocol e)%string
      | Ok (server_public_key, server_device_name, sas) =>
          now_there ← gets ad_pairing;
          match now_there with
          | Some _ => refuse "Pairing session was superseded by a newer request"
          | None =>
              _ ← set_pairing (Some (PsActive (mkActivePairing (p_stream peer) (p_session peer) server_public_key
                    server_device_name (pp_port pending) (pp_firewall_guard pending) (pp_generation pending))));
              mret (success_with (AdmPairingSas (format_sas sas) (pp_port pending)))
          end
      end
  end s = accept_pending show_protocol env pending s.
Proof.
  unfold accept_pending. destruct (ae_accept env) as [[stream|e]|]; [|done..]. unfold initiate_step.
  unroll. by destruct (initiate_pairing _ _) as [peer r].
Qed.

Lemma wait_alone d env port :
  (∀ s, ae_meanwhile env s = s) →
  alone d (wait_for_pairing_task show_protocol env port) (handle_wait_for_pairing show_protocol env port).
Proof.
  intros Hm. unfold wait_for_pairing_task, handle_wait_for_pairing. apply alone_bind; [apply alone_act, take_pending_daemon|intros p].
  eapply alone_ext; [intros s; unroll; rewrite Hm; apply (accept_split env p s)|].
  alone; [apply initiate_daemon|]. unroll. by destruct (ad_pairing _).
Qed.

Lemma bind_ext {S E A B} (k : M S E A) (f g : A → M S E B) s : (∀ a s, f a s = g a s) → (k ≫= f) s = (k ≫= g) s.
Proof. intros Hf. unfold mbind, M_bind. destruct (k s) as [s' [a|e]]; [apply Hf|done]. Qed.

Lemma confirm_split env u active s :
  (csk ← pairing_csk show_config show_crypto;
   r ← finish_step csk u active;
   _ ← or_refuse r (λ e, ("Pairing completion failed: " +:+ show_protocol e)%string);
   m ← manager;
   saved ← on_os_state (save_csk m csk);
   _ ← or_refuse saved (λ e, ("Paired on phone, but saving local key failed: " +:+ show_config e +:+
         ". Ensure tapauthd is installed and the 'tapauthd' user and group exist, then retry pairing.")%string);
   let server_hex := hex_encode (ap_server_public_key active) in
   let paired_server := mkPairedServer (ap_server_device_name active) server_hex [u] (ae_now env) in
   added ← on_os_state (add_paired_server m server_hex paired_server);
   _ ← or_refuse added (λ e, ("Failed to save paired server: " +:+ show_config e)%string);
   mret (success_with (AdmPairingCompleted server_hex))) s
  = confirm_pairing show_config show_crypto show_protocol env u active s.
Proof.
  unfold confirm_pairing. apply bind_ext. intros csk s1. unfold finish_step. unroll. by destruct (finish_pairing _ _ _) as [peer r].
Qed.

Lemma complete_alone d env u pid uid port :
  alone d (complete_pairing_task show_config show_crypto show_protocol env d u pid uid port)
    (handle_complete_pairing show_config show_crypto show_protocol env u port).
Proof.
  unfold complete_pairing_task, handle_complete_pairing. apply alone_bind; [apply alone_act, take_active_daemon|intros active].
  eapply alone_ext; [intros s; apply (confirm_split env u active s)|]. alone. apply finish_daemon.
Qed.

Lemma get_config_alone d : alone d (get_config_task d) handle_get_config.
Proof. unfold get_config_task, handle_get_config. alone. Qed.
Lemma daemon_status_alone d : alone d (daemon_status_task ft d) (handle_get_daemon_status ft).
Proof. intros c Hd. exists c. eexists. split; [reflexivity|]. split; [|done]. unfold handle_get_daemon_status. unroll. by rewrite Hd. Qed.

Lemma dispatch_alone env d u pid uid p :
  (∀ s, ae_meanwhile env s = s) →
  let task := dispatch_task ft show_config show_crypto show_protocol rfc env d u pid uid p in
  let handler := dispatch ft show_config show_crypto show_protocol rfc env u p in
  alone d task.1 handler.1 ∧ task.2 = handler.2.
Proof.
  intros Hm. destruct p as [[]|]; (split; [|reflexivity]); cbn [dispatch_task dispatch fst];
    auto using get_servers_alone, start_pairing_alone, wait_alone, complete_alone, remove_device_alone, rotate_task_alone,
      save_config_alone, recover_tpm_alone, get_config_alone, daemon_status_alone, alone_refuse.
Qed.

(** *** The reload *)

Lemma run_read {A B} (f : AdminState → A) (g : A → AP B) c : prog_run (act (gets f) ≫= g) c = prog_run (g (f (cm_admin c))) c.
Proof. rewrite run_PM_bind. by destruct c. Qed.

Lemma run_trial {E F A} (p : PM Common E A) c c' r : prog_run p c = (c', r) → prog_run (trial (F := F) p) c = (c', Ok r).
Proof. intros Hp. unfold trial. by rewrite prog_run_bind, Hp. Qed.

Lemma run_trial_call {E F A B} (k : M World E A) (g : result E A → PM Common F B) c :
  prog_run (trial (call k) ≫= g) c
  = let s := cm_admin c in
    let '(w, r) := k (ad_world s) in
    prog_run (g r) (mkCommon (mkAdminState w (ad_daemon s) (ad_pairing s) (ad_generation s)) (cm_confirmed c)).
Proof.
  rewrite run_PM_bind. unfold trial, call, atomically, on_admin, on_files. cbn. by destruct (k (ad_world (cm_admin c))).
Qed.

Lemma reload_alone c :
  prog_run (reload_task ft (ad_daemon (cm_admin c))) c
  = (mkCommon (reload_daemon ft (cm_admin c)) (cm_confirmed c), Ok ()).
Proof.
  destruct c as [[w d pr g] l]. unfold reload_task, reload_daemon, reload.
  cbv zeta. cbn [cm_admin ad_daemon ad_world cm_confirmed].
  rewrite run_trial_call. cbn [cm_admin ad_daemon ad_world ad_pairing ad_generation cm_confirmed].
  destruct (load_keypair _ _ w) as [w1 kp] eqn:E1.
  rewrite run_trial_call. cbn [cm_admin ad_daemon ad_world ad_pairing ad_generation cm_confirmed].
  destruct (load_csk _ w1) as [w2 csk] eqn:E2.
  rewrite run_trial_call. cbn [cm_admin ad_daemon ad_world ad_pairing ad_generation cm_confirmed].
  destruct (load_paired_servers _ w2) as [w3 s] eqn:E3.
  rewrite run_trial_call. cbn [cm_admin ad_daemon ad_world ad_pairing ad_generation cm_confirmed].
  destruct (load_config _ w3) as [w4 cfg] eqn:E4.
  unfold mbind, M_bind, attempt. by rewrite E1, E2, E3, E4.
Qed.

(** ** Whole requests *)

Definition answer {A} (r : result A A) : A := match r with Ok a => a | Err a => a end.

(** A request whose steps are not interleaved with others is the handler of the sequential model: the same answer and the same state, for every request, caller and surroundings. *)
Theorem task_alone env request pid uid c :
  (∀ s, ae_meanwhile env s = s) →
  let '(c', r) := prog_run (admin_task ft show_config show_crypto show_protocol show_peer rfc env request pid uid) c in
  handle_admin_request ft show_config show_crypto show_protocol show_peer rfc env request pid uid (cm_admin c)
  = (cm_admin c', answer r).
Proof.
  intros Hm. unfold admin_task, handle_admin_request. rewrite run_read.
  destruct (resolve_peer (ae_peer env) pid uid) as [id|e]; [|done].
  destruct (check_authorization show_peer (ae_peer env) id) as [_u|e]; [|done].
  set (d := ad_daemon (cm_admin c)).
  destruct (dispatch_alone env d (pe_username id) pid uid (adm_payload request) Hm) as [Ha Hr].
  destruct (dispatch_task _ _ _ _ _ _ _ _ _ _ _) as [task nr], (dispatch _ _ _ _ _ _ _ _) as [handler nr']. cbn in Ha, Hr. subst nr'.
  destruct (Ha c eq_refl) as (c1 & r & Hrun & Hk & Hd). 
  rewrite run_PM_bind, (run_trial _ _ _ _ Hrun), run_PM_bind. unfold answer_of. rewrite Hk.
  destruct nr; [|by destruct r]. pose proof (reload_alone c1) as Hre. rewrite Hd in Hre. rewrite Hre. by destruct r.
Qed.
End alone.
