(* ===== verification/AdminRaces.v ===== *)
(** * Administrative requests that interleave

    Requests of several callers, their steps in any order, with timers, other users of
    the machine and failing or torn file operations in between.  Whatever the order, no
    device gains a user it was not paired for by that user ([races_add_no_trust]); but the
    unsynchronised reading and writing loses updates: a removed device comes back, and a
    rotated key is undone. *)

From stdpp Require Import base gmap strings list.
From Stdlib Require Import Strings.Ascii.
From S2P Require Import Prelude Os Text Crypto Protocol Config ConfigFacts PairingUrl Pairing Network Auth Ipc Session.
From S2P Require Import PeerIdentity Admin PairingLife Frames Tasks AdminTasks AdminAlone.
From S2P Require Import Concrete ConcreteCodec ConcreteConfig ConcreteAuth ConcreteIpc ConfigTheorems PairingTheorems SessionTheorems AdminTheorems.

(** ** The exchange with a phone leaves the files alone *)

Definition peer_keeps {A E B} (p : string) (k : M (Peer A) E B) : Prop :=
  ∀ x, contents p (p_world (k x).1) = contents p (p_world x).

Section peers.
Context (p : string).

Lemma peer_pure {A E B} (k : M (Peer A) E B) : (∀ x, p_world (k x).1 = p_world x) → peer_keeps p k.
Proof. intros Hk x. by rewrite Hk. Qed.
Lemma peer_bind {A E B D} (k : M (Peer A) E B) (g : B → M (Peer A) E D) :
  peer_keeps p k → (∀ b, peer_keeps p (g b)) → peer_keeps p (k ≫= g).
Proof.
  intros Hk Hg x. unfold mbind, M_bind. specialize (Hk x). destruct (k x) as [x' [b|e]]; [|done]. by rewrite Hg.
Qed.
Lemma peer_stream {A B} (k : M Stream io_error B) : peer_keeps p (on_stream (A := A) k).
Proof. apply peer_pure. intros x. unfold on_stream. by destruct (k (p_stream x)). Qed.
Lemma peer_world {A B} (k : M World CryptoError B) : keeps p k → peer_keeps p (on_world (A := A) k).
Proof. intros Hk x. specialize (Hk (p_world x)). unfold on_world. by destruct (k (p_world x)). Qed.

Context `{C : CryptoOps} `{KH : !Codec PairingHello} `{KR : !Codec PairingResponse}.
Context `{KM : !Codec PairingCskMessage} `{KC : !Codec PairingComplete}.

Lemma peer_receive {A B} `{!Codec B} : peer_keeps p (receive_message (A := A) (B := B)).
Proof.
  unfold receive_message. apply peer_bind; [apply peer_stream|intros n]. case_decide; [by apply peer_pure|].
  apply peer_bind; [apply peer_stream|intros b]. by apply peer_pure.
Qed.
Lemma peer_send {A B} `{!Codec B} (m : B) : peer_keeps p (send_message (A := A) m).
Proof.
  unfold send_message. apply peer_bind; [apply peer_stream|intros _]. apply peer_bind; [apply peer_stream|intros _].
  apply peer_stream.
Qed.
Lemma peer_encrypt psk d : keeps p (encrypt_with_psk psk d).
Proof. unfold encrypt_with_psk. frame. Qed.

Ltac peers :=
  repeat first
    [ apply peer_receive
    | apply peer_send
    | apply peer_world, peer_encrypt
    | apply peer_bind; [|intros ?]
    | progress case_match
    | by apply peer_pure ].

Lemma peer_initiate name : peer_keeps p (initiate_pairing name).
Proof. unfold initiate_pairing, receive_pairing_hello, send_pairing_response. peers. Qed.
Lemma peer_finish csk u : peer_keeps p (finish_pairing csk u).
Proof. unfold finish_pairing, send_csk_message, receive_pairing_complete. peers. Qed.
End peers.

(** ** What may be trusted *)

Definition servers_path : string := join (config_dir new_manager) PAIRED_SERVERS_FILE.

(** A device is trusted for a user: at the start, or since a pairing was confirmed. *)
Definition vouched (start : string → string → Prop) (c : Common) (id u : string) : Prop :=
  start id u ∨ ∃ cf, cf ∈ cm_confirmed c ∧ cf_server cf = id ∧ cf_user cf = u.
Definition table_in (V : string → string → Prop) (t : gmap string PairedServer) : Prop :=
  ∀ id s u, t !! id = Some s → u ∈ allowed_users s → V id u.

Lemma table_in_mono (V W : string → string → Prop) t : (∀ id u, V id u → W id u) → table_in V t → table_in W t.
Proof. intros HVW Ht id s u Hs Hu. by eapply HVW, Ht. Qed.
Lemma table_in_empty V : table_in V ∅.
Proof. intros id s u Hs. by rewrite lookup_empty in Hs. Qed.
Lemma table_in_insert V t id s : (∀ u, u ∈ allowed_users s → V id u) → table_in V t → table_in V (<[id := s]> t).
Proof. intros Hs Ht id' s' u [[<- <-]|[_ Hl]]%lookup_insert_Some Hu; [by apply Hs|by eapply Ht]. Qed.
Lemma table_in_delete V t id : table_in V t → table_in V (delete id t).
Proof. intros Ht id' s' u [_ Hl]%lookup_delete_Some Hu. by eapply Ht. Qed.

Section races.
Context `{C : CryptoOps} `{H : Hex} `{T : Toml} `{TT : TpmTools} `{I6 : Ipv6Text}.
Context `{JC : !Json ClientConfig} `{JS : !Json (gmap string PairedServer)}.
Context `{KH : !Codec PairingHello} `{KR : !Codec PairingResponse}.
Context `{KM : !Codec PairingCskMessage} `{KC : !Codec PairingComplete}.
Context `{!TpmToolsLaws TT} `{!JsonLaws _ JS} `{!JsonTruncated _ JS}.
Context (ft : bool).
Context (show_config : ConfigError → string) (show_crypto : CryptoError → string).
Context (show_protocol : ProtocolError → string).
Context (show_peer : PeerIdentityError → string) (rfc : Z → string).

(** *** The table on disk *)

Lemma load_servers_result w t :
  (load_paired_servers new_manager w).2 = Ok t →
  t = ∅ ∨ ∃ d, contents servers_path w = Some d ∧ from_json d = Some t.
Proof.
  destruct (load_paired_servers new_manager w) as [w' r] eqn:E. cbn. intros ->. unfold load_paired_servers in E.
  apply bind_Ok_inv in E as (w1 & there & E1 & E). destruct (path_exists_Ok _ _ _ _ E1) as (l & -> & _).
  destruct there; [|left; by injection E]. right. apply bind_Ok_inv in E as (w2 & d & E2 & E).
  apply read_secure_file_Ok in E2 as (f & Hf & <- & _). unfold lift in E. injection E as <- Hj%ok_or_Ok. exists (f_data f).
  split; [|done]. unfold contents. change (w_fs (set_faults l w)) with (w_fs w) in Hf. unfold servers_path. by rewrite Hf.
Qed.

(** A file that is written has the new contents, the old ones, or a beginning of the new. *)
Lemma write_secure_contents q d w :
  contents q (write_secure_file q d w).1 = contents q w ∨ ∃ n, contents q (write_secure_file q d w).1 = Some (take n d).
Proof.
  assert (Hput : ∀ b w, contents q (put_file q b w) = Some b).
  { intros b v. unfold contents, put_file. cbn. rewrite lookup_insert_eq. by destruct (w_fs v !! q). }
  unfold write_secure_file. rewrite bind_run, privileged_run. case_match; [by left|].
  rewrite bind_run. unfold io at 1 4, mapM_err, fs_write. destruct (fs_fault_run w) as (f & l & ->). destruct f as [| |n]; cbn.
  - right. exists (length d). rewrite firstn_all, <-(Hput d (set_faults l w)).
    match goal with |- contents _ (?k ?v).1 = _ => enough (Hk : keeps q k) by apply Hk end. frame.
  - by left.
  - right. exists n. apply Hput.
Qed.

Definition file_in (V : string → string → Prop) (w : World) : Prop :=
  ∀ d t, contents servers_path w = Some d → from_json d = Some t → table_in V t.

Lemma save_servers_in V t w : file_in V w → table_in V t → file_in V (save_paired_servers new_manager t w).1.
Proof.
  intros Hw Ht d t' Hd Hj. unfold save_paired_servers in Hd. unfold mbind at 1, M_bind at 1 in Hd.
  destruct (init new_manager w) as [w1 [[]|e]] eqn:Ei.
  2: { apply (Hw d t'); [|done]. by rewrite <-(keeps_init servers_path new_manager w), Ei. }
  assert (Hw1 : contents servers_path w1 = contents servers_path w) by (by rewrite <-(keeps_init servers_path new_manager w), Ei).
  destruct (json_roundtrip t) as (b & Hb & Hbt). cbv zeta in Hd. unfold mbind, M_bind, lift in Hd. rewrite Hb in Hd. cbn in Hd.
  change (join get_config_dir PAIRED_SERVERS_FILE) with servers_path in Hd.
  destruct (write_secure_contents servers_path b w1) as [Hc|[n Hc]]; rewrite Hd in Hc.
  - apply (Hw d t'); [|done]. by rewrite <-Hw1.
  - injection Hc as ->. destruct (decide (n < length b)%nat) as [Hn|Hn]; [by rewrite (json_truncated t b n) in Hj|].
    rewrite take_ge in Hj by lia. rewrite Hbt in Hj. by injection Hj as <-.
Qed.
Lemma clear_servers_in V w : file_in V w → file_in V (clear_paired_servers new_manager w).1.
Proof.
  intros Hw. enough (Hc : contents servers_path (clear_paired_servers new_manager w).1 = contents servers_path w ∨
    contents servers_path (clear_paired_servers new_manager w).1 = None).
  { intros d t Hd Hj. apply (Hw d t); [|done]. destruct Hc as [Hc|Hc]; congruence. }
  unfold clear_paired_servers. cbv zeta. fold servers_path. rewrite bind_run.
  pose proof (keeps_path_exists (E := ConfigError) servers_path servers_path w) as Hk. unfold servers_path in *.
  destruct (path_exists _ w) as [w1 [[]|e]]; [|by left..]. change (contents servers_path w1 = contents servers_path w) in Hk. unfold servers_path in Hk. rewrite <-Hk. unfold io, mapM_err, fs_remove, fs_call.
  destruct (fs_fault_run w1) as (f & l & ->). destruct f; [|by left..]. cbn. destruct (w_fs w1 !! _) eqn:Ef; [|by left].
  right. cbn. unfold contents. cbn. by rewrite lookup_delete_eq.
Qed.

(** *** The invariant, and what a step may do *)

Context (start : string → string → Prop) (authorised : Confirmed → Prop).

Record races_ok (c : Common) : Prop := {
  ro_file : file_in (vouched start c) (ad_world (cm_admin c));
  ro_memory : table_in (vouched start c) (ds_paired_servers (ad_daemon (cm_admin c)));
  ro_manager : ds_config_manager (ad_daemon (cm_admin c)) = new_manager;
  ro_confirmed : Forall authorised (cm_confirmed c);
}.
Definition grows (c c' : Common) : Prop := cm_confirmed c `prefix_of` cm_confirmed c'.
#[local] Instance grows_preorder : PreOrder grows.
Proof. split; unfold grows; [by intros c|intros c1 c2 c3; apply transitivity]. Qed.

Lemma vouched_grows c c' id u : grows c c' → vouched start c id u → vouched start c' id u.
Proof.
  intros [l Hl] [Hs|(cf & Hin & ? & ?)]; [by left|right]. exists cf. rewrite Hl. split; [apply elem_of_app; by left|done].
Qed.
Lemma table_grows c c' t : grows c c' → table_in (vouched start c) t → table_in (vouched start c') t.
Proof. intros Hg. apply table_in_mono. intros id u. by apply vouched_grows. Qed.

Abbreviation WP := (wp races_ok grows).

(** A step that leaves the table and the daemon's state alone. *)
Definition quiet {E A} (k : M AdminState E A) : Prop :=
  ∀ s, contents servers_path (ad_world (k s).1) = contents servers_path (ad_world s) ∧ ad_daemon (k s).1 = ad_daemon s.
Lemma wp_quiet {E A} (k : M AdminState E A) c (Φ : Common → result E A → Prop) :
  quiet k → (∀ c' r, grows c c' → Φ c' r) → WP (atomically (on_admin k)) c Φ.
Proof.
  intros Hk HΦ. apply wp_atomically. intros c1 Hg [Hf Hm Hmg Ha]. specialize (Hk (cm_admin c1)). unfold on_admin.
  destruct (k (cm_admin c1)) as [s r]. cbn in *. destruct Hk as [Hc Hd]. split; [|split; [by unfold grows|by apply HΦ]].
  split; cbn; [|by rewrite Hd..|done]. intros d t. rewrite Hc. apply Hf.
Qed.
Lemma quiet_files {E A} (k : M World E A) : keeps servers_path k → quiet (on_files k).
Proof. intros Hk s. specialize (Hk (ad_world s)). unfold on_files. destruct (k (ad_world s)). by split. Qed.

Lemma wp_load c (Φ : Common → result ConfigError (gmap string PairedServer) → Prop) :
  (∀ c' r, grows c c' → (∀ t, r = Ok t → table_in (vouched start c') t) → Φ c' r) →
  WP (call (load_paired_servers new_manager)) c Φ.
Proof.
  intros HΦ. apply wp_atomically. intros c1 Hg [Hf Hm Hmg Ha]. unfold on_admin, on_files.
  pose proof (keeps_load_servers servers_path new_manager (ad_world (cm_admin c1))) as Hk.
  pose proof (load_servers_result (ad_world (cm_admin c1))) as Hr.
  destruct (load_paired_servers new_manager _) as [w r]. cbn in *. split; [|split; [by unfold grows|apply HΦ; [done|]]].
  - split; cbn; [|done..]. intros d t. rewrite Hk. apply Hf.
  - intros t ->. destruct (Hr t eq_refl) as [->|(d & Hd & Hj)]; [apply table_in_empty|by eapply Hf].
Qed.
Lemma wp_save c t (Φ : Common → result ConfigError () → Prop) :
  table_in (vouched start c) t → (∀ c' r, grows c c' → Φ c' r) → WP (call (save_paired_servers new_manager t)) c Φ.
Proof.
  intros Ht HΦ. apply wp_atomically. intros c1 Hg [Hf Hm Hmg Ha]. unfold on_admin, on_files.
  pose proof (save_servers_in _ t _ Hf (table_grows _ _ _ Hg Ht)) as Hs.
  destruct (save_paired_servers new_manager t _) as [w r]. cbn in *. split; [|split; [by unfold grows|by apply HΦ]]. by split.
Qed.
Lemma wp_clear c (Φ : Common → result ConfigError () → Prop) :
  (∀ c' r, grows c c' → Φ c' r) → WP (call (clear_paired_servers new_manager)) c Φ.
Proof.
  intros HΦ. apply wp_atomically. intros c1 Hg [Hf Hm Hmg Ha]. unfold on_admin, on_files.
  pose proof (clear_servers_in _ _ Hf) as Hs. destruct (clear_paired_servers new_manager _) as [w r]. cbn in *.
  split; [|split; [by unfold grows|by apply HΦ]]. by split.
Qed.
Lemma wp_confirmed c cf (Φ : Common → result AdminResponse () → Prop) :
  authorised cf → (∀ c' r, grows c c' → cf ∈ cm_confirmed c' → Φ c' r) → WP (confirmed cf) c Φ.
Proof.
  intros Hcf HΦ. apply wp_atomically. intros c1 Hg [Hf Hm Hmg Ha].
  assert (Hg' : grows c1 (mkCommon (cm_admin c1) (cm_confirmed c1 ++ [cf]))) by (by exists [cf]).
  cbn. split; [|split; [done|apply HΦ; [by etrans|cbn; set_solver]]]. split; cbn; [| |done|apply Forall_app; by rewrite Forall_singleton].
  - intros d t Hd Hj. by eapply table_grows, Hf.
  - by eapply table_grows.
Qed.
Lemma wp_store c d (Φ : Common → result AdminResponse () → Prop) :
  ds_config_manager d = new_manager → table_in (vouched start c) (ds_paired_servers d) → (∀ c' r, grows c c' → Φ c' r) →
  WP (act (modify (λ s, mkAdminState (ad_world s) d (ad_pairing s) (ad_generation s)))) c Φ.
Proof.
  intros Hmd Ht HΦ. apply wp_atomically. intros c1 Hg [Hf Hm Hmg Ha]. cbn. split; [|split; [by unfold grows|by apply HΦ]].
  split; cbn; [done| |done..]. by eapply table_grows.
Qed.

(** *** Programs that add no trust *)

(** [inert_at c p]: started once [c] has been seen, [p] keeps the invariant. *)
Definition inert_at {A} (c : Common) (p : Prog Common A) : Prop :=
  ∀ c1 Φ, grows c c1 → (∀ c' r, grows c1 c' → Φ c' r) → WP p c1 Φ.

Lemma inert_ret {A} c (a : A) : inert_at c (Ret a).
Proof. intros c1 Φ Hg HΦ. by apply HΦ. Qed.
Lemma inert_mret {E A} c (a : A) : inert_at c (mret a : PM Common E A).
Proof. apply inert_ret. Qed.
Lemma inert_refuse {A} c msg : inert_at c (refuse_task (A := A) msg).
Proof. apply inert_ret. Qed.
Lemma inert_later {A} c c' (p : Prog Common A) : grows c c' → inert_at c p → inert_at c' p.
Proof. intros Hg Hp c1 Φ Hg1. apply Hp. by etrans. Qed.
Lemma inert_bind {E A B} c (p : PM Common E A) (g : A → PM Common E B) :
  inert_at c p → (∀ a, inert_at c (g a)) → inert_at c (p ≫= g).
Proof.
  intros Hp Hg c1 Φ Hg1 HΦ. apply wp_PM_bind, Hp; [done|]. intros c2 [a|e] Hg2; [|by apply HΦ].
  apply Hg; [by etrans|]. intros c3 r Hg3. apply HΦ. by etrans.
Qed.
Lemma inert_trial {E F A} c (p : PM Common E A) : inert_at c p → inert_at c (trial (F := F) p).
Proof. intros Hp c1 Φ Hg HΦ. apply wp_trial, Hp; [done|]. intros c' r Hg'. by apply HΦ. Qed.
Lemma inert_act {A} c (k : AM A) : quiet k → inert_at c (act k).
Proof. intros Hk c1 Φ Hg HΦ. by apply wp_quiet. Qed.
Lemma inert_call {E A} c (k : M World E A) : keeps servers_path k → inert_at c (call k).
Proof. intros Hk c1 Φ Hg HΦ. by apply wp_quiet; [apply quiet_files|]. Qed.
Lemma inert_clear c : inert_at c (call (clear_paired_servers new_manager)).
Proof. intros c1 Φ Hg HΦ. by apply wp_clear. Qed.
Lemma inert_load c : inert_at c (call (load_paired_servers new_manager)).
Proof. apply inert_call, keeps_load_servers. Qed.
Lemma inert_or_refuse {E A} c (r : result E A) msg : inert_at c (or_refuse_task r msg).
Proof. destruct r; apply inert_ret. Qed.

(** Reading the table and writing a part of it. *)
Lemma inert_remove_user c id u : inert_at c (remove_user_task new_manager id u).
Proof.
  intros c1 Φ Hg HΦ. apply wp_PM_bind, wp_load. intros c2 [t|e] Hg2 Ht; [|by apply HΦ]. specialize (Ht t eq_refl).
  destruct (t !! id) as [s|] eqn:Es; [|by apply HΦ]. cbv beta iota zeta. case_bool_decide; apply wp_PM_bind, wp_save.
  - by apply table_in_delete.
  - intros c3 [[]|e] Hg3; apply HΦ; by etrans.
  - apply table_in_insert; [|done]. intros v Hv. eapply Ht; [done|]. cbn in Hv. by apply list_elem_of_filter in Hv as [_ Hv].
  - intros c3 [[]|e] Hg3; apply HΦ; by etrans.
Qed.
Lemma inert_add c id s : (∀ u, u ∈ allowed_users s → vouched start c id u) → inert_at c (add_paired_server_task new_manager id s).
Proof.
  intros Hs c1 Φ Hg HΦ. apply wp_PM_bind, wp_load. intros c2 [t|e] Hg2 Ht; [|by apply HΦ]. apply wp_save.
  - apply table_in_insert; [|by apply Ht]. intros u Hu. eapply vouched_grows; [|by apply Hs]. by etrans.
  - intros c3 r Hg3. apply HΦ. by etrans.
Qed.

(** *** The files a request touches are not the table *)

Lemma sealed_not_table : sealed_apart (tpm_key_path new_manager) servers_path.
Proof. repeat split; by vm_compute. Qed.
Lemma key_not_table : join (config_dir new_manager) CLIENT_KEY_FILE ≠ servers_path.
Proof. by vm_compute. Qed.
Lemma csk_not_table : join (config_dir new_manager) CLIENT_SYMMETRIC_KEY_FILE ≠ servers_path.
Proof. by vm_compute. Qed.
Lemma config_not_table : join (config_dir new_manager) CLIENT_CONFIG_FILE ≠ servers_path.
Proof. by vm_compute. Qed.
Lemma settings_not_table : DEFAULT_CONFIG_PATH ≠ servers_path.
Proof. by vm_compute. Qed.
Lemma sealed_parts_not_table e : e ∈ ["pub"; "priv"]%string → with_extension (tpm_key_path new_manager) e ≠ servers_path.
Proof. intros Hin. repeat (apply elem_of_cons in Hin as [->|Hin]; [by vm_compute|]). by apply elem_of_nil in Hin. Qed.

Create HintDb inert.
Hint Resolve inert_ret inert_mret inert_refuse inert_or_refuse inert_clear inert_load inert_remove_user : inert.
Hint Resolve sealed_not_table key_not_table csk_not_table config_not_table settings_not_table : inert.
Hint Resolve keeps_load_keypair keeps_save_keypair keeps_generate_keypair keeps_generate_csk keeps_client_new keeps_load_csk
  keeps_save_csk keeps_load_config keeps_save_config keeps_load_settings keeps_save_settings keeps_map_err file_keeps_gets
  keeps_path_exists keeps_remove_if_exists : inert.

Ltac inert :=
  repeat first
    [ solve [auto 3 with inert]
    | apply inert_bind; [|intros ?]
    | apply inert_trial
    | apply inert_call
    | progress case_match ].

Lemma inert_generate_keypair c : inert_at c (generate_keypair_task ft new_manager).
Proof. unfold generate_keypair_task. inert. Qed.
Lemma inert_rotate c : inert_at c (rotate_csk_task new_manager).
Proof. unfold rotate_csk_task. inert. Qed.
Hint Resolve inert_generate_keypair inert_rotate : inert.
Lemma inert_recover c : inert_at c (recover_task ft new_manager).
Proof. unfold recover_task. inert; apply keeps_remove_if_exists, sealed_parts_not_table; set_solver. Qed.
Hint Resolve inert_recover : inert.

(** *** The handlers *)

Ltac slot := let st := fresh in intros st; unfold mbind, M_bind, mret, M_ret, gets, get, set_pairing, modify; cbn; by destruct (ad_pairing st).

Lemma quiet_take_pending port : quiet (take_pending port).
Proof.
  intros s. split; [|apply take_pending_daemon]. unfold take_pending, mbind, M_bind, gets. cbn.
  destruct (ad_pairing s) as [[p|a]|]; [|done..]. pose proof (check_port_daemon port (pp_port p) s) as Hc.
  destruct (check_port _ _ s) as [s' [[]|e]]; by simplify_eq/=.
Qed.
Lemma quiet_take_active port : quiet (take_active port).
Proof.
  intros s. split; [|apply take_active_daemon]. unfold take_active, mbind, M_bind, gets. cbn.
  destruct (ad_pairing s) as [[p|a]|]; [done| |done]. pose proof (check_port_daemon port (ap_port a) s) as Hc.
  destruct (check_port _ _ s) as [s' [[]|e]]; by simplify_eq/=.
Qed.
Lemma quiet_initiate pending stream : quiet (initiate_step pending stream).
Proof.
  intros s. split; [|apply initiate_daemon].
  pose proof (peer_initiate servers_path (daemon_hostname (ad_world s)) (mkPeer (ad_world s) stream (pp_session pending))) as Hk.
  unfold initiate_step, mbind, M_bind, get. by destruct (initiate_pairing _ _).
Qed.
Lemma quiet_finish csk u active : quiet (finish_step csk u active).
Proof.
  intros s. split; [|apply finish_daemon].
  pose proof (peer_finish servers_path csk u (mkPeer (ad_world s) (ap_stream active) (ap_session active))) as Hk.
  unfold finish_step, mbind, M_bind, get. by destruct (finish_pairing _ _ _).
Qed.
Hint Resolve inert_act quiet_take_pending quiet_take_active quiet_initiate quiet_finish : inert.

Implicit Types d : DaemonState.

Lemma inert_keypair c d : ds_config_manager d = new_manager → inert_at c (pairing_keypair_task ft show_config d).
Proof. intros Hd. unfold pairing_keypair_task. rewrite Hd. inert. Qed.
Lemma inert_csk c d : ds_config_manager d = new_manager → inert_at c (pairing_csk_task show_config show_crypto d).
Proof. intros Hd. unfold pairing_csk_task, has_csk_file. cbv zeta. rewrite Hd. inert. Qed.
Hint Resolve inert_keypair inert_csk : inert.
Lemma inert_start c env d : ds_config_manager d = new_manager → inert_at c (start_pairing_task ft show_config show_crypto env d).
Proof. intros Hd. unfold start_pairing_task. cbv zeta. inert; apply inert_act; [done|slot]. Qed.
Lemma inert_wait c env port : inert_at c (wait_for_pairing_task show_protocol env port).
Proof. unfold wait_for_pairing_task. inert. apply inert_act. slot. Qed.

Lemma inert_complete c env d u pid uid port :
  ds_config_manager d = new_manager → (∀ id, authorised (mkConfirmed id u pid uid)) →
  inert_at c (complete_pairing_task show_config show_crypto show_protocol env d u pid uid port).
Proof.
  intros Hd Hau. unfold complete_pairing_task. cbv zeta. rewrite Hd. do 4 (apply inert_bind; [inert|intros ?]).
  intros c1 Φ Hg HΦ. apply wp_PM_bind, wp_confirmed; [apply Hau|]. intros c2 [[]|e] Hg2 Hin; [|by apply HΦ].
  match goal with |- WP ?p _ _ => enough (Hp : inert_at c2 p) end.
  { apply Hp; [done|]. intros c3 r Hg3. apply HΦ. by etrans. }
  do 2 (apply inert_bind; [inert|intros ?]). apply inert_bind; [|intros ?; inert]. apply inert_trial, inert_add.
  intros v Hv. right. eexists. split; [exact Hin|]. cbn in Hv. by apply list_elem_of_singleton in Hv as ->.
Qed.

Lemma inert_dispatch c env d u pid uid p :
  ds_config_manager d = new_manager →
  (∀ id port, p = Some (AdmCompletePairing port) → authorised (mkConfirmed id u pid uid)) →
  inert_at c (dispatch_task ft show_config show_crypto show_protocol rfc env d u pid uid p).1.
Proof.
  intros Hd Hau. destruct p as [[]|]; cbn [dispatch_task fst]; eauto using inert_start, inert_wait, inert_complete, inert_ret.
  - unfold get_servers_task. rewrite Hd. inert.
  - unfold remove_device_task. rewrite Hd. inert.
  - unfold rotate_task. rewrite Hd. inert.
  - unfold save_config_task. rewrite Hd. inert.
  - unfold recover_tpm_task. rewrite Hd. inert.
  - unfold get_config_task, default_client_config. rewrite Hd. inert.
Qed.

Lemma inert_reload c d :
  ds_config_manager d = new_manager → table_in (vouched start c) (ds_paired_servers d) → inert_at c (reload_task ft d).
Proof.
  intros Hd Ht c1 Φ Hg HΦ. unfold reload_task. cbv zeta. rewrite Hd.
  apply wp_PM_bind, wp_trial, inert_call with c1; [inert|done|]. intros c2 kp Hg2.
  apply wp_PM_bind, wp_trial, inert_call with c2; [inert|done|]. intros c3 csk Hg3.
  apply wp_PM_bind, wp_trial, wp_load. intros c4 s Hg4 Hs.
  apply wp_PM_bind, wp_trial, inert_call with c4; [inert|done|]. intros c5 cfg Hg5.
  apply wp_store; [done| |].
  - cbn. destruct s as [s|e]; [eapply table_grows, Hs; done|]. eapply table_grows; [|exact Ht]. by do 4 (etrans; [eassumption|]).
  - intros c6 r Hg6. apply HΦ. by do 4 (etrans; [eassumption|]).
Qed.

(** The user a caller is, if they may administer. *)
Definition administers (env : AdminEnv) (pid uid : Z) (u : string) : Prop :=
  ∃ identity v, resolve_peer (ae_peer env) pid uid = Ok identity ∧
    check_authorization show_peer (ae_peer env) identity = Ok v ∧ u = pe_username identity.

Lemma request_harmless c env request pid uid :
  (∀ id u port, administers env pid uid u → adm_payload request = Some (AdmCompletePairing port) →
     authorised (mkConfirmed id u pid uid)) →
  harmless_task races_ok grows (admin_task ft show_config show_crypto show_protocol show_peer rfc env request pid uid) c.
Proof.
  intros Hau. unfold harmless_task, admin_task. apply wp_PM_bind, wp_atomically. intros c1 Hg Hok. pose proof Hok as [_ Hm Hmg _].
  unfold on_admin, gets. cbn. destruct c1 as [s l]. cbn in *. split; [done|]. split; [by unfold grows|].
  destruct (resolve_peer (ae_peer env) pid uid) as [id|e] eqn:Er; [|done].
  destruct (check_authorization show_peer (ae_peer env) id) as [v|e] eqn:Ec; [|done].
  set (c0 := mkCommon s l) in *. set (d := ad_daemon s) in *.
  assert (Hd := inert_dispatch c0 env d (pe_username id) pid uid (adm_payload request) Hmg (λ i port, Hau i _ port (ex_intro _ id (ex_intro _ v (conj Er (conj Ec eq_refl)))))).
  destruct (dispatch_task _ _ _ _ _ _ _ _ _ _ _) as [task nr]. cbn in Hd.
  match goal with |- WP ?p _ _ => enough (Hp : inert_at c0 p) by by apply Hp end.
  apply inert_bind; [by apply inert_trial|intros r]. apply inert_bind; [|intros _; destruct r; apply inert_ret].
  destruct nr; [by apply inert_reload|apply inert_ret].
Qed.
End races.

(** ** Runs *)

Inductive RaceEvent :=
| RArrive (env : AdminEnv) (request : AdminRequest) (pid uid : Z)
| RGo (i : nat)
| RTimer (t : Timer)
| ROutside (entropy : bytes) (time clock : Z) (faults : list fault).  (* time passes, others use the machine *)

Section runs.
Context `{C : CryptoOps} `{H : Hex} `{T : Toml} `{TT : TpmTools} `{I6 : Ipv6Text}.
Context `{JC : !Json ClientConfig} `{JS : !Json (gmap string PairedServer)}.
Context `{KH : !Codec PairingHello} `{KR : !Codec PairingResponse}.
Context `{KM : !Codec PairingCskMessage} `{KC : !Codec PairingComplete}.
Context (ft : bool).
Context (show_config : ConfigError → string) (show_crypto : CryptoError → string).
Context (show_protocol : ProtocolError → string).
Context (show_peer : PeerIdentityError → string) (rfc : Z → string).

Definition outside (e : bytes) (t k : Z) (l : list fault) (w : World) : World :=
  mkWorld e t k (w_fs w) (w_dirs w) l (w_euid w) (w_tapauthd w) (w_hostname w).
Definition race_event (ev : RaceEvent) : PoolEvent Common (result AdminResponse AdminResponse) :=
  match ev with
  | RArrive env request pid uid =>
      PStart (admin_task ft show_config show_crypto show_protocol show_peer rfc env request pid uid)
  | RGo i => PGo i
  | RTimer t => POther (λ c, let s := cm_admin c in
      mkCommon (mkAdminState (ad_world s) (ad_daemon s) (fire t (ad_pairing s)) (ad_generation s)) (cm_confirmed c))
  | ROutside e t k l => POther (λ c, let s := cm_admin c in
      mkCommon (mkAdminState (outside e t k l (ad_world s)) (ad_daemon s) (ad_pairing s) (ad_generation s)) (cm_confirmed c))
  end.
Definition idle (s : AdminState) : Pool Common (result AdminResponse AdminResponse) := mkPool (mkCommon s []) ∅ 0 [].
Definition race_run (evs : list RaceEvent) (s : AdminState) : Pool Common (result AdminResponse AdminResponse) :=
  pool_run (race_event <$> evs) (idle s).

(** What is trusted in a state: by the daemon, or by the file it will load. *)
Definition trusted (s : AdminState) (id u : string) : Prop :=
  (∃ srv, ds_paired_servers (ad_daemon s) !! id = Some srv ∧ u ∈ allowed_users srv) ∨
  (∃ d t srv, contents servers_path (ad_world s) = Some d ∧ from_json d = Some t ∧ t !! id = Some srv ∧ u ∈ allowed_users srv).

Context `{!TpmToolsLaws TT} `{!JsonLaws _ JS} `{!JsonTruncated _ JS}.

(** C11: No interleaving creates trust.  Requests of any callers arrive at any time and their steps mix in any order, with timers, failing and torn file operations in between: a device is trusted for a user, by the daemon or by its file, only if it was at the start, or a pairing of this device was confirmed in a [CompletePairing] request of that very user, who may administer. *)
Theorem races_add_no_trust evs s :
  ds_config_manager (ad_daemon s) = new_manager →
  let c := pl_state (race_run evs s) in
  ∀ id u, trusted (cm_admin c) id u →
    trusted s id u ∨
    ∃ cf env request port, cf ∈ cm_confirmed c ∧ cf_server cf = id ∧ cf_user cf = u ∧
      RArrive env request (cf_pid cf) (cf_uid cf) ∈ evs ∧ adm_payload request = Some (AdmCompletePairing port) ∧
      administers show_peer env (cf_pid cf) (cf_uid cf) u.
Proof.
  intros Hm c id u Htr.
  set (authorised cf := ∃ env request port, RArrive env request (cf_pid cf) (cf_uid cf) ∈ evs ∧
    adm_payload request = Some (AdmCompletePairing port) ∧ administers show_peer env (cf_pid cf) (cf_uid cf) (cf_user cf)).
  assert (Hok : pool_ok (races_ok (trusted s) authorised) grows (race_run evs s)).
  { apply pool_run_ok; [apply grows_preorder| |].
    - apply Forall_fmap, Forall_forall. intros [env rq pid uid|i|t|e t k l] Hin; cbn; [|done|..].
      + intros c' _. apply request_harmless; try done. intros i v port Ha Hp. by exists env, rq, port.
      + intros [s' l'] [? ? ? ?]. split; [by split|by unfold grows].
      + intros [s' l'] [? ? ? ?]. split; [by split|by unfold grows].
    - split; [|apply map_Forall_empty]. split; cbn; [| |done|done].
      + intros d t Hd Hj i srv v Hs Hv. left. right. by exists d, t, srv.
      + intros i srv v Hs Hv. left. left. by exists srv. }
  destruct Hok as [[Hf Hmem _ Hau] _].
  assert (Hv : vouched (trusted s) c id u).
  { destruct Htr as [(srv & Hs & Hu)|(d & t & srv & Hd & Hj & Hs & Hu)]; [by eapply Hmem|by eapply Hf]. }
  destruct Hv as [Hv|(cf & Hin & <- & <-)]; [by left|right].
  destruct (proj1 (Forall_forall _ _) Hau cf Hin) as (env & rq & port & ? & ? & ?). by exists cf, env, rq, port.
Qed.
End runs.

(** ** Two lost updates *)

Definition race := race_run true no_text no_text no_text no_text no_text.
Definition gos (i n : nat) : list RaceEvent := replicate n (RGo i).
Definition arrive (p : AdminRequestPayload) : RaceEvent := RArrive toy_admin_env (mkAdminRequest (Some p)) 42 1000.
Definition answers (pl : Pool Common (result AdminResponse AdminResponse)) : list (nat * Z) :=
  prod_map id (λ r, adr_status (answer r)) <$> pl_done pl.

(** A store with two phones of ann. *)
Definition two_phones : gmap string PairedServer :=
  {["p1"%string := server_of toy_phone ["ann"%string]; "p2"%string := server_of toy_phone ["ann"%string]]}.
Definition two_phones_world : World := state_of (save_paired_servers new_manager two_phones) quiet_world.

(** One of two removals at the same time is lost.  Both requests read the table before either writes it; both are answered with success, and the first device is trusted again, by the file and by the daemon. *)
Theorem removal_lost :
  let pl := race ([arrive (AdmRemoveDevice "p1"); arrive (AdmRemoveDevice "p2")] ++ gos 0 2 ++ gos 1 2 ++ gos 0 14 ++ gos 1 14)
              (toy_admin two_phones_world None) in
  answers pl = [(0%nat, ADMIN_SUCCESS); (1%nat, ADMIN_SUCCESS)] ∧
  is_Some (ds_paired_servers (ad_daemon (cm_admin (pl_state pl))) !! "p1"%string).
Proof. vm_compute. split; [done|by eexists]. Qed.

(** A store with a key; the next random bytes differ from it. *)
Definition old_csk : ClientSymmetricKey := mkCsk (rep 32 7).
Definition keyed_world : World := set_entropy (rep 200 5) (state_of (save_csk new_manager old_csk) quiet_world).

(** A rotation during a pairing is undone.  A pairing has read the key and waits for the phone; the key is rotated, with success; then the pairing ends with success and stores the key it had read.  The daemon goes on with the old key. *)
Theorem rotation_undone :
  let start := toy_admin keyed_world (Some (PsActive toy_active)) in
  let evs := [arrive (AdmCompletePairing 40123); arrive AdmRotateCsk] ++ gos 0 3 ++ gos 1 16 in
  let rotated := race evs start in
  let pl := race (evs ++ gos 0 16) start in
  answers pl = [(1%nat, ADMIN_SUCCESS); (0%nat, ADMIN_SUCCESS)] ∧
  ds_csk (ad_daemon (cm_admin (pl_state rotated))) = Some (mkCsk (rep 32 5)) ∧
  ds_csk (ad_daemon (cm_admin (pl_state pl))) = Some old_csk ∧
  (load_csk new_manager (ad_world (cm_admin (pl_state pl)))).2 = Ok old_csk.
Proof. vm_compute. by repeat split. Qed.

(** A reload that was overtaken puts an older state into the daemon.  The first request has read the table for its reload before the second one removes a device; it stores what it read afterwards: the file no longer has the device, the daemon still does. *)
Theorem stale_reload :
  let evs := [arrive (AdmSaveConfig (mkSaveConfigRequest "desk" 5000 None None)); arrive (AdmRemoveDevice "p1")] ++
             gos 0 7 ++ gos 1 16 ++ gos 0 9 in
  let pl := race evs (toy_admin two_phones_world None) in
  let s := cm_admin (pl_state pl) in
  answers pl = [(1%nat, ADMIN_SUCCESS); (0%nat, ADMIN_SUCCESS)] ∧
  (lookup "p1"%string <$> (load_paired_servers new_manager (ad_world s)).2) = Ok None ∧
  is_Some (ds_paired_servers (ad_daemon s) !! "p1"%string).
Proof. vm_compute. repeat split. by eexists. Qed.

(** ** Witnesses *)

Definition one_pairing : list RaceEvent := arrive (AdmCompletePairing 40123) :: gos 0 16.
Definition pairing_start : AdminState := toy_admin quiet_world (Some (PsActive toy_active)).

Lemma one_pairing_trusted : trusted (cm_admin (pl_state (race_run true no_text no_text no_text no_text no_text one_pairing pairing_start))) toy_phone_key "ann".
Proof.
  assert (Hs : allowed_users <$> ds_paired_servers (ad_daemon (cm_admin (pl_state (race_run true no_text no_text no_text no_text no_text one_pairing pairing_start)))) !! toy_phone_key
    = Some ["ann"%string]) by by vm_compute.
  apply fmap_Some in Hs as (srv & Hs & Hu). left. exists srv. split; [exact Hs|]. rewrite <-Hu. by apply list_elem_of_singleton.
Qed.

Lemma races_add_no_trust_witness :
  let c := pl_state (race_run true no_text no_text no_text no_text no_text one_pairing pairing_start) in
  trusted (cm_admin c) toy_phone_key "ann" ∧
  (trusted pairing_start toy_phone_key "ann" ∨
   ∃ cf env request port, cf ∈ cm_confirmed c ∧ cf_server cf = toy_phone_key ∧ cf_user cf = "ann"%string ∧
      RArrive env request (cf_pid cf) (cf_uid cf) ∈ one_pairing ∧ adm_payload request = Some (AdmCompletePairing port) ∧
      administers no_text env (cf_pid cf) (cf_uid cf) "ann").
Proof.
  pose proof one_pairing_trusted as Ht.
  split; [exact Ht|]. exact (races_add_no_trust true no_text no_text no_text no_text no_text one_pairing pairing_start eq_refl _ _ Ht).
Defined.

Lemma task_alone_witness :
  let '(c', r) := prog_run (admin_task true no_text no_text no_text no_text no_text toy_admin_env toy_complete 42 1000)
                    (mkCommon pairing_start []) in
  handle_admin_request true no_text no_text no_text no_text no_text toy_admin_env toy_complete 42 1000
    (cm_admin (mkCommon pairing_start [])) = (cm_admin c', answer r).
Proof. apply (task_alone true no_text no_text no_text no_text no_text). intros s. reflexivity. Defined.
