(* ===== verification/ServeTheorems.v ===== *)
(** * Theorems about the daemon with its administrative handler

    What a connection can change, whatever its bytes are. *)

From stdpp Require Import base gmap strings list.
From S2P Require Import Prelude Os Text Crypto Concrete Protocol ConcreteCodec Config ConfigFacts.
From S2P Require Import ConcreteConfig PairingUrl Pairing PairingTheorems Network Auth ConcreteAuth Ipc.
From S2P Require Import Session SessionTheorems ConcreteIpc PeerIdentity Admin AdminTheorems Daemon DaemonTheorems.

(** The state that only administration may change. *)
Definition administered (s : Server) : DaemonState * option PairingState * Z :=
  (sv_daemon s, sv_pairing s, sv_generation s).

Lemma pam_authenticate_administered `{C : CryptoOps} `{H : Hex} `{T : Toml} `{KW : !Codec WrapperMessage}
    `{KE : !Codec EncryptedPacket} fb show rnd env req daemon s s' r :
  handle_pam_authenticate fb show rnd env req daemon s = (s', r) → administered s' = administered s.
Proof.
  unfold handle_pam_authenticate. intros Hh.
  destruct (match _ with Some t => _ | None => _ end); [by simplify_eq|].
  destruct (session_new _ _ _) as [w [sess|e]]; [|by simplify_eq].
  destruct (handle_authenticate _ _ _ _ _ _ _) as [sw' r']. by simplify_eq.
Qed.

Lemma pam_cancel_administered req s s' r : handle_pam_cancel req s = (s', r) → administered s' = administered s.
Proof. unfold handle_pam_cancel. intros. by case_all. Qed.

(** Whatever a connection sends and whatever state it is served with, when the daemon's
    keys, paired servers or settings in memory, the pairing in progress or its counter
    are different afterwards, the first frame was an administrative request, and the
    process and user the kernel names for this connection may administer. *)
Definition admin_conn `{KI : !Codec IpcEnvelope} (aenv : AdminEnv) (c : Conn) : Prop :=
  ∃ pid uid identity data c1 request, cn_cred c = Some (pid, uid) ∧ read_framed c = Ok (data, c1) ∧
    decode data = Some (mkIpcEnvelope (Some (MsgAdminRequest request))) ∧
    may_administer (ae_peer aenv) pid uid identity.

Lemma conn_administered `{C : CryptoOps} `{H : Hex} `{T : Toml} `{TT : TpmTools} `{I6 : Ipv6Text}
    `{JC : !Json ClientConfig} `{JS : !Json (gmap string PairedServer)}
    `{KH : !Codec PairingHello} `{KR : !Codec PairingResponse}
    `{KM : !Codec PairingCskMessage} `{KC : !Codec PairingComplete}
    `{KW : !Codec WrapperMessage} `{KE : !Codec EncryptedPacket} `{KI : !Codec IpcEnvelope}
    fb ft show_auth rnd show_config show_crypto show_protocol show_peer rfc env aenv c snapshot s s' r :
  handle_conn fb show_auth rnd (daemon_admin ft show_config show_crypto show_protocol show_peer rfc aenv)
    env c snapshot s = (s', r) →
  administered s' ≠ administered s → admin_conn aenv c.
Proof.
  unfold handle_conn, admin_conn. intros Hs Hd. destruct (cn_cred c) as [[pid uid]|]; [|by simplify_eq].
  destruct (read_framed c) as [[data c1]|] eqn:Hf; [|by simplify_eq].
  destruct (decide (data = [])); [by simplify_eq|].
  destruct (decode data : option IpcEnvelope) as [[[[req|req|resp|req|resp]|]]|] eqn:Hdec; [| |by simplify_eq| |by simplify_eq..].
  - destruct (handle_pam_authenticate _ _ _ _ _ _ _) as [s1 r1] eqn:E.
    apply pam_authenticate_administered in E. by simplify_eq.
  - destruct (handle_pam_cancel _ _) as [s1 [resp x]] eqn:E. apply pam_cancel_administered in E. by simplify_eq.
  - unfold daemon_admin in Hs.
    destruct (handle_admin_request _ _ _ _ _ _ _ _ _ _ _) as [a resp] eqn:E. simplify_eq.
    edestruct authorised_change as [identity Hi]; [exact E|left|by eexists pid, uid, identity, data, c1, req].
    intros ->. by destruct s.
Qed.
