(* ===== verification/DaemonLoop.v ===== *)
(** * The daemon as a running program: [tapauthd/src/main.rs], [main]

    Start-up, the loop that accepts connections, one task for each, signals and the end.
    A task works on the daemon state of the moment its connection was accepted; tasks run
    in any order, interleaved with administration and with the timers of a pairing. *)

From stdpp Require Import base gmap strings list.
From S2P Require Import Prelude Os Text Crypto Protocol Config PairingUrl Pairing Network Auth Ipc Sockets Session.
From S2P Require Import PeerIdentity Admin PairingLife Daemon.

(** ** The accept loop *)

(** An accepted connection with the snapshot it will be served with. *)
Record Task := mkTask {
  ts_conn : Conn;
  ts_snapshot : DaemonState;
  ts_env : SessionEnv;
  ts_admin_env : AdminEnv;
}.

Record Loop := mkLoop {
  lp_server : Server;
  lp_tasks : gmap nat Task;            (* accepted and not yet served *)
  lp_next : nat;
  lp_done : list (nat * option (result DaemonError Conn));
  lp_stopped : bool;
}.

Inductive LoopEvent :=
| EvAccept (c : Conn) (env : SessionEnv) (admin_env : AdminEnv)
| EvAcceptError (k : io_kind)
| EvRun (i : nat)
| EvTimer (t : Timer)
| EvWorld (w : World)                  (* time passes, others use the system *)
| EvSignal                             (* Ctrl+C or SIGTERM *)
| EvCtrlCError.                        (* waiting for Ctrl+C failed *)

Definition set_server (s : Server) (lp : Loop) : Loop :=
  mkLoop s (lp_tasks lp) (lp_next lp) (lp_done lp) (lp_stopped lp).
Definition set_world (w : World) (s : Server) : Server :=
  let sw := sv_session s in
  set_sessions (mkSessionWorld w (sw_registry sw) (sw_next sw) (sw_log sw)) s.
Definition fire_timer (t : Timer) (s : Server) : Server :=
  mkServer (sv_daemon s) (sv_session s) (sv_recent s) (fire t (sv_pairing s)) (sv_generation s).

Section loop.
Context `{C : CryptoOps} `{H : Hex} `{T : Toml} `{TT : TpmTools} `{I6 : Ipv6Text}.
Context `{JC : !Json ClientConfig} `{JS : !Json (gmap string PairedServer)}.
Context `{KH : !Codec PairingHello} `{KR : !Codec PairingResponse}.
Context `{KM : !Codec PairingCskMessage} `{KC : !Codec PairingComplete}.
Context `{KW : !Codec WrapperMessage} `{KE : !Codec EncryptedPacket} `{KI : !Codec IpcEnvelope}.
Context (feature_ble feature_tpm feature_fallback_socket : bool).
Context (show_auth_error : AuthHandlerError → string) (random_error : string).
Context (show_config_error : ConfigError → string) (show_crypto_error : CryptoError → string).
Context (show_protocol_error : ProtocolError → string).
Context (show_peer_error : PeerIdentityError → string) (to_rfc3339 : Z → string).

Definition serve_task (t : Task) : SM (option (result DaemonError Conn)) :=
  handle_conn feature_ble show_auth_error random_error
    (daemon_admin feature_tpm show_config_error show_crypto_error show_protocol_error show_peer_error to_rfc3339
       (ts_admin_env t))
    (ts_env t) (ts_conn t) (ts_snapshot t).

(** A failed [accept] and a failed connection are logged.  A signal ends the loop, and
    with it every task; so does an error of [ctrl_c], whose result is dropped. *)
Definition loop_step (ev : LoopEvent) (lp : Loop) : Loop :=
  if lp_stopped lp then lp else
  match ev with
  | EvAccept c env admin_env =>
      mkLoop (lp_server lp) (<[lp_next lp := mkTask c (sv_daemon (lp_server lp)) env admin_env]> (lp_tasks lp))
        (S (lp_next lp)) (lp_done lp) false
  | EvAcceptError _ => lp
  | EvRun i =>
      match lp_tasks lp !! i with
      | None => lp
      | Some t =>
          let '(s, r) := serve_task t (lp_server lp) in
          mkLoop s (delete i (lp_tasks lp)) (lp_next lp) (lp_done lp ++ [(i, r)]) false
      end
  | EvTimer t => set_server (fire_timer t (lp_server lp)) lp
  | EvWorld w => set_server (set_world w (lp_server lp)) lp
  | EvSignal | EvCtrlCError => mkLoop (lp_server lp) ∅ (lp_next lp) (lp_done lp) true
  end.
Definition loop_run (evs : list LoopEvent) (lp : Loop) : Loop := foldl (flip loop_step) lp evs.

(** ** Start-up and end *)

Definition DEFAULT_SOCKET_PATH : string := "/run/tapauthd/tapauthd.sock".

(** What the process finds besides the files. *)
Record StartEnv := mkStartEnv {
  st_kernel : Kernel;                  (* what creating the UDP socket meets *)
  st_listen_fds : option Z;
  st_listen_pid : option Z;
  st_pid : Z;
  st_adopt : option io_kind;           (* the error of taking file descriptor 3 over *)
  st_sock : option string;             (* TAPAUTHD_SOCK *)
  st_bind : option io_kind;
  st_tapauthd : option (Z * Z);        (* uid and gid of the tapauthd user *)
  st_ids : Z * Z;                      (* our effective user and group *)
  st_setgid : bool;                    (* whether the kernel grants [setgid] *)
  st_setuid : bool;
}.

Inductive StartFailure :=
| UdpFailed (k : io_kind)
| StateFailed (e : AuthHandlerError)   (* exits with status 1 *)
| AdoptFailed (k : io_kind)
| SocketActivationRequired
| BindFailed (k : io_kind).

Record Started := mkStarted { sd_loop : Loop; sd_systemd : bool; sd_ids : Z * Z }.

Definition socket_path (env : StartEnv) : string := default DEFAULT_SOCKET_PATH (st_sock env).

(** A path that is taken cannot be bound. *)
Definition bind_socket (env : StartEnv) (path : string) : M World StartFailure () := λ w,
  match st_bind env with
  | Some k => (w, Err (BindFailed k))
  | None =>
      match w_fs w !! path with
      | Some _ => (w, Err (BindFailed OtherIo))
      | None => (set_fs (<[path := mkFile [] (perm 7 5 5) (w_euid w)]> (w_fs w)) w, Ok ())
      end
  end.

Definition fallback_listener (env : StartEnv) : M World StartFailure () :=
  let sock_path := socket_path env in
  stale ← path_exists sock_path;
  _ ← (if (stale : bool) then _ ← attempt (fs_remove sock_path); mret () else mret ());
  _ ← bind_socket env sock_path;
  _ ← attempt (fs_set_mode sock_path (perm 6 6 0));
  mret ().

(** [true]: the socket is systemd's. *)
Definition listener (env : StartEnv) : M World StartFailure bool :=
  if adopt_systemd_socket (st_listen_fds env) (st_listen_pid env) (st_pid env) then
    match st_adopt env with Some k => throw (AdoptFailed k) | None => mret true end
  else if feature_fallback_socket then _ ← fallback_listener env; mret false
  else throw SocketActivationRequired.

Definition set_euid (u : Z) (w : World) : World :=
  mkWorld (w_entropy w) (w_time w) (w_clock w) (w_fs w) (w_dirs w) (w_faults w) u (w_tapauthd w) (w_hostname w).
Definition new_server (d : DaemonState) (w : World) : Server :=
  mkServer d (mkSessionWorld w ∅ 0 []) ∅ None 0.

Definition daemon_start (env : StartEnv) : M World StartFailure Started :=
  toml_config ← tapauth_config_load;
  _ ← (match (create_multicast_socket (udp_port toml_config) (st_kernel env)).2 with
       | Ok _ => mret () | Err k => throw (UdpFailed k) end);
  d ← mapM_err StateFailed (daemon_new feature_tpm show_config_error);
  using_systemd_socket ← listener env;
  let '(ids, _) := drop_privileges_to_tapauthd (st_tapauthd env) (st_setgid env) (st_setuid env) (st_ids env) in
  w ← get;
  mret (mkStarted (mkLoop (new_server d (set_euid ids.1 w)) ∅ 0 [] false) using_systemd_socket ids).

(** After the loop. *)
Definition daemon_end (env : StartEnv) (using_systemd_socket : bool) : M World StartFailure () :=
  if feature_fallback_socket && negb using_systemd_socket
  then _ ← attempt (fs_remove (socket_path env)); mret ()
  else mret ().
End loop.
