(* ===== verification/DaemonLoopTheorems.v ===== *)
(** * Theorems about the running daemon

    What changes its trusted state over a whole run, which state a connection is served
    with, and what a start needs. *)

From stdpp Require Import base gmap strings list.
From S2P Require Import Prelude Os Text Crypto Concrete Protocol ConcreteCodec Config ConfigFacts.
From S2P Require Import ConcreteConfig PairingUrl Pairing PairingTheorems Network Auth ConcreteAuth AuthTheorems Ipc Sockets.
From S2P Require Import Session SessionTheorems ConcreteIpc PeerIdentity Admin AdminTheorems PairingLife.
From S2P Require Import Daemon DaemonTheorems ServeTheorems DaemonLoop.

#[local] Instance manager_eq_dec : EqDecision ClientConfigManager.
Proof. solve_decision. Defined.
#[local] Instance keypair_eq_dec : EqDecision Ed25519KeyPair.
Proof. solve_decision. Defined.
#[local] Instance csk_eq_dec : EqDecision ClientSymmetricKey.
Proof. solve_decision. Defined.
#[local] Instance paired_server_eq_dec : EqDecision PairedServer.
Proof. solve_decision. Defined.
#[local] Instance daemon_state_eq_dec : EqDecision DaemonState.
Proof. solve_decision. Defined.

Section loop.
Context `{C : CryptoOps} `{H : Hex} `{T : Toml} `{TT : TpmTools} `{I6 : Ipv6Text}.
Context `{JC : !Json ClientConfig} `{JS : !Json (gmap string PairedServer)}.
Context `{KH : !Codec PairingHello} `{KR : !Codec PairingResponse}.
Context `{KM : !Codec PairingCskMessage} `{KC : !Codec PairingComplete}.
Context `{KW : !Codec WrapperMessage} `{KE : !Codec EncryptedPacket} `{KI : !Codec IpcEnvelope}.
Context (fb ft : bool) (show_auth : AuthHandlerError → string) (rnd : string).
Context (show_config : ConfigError → string) (show_crypto : CryptoError → string).
Context (show_protocol : ProtocolError → string).
Context (show_peer : PeerIdentityError → string) (rfc : Z → string).

#[local] Abbreviation serve_task := (serve_task fb ft show_auth rnd show_config show_crypto show_protocol show_peer rfc).
#[local] Abbreviation loop_step := (loop_step fb ft show_auth rnd show_config show_crypto show_protocol show_peer rfc).
#[local] Abbreviation loop_run := (loop_run fb ft show_auth rnd show_config show_crypto show_protocol show_peer rfc).

(** ** Runs *)

Lemma loop_run_cons ev evs lp : loop_run (ev :: evs) lp = loop_run evs (loop_step ev lp).
Proof. done. Qed.
Lemma loop_run_app evs evs' lp : loop_run (evs ++ evs') lp = loop_run evs' (loop_run evs lp).
Proof. apply foldl_app. Qed.

(** A task of an administrator is served at some point of a run. *)
Definition admin_served (evs : list LoopEvent) (lp : Loop) : Prop :=
  ∃ pre i t post, evs = pre ++ EvRun i :: post ∧ lp_tasks (loop_run pre lp) !! i = Some t ∧
    admin_conn (ts_admin_env t) (ts_conn t).

Lemma admin_served_cons ev evs lp : admin_served evs (loop_step ev lp) → admin_served (ev :: evs) lp.
Proof. intros (pre & i & t & post & -> & Ht & Ha). by exists (ev :: pre), i, t, post. Qed.
Lemma admin_served_app evs evs' lp : admin_served evs' (loop_run evs lp) → admin_served (evs ++ evs') lp.
Proof.
  intros (pre & i & t & post & -> & Ht & Ha). exists (evs ++ pre), i, t, post.
  rewrite loop_run_app. by rewrite <-(assoc_L (++)).
Qed.

(** One step changes the trusted state only by serving an administrator. *)
Lemma step_daemon ev lp :
  sv_daemon (lp_server (loop_step ev lp)) ≠ sv_daemon (lp_server lp) →
  ∃ i t, ev = EvRun i ∧ lp_tasks lp !! i = Some t ∧ admin_conn (ts_admin_env t) (ts_conn t).
Proof.
  unfold DaemonLoop.loop_step. destruct (lp_stopped lp); [done|].
  destruct ev as [c env aenv|k|i|t|w| |]; try done. destruct (lp_tasks lp !! i) as [t|] eqn:Et; [|done].
  destruct (serve_task t (lp_server lp)) as [s r] eqn:Es. cbn [lp_server]. intros Hd. exists i, t. split; [done|]. split; [done|].
  eapply conn_administered; [exact Es|]. unfold administered. congruence.
Qed.

Lemma run_daemon evs lp :
  sv_daemon (lp_server (loop_run evs lp)) = sv_daemon (lp_server lp) ∨ admin_served evs lp.
Proof.
  revert lp. induction evs as [|ev evs IH]; intros lp; [by left|]. rewrite loop_run_cons.
  destruct (IH (loop_step ev lp)) as [E|Ha]; [|right; by apply admin_served_cons].
  rewrite E. destruct (decide (sv_daemon (lp_server (loop_step ev lp)) = sv_daemon (lp_server lp))) as [|Hn]; [by left|].
  right. destruct (step_daemon ev lp Hn) as (i & t & -> & Ht & Ha). by exists [], i, t, evs.
Qed.

(** ** Where a snapshot comes from *)

Lemma step_task ev lp i t :
  lp_tasks (loop_step ev lp) !! i = Some t →
  lp_tasks lp !! i = Some t ∨
  ev = EvAccept (ts_conn t) (ts_env t) (ts_admin_env t) ∧ ts_snapshot t = sv_daemon (lp_server lp).
Proof.
  unfold DaemonLoop.loop_step. destruct (lp_stopped lp); [by left|].
  destruct ev as [c env aenv|k|j|tm|w| |]; cbn [lp_tasks set_server]; try by left.
  - rewrite lookup_insert_Some. intros [[_ <-]|[_ ?]]; [by right|by left].
  - destruct (lp_tasks lp !! j) as [u|] eqn:Eu; [|by left].
    destruct (serve_task u (lp_server lp)) as [s r]. cbn [lp_tasks]. rewrite lookup_delete_Some. intros [_ ?]. by left.
Qed.

Lemma accept_daemon c env aenv lp : sv_daemon (lp_server (loop_step (EvAccept c env aenv) lp)) = sv_daemon (lp_server lp).
Proof. unfold DaemonLoop.loop_step. by destruct (lp_stopped lp). Qed.

(** A waiting task was accepted in the run, with the state of that moment. *)
Lemma task_accepted evs lp i t :
  lp_tasks lp = ∅ → lp_tasks (loop_run evs lp) !! i = Some t →
  ∃ pre post, let accepted := pre ++ [EvAccept (ts_conn t) (ts_env t) (ts_admin_env t)] in
    evs = accepted ++ post ∧ ts_snapshot t = sv_daemon (lp_server (loop_run accepted lp)).
Proof.
  intros H0. induction evs as [|ev evs IH] using rev_ind.
  - cbn. by rewrite H0, lookup_empty.
  - rewrite loop_run_app. cbn. intros [Ht|[-> Hs]]%step_task.
    + destruct (IH Ht) as (pre & post & -> & Hs). exists pre, (post ++ [ev]). by rewrite <-!(assoc_L (++)).
    + exists evs, []. rewrite app_nil_r, loop_run_app. split; [done|]. cbn. by rewrite accept_daemon.
Qed.

(** The end of the loop ends the tasks. *)
Lemma run_stopped evs lp :
  (lp_stopped lp = true → lp_tasks lp = ∅) → lp_stopped (loop_run evs lp) = true → lp_tasks (loop_run evs lp) = ∅.
Proof.
  revert lp. induction evs as [|ev evs IH]; intros lp H0; [done|]. rewrite loop_run_cons. apply IH.
  unfold DaemonLoop.loop_step. destruct (lp_stopped lp) eqn:Es; [by rewrite Es|].
  destruct ev as [| |i| | | |]; cbn; try congruence.
  destruct (lp_tasks lp !! i) as [t|]; [|congruence]. by destruct (serve_task t (lp_server lp)).
Qed.

(** The request a task of the PAM module carries. *)
Definition pam_task (t : Task) (req : PamAuthenticateRequest) (c1 : Conn) : Prop :=
  ∃ cred data, cn_cred (ts_conn t) = Some cred ∧ read_framed (ts_conn t) = Ok (data, c1) ∧ data ≠ [] ∧
    decode data = Some (mkIpcEnvelope (Some (MsgPamAuthenticate req))).

Lemma serve_pam_task t req c1 s :
  pam_task t req c1 →
  serve_task t s = let '(s', r) := handle_pam_authenticate fb show_auth rnd (ts_env t) req (ts_snapshot t) s in
                   (s', (λ resp, write_response (envelope_pam_response resp) c1) <$> r).
Proof.
  intros ([pid uid] & data & Hc & Hf & Hne & Hd). unfold DaemonLoop.serve_task, handle_conn.
  rewrite Hc, Hf, Hd. by rewrite decide_False.
Qed.

(** ** Claims *)

(** C9: Over a whole run only administrators change what the daemon trusts.  Whatever
    connections are accepted, in whatever order and against whatever snapshots they are
    served, with timers, failing accepts and anything else happening in between: when the
    keys, paired servers or settings in the daemon's memory are different, a task was
    served whose first frame was an administrative request, and the process and user the
    kernel names for that connection may administer. *)
Theorem loop_only_admins evs lp :
  sv_daemon (lp_server (loop_run evs lp)) ≠ sv_daemon (lp_server lp) → admin_served evs lp.
Proof. intros Hd. by destruct (run_daemon evs lp). Qed.

(** C10: A success is by the pairings in force.  In a run of the daemon from its start, a
    session that answers SUCCESS was granted, for the fresh challenge it drew and in a
    packet that reached it before its deadline, by a server paired in the daemon's state of
    the moment the connection was accepted; that is still the state when the session runs,
    unless an administrator was served in between; and the answer is what the task writes
    to its connection. *)
Theorem loop_success_current evs lp0 i t req c1 resp :
  lp_tasks lp0 = ∅ → lp_stopped lp0 = false →
  let lp := loop_run evs lp0 in
  let world := sw_world (sv_session (lp_server lp)) in
  let challenge := take 32 (w_entropy world) in
  let deadline := w_clock world + par_timeout_seconds req * 1000 in
  lp_tasks lp !! i = Some t → pam_task t req c1 →
  (handle_pam_authenticate fb show_auth rnd (ts_env t) req (ts_snapshot t) (lp_server lp)).2 = Some resp →
  resp_outcome resp = OUTCOME_SUCCESS →
  (∃ csk, ds_csk (ts_snapshot t) = Some csk ∧
     granted (received (ts_env t) deadline) csk challenge (ds_paired_servers (ts_snapshot t))) ∧
  (∃ pre post, let accepted := pre ++ [EvAccept (ts_conn t) (ts_env t) (ts_admin_env t)] in
    evs = accepted ++ post ∧ ts_snapshot t = sv_daemon (lp_server (loop_run accepted lp0)) ∧
    (sv_daemon (lp_server lp) = ts_snapshot t ∨ admin_served post (loop_run accepted lp0))) ∧
  lp_done (loop_run (evs ++ [EvRun i]) lp0)
  = lp_done lp ++ [(i, Some (write_response (envelope_pam_response resp) c1))].
Proof.
  intros H0 Hs0 lp world challenge deadline Ht Hp Hans Ho.
  destruct (handle_pam_authenticate fb show_auth rnd (ts_env t) req (ts_snapshot t) (lp_server lp)) as [s1 r] eqn:E.
  simpl in Hans. subst r. split; [|split].
  - destruct (pam_authenticate_granted fb show_auth rnd _ _ _ _ _ _ E Ho) as (csk & Hc & _ & _ & Hg).
    by exists csk.
  - destruct (task_accepted evs lp0 i t H0 Ht) as (pre & post & Hevs & Hsnap). exists pre, post. split; [done|]. split; [done|].
    rewrite Hsnap. unfold lp. rewrite Hevs at 1. rewrite loop_run_app. apply run_daemon.
  - rewrite loop_run_app. cbn. fold lp. unfold DaemonLoop.loop_step at 1. destruct (lp_stopped lp) eqn:Es.
    { unfold lp in Ht, Es. rewrite run_stopped, lookup_empty in Ht; [done|congruence|done]. }
    rewrite Ht. by rewrite (serve_pam_task _ _ _ _ Hp), E.
Qed.
End loop.

(** ** Starting *)

Section start.
Context `{C : CryptoOps} `{T : Toml} `{TT : TpmTools}.
Context `{JC : !Json ClientConfig} `{JS : !Json (gmap string PairedServer)}.
Context (ft : bool) (show_config : ConfigError → string).

Lemma start_steps env w w' sd :
  daemon_start ft false show_config env w = (w', Ok sd) →
  ∃ w0 d port, daemon_new ft show_config w0 = (w', Ok d) ∧ st_adopt env = None ∧
    (create_multicast_socket port (st_kernel env)).2 = Ok () ∧
    adopt_systemd_socket (st_listen_fds env) (st_listen_pid env) (st_pid env) = true ∧
    let ids := (drop_privileges_to_tapauthd (st_tapauthd env) (st_setgid env) (st_setuid env) (st_ids env)).1 in
    sd = mkStarted (mkLoop (new_server d (set_euid ids.1 w')) ∅ 0 [] false) true ids.
Proof.
  unfold daemon_start, listener. unfold mbind, M_bind. destruct (tapauth_config_load w) as [w0 [cfg|]]; [|done].
  destruct ((create_multicast_socket (udp_port cfg) (st_kernel env)).2) eqn:Eu; [|done]. cbn. unfold mapM_err.
  destruct (daemon_new ft show_config w0) as [w1 [d|e]] eqn:Ed; [|done].
  destruct (adopt_systemd_socket _ _ _) eqn:Ea; [|done]. destruct (st_adopt env); [done|].
  destruct (drop_privileges_to_tapauthd _ _ _ _) as [ids r]. intros Hr. munfold. simplify_eq/=.
  destruct a. by exists w0, d, (udp_port cfg).
Qed.

(** C30: A production build serves only on a socket that systemd passed to this very process,
    with the state it loaded, no connection and no pairing.  It serves as the tapauthd user
    when that user exists and the kernel grants both [setgid] and [setuid]; otherwise it
    serves as the user it was started by, root included, and only logs a warning. *)
Theorem start_production env w w' sd :
  daemon_start ft false show_config env w = (w', Ok sd) →
  sd_systemd sd = true ∧ st_adopt env = None ∧ (∃ port, (create_multicast_socket port (st_kernel env)).2 = Ok ()) ∧
  (∃ n, st_listen_fds env = Some n ∧ 0 < n ∧ default 0 (st_listen_pid env) = st_pid env) ∧
  (∃ w1, daemon_new ft show_config w1 = (w', Ok (sv_daemon (lp_server (sd_loop sd))))) ∧
  lp_tasks (sd_loop sd) = ∅ ∧ lp_stopped (sd_loop sd) = false ∧ sv_pairing (lp_server (sd_loop sd)) = None ∧
  w_euid (sw_world (sv_session (lp_server (sd_loop sd)))) = (sd_ids sd).1 ∧
  (sd_ids sd).1 = match st_tapauthd env with
                  | Some (u, _) => if st_setgid env && st_setuid env then u else (st_ids env).1
                  | None => (st_ids env).1
                  end.
Proof.
  intros (w0 & d & port & Ed & Hk & Hsock & Ea & ->)%start_steps.
  split_and!; try done; [by exists port|..].
  - unfold adopt_systemd_socket in Ea. destruct (st_listen_fds env) as [n|]; [|done]. case_decide; [|done].
    apply andb_true_iff in Ea as [Ea%bool_decide_eq_true _]. by exists n.
  - by exists w0.
  - cbn [sd_ids]. unfold drop_privileges_to_tapauthd. destruct (st_tapauthd env) as [[u g]|]; [|done].
    destruct (st_ids env) as [eu gid]. case_decide as Hu; [subst; by destruct (_ && _)|].
    by destruct (st_setgid env), (st_setuid env).
Qed.

(** Without systemd's socket a production build does not serve. *)
Theorem start_needs_systemd env w :
  adopt_systemd_socket (st_listen_fds env) (st_listen_pid env) (st_pid env) = false →
  ∃ w' e, daemon_start ft false show_config env w = (w', Err e).
Proof.
  intros Ha. destruct (daemon_start ft false show_config env w) as [w' [sd|e]] eqn:E; [|by eauto].
  apply start_steps in E as (_ & _ & _ & _ & _ & _ & Ha' & _). congruence.
Qed.

(** When the tapauthd user does not exist, the daemon started as root serves as root. *)
Theorem start_keeps_root env w w' sd :
  st_tapauthd env = None → daemon_start ft false show_config env w = (w', Ok sd) → sd_ids sd = st_ids env.
Proof.
  intros Hn (w0 & d & port & _ & _ & _ & _ & ->)%start_steps. by rewrite Hn.
Qed.
End start.

(** ** A concrete run *)

Definition pam_conn : Conn := conn_of (Some (7, 0)) (ipc_frame (mkIpcEnvelope (Some (MsgPamAuthenticate ann_request)))) true.
Definition remove_conn : Conn :=
  conn_of (Some (42, 1000))
    (ipc_frame (mkIpcEnvelope (Some (MsgAdminRequest (mkAdminRequest (Some (AdmRemoveDevice toy_phone_key))))))) true.
Definition toy_loop (d : DaemonState) : Loop :=
  mkLoop (mkServer d (mkSessionWorld (set_clock 5000 (set_entropy (toy_challenge ++ rep 64 7) shared_world)) ∅ 0 [])
            ∅ None 0) ∅ 0 [] false.
(** What the store of [shared_world] holds. *)
Definition shared_daemon : DaemonState :=
  mkDaemonState new_manager {[toy_phone_key := server_of toy_phone ["ann"%string; "bob"%string]]}
    (ds_keypair toy_daemon) (ds_csk toy_daemon) "laptop" None.
Definition toy_loop_run := loop_run true true no_text "" no_text no_text no_text no_text no_text.
Definition accept_pam : LoopEvent := EvAccept pam_conn granting_env toy_admin_env.
Definition accept_remove : LoopEvent := EvAccept remove_conn granting_env toy_admin_env.

(** The answer of a served connection. *)
Definition answer_of_task (r : option (result DaemonError Conn)) : option Z :=
  match r with
  | Some (Ok c) => resp ← (env ← decode (drop 4 (cn_out c)); match env_msg env with Some (MsgPamResponse r) => Some r | _ => None end);
                   Some (resp_outcome resp)
  | _ => None
  end.

(** A connection accepted before a removal is served with the pairings from before it.
    The request of ann is accepted, then she removes her phone, which the daemon and the
    store no longer pair with her; her waiting request still runs and succeeds with it.
    Accepted after the removal, the same request is ignored. *)
Theorem removal_misses_accepted :
  let before := toy_loop_run [accept_pam; accept_remove; EvRun 1; EvRun 0] (toy_loop shared_daemon) in
  let after := toy_loop_run [accept_remove; EvRun 0; accept_pam; EvRun 1] (toy_loop shared_daemon) in
  map_to_list (allowed_users <$> ds_paired_servers (sv_daemon (lp_server before))) = [(toy_phone_key, ["bob"%string])] ∧
  (answer_of_task <$> (lp_done before).*2) = [None; Some OUTCOME_SUCCESS] ∧
  (answer_of_task <$> (lp_done after).*2) = [None; Some OUTCOME_IGNORE].
Proof. split_and!; vm_compute; exact eq_refl. Qed.

(** The same run changes the daemon's state, so an administrator was served. *)
Lemma loop_only_admins_witness :
  admin_served true true no_text "" no_text no_text no_text no_text no_text
    [accept_pam; accept_remove; EvRun 1; EvRun 0] (toy_loop shared_daemon).
Proof.
  apply (loop_only_admins true true no_text "" no_text no_text no_text no_text no_text
    [accept_pam; accept_remove; EvRun 1; EvRun 0] (toy_loop shared_daemon)).
  intros E%(f_equal (λ d, map_to_list (allowed_users <$> ds_paired_servers d))). revert E. vm_compute. discriminate.
Defined.

Lemma loop_success_current_witness : granted (received granting_env 35000) toy_csk toy_challenge toy_servers.
Proof.
  pose (t := mkTask pam_conn toy_daemon granting_env toy_admin_env).
  pose (s0 := lp_server (toy_loop_run [accept_pam] (toy_loop toy_daemon))).
  assert (Hrun : resp_outcome <$> (handle_pam_authenticate true no_text "" granting_env ann_request toy_daemon s0).2
    = Some OUTCOME_SUCCESS) by (vm_compute; exact eq_refl).
  destruct (handle_pam_authenticate true no_text "" granting_env ann_request toy_daemon s0).2 as [resp|] eqn:E; [|done].
  injection Hrun as Ho.
  destruct (read_framed pam_conn) as [[data c1]|] eqn:Ef; [|by vm_compute in Ef].
  destruct (loop_success_current true true no_text "" no_text no_text no_text no_text no_text
    [accept_pam] (toy_loop toy_daemon) 0 t ann_request c1 resp eq_refl eq_refl eq_refl) as [(csk & Hc & Hg) _].
  - exists (7, 0), data. split; [exact eq_refl|]. split; [exact Ef|].
    vm_compute in Ef. injection Ef as <- _. split; [discriminate|vm_compute; exact eq_refl].
  - exact E.
  - exact Ho.
  - injection Hc as <-. exact Hg.
Defined.

Definition systemd_start : StartEnv :=
  mkStartEnv (mkKernel [] []) (Some 1) (Some 4711) 4711 None None None (Some (990, 990)) (0, 0) true true.

Lemma start_production_witness :
  ∃ w' sd, daemon_start true false no_text systemd_start shared_world = (w', Ok sd) ∧ (sd_ids sd).1 = 990.
Proof.
  assert (Hok : is_ok (daemon_start true false no_text systemd_start shared_world).2 = true) by (vm_compute; exact eq_refl).
  destruct (daemon_start true false no_text systemd_start shared_world) as [w' [sd|e]] eqn:E; [|done].
  exists w', sd. split; [exact eq_refl|].
  destruct (start_production true no_text systemd_start shared_world w' sd E) as (_ & _ & _ & _ & _ & _ & _ & _ & _ & Hu).
  exact Hu.
Defined.
