(* ===== verification/Locale.v ===== *)
(** * Languages and texts: [shared/src/l10n.rs], [client-config-gui/src/l10n.rs] and
    [client-pam/src/pam_messages.rs]

    Which language a user gets, how the choice is kept in the user's home directory,
    and how a text is looked up.  The tables the build generates and the Fluent library
    are the class [Fluent]. *)

From stdpp Require Import base gmap strings list.
From Stdlib Require Import Strings.Ascii Strings.Byte.
From S2P Require Import Prelude Os Text Crypto PairingUrl.

(** ** Detection from the environment: [shared/src/l10n.rs] *)

(** [s.to_ascii_lowercase().replace('_', "-")] *)
Definition norm_char (c : ascii) : ascii := if decide (c = "_"%char) then "-"%char else c.
Definition normalize (s : string) : list ascii := norm_char <$> chars (to_ascii_lowercase s).

(** [strip_prefix(lang).is_some_and(|rest| rest.starts_with(['-', '.', '@']))] *)
Definition prefix_matches (val_norm : list ascii) (lang : string) : bool :=
  match strip_prefix (normalize lang) val_norm with
  | Some (c :: _) => bool_decide (c ∈ ["-"%char; "."%char; "@"%char])
  | _ => false
  end.

(** Pass 1: the first language that is the value. *)
Definition exact_match (val_norm : list ascii) (available : list string) : option string :=
  snd <$> list_find (λ lang, val_norm = normalize lang) available.

(** Pass 2: the longest language the value starts with. *)
Definition better (val_norm : list ascii) (best : option string) (lang : string) : option string :=
  if prefix_matches val_norm lang &&
     match best with None => true | Some b => bool_decide (String.length b < String.length lang)%nat end
  then Some lang else best.
Definition best_match (val_norm : list ascii) (available : list string) : option string :=
  foldl (better val_norm) None available.

Definition match_value (available : list string) (val : string) : option string :=
  let val_norm := normalize val in
  match exact_match val_norm available with
  | Some lang => Some lang
  | None => best_match val_norm available
  end.

Fixpoint detect_from (available : list string) (vars : list (option string)) : string :=
  match vars with
  | [] => "en"
  | var :: vars' =>
      match var ≫= match_value available with
      | Some lang => lang
      | None => detect_from available vars'
      end
  end.

(** [var] is [std::env::var], without its error. *)
Definition detect_locale (var : string → option string) (available : list string) : string :=
  detect_from available (var <$> ["LC_ALL"; "LC_MESSAGES"; "LANG"]%string).

(** ** Reading text from a file *)

Definition in_range (lo hi : Z) (b : byte) : bool := bool_decide (lo ≤ Z_of_byte b ≤ hi).
Definition is_cont : byte → bool := in_range 128 191.

(** The second byte of a character of three or four bytes. *)
Definition second3 (a : byte) : byte → bool :=
  if decide (Z_of_byte a = 224) then in_range 160 191
  else if decide (Z_of_byte a = 237) then in_range 128 159 else is_cont.
Definition second4 (a : byte) : byte → bool :=
  if decide (Z_of_byte a = 240) then in_range 144 191
  else if decide (Z_of_byte a = 244) then in_range 128 143 else is_cont.

(** [read_to_string]: the characters of a UTF-8 text. *)
Fixpoint utf8_chars (l : bytes) : option (list bytes) :=
  match l with
  | [] => Some []
  | a :: l1 =>
      if in_range 0 127 a then cons [a] <$> utf8_chars l1 else
      match l1 with
      | b :: l2 =>
          if in_range 194 223 a && is_cont b then cons [a; b] <$> utf8_chars l2 else
          match l2 with
          | c :: l3 =>
              if in_range 224 239 a && second3 a b && is_cont c then cons [a; b; c] <$> utf8_chars l3 else
              match l3 with
              | d :: l4 =>
                  if in_range 240 244 a && second4 a b && is_cont c && is_cont d
                  then cons [a; b; c; d] <$> utf8_chars l4 else None
              | [] => None
              end
          | [] => None
          end
      | [] => None
      end
  end.

(** [char::is_whitespace] of a character given by its bytes. *)
Definition white (c : bytes) : bool :=
  match Z_of_byte <$> c with
  | [a] => bool_decide (9 ≤ a ≤ 13 ∨ a = 32)
  | [a; b] => bool_decide (a = 194 ∧ (b = 133 ∨ b = 160))
  | [a; b; c] => bool_decide (a = 225 ∧ b = 154 ∧ c = 128 ∨ a = 227 ∧ b = 128 ∧ c = 128 ∨ a = 226 ∧ b = 129 ∧ c = 159 ∨
                              a = 226 ∧ b = 128 ∧ (128 ≤ c ≤ 138 ∨ c = 168 ∨ c = 169 ∨ c = 175))
  | _ => false
  end.

Fixpoint drop_white (l : list bytes) : list bytes :=
  match l with
  | c :: l' => if white c then drop_white l' else l
  | [] => []
  end.
(** [str::trim] *)
Definition trim_chars (l : list bytes) : list bytes := reverse (drop_white (reverse (drop_white l))).

(** ** The preference in the home directory *)

(** What is at a path: a file, a symbolic link, or something else. *)
Inductive Node :=
| Regular (data : bytes) (readable : bool)
| Symlink (target : string)
| Special.

(** The user's side of the system: files, home directories, the environment. *)
Record UserEnv := mkUserEnv {
  ue_files : gmap string Node;
  ue_home : string → option string;     (* [User::from_name(..).dir] *)
  ue_var : string → option string;
  ue_write_ok : bool;                   (* whether a write goes through *)
}.
Definition set_files (f : gmap string Node) (u : UserEnv) : UserEnv :=
  mkUserEnv f (ue_home u) (ue_var u) (ue_write_ok u).

Definition user_locale_path (u : UserEnv) (username : string) : option string :=
  (λ home, join home ".config/tapauth/locale") <$> ue_home u username.

(** [fs::write]; it follows a link, here one link. *)
Definition put_text (path : string) (data : bytes) (f : gmap string Node) : gmap string Node :=
  match f !! path with
  | Some Special => f
  | Some (Symlink t) => match f !! t with
                        | Some (Regular _ r) => <[t := Regular data r]> f
                        | None => <[t := Regular data true]> f
                        | Some _ => f
                        end
  | Some (Regular _ r) => <[path := Regular data r]> f
  | None => <[path := Regular data true]> f
  end.

Definition save_user_locale (username locale : string) (u : UserEnv) : UserEnv :=
  match user_locale_path u username with
  | None => u
  | Some path => if ue_write_ok u then set_files (put_text path (bytes_of_string locale) (ue_files u)) u else u
  end.

(** Opened without following a link; only a regular file is read, its first 16 bytes. *)
Definition load_user_locale (available : list string) (u : UserEnv) (username : string) : option string :=
  path ← user_locale_path u username;
  match ue_files u !! path with
  | Some (Regular data true) =>
      s ← utf8_chars (take 16 data);
      let s := String.string_of_list_byte (concat (trim_chars s)) in
      if decide (s ∈ available) then Some s else None
  | _ => None
  end.

(** ** The language of the configuration tool and of the PAM module *)

Definition resolve_locale (available : list string) (cli_override : option string) (u : UserEnv) (username : string)
    : string :=
  match (loc ← cli_override; if decide (loc ∈ available) then Some loc else None) with
  | Some loc => loc
  | None => default (detect_locale (ue_var u) available) (load_user_locale available u username)
  end.

(** The PAM module has no override. *)
Definition pam_resolve_locale (available : list string) (u : UserEnv) (username : string) : string :=
  default (detect_locale (ue_var u) available) (load_user_locale available u username).

(** ** Texts *)

(** The type of an argument is guessed from its text. *)
Inductive FluentValue :=
| FInt (n : Z)
| FFloat (s : string)
| FText (s : string).

Class Fluent := {
  Bundle : Type;
  make_bundle : string → string → Bundle;        (* resource text, language *)
  is_language : string → bool;                   (* [LanguageIdentifier::from_str] *)
  (** the value of a message, with arguments filled in; [None] when there is none *)
  format_message : Bundle → string → list (string * FluentValue) → option string;
  is_f64 : string → bool;                        (* [str::parse::<f64>] succeeds *)
}.

(** What the build of a crate generates from its [locales] directory. *)
Record Tables := mkTables {
  AVAILABLE_LOCALES : list string;
  locale_display_name : string → string;
  load_ftl : string → option string;
  en_ftl : string;
}.

(** [str::parse::<i64>] *)
Definition parse_i64 (l : list ascii) : option Z :=
  match l with
  | "-"%char :: l' =>
      match l' with
      | [] => None
      | _ => v ← dec_value 0 l'; if decide (v ≤ 2 ^ 63)%N then Some (- Z.of_N v) else None
      end
  | _ => Z.of_N <$> parse_uint 63 l
  end.

Definition missing_text (key : string) : string := ("??" +:+ key +:+ "??")%string.

Section texts.
Context `{F : Fluent}.

Record L10n := mkL10n { locale : string; bundle : Bundle }.

Definition l10n_new (t : Tables) (loc : string) : L10n :=
  let ftl_str := default (en_ftl t) (load_ftl t loc) in
  let lang_id := if is_language loc then loc else "en"%string in
  mkL10n loc (make_bundle ftl_str lang_id).

Definition tr (l : L10n) (key : string) : string :=
  default (missing_text key) (format_message (bundle l) key []).

Definition fluent_arg (v : string) : FluentValue :=
  match parse_i64 (chars v) with
  | Some n => FInt n
  | None => if is_f64 v then FFloat v else FText v
  end.

Definition tr_args (l : L10n) (key : string) (args : list (string * string)) : string :=
  default (missing_text key) (format_message (bundle l) key (prod_map id fluent_arg <$> args)).

(** *** The PAM module's texts *)

Record PamMessages := mkPamMessages {
  waiting_for_tap_skip : string;
  waiting_for_tap : string;
  waiting_for_tap_password : string;
  cannot_connect : string;
  communication_error : string;
  connection_lost : string;
  timed_out : string;
  skipped : string;
  auth_successful : string;
  auth_denied : string;
  error_prefix : string;
}.

Definition pam_tr (b : Bundle) (fallback : option Bundle) (key : string) : string :=
  match format_message b key [] with
  | Some v => v
  | None => default (missing_text key) (fb ← fallback; format_message fb key [])
  end.

(** [default_lang] is [LanguageIdentifier::default]. *)
Definition pam_messages_new (default_lang : string) (t : Tables) (loc : string) : PamMessages :=
  let en_bundle := make_bundle (en_ftl t) (if is_language "en" then "en"%string else default_lang) in
  let '(b, fallback) :=
    if decide (loc = "en"%string) then (en_bundle, None) else
    match load_ftl t loc with
    | Some ftl => (make_bundle ftl (if is_language loc then loc else default_lang), Some en_bundle)
    | None => (en_bundle, None)
    end in
  let tr_val := pam_tr b fallback in
  {| waiting_for_tap_skip := tr_val "pam-waiting-tap-skip";
     waiting_for_tap := tr_val "pam-waiting-tap";
     waiting_for_tap_password := tr_val "pam-waiting-tap-password";
     cannot_connect := tr_val "pam-cannot-connect";
     communication_error := tr_val "pam-communication-error";
     connection_lost := tr_val "pam-connection-lost";
     timed_out := tr_val "pam-timed-out";
     skipped := tr_val "pam-skipped";
     auth_successful := tr_val "pam-auth-successful";
     auth_denied := tr_val "pam-auth-denied";
     error_prefix := tr_val "pam-error-prefix" |}.

Definition pam_error (m : PamMessages) (detail : string) : string := (error_prefix m +:+ " " +:+ detail)%string.

Definition load_for_user (default_lang : string) (t : Tables) (u : UserEnv) (username : string) : PamMessages :=
  pam_messages_new default_lang t (pam_resolve_locale (AVAILABLE_LOCALES t) u username).
End texts.
