(* ===== verification/LocaleTheorems.v ===== *)
(** * Theorems about languages

    The detected language is the best supported one of the first variable that names a
    supported language; a choice that was saved is found again, by the configuration
    tool and by the PAM module; nothing unsupported comes out of a file. *)

From stdpp Require Import base gmap strings list.
From Stdlib Require Import Strings.Ascii Strings.Byte.
From S2P Require Import Prelude Os Text Crypto PairingUrl Locale.

(** ** Detection *)

(** [lang] is what a value asks for: equal to it, or the longest prefix of it. *)
Definition exactly (val lang : string) : Prop := normalize val = normalize lang.
Definition chosen (available : list string) (val lang : string) : Prop :=
  lang ∈ available ∧
  (exactly val lang ∨
   (∀ l, l ∈ available → ¬ exactly val l) ∧ prefix_matches (normalize val) lang = true ∧
   ∀ l, l ∈ available → prefix_matches (normalize val) l = true → (String.length l ≤ String.length lang)%nat).
(** Nothing that is supported matches. *)
Definition foreign (available : list string) (val : string) : Prop :=
  ∀ l, l ∈ available → ¬ exactly val l ∧ prefix_matches (normalize val) l = false.

Lemma better_spec v best l :
  better v best l = Some l ∧ prefix_matches v l = true ∧
    (∀ b, best = Some b → String.length b < String.length l)%nat ∨
  better v best l = best ∧ (prefix_matches v l = true → ∃ b, best = Some b ∧ String.length l ≤ String.length b)%nat.
Proof.
  unfold better. destruct (prefix_matches v l); simpl; [|by right].
  destruct best as [b|]; [|by left].
  case_bool_decide; [left|right].
  - split_and!; [done..|]. by intros ? [= <-].
  - split; [done|]. intros _. exists b. split; [done|lia].
Qed.

Lemma best_match_from v available best :
  (∀ b, best = Some b → prefix_matches v b = true) →
  match foldl (better v) best available with
  | Some r => (r ∈ available ∨ best = Some r) ∧ prefix_matches v r = true ∧
      (∀ b, best = Some b → String.length b ≤ String.length r)%nat ∧
      ∀ l, l ∈ available → prefix_matches v l = true → (String.length l ≤ String.length r)%nat
  | None => best = None ∧ ∀ l, l ∈ available → prefix_matches v l = false
  end.
Proof.
  revert best. induction available as [|l available IH]; intros best Hb; cbn [foldl].
  - destruct best as [b|]; [|split; [done|set_solver]].
    split_and!; [by right|by apply Hb|by intros ? [= <-]|set_solver].
  - destruct (better_spec v best l) as [(E & Hl & Hlt)|(E & Hnot)]; rewrite E.
    + specialize (IH (Some l)). destruct (foldl _ _ _) as [r|]; [|naive_solver].
      destruct IH as (Hin & Hr & Hge & Hmax); [by intros ? [= <-]|]. split_and!; [|done| |].
      * left. destruct Hin as [?|[= ->]]; set_solver.
      * intros b Hbb. specialize (Hlt b Hbb). specialize (Hge l eq_refl). lia.
      * intros l' [->|?]%elem_of_cons ?; [by apply Hge|by apply Hmax].
    + specialize (IH best Hb). destruct (foldl _ _ _) as [r|].
      * destruct IH as (Hin & Hr & Hge & Hmax). split_and!; [set_solver|done|done|].
        intros l' [->|?]%elem_of_cons Hp; [|by apply Hmax].
        destruct (Hnot Hp) as (b & Hbb & Hle). specialize (Hge b Hbb). lia.
      * destruct IH as [-> Hno]. split; [done|]. intros l' [->|?]%elem_of_cons; [|by apply Hno].
        destruct (prefix_matches v l) eqn:Hp; [|done]. by destruct Hnot as (? & ? & _).
Qed.

Lemma match_value_spec available val :
  match match_value available val with
  | Some lang => chosen available val lang
  | None => foreign available val
  end.
Proof.
  unfold match_value, exact_match. destruct (list_find _ _) as [[i lang]|] eqn:E; simpl.
  - apply list_find_Some in E as (Hi & Heq & _). split; [by eapply list_elem_of_lookup_2|by left].
  - apply list_find_None in E. rewrite Forall_forall in E.
    pose proof (best_match_from (normalize val) available None) as Hb. unfold best_match.
    destruct (foldl _ _ _) as [r|].
    + destruct Hb as ([Hin|?] & Hp & _ & Hmax); [done| |done]. split; [done|]. right.
      split_and!; [|done..]. intros l Hl. by apply E.
    + destruct Hb as [_ Hno]; [done|]. intros l Hl. split; [by apply E|by apply Hno].
Qed.

Lemma detect_from_spec available vars :
  (∃ before v after, vars = before ++ Some v :: after ∧
     (∀ u, Some u ∈ before → foreign available u) ∧ chosen available v (detect_from available vars)) ∨
  (∀ u, Some u ∈ vars → foreign available u) ∧ detect_from available vars = "en"%string.
Proof.
  induction vars as [|var vars IH]; simpl; [right; split; [set_solver|done]|].
  destruct var as [v|]; simpl.
  - pose proof (match_value_spec available v) as Hv. destruct (match_value available v) as [lang|].
    + left. exists [], v, vars. split_and!; [done|set_solver|done].
    + destruct IH as [(b & w & a & -> & Hb & Hw)|[Hall He]]; [left|right].
      * exists (Some v :: b), w, a. split_and!; [done| |done]. intros u [[= ->]|?]%elem_of_cons; [done|by apply Hb].
      * split; [|done]. intros u [[= ->]|?]%elem_of_cons; [done|by apply Hall].
  - destruct IH as [(b & w & a & -> & Hb & Hw)|[Hall He]]; [left|right].
    + exists (None :: b), w, a. split_and!; [done| |done]. intros u [?|?]%elem_of_cons; [done|by apply Hb].
    + split; [|done]. intros u [?|?]%elem_of_cons; [done|by apply Hall].
Qed.

(** ** The preference *)

Lemma load_user_locale_supported available u username loc :
  load_user_locale available u username = Some loc → loc ∈ available.
Proof.
  unfold load_user_locale. intros H. destruct (user_locale_path u username); [|done]. simpl in H.
  destruct (ue_files u !! _) as [[data []| |]|]; try done. destruct (utf8_chars _); [|done]. simpl in H.
  by case_decide; simplify_eq.
Qed.

(** Plain text: ASCII characters that are not white space. *)
Definition plain_byte (b : byte) : Prop := 33 ≤ Z_of_byte b ≤ 126.

Lemma plain_utf8 l : Forall plain_byte l → utf8_chars l = Some ((λ b, [b]) <$> l).
Proof.
  induction 1 as [|b l Hb _ IH]; [done|]. cbn [utf8_chars fmap list_fmap].
  unfold in_range at 1. rewrite bool_decide_eq_true_2 by (unfold plain_byte in Hb; lia). by rewrite IH.
Qed.

Lemma plain_not_white b : plain_byte b → white [b] = false.
Proof. unfold plain_byte, white. cbn. intros H. apply bool_decide_eq_false. lia. Qed.

Lemma drop_white_plain l : Forall plain_byte l → drop_white ((λ b, [b]) <$> l) = (λ b, [b]) <$> l.
Proof. intros [|b k Hb _]; [done|]. cbn [fmap list_fmap drop_white]. by rewrite plain_not_white. Qed.

Lemma trim_chars_plain l : Forall plain_byte l → trim_chars ((λ b, [b]) <$> l) = (λ b, [b]) <$> l.
Proof.
  intros H. unfold trim_chars. rewrite drop_white_plain by done. rewrite <-fmap_reverse.
  rewrite drop_white_plain by (by apply Forall_reverse). by rewrite <-fmap_reverse, reverse_involutive.
Qed.

Lemma concat_singletons {A} (l : list A) : concat ((λ b, [b]) <$> l) = l.
Proof. induction l as [|b l IH]; [done|]. cbn. by f_equal. Qed.

(** The file is the user's own and writable, or not there yet. *)
Definition usable (u : UserEnv) (path : string) : Prop :=
  ue_write_ok u = true ∧ (ue_files u !! path = None ∨ ∃ d, ue_files u !! path = Some (Regular d true)).

Lemma put_text_usable u path d : usable u path → put_text path d (ue_files u) !! path = Some (Regular d true).
Proof. unfold put_text. intros [_ [->|[? ->]]]; by rewrite lookup_insert_eq. Qed.

Lemma saved_locale_loads available u username path loc :
  user_locale_path u username = Some path → usable u path → loc ∈ available →
  Forall plain_byte (bytes_of_string loc) → (String.length loc ≤ 16)%nat →
  load_user_locale available (save_user_locale username loc u) username = Some loc.
Proof.
  intros Hp Hu Hin Hpl Hlen. unfold save_user_locale. rewrite Hp, (proj1 Hu).
  unfold load_user_locale. change (user_locale_path (set_files _ u) username) with (user_locale_path u username).
  rewrite Hp. simpl. rewrite put_text_usable by done.
  assert (Hl : length (bytes_of_string loc) = String.length loc).
  { unfold bytes_of_string. clear. induction loc as [|c loc IH]; [done|]. cbn. by f_equal. }
  rewrite take_ge by lia. rewrite plain_utf8 by done. simpl. rewrite trim_chars_plain by done.
  rewrite concat_singletons. unfold bytes_of_string. rewrite String.string_of_list_byte_of_string. by rewrite decide_True.
Qed.

(** ** Claims *)

(** Detection takes the best match.  The detected language is, for the first of
    [LC_ALL], [LC_MESSAGES] and [LANG] that names a supported language, the one equal
    to its value up to case and underscores, or else the longest one the value extends
    with a hyphen, a dot or an at sign; when no variable names one, it is English. *)
Theorem detect_locale_best available var :
  let lang := detect_locale var available in
  let vars := var <$> ["LC_ALL"; "LC_MESSAGES"; "LANG"]%string in
  (∃ before v after, vars = before ++ Some v :: after ∧
     (∀ u, Some u ∈ before → foreign available u) ∧ chosen available v lang) ∨
  (∀ u, Some u ∈ vars → foreign available u) ∧ lang = "en"%string.
Proof. apply detect_from_spec. Qed.

Lemma resolve_supported available override v username :
  let r := resolve_locale available override v username in r ∈ available ∨ r = "en"%string.
Proof.
  unfold resolve_locale. assert (Hd : let d := detect_locale (ue_var v) available in d ∈ available ∨ d = "en"%string).
  { destruct (detect_from_spec available (ue_var v <$> ["LC_ALL"; "LC_MESSAGES"; "LANG"]%string))
      as [(? & ? & ? & _ & _ & [? _])|[_ ?]]; [by left|by right]. }
  destruct override as [o|]; simpl; [case_decide; [by left|]|];
    destruct (load_user_locale available v username) eqn:E; simpl; eauto using load_user_locale_supported.
Qed.

(** A chosen language is kept.  When a user picks a supported language whose code is at
    most 16 plain characters, and the file can be written, the configuration tool and
    the PAM module use that language from then on; without a usable file, and whatever
    a file contains, both only ever use a supported language or English. *)
Theorem locale_choice_kept available u username path loc override :
  user_locale_path u username = Some path → usable u path → loc ∈ available →
  Forall plain_byte (bytes_of_string loc) → (String.length loc ≤ 16)%nat →
  let u' := save_user_locale username loc u in
  resolve_locale available None u' username = loc ∧ pam_resolve_locale available u' username = loc ∧
  ∀ v, let r := resolve_locale available override v username in r ∈ available ∨ r = "en"%string.
Proof.
  intros Hp Hu Hin Hpl Hlen u'. unfold resolve_locale, pam_resolve_locale.
  assert (Hload : load_user_locale available u' username = Some loc) by by eapply saved_locale_loads.
  simpl. rewrite Hload. split_and!; [done..|]. intros v. apply resolve_supported.
Qed.

Definition toy_user_env : UserEnv :=
  mkUserEnv {[ "/home/ann/.config/tapauth/locale"%string := Regular (bytes_of_string "ja") true ]}
    (λ n, if decide (n = "ann"%string) then Some "/home/ann"%string else None)
    (λ v, if decide (v = "LANG"%string) then Some "de_AT.UTF-8"%string else None) true.

Lemma locale_choice_kept_witness :
  resolve_locale ["de"; "en"; "ja"]%string None (save_user_locale "ann" "de" toy_user_env) "ann" = "de"%string.
Proof.
  apply (locale_choice_kept ["de"; "en"; "ja"]%string toy_user_env "ann" "/home/ann/.config/tapauth/locale" "de" None);
    [exact eq_refl|split; [exact eq_refl|right; by eexists]|set_solver|repeat constructor; unfold plain_byte; cbn; lia|cbn; lia].
Defined.
