(* ===== verification/Build.v ===== *)
(** * Build scripts and log set-up: [build.rs] and [logging.rs] of the crates

    The tables of languages that the programs embed, the flag for old versions of
    [protoc], and where the programs write their logs. *)

From stdpp Require Import base gmap strings list sorting.
From Stdlib Require Import Strings.Ascii Strings.Byte.
From S2P Require Import Prelude Os Text Crypto PairingUrl Locale LocaleTheorems.

(** ** The tables of languages *)

(** An entry of the directory [locales]: its name if that is text, and the contents of
    its [main.ftl], if it has one. *)
Record Entry := mkEntry { de_name : option string; de_is_dir : bool; de_ftl : option bytes }.

(** [str::lines] *)
Definition drop_cr (l : list ascii) : list ascii :=
  match reverse l with
  | c :: r => if decide (c = "013"%char) then reverse r else l
  | [] => l
  end.
Definition str_lines (s : string) : list (list ascii) :=
  let parts := split "010"%char (chars s) in
  drop_cr <$> (match last parts with Some [] => take (pred (length parts)) parts | _ => parts end).

Definition NAME_PREFIX : string := "# locale-name: ".

(** [str::trim], on text. *)
Definition trim_text (l : list ascii) : string :=
  let b := bytes_of_string (String.string_of_list_ascii l) in
  String.string_of_list_byte (concat (trim_chars (default [] (utf8_chars b)))).

Definition locale_display_from_ftl (ftl : option bytes) (code : string) : string :=
  match ftl ≫= (λ b, _ ← utf8_chars b; Some (String.string_of_list_byte b)) with
  | Some content =>
      match list_find (λ line, is_Some (strip_prefix (chars NAME_PREFIX) line)) (str_lines content) with
      | Some (_, line) => default code (trim_text <$> strip_prefix (chars NAME_PREFIX) line)
      | None => code
      end
  | None => code
  end.

Definition code_le (a b : string * option bytes) : Prop := String.le a.1 b.1.
#[global] Instance code_le_dec a b : Decision (code_le a b).
Proof. unfold code_le. apply _. Defined.
#[global] Instance code_le_total : Total code_le.
Proof. intros a b. unfold code_le. apply (total String.le). Qed.
#[global] Instance code_le_trans : Transitive code_le.
Proof. intros a b c. unfold code_le. apply transitivity. Qed.

(** Directories with a readable name, in order. *)
Definition scan_locales (entries : list Entry) : list (string * option bytes) :=
  merge_sort code_le
    (omap (λ e, if de_is_dir e then (λ c, (c, de_ftl e)) <$> de_name e else None) entries).

(** A text that means itself between quotes: no quote, no backslash, no carriage
    return. *)
Definition literal (s : string) : bool :=
  forallb (λ c, negb (bool_decide (c ∈ ["034"%char; "092"%char; "013"%char]))) (chars s).

(** [include_str!]: the file must be there, and text. *)
Definition include_str (ftl : option bytes) : option string :=
  b ← ftl; _ ← utf8_chars b; Some (String.string_of_list_byte b).

(** The arm of a generated [match] that fits first. *)
Definition match_arm {A} (arms : list (string * A)) (code : string) : option A :=
  (λ p, p.2.2) <$> list_find (λ a, a.1 = code) arms.

(** The arms of [load_ftl], each with what it includes; English is not among them. *)
Definition ftl_arms (locales : list (string * option bytes)) : list (string * option string) :=
  omap (λ '(c, ftl), if decide (c = "en"%string) then None else Some (c, include_str ftl)) locales.

(** What a crate with these locales embeds; [None]: it does not compile, or a name with a
    quote or an escape in it changes the meaning of the generated code. *)
Definition tables_of (locales : list (string * option bytes)) (display : string * option bytes → string) : option Tables :=
  en ← (x ← list_find (λ l, l.1 = "en"%string) locales; include_str x.2.2);
  if forallb (λ l, literal l.1 && literal (display l)) locales &&
     forallb (λ a, bool_decide (is_Some a.2)) (ftl_arms locales)
  then Some {| AVAILABLE_LOCALES := locales.*1;
               locale_display_name code := default code (match_arm ((λ l, (l.1, display l)) <$> locales) code);
               load_ftl code := match_arm (ftl_arms locales) code ≫= id;
               en_ftl := en |}
  else None.

Definition gui_build (entries : list Entry) : option Tables :=
  tables_of (scan_locales entries) (λ l, locale_display_from_ftl l.2 l.1).
(** The module shows no names of languages. *)
Definition pam_build (entries : list Entry) : option Tables := tables_of (scan_locales entries) fst.

(** *** Theorems *)

Lemma elem_of_scan entries c ftl :
  (c, ftl) ∈ scan_locales entries ↔ ∃ e, e ∈ entries ∧ de_is_dir e = true ∧ de_name e = Some c ∧ de_ftl e = ftl.
Proof.
  unfold scan_locales. rewrite merge_sort_Permutation, list_elem_of_omap. split.
  - intros ([n d f] & Hin & He). simpl in *. destruct d; [|done]. destruct n; [|done]. simplify_eq/=. by eexists.
  - intros ([n d f] & Hin & Hd & Hn & Hf). simpl in *. subst. by eexists.
Qed.

Lemma match_arm_Some {A} (arms : list (string * A)) code a : match_arm arms code = Some a → (code, a) ∈ arms.
Proof.
  unfold match_arm. destruct (list_find _ arms) as [[i [c b]]|] eqn:E; [|done]. simpl. intros [= <-].
  apply list_find_Some in E as (Hi & <- & _). by apply list_elem_of_lookup_2 in Hi.
Qed.
Lemma match_arm_is_Some {A} (arms : list (string * A)) code : is_Some (match_arm arms code) ↔ code ∈ arms.*1.
Proof.
  split.
  - intros [a Ha%match_arm_Some]. apply list_elem_of_fmap. by exists (code, a).
  - intros ([c a] & -> & Hin)%list_elem_of_fmap. unfold match_arm. simpl.
    assert (is_Some (list_find (λ x, x.1 = c) arms)) as [y Hy] by (by eapply list_find_elem_of). rewrite Hy. by eexists.
Qed.
Lemma elem_of_ftl_arms locales c : c ∈ (ftl_arms locales).*1 ↔ c ∈ locales.*1 ∧ c ≠ "en"%string.
Proof.
  unfold ftl_arms. rewrite !list_elem_of_fmap. split.
  - intros ([c' o] & -> & Hin). apply list_elem_of_omap in Hin as ([c1 f] & Hin & He). simpl in He. case_decide; [done|].
    injection He as <- _. split; [by exists (c1, f)|done].
  - intros [([c' f] & -> & Hin) Hne]. exists (c', include_str f). split; [done|]. apply list_elem_of_omap.
    exists (c', f). split; [done|]. by rewrite decide_False.
Qed.

Lemma sorted_codes l : Sorted code_le l → Sorted String.le l.*1.
Proof. induction 1 as [|x l _ IH Hd]; [constructor|]. cbn. constructor; [done|]. destruct Hd; by constructor. Qed.

(** The embedded languages are complete.  When a crate builds, the languages it offers
    are the directories of [locales], in order; each of them except English brings its
    own text, and nothing else is loaded; a language without a name is shown by its code;
    and whatever the environment, the saved choice and the command line say, the language
    a user gets is English or has its own text. *)
Theorem tables_complete entries display t :
  tables_of (scan_locales entries) display = Some t →
  (∀ c, c ∈ AVAILABLE_LOCALES t ↔ ∃ e, e ∈ entries ∧ de_is_dir e = true ∧ de_name e = Some c) ∧
  Sorted String.le (AVAILABLE_LOCALES t) ∧ "en"%string ∈ AVAILABLE_LOCALES t ∧
  (∀ c, is_Some (load_ftl t c) ↔ c ∈ AVAILABLE_LOCALES t ∧ c ≠ "en"%string) ∧
  (∀ c, c ∉ AVAILABLE_LOCALES t → locale_display_name t c = c) ∧
  (∀ override u username, let loc := resolve_locale (AVAILABLE_LOCALES t) override u username in
     loc = "en"%string ∨ is_Some (load_ftl t loc)).
Proof.
  unfold tables_of. destruct (list_find _ _) as [[i [ec ef]]|] eqn:Een; [|done]. simpl.
  destruct (include_str ef) as [en|]; [|done]. simpl. destruct (_ && _) eqn:Eok; [|done]. intros [= <-]. simpl.
  apply andb_true_iff in Eok as [_ Earms]. rewrite forallb_forall in Earms.
  assert (Hload : ∀ c, is_Some (match_arm (ftl_arms (scan_locales entries)) c ≫= id) ↔
    c ∈ (scan_locales entries).*1 ∧ c ≠ "en"%string).
  { intros c. rewrite <-elem_of_ftl_arms, <-match_arm_is_Some. split.
    - intros [x (y & Hy & _)%bind_Some]. by exists y.
    - intros [o Ho]. rewrite Ho. simpl. apply match_arm_Some in Ho. apply list_elem_of_In, Earms, bool_decide_eq_true in Ho. done. }
  split_and!.
  - intros c. rewrite list_elem_of_fmap. split.
    + intros ([c' f] & -> & (e & ? & ? & ? & ?)%elem_of_scan). by exists e.
    + intros (e & ? & ? & ?). exists (c, de_ftl e). split; [done|]. apply elem_of_scan. by exists e.
  - apply sorted_codes, Sorted_merge_sort, _.
  - apply list_find_Some in Een as (Hi & Hc & _). simpl in Hc. subst. apply list_elem_of_lookup_2 in Hi.
    apply list_elem_of_fmap. by exists ("en"%string, ef).
  - done.
  - intros c Hc. destruct (match_arm _ c) as [d|] eqn:Ea; [|done]. destruct Hc.
    assert (Hs : is_Some (match_arm ((λ l, (l.1, display l)) <$> scan_locales entries) c)) by (by rewrite Ea).
    apply match_arm_is_Some in Hs. by rewrite <-list_fmap_compose in Hs.
  - intros override u username. set (loc := resolve_locale _ _ _ _). destruct (decide (loc = "en"%string)) as [|Hne]; [by left|right].
    apply Hload. split; [|done]. destruct (resolve_supported ((scan_locales entries).*1) override u username); done.
Qed.

Definition toy_entries : list Entry :=
  [mkEntry (Some "ja"%string) true (Some (bytes_of_string "k = v")); mkEntry (Some "README"%string) false None;
   mkEntry (Some "en"%string) true (Some []);
   mkEntry (Some "de"%string) true
     (Some (bytes_of_string "# GUI" ++ [x0a] ++ bytes_of_string "# locale-name: Deutsch " ++ [x0d; x0a; x0a]))].

Lemma tables_complete_witness :
  ∃ t, gui_build toy_entries = Some t ∧ AVAILABLE_LOCALES t = ["de"; "en"; "ja"]%string ∧
    locale_display_name t "de" = "Deutsch"%string ∧ locale_display_name t "fr" = "fr"%string.
Proof.
  destruct (gui_build toy_entries) as [t|] eqn:E; [|by vm_compute in E]. exists t. split; [exact eq_refl|].
  destruct (tables_complete toy_entries (λ l, locale_display_from_ftl l.2 l.1) t E) as (_ & _ & _ & _ & Hd & _).
  assert (Ha : AVAILABLE_LOCALES <$> gui_build toy_entries = Some ["de"; "en"; "ja"]%string) by (vm_compute; exact eq_refl).
  assert (Hn : (λ t, locale_display_name t "de") <$> gui_build toy_entries = Some "Deutsch"%string) by (vm_compute; exact eq_refl).
  rewrite E in Ha, Hn. injection Ha as Ha. injection Hn as Hn. split; [exact Ha|]. split; [exact Hn|].
  apply Hd. rewrite Ha. vm_compute. intros Hin. repeat (apply elem_of_cons in Hin as [Hin|Hin]; [done|]).
  by apply elem_of_nil in Hin.
Defined.

(** ** The version of [protoc] *)

(** [split_whitespace().last()] *)
Fixpoint take_word (l : list ascii) : list ascii :=
  match l with
  | c :: l' => if is_whitespace c then [] else c :: take_word l'
  | [] => []
  end.
Definition last_word (l : list ascii) : option (list ascii) :=
  match trim_start (reverse l) with
  | [] => None
  | r => Some (reverse (take_word r))
  end.

(** [output] is what [protoc --version] prints; [None]: it cannot be run. *)
Definition protoc_needs_proto3_optional_flag (output : option (list ascii)) : bool :=
  match (version ← (o ← output; last_word o);
         let parts := split "."%char version in
         major ← (p ← head parts; parse_uint 32 p);
         Some (major, default 0%N (p ← parts !! 1%nat; parse_uint 32 p))) with
  | Some (major, minor) => bool_decide (major < 3 ∨ major = 3 ∧ minor < 15)%N
  | None => false
  end.

Lemma take_word_app w c l : Forall (λ d, is_whitespace d = false) w → is_whitespace c = true → take_word (w ++ c :: l) = w.
Proof. intros Hw Hc. induction Hw as [|d w Hd _ IH]; cbn; [by rewrite Hc|]. by rewrite Hd, IH. Qed.

Lemma last_word_of pre w nl :
  w ≠ [] → Forall (λ d, is_whitespace d = false) w → is_whitespace pre = true → Forall (λ d, is_whitespace d = true) nl →
  ∀ l, last_word (l ++ pre :: w ++ nl) = Some w.
Proof.
  intros Hne Hw Hp Hnl l. unfold last_word. rewrite (reverse_app l), reverse_cons, reverse_app, <-!(assoc_L (++)).
  assert (Ht : ∀ r, trim_start (reverse nl ++ r) = trim_start r).
  { intros r. apply Forall_reverse in Hnl. induction Hnl as [|d n Hd _ IH]; [done|]. cbn. by rewrite Hd. }
  rewrite Ht. apply Forall_reverse in Hw. 
  assert (Hr : reverse w ≠ []) by (intros E; apply Hne; by rewrite <-(reverse_involutive w), E).
  pose proof (take_word_app _ pre (reverse l) Hw Hp) as Htw. cbn [app].
  destruct (reverse w) as [|d r] eqn:E; [done|]. cbn [app trim_start] in *. inversion Hw as [|? ? Hd _]; subst. rewrite Hd.
  rewrite Htw, <-E. by rewrite reverse_involutive.
Qed.

Lemma dec_not_white n : Forall (λ d, is_whitespace d = false) (dec n).
Proof.
  destruct (dec_spec n) as (_ & Hall & _). eapply Forall_impl; [exact Hall|]. intros c Hc.
  destruct c as [[] [] [] [] [] [] [] []]; by vm_compute in *.
Qed.

(** The flag is passed to the versions that need it.  For a [protoc] that prints its name
    and a version [major.minor], with anything more after another dot, the answer is
    exactly whether the version is below 3.15. *)
Theorem protoc_flag_exact major minor rest :
  (major < 2 ^ 32)%N → (minor < 2 ^ 32)%N → Forall (λ d, is_whitespace d = false) rest →
  (rest = [] ∨ ∃ r, rest = "."%char :: r) →
  protoc_needs_proto3_optional_flag
    (Some (chars "libprotoc" ++ " "%char :: (dec major ++ "."%char :: dec minor ++ rest) ++ ["010"%char]))
  = bool_decide (major < 3 ∨ major = 3 ∧ minor < 15)%N.
Proof.
  intros Hma Hmi Hrest Hr. unfold protoc_needs_proto3_optional_flag. cbn [mbind option_bind].
  assert (Hdot : ∀ n, "."%char ∉ dec n) by (intros n Hin; by apply (dec_plain _ _ "."%char) in Hin).
  rewrite last_word_of; [|..|done|by repeat constructor].
  - cbn [mbind option_bind]. rewrite split_app by done. cbn [head mbind option_bind]. rewrite parse_dec by done.
    cbn [mbind option_bind]. destruct Hr as [->|[r ->]].
    + rewrite app_nil_r, split_plain by done. cbn -[dec]. by rewrite parse_dec.
    + rewrite split_app by done. cbn -[dec]. by rewrite parse_dec.
  - by destruct (dec major).
  - apply Forall_app. split; [apply dec_not_white|]. constructor; [done|]. apply Forall_app. split; [apply dec_not_white|done].
Qed.

Lemma protoc_flag_exact_witness :
  protoc_needs_proto3_optional_flag (Some (chars "libprotoc 3.12.4" ++ ["010"%char])) = true.
Proof.
  exact (protoc_flag_exact 3 12 (chars ".4") eq_refl eq_refl
    ltac:(repeat (constructor; [vm_compute; exact eq_refl|]); constructor) (or_intror (ex_intro _ ["4"%char] eq_refl))).
Defined.

(** ** Logs *)

Inductive Sink :=
| Journald (filter : string)
| Stdout (filter : string)
| Stderr (filter : string).

(** The process-wide subscriber. *)
Definition Subscriber : Type := option (list Sink).
(** [init] panics ([None]) when there is one; [try_init] keeps it. *)
Definition registry_init (l : list Sink) (s : Subscriber) : option Subscriber :=
  match s with None => Some (Some l) | Some _ => None end.
Definition try_init (l : list Sink) (s : Subscriber) : Subscriber := match s with None => Some l | Some _ => s end.

Section logging.
Context (valid : string → bool) (var : string → option string) (journald : bool).

(** [EnvFilter::try_new] *)
Definition filter_or (level : option string) (fallback : string) : string :=
  match level with Some l => if valid l then l else fallback | None => fallback end.

Definition under_systemd : bool := bool_decide (is_Some (var "JOURNAL_STREAM")).
Definition journald_filter : string := filter_or (var "TAPAUTH_JOURNALD_LOG_LEVEL") "info".

(** [tapauthd] *)
Definition daemon_sinks (dev_features : bool) : list Sink :=
  let stdout_filter := filter_or (match var "TAPAUTH_LOG_LEVEL" with Some l => Some l | None => var "RUST_LOG" end) "info" in
  let dev_mode := dev_features && bool_decide (is_Some (var "TAPAUTH_DEV_MODE")) in
  if negb dev_mode && journald then
    if under_systemd then [Journald journald_filter] else [Stdout stdout_filter; Journald journald_filter]
  else [Stdout stdout_filter].
Definition daemon_init_logging (dev_features : bool) : Subscriber → option Subscriber := registry_init (daemon_sinks dev_features).

(** [client-pam], which may be loaded into a host that logs already *)
Definition make_stderr_layer : Sink := Stderr (filter_or (var "TAPAUTH_LOG_LEVEL") "warn").
Definition pam_sinks : list Sink :=
  if journald then
    if under_systemd then [Journald journald_filter] else [make_stderr_layer; Journald journald_filter]
  else [make_stderr_layer].
Definition pam_init_logging : Subscriber → Subscriber := try_init pam_sinks.

(** [client-config-gui] *)
Definition make_stdout_layer : Sink := Stdout (filter_or (var "TAPAUTH_LOG_LEVEL") "warn").
Definition gui_sinks : list Sink :=
  if journald then
    if under_systemd then [Journald journald_filter] else [make_stdout_layer; Journald journald_filter]
  else [make_stdout_layer].
Definition gui_init_logging : Subscriber → option Subscriber := registry_init gui_sinks.

Definition on_terminal (s : Sink) : bool := match s with Journald _ => false | _ => true end.
Definition sink_filter (s : Sink) : string := match s with Journald f | Stdout f | Stderr f => f end.

(** Logs are neither lost nor doubled.  Every program writes to the journal, when there
    is one, and to the terminal exactly when there is no journal or it does not run under
    systemd, whose journal has the terminal's lines already; every filter is one that
    parses.  In a production build of the daemon the environment cannot turn the journal
    off; and the module can be initialised again in the same process. *)
Theorem logs_once :
  valid "info" = true → valid "warn" = true →
  (∀ l, l ∈ [daemon_sinks false; pam_sinks; gui_sinks] →
     (existsb (negb ∘ on_terminal) l = journald) ∧
     (existsb on_terminal l = negb (journald && under_systemd)) ∧
     (∀ s, s ∈ l → valid (sink_filter s) = true)) ∧
  ∀ s, pam_init_logging (pam_init_logging s) = pam_init_logging s.
Proof.
  intros Hi Hw.
  assert (Hf : ∀ o d, valid d = true → valid (filter_or o d) = true).
  { intros [l|] d Hd; [|done]. simpl. by destruct (valid l) eqn:E. }
  split; [|by intros [s|]].
  intros l Hl. repeat (apply elem_of_cons in Hl as [->|Hl]); [| | |by apply elem_of_nil in Hl];
    unfold daemon_sinks, pam_sinks, gui_sinks; simpl; destruct journald, under_systemd; simpl; (split; [done|]; split; [done|]);
    intros s; rewrite ?elem_of_cons, elem_of_nil; intros; destruct_or!; subst; simpl; unfold journald_filter; try apply Hf; done.
Qed.
End logging.

Lemma logs_once_witness :
  pam_sinks (λ _, true) (λ v, if decide (v = "JOURNAL_STREAM"%string) then Some "8:1"%string else None) true = [Journald "info"] ∧
  existsb on_terminal (pam_sinks (λ _, true) (λ v, if decide (v = "JOURNAL_STREAM"%string) then Some "8:1"%string else None) true) = false.
Proof.
  pose (var v := if decide (v = "JOURNAL_STREAM"%string) then Some "8:1"%string else None).
  destruct (logs_once (λ _, true) var true eq_refl eq_refl) as [H _].
  split; [vm_compute; exact eq_refl|].
  destruct (H (pam_sinks (λ _, true) var true)) as (_ & Ht & _); [|exact Ht]. apply elem_of_cons. right. by apply elem_of_cons; left.
Defined.
