(* ===== verification/GuiIpc.v ===== *)
(** * The configuration tool's IPC client: [client-config-gui/src/ipc.rs]

    One connection per request.  The daemon is a [Link]: how connecting goes, and what
    comes back for the bytes that are written; its state [S] is whatever the other side
    keeps.  A step under a timeout fails with [None] when the timeout runs out and with
    the text of the error otherwise. *)

From stdpp Require Import base gmap strings list.
From S2P Require Import Prelude Os Text Crypto Protocol Ipc.

(** ** The connection *)

Abbreviation Timed := (result (option string)).

(** How the peer's side goes on after the bytes it sent. *)
Inductive ReplyEnd := Silent | Closed | Broken (e : string).

Record Reply := mkReply {
  rp_at : Z;               (* when the bytes are there, in ms after the request *)
  rp_bytes : bytes;
  rp_end : ReplyEnd;
}.

Record Link (S : Type) := mkLink {
  lk_connect : S → S * Timed ();                (* within 10 s *)
  lk_write : bytes → S → S * Timed Reply;       (* within 5 s *)
}.
Arguments mkLink {S} _ _.
Arguments lk_connect {S} _ _.
Arguments lk_write {S} _ _ _.

(** ** Framing *)

(** [read_exact]; [early_eof] is the text of its error at the end of the stream. *)
Definition read_reply (early_eof : string) (e : ReplyEnd) (n : nat) (input : bytes) : Timed (bytes * bytes) :=
  if decide (n ≤ length input)%nat then Ok (take n input, drop n input) else
  Err (match e with Silent => None | Closed => Some early_eof | Broken t => Some t end).

Definition MAX_REPLY : Z := 10 * 1024 * 1024.

(** [timeout(read_timeout, read_framed(..))] *)
Definition read_frame (early_eof too_large : string) (read_timeout : Z) (r : Reply) : Timed bytes :=
  if decide (read_timeout < rp_at r) then Err None else
  '(len_buf, input) ← read_reply early_eof (rp_end r) 4 (rp_bytes r);
  let len := from_be_bytes len_buf in
  if decide (MAX_REPLY < len) then Err (Some too_large) else
  '(data, _) ← read_reply early_eof (rp_end r) (Z.to_nat len) input;
  Ok data.

(** The length is cast with [as u32]. *)
Definition frame (msg : bytes) : bytes := to_be_bytes 4 (Z.of_nat (length msg) mod 2 ^ 32) ++ msg.

(** ** Errors *)

Inductive GuiIpcError :=
| ConnectionTimeout
| ConnectionFailed (s : string)
| SendTimeout
| SendFailed (s : string)
| ResponseTimeout
| ReadFailed (s : string)
| DecodeFailed (s : string)
| UnexpectedEnvelope
| GuiDaemonError (s : string)
| UnexpectedResponse.

(** [.map_err(|_| timeout)?.map_err(failed)?] *)
Definition timed {S A} (elapsed : GuiIpcError) (failed : string → GuiIpcError) (k : S → S * Timed A)
    : M S GuiIpcError A :=
  mapM_err (λ e, match e with None => elapsed | Some t => failed t end) k.

Definition err_msg (resp : AdminResponse) : string :=
  if decide (adr_error_message resp = EmptyString) then "Unknown error" else adr_error_message resp.

Record ClientConfigValues := mkClientConfigValues {
  cv_hostname : string;
  cv_udp_port : Z;
  cv_enable_ble : bool;
  cv_enable_network : bool;
}.

(** [n as u16] *)
Definition as_u16 (n : Z) : Z := n mod 2 ^ 16.

Section gui.
Context `{KI : !Codec IpcEnvelope} {S : Type} (link : Link S).
(** Texts of errors of the runtime and of the decoder. *)
Context (early_eof : string) (decode_error : bytes → string).

Definition send_admin_request_with_read_timeout (request : AdminRequest) (read_timeout : Z)
    : M S GuiIpcError AdminResponse :=
  _ ← timed ConnectionTimeout ConnectionFailed (lk_connect link);
  let req_bytes := encode_to_vec (mkIpcEnvelope (Some (MsgAdminRequest request))) in
  reply ← timed SendTimeout SendFailed (lk_write link (frame req_bytes));
  result ← timed ResponseTimeout ReadFailed (lift (read_frame early_eof "frame too large" read_timeout reply));
  envelope ← lift (ok_or (DecodeFailed (decode_error result)) (decode result));
  match env_msg envelope with
  | Some (MsgAdminResponse resp) => mret resp
  | _ => throw UnexpectedEnvelope
  end.

Definition send_admin_request (request : AdminRequest) : M S GuiIpcError AdminResponse :=
  send_admin_request_with_read_timeout request (120 * 1000).

(** The check every request function makes first. *)
Definition check_status (response : AdminResponse) : M S GuiIpcError () :=
  if decide (adr_status response = ADMIN_SUCCESS) then mret () else throw (GuiDaemonError (err_msg response)).

Definition gui_get_paired_servers : M S GuiIpcError (list PairedServerInfo) :=
  response ← send_admin_request (mkAdminRequest (Some AdmGetServers));
  _ ← check_status response;
  match adr_payload response with Some (AdmServers l) => mret l | _ => throw UnexpectedResponse end.

Definition gui_start_pairing : M S GuiIpcError (string * Z) :=
  response ← send_admin_request (mkAdminRequest (Some AdmStartPairing));
  _ ← check_status response;
  match adr_payload response with
  | Some (AdmPairingStarted url port) => mret (url, as_u16 port)
  | _ => throw UnexpectedResponse
  end.

Definition gui_wait_for_pairing (port : Z) : M S GuiIpcError (string * Z) :=
  response ← send_admin_request_with_read_timeout (mkAdminRequest (Some (AdmWaitForPairing port))) (300 * 1000);
  _ ← check_status response;
  match adr_payload response with
  | Some (AdmPairingSas sas_code port) => mret (sas_code, as_u16 port)
  | _ => throw UnexpectedResponse
  end.

Definition gui_complete_pairing (port : Z) : M S GuiIpcError string :=
  response ← send_admin_request (mkAdminRequest (Some (AdmCompletePairing port)));
  _ ← check_status response;
  match adr_payload response with
  | Some (AdmPairingCompleted server_hex) => mret server_hex
  | _ => throw UnexpectedResponse
  end.

Definition gui_remove_device (public_key : string) : M S GuiIpcError () :=
  response ← send_admin_request (mkAdminRequest (Some (AdmRemoveDevice public_key)));
  check_status response.

Definition gui_rotate_csk : M S GuiIpcError () :=
  response ← send_admin_request (mkAdminRequest (Some AdmRotateCsk));
  check_status response.

Definition gui_save_config (client_hostname : string) (udp_port : Z) (enable_ble enable_network : bool)
    : M S GuiIpcError () :=
  response ← send_admin_request (mkAdminRequest (Some (AdmSaveConfig
    (mkSaveConfigRequest client_hostname udp_port (Some enable_ble) (Some enable_network)))));
  check_status response.

Definition gui_recover_tpm : M S GuiIpcError () :=
  response ← send_admin_request (mkAdminRequest (Some AdmRecoverTpm));
  check_status response.

(** Builds with TPM support only. *)
Definition gui_get_daemon_status : M S GuiIpcError (bool * string) :=
  response ← send_admin_request (mkAdminRequest (Some AdmGetDaemonStatus));
  _ ← check_status response;
  lift (ok_or UnexpectedResponse
    (p ← adr_payload response;
     match p with AdmDaemonStatus tpm_enabled tpm_error => Some (tpm_enabled, tpm_error) | _ => None end)).

Definition gui_get_config : M S GuiIpcError ClientConfigValues :=
  response ← send_admin_request (mkAdminRequest (Some AdmGetConfig));
  _ ← check_status response;
  match adr_payload response with
  | Some (AdmConfig hostname udp_port enable_ble enable_network) =>
      mret (mkClientConfigValues hostname (as_u16 udp_port) enable_ble enable_network)
  | _ => throw UnexpectedResponse
  end.
End gui.
