(* ===== verification/Cli.v ===== *)
(** * The command line: [tapauthd/src/bin/tapauth-ipc-cli.rs]

    The same exchange as the configuration tool's, with the request chosen by the
    arguments.  A run collects the lines it prints and ends with an exit status. *)

From stdpp Require Import base gmap strings list.
From Stdlib Require Import Strings.Ascii.
From S2P Require Import Prelude Os Text Crypto Protocol PairingUrl Ipc GuiIpc.

Record Cli (S : Type) := mkCli {
  cl_daemon : S;
  cl_out : list string;
  cl_err : list string;
}.
Arguments mkCli {S} _ _ _.
Arguments cl_daemon {S} _.
Arguments cl_out {S} _.
Arguments cl_err {S} _.

(** How [main] stops early: [std::process::exit], or an error it returns. *)
Inductive CliStop := Exit (code : Z) | Failed (e : string).

Definition println {S} (line : string) : M (Cli S) CliStop () :=
  modify (λ c, mkCli (cl_daemon c) (cl_out c ++ [line]) (cl_err c)).
Definition eprintln {S} (line : string) : M (Cli S) CliStop () :=
  modify (λ c, mkCli (cl_daemon c) (cl_out c) (cl_err c ++ [line])).
Definition die {S A} (line : string) : M (Cli S) CliStop A := _ ← eprintln line; throw (Exit 1).

Definition show_Z (n : Z) : string :=
  if decide (n < 0) then ("-" +:+ String.string_of_list_ascii (dec (Z.to_N (- n))))%string
  else String.string_of_list_ascii (dec (Z.to_N n)).
Definition show_bool (b : bool) : string := if b then "true" else "false".

Definition outcome_name (outcome : Z) : string :=
  if decide (outcome = OUTCOME_SUCCESS) then "SUCCESS"
  else if decide (outcome = OUTCOME_DENIED) then "DENIED"
  else if decide (outcome = OUTCOME_TIMEOUT) then "TIMEOUT"
  else if decide (outcome = OUTCOME_IGNORE) then "IGNORE"
  else if decide (outcome = OUTCOME_ERROR) then "ERROR"
  else "UNKNOWN".

Section cli.
Context `{KI : !Codec IpcEnvelope} {S : Type} (link : Link S).
(** Texts of errors of the runtime, of the decoder and of parsing. *)
Context (early_eof elapsed : string) (decode_error : bytes → string) (int_error bool_error : string → string).
(** [{:?}] of a list of names, and our process id. *)
Context (debug_users : list string → string) (pid : Z).

(** A step on the connection, under [timeout(..).await??]. *)
Definition on_link {A} (k : S → S * Timed A) : M (Cli S) CliStop A := λ c,
  let '(d, r) := k (cl_daemon c) in
  (mkCli d (cl_out c) (cl_err c), map_err (λ e, Failed (default elapsed e)) r).

Definition send_envelope (envelope : IpcEnvelope) (read_timeout : Z) : M (Cli S) CliStop IpcEnvelope :=
  _ ← on_link (lk_connect link);
  reply ← on_link (lk_write link (frame (encode_to_vec envelope)));
  resp_bytes ← on_link (lift (read_frame early_eof "Frame too large" read_timeout reply));
  lift (ok_or (Failed (decode_error resp_bytes)) (decode resp_bytes)).

Definition send_admin (req : AdminRequest) (read_timeout : Z) : M (Cli S) CliStop AdminResponse :=
  resp_envelope ← send_envelope (mkIpcEnvelope (Some (MsgAdminRequest req))) read_timeout;
  match env_msg resp_envelope with
  | Some (MsgAdminResponse resp) => mret resp
  | _ => throw (Failed "Unexpected envelope type in response")
  end.

Definition send_pam (envelope : IpcEnvelope) (read_timeout : Z) : M (Cli S) CliStop PamAuthenticateResponse :=
  resp_envelope ← send_envelope envelope read_timeout;
  match env_msg resp_envelope with
  | Some (MsgPamResponse resp) => mret resp
  | _ => throw (Failed "Unexpected envelope type in response")
  end.

Definition send_pam_auth (username : string) (timeout_secs : Z) (request_id : string)
    : M (Cli S) CliStop PamAuthenticateResponse :=
  send_pam (mkIpcEnvelope (Some (MsgPamAuthenticate (mkPamAuthenticateRequest username false timeout_secs request_id))))
    ((timeout_secs + 10) * 1000).

Definition send_pam_cancel (request_id reason : string) : M (Cli S) CliStop PamAuthenticateResponse :=
  send_pam (mkIpcEnvelope (Some (MsgPamCancel (mkPamCancelRequest reason request_id)))) (10 * 1000).

(** ** Commands *)

(** Send a request and stop when the daemon does not report success. *)
Definition admin_or_die (prefix : string) (p : AdminRequestPayload) (read_timeout : Z)
    : M (Cli S) CliStop (option AdminResponsePayload) :=
  resp ← send_admin (mkAdminRequest (Some p)) read_timeout;
  if decide (adr_status resp = ADMIN_SUCCESS) then mret (adr_payload resp)
  else die ("ERROR: " +:+ prefix +:+ adr_error_message resp)%string.

Definition parse_u32 (s : string) : M (Cli S) CliStop Z :=
  lift (ok_or (Failed (int_error s)) (Z.of_N <$> parse_uint 32 (chars s))).
Definition parse_bool (s : string) : M (Cli S) CliStop bool :=
  if decide (s = "true"%string) then mret true
  else if decide (s = "false"%string) then mret false else throw (Failed (bool_error s)).

Definition cmd_start_pairing : M (Cli S) CliStop () :=
  p ← admin_or_die "" AdmStartPairing (10 * 1000);
  match p with
  | Some (AdmPairingStarted url port) => _ ← println ("PORT=" +:+ show_Z port)%string; println ("URL=" +:+ url)%string
  | _ => mret ()
  end.

Definition cmd_wait_for_pairing (args : list string) : M (Cli S) CliStop () :=
  match args with
  | [] => die "Usage: tapauth-ipc-cli wait-for-pairing <port>"
  | arg :: _ =>
      port ← parse_u32 arg;
      p ← admin_or_die "" (AdmWaitForPairing port) (60 * 1000);
      match p with
      | Some (AdmPairingSas sas_code port) => _ ← println ("SAS=" +:+ sas_code)%string; println ("PORT=" +:+ show_Z port)%string
      | _ => mret ()
      end
  end.

Definition cmd_complete_pairing (args : list string) : M (Cli S) CliStop () :=
  match args with
  | [] => die "Usage: tapauth-ipc-cli complete-pairing <port>"
  | arg :: _ =>
      port ← parse_u32 arg;
      p ← admin_or_die "" (AdmCompletePairing port) (30 * 1000);
      match p with
      | Some (AdmPairingCompleted server_hex) => println ("SERVER_HEX=" +:+ server_hex)%string
      | _ => mret ()
      end
  end.

Fixpoint print_servers (l : list PairedServerInfo) : M (Cli S) CliStop () :=
  match l with
  | [] => mret ()
  | s :: l' =>
      _ ← println ("SERVER: name=" +:+ psi_name s +:+ ", key=" +:+ psi_public_key s +:+ ", users="
                   +:+ debug_users (psi_allowed_users s))%string;
      print_servers l'
  end.

Definition cmd_get_servers : M (Cli S) CliStop () :=
  p ← admin_or_die "" AdmGetServers (10 * 1000);
  match p with
  | Some (AdmServers l) => _ ← println ("COUNT=" +:+ show_Z (Z.of_nat (length l)))%string; print_servers l
  | _ => mret ()
  end.

Definition cmd_remove_device (args : list string) : M (Cli S) CliStop () :=
  match args with
  | [] => die "Usage: tapauth-ipc-cli remove-device <public_key_hex>"
  | public_key :: _ => _ ← admin_or_die "" (AdmRemoveDevice public_key) (10 * 1000); println "REMOVED=true"
  end.

(** The switches, the last one of each kind; anything else is skipped. *)
Fixpoint parse_transports (args : list string) (ble network : option bool)
    : M (Cli S) CliStop (option bool * option bool) :=
  match args with
  | [] => mret (ble, network)
  | a :: rest =>
      if decide (a = "--ble"%string) then
        match rest with
        | [] => die "Missing value for --ble"
        | v :: rest' => b ← parse_bool v; parse_transports rest' (Some b) network
        end
      else if decide (a = "--network"%string) then
        match rest with
        | [] => die "Missing value for --network"
        | v :: rest' => b ← parse_bool v; parse_transports rest' ble (Some b)
        end
      else parse_transports rest ble network
  end.

Definition cmd_set_transports (args : list string) : M (Cli S) CliStop () :=
  '(ble, network) ← parse_transports args None None;
  cfg ← admin_or_die "could not read current config: " AdmGetConfig (10 * 1000);
  '(hostname, udp_port) ← match cfg with
    | Some (AdmConfig h p _ _) => mret (h, p)
    | _ => die "ERROR: unexpected response payload from get-config"
    end;
  _ ← admin_or_die "" (AdmSaveConfig (mkSaveConfigRequest hostname udp_port ble network)) (10 * 1000);
  println "CONFIG_SAVED=true".

Definition cmd_get_config : M (Cli S) CliStop () :=
  p ← admin_or_die "" AdmGetConfig (10 * 1000);
  match p with
  | Some (AdmConfig hostname udp_port enable_ble enable_network) =>
      _ ← println ("HOSTNAME=" +:+ hostname)%string;
      _ ← println ("UDP_PORT=" +:+ show_Z udp_port)%string;
      _ ← println ("ENABLE_BLE=" +:+ show_bool enable_ble)%string;
      println ("ENABLE_NETWORK=" +:+ show_bool enable_network)%string
  | _ => mret ()
  end.

Definition print_pam (resp : PamAuthenticateResponse) : M (Cli S) CliStop () :=
  _ ← println ("OUTCOME=" +:+ outcome_name (resp_outcome resp))%string;
  println ("DETAIL=" +:+ resp_detail resp)%string.

Definition cmd_pam_auth (args : list string) : M (Cli S) CliStop () :=
  match args with
  | [] => die "Usage: tapauth-ipc-cli pam-auth <username> [timeout_secs] [request_id]"
  | user :: rest =>
      timeout_secs ← match rest with t :: _ => parse_u32 t | [] => mret 30 end;
      let request_id := match rest with _ :: id :: _ => id | _ => ("test-" +:+ show_Z pid)%string end in
      _ ← println ("REQUEST_ID=" +:+ request_id)%string;
      resp ← send_pam_auth user timeout_secs request_id;
      _ ← print_pam resp;
      if decide (resp_outcome resp = 0) then mret () else throw (Exit (resp_outcome resp))
  end.

Definition cmd_pam_cancel (args : list string) : M (Cli S) CliStop () :=
  match args with
  | [] => die "Usage: tapauth-ipc-cli pam-cancel <request_id> [reason]"
  | request_id :: rest =>
      resp ← send_pam_cancel request_id (match rest with r :: _ => r | [] => "cli-cancel" end);
      print_pam resp
  end.

Definition USAGE : list string :=
  ["Usage: tapauth-ipc-cli <command> [args...]"; "Commands:"; "  start-pairing"; "  wait-for-pairing <port>";
   "  complete-pairing <port>"; "  get-servers"; "  remove-device <public_key_hex>";
   "  set-transports --ble <true|false> --network <true|false>"; "  get-config";
   "  pam-auth <username> [timeout_secs] [request_id]"; "  pam-cancel <request_id> [reason]"]%string.

(** [args]: without the program's name. *)
Definition cli_main (args : list string) : M (Cli S) CliStop () :=
  match args with
  | [] => _ ← modify (λ c, mkCli (cl_daemon c) (cl_out c) (cl_err c ++ USAGE)); throw (Exit 1)
  | command :: rest =>
      if decide (command = "start-pairing"%string) then cmd_start_pairing
      else if decide (command = "wait-for-pairing"%string) then cmd_wait_for_pairing rest
      else if decide (command = "complete-pairing"%string) then cmd_complete_pairing rest
      else if decide (command = "get-servers"%string) then cmd_get_servers
      else if decide (command = "remove-device"%string) then cmd_remove_device rest
      else if decide (command = "set-transports"%string) then cmd_set_transports rest
      else if decide (command = "get-config"%string) then cmd_get_config
      else if decide (command = "pam-auth"%string) then cmd_pam_auth rest
      else if decide (command = "pam-cancel"%string) then cmd_pam_cancel rest
      else die ("Unknown command: " +:+ command)%string
  end.

(** The status the shell sees: an error returned by [main] is 1, an exit code its low
    eight bits. *)
Definition exit_status (r : result CliStop ()) : Z :=
  match r with Ok _ => 0 | Err (Exit c) => c mod 256 | Err (Failed _) => 1 end.
End cli.
