(* ===== verification/ClientTheorems.v ===== *)
(** * Theorems about the administration clients

    The configuration tool and the command line, on their own and connected to the
    daemon: a request over the socket is a call of the daemon's handler. *)

From stdpp Require Import base gmap strings list.
From Stdlib Require Import Strings.Ascii.
From S2P Require Import Prelude Os Text Crypto Concrete Protocol ConcreteCodec Config ConfigFacts.
From S2P Require Import ConcreteConfig ConfigTheorems PairingUrl Pairing PairingTheorems Network Auth.
From S2P Require Import ConcreteAuth Ipc Session SessionTheorems ConcreteIpc PeerIdentity Admin AdminTheorems.
From S2P Require Import Daemon DaemonTheorems ServeTheorems GuiIpc Cli.

(** ** Reading a reply *)

Lemma read_reply_Ok eof e n input d rest :
  read_reply eof e n input = Ok (d, rest) ↔ input = d ++ rest ∧ length d = n.
Proof.
  unfold read_reply. case_decide as Hn.
  - split; [intros; simplify_eq; by rewrite take_drop, length_take_le by lia|].
    intros [-> <-]. by rewrite take_app_length, drop_app_length.
  - split; [done|]. intros [-> <-]. rewrite length_app in Hn. lia.
Qed.

(** A reply is read exactly when it starts with a frame of at most 10 MiB and is there
    in time. *)
Lemma read_frame_Ok eof big timeout r data :
  read_frame eof big timeout r = Ok data ↔
  rp_at r ≤ timeout ∧ Z.of_nat (length data) ≤ MAX_REPLY ∧
  ∃ rest, rp_bytes r = to_be_bytes 4 (Z.of_nat (length data)) ++ data ++ rest.
Proof.
  unfold read_frame. case_decide as Ht; [split; [done|lia]|]. split.
  - destruct (read_reply eof (rp_end r) 4 (rp_bytes r)) as [[hd input]|] eqn:E1; [|done]. cbn [mbind result_bind].
    apply read_reply_Ok in E1 as [E1 Hh]. case_decide as Hl; [done|].
    destruct (read_reply eof (rp_end r) _ input) as [[d rest]|] eqn:E2; [|done]. cbn [mbind result_bind]. intros; simplify_eq.
    apply read_reply_Ok in E2 as [-> Hd].
    pose proof (from_be_bytes_range hd) as Hr. split; [lia|]. rewrite Hd, Z2Nat.id by lia. split; [lia|].
    exists rest. pose proof (to_from_be_bytes hd) as Ht4. rewrite Hh in Ht4. by rewrite Ht4.
  - intros (_ & Hl & rest & ->). unfold MAX_REPLY in *.
    assert (read_reply eof (rp_end r) 4 (to_be_bytes 4 (Z.of_nat (length data)) ++ data ++ rest)
      = Ok (to_be_bytes 4 (Z.of_nat (length data)), data ++ rest)) as ->
      by (apply read_reply_Ok; by rewrite length_to_be_bytes). cbn [mbind result_bind].
    rewrite from_to_be_bytes_small by lia. rewrite decide_False by lia. rewrite Nat2Z.id.
    by assert (read_reply eof (rp_end r) (length data) (data ++ rest) = Ok (data, rest)) as -> by (by apply read_reply_Ok).
Qed.

(** ** The daemon at the other end *)

(** A message that makes a frame the daemon and the clients accept. *)
Definition fits `{KI : !Codec IpcEnvelope} (m : IpcEnvelope) : Prop :=
  encode_to_vec m ≠ [] ∧ Z.of_nat (length (encode_to_vec m)) ≤ MAX_FRAME.

Section client.
Context `{C : CryptoOps} `{H : Hex} `{T : Toml} `{TT : TpmTools} `{I6 : Ipv6Text}.
Context `{JC : !Json ClientConfig} `{JS : !Json (gmap string PairedServer)}.
Context `{KH : !Codec PairingHello} `{KR : !Codec PairingResponse}.
Context `{KM : !Codec PairingCskMessage} `{KC : !Codec PairingComplete}.
Context `{KW : !Codec WrapperMessage} `{KE : !Codec EncryptedPacket} `{KI : !Codec IpcEnvelope} `{LI : !CodecLaws IpcEnvelope KI envelope_wire}.
Context (feature_ble feature_tpm : bool).
Context (show_auth_error : AuthHandlerError → string) (random_error : string).
Context (show_config_error : ConfigError → string) (show_crypto_error : CryptoError → string).
Context (show_protocol_error : ProtocolError → string).
Context (show_peer_error : PeerIdentityError → string) (to_rfc3339 : Z → string).
Context (early_eof elapsed : string) (decode_error : bytes → string) (int_error bool_error : string → string).

#[local] Abbreviation handler := (handle_admin_request feature_tpm show_config_error show_crypto_error
  show_protocol_error show_peer_error to_rfc3339).

(** The daemon as seen by process [pid] of user [uid], answering after [delay] ms. *)
Definition daemon_link (senv : SessionEnv) (aenv : AdminEnv) (pid uid delay : Z) : Link Server := mkLink
  (λ s, (s, Ok ()))
  (λ req s,
    let '(s', r) := serve feature_ble feature_tpm show_auth_error random_error show_config_error show_crypto_error
                      show_protocol_error show_peer_error to_rfc3339 senv aenv
                      (mkConn (Some (pid, uid)) req false None []) s in
    (s', Ok match r with
            | Some (Ok c) => mkReply delay (cn_out c) Closed
            | Some (Err _) => mkReply delay [] Closed
            | None => mkReply delay [] Silent
            end)).

#[local] Abbreviation link := daemon_link.

(** One exchange: the daemon handles the request and its answer comes back whole. *)
Lemma link_exchange senv aenv pid uid delay request s a resp :
  let env := mkIpcEnvelope (Some (MsgAdminRequest request)) in
  wire_ok env → fits env → handler aenv request pid uid (admin_view s) = (a, resp) →
  fits (envelope_admin_response resp) →
  lk_write (link senv aenv pid uid delay) (frame (encode_to_vec env)) s
  = (admin_update a s, Ok (mkReply delay (to_be_bytes 4 (Z.of_nat (length (encode_to_vec (envelope_admin_response resp))))
      ++ encode_to_vec (envelope_admin_response resp) ++ []) Closed)).
Proof.
  intros env Hw [Hne Hl] Hh [_ Hl']. simpl. unfold serve, handle_conn. cbn [cn_cred].
  unfold frame. rewrite Z.mod_small by (unfold MAX_FRAME in Hl; lia).
  rewrite <-(app_nil_r (encode_to_vec env)) at 2. rewrite read_framed_frame by done.
  rewrite decide_False by done. rewrite decode_encode by done. cbn [env env_msg]. simpl.
  unfold daemon_admin. rewrite Hh. simpl. unfold write_response, write_framed. cbn [cn_write cn_out cn_cred cn_in cn_eof].
  rewrite Z.mod_small by (unfold MAX_FRAME in Hl'; lia). by rewrite app_nil_r.
Qed.

(** Both clients call the handler. *)
Lemma gui_call_run senv aenv pid uid delay request timeout s a resp :
  wire_ok (mkIpcEnvelope (Some (MsgAdminRequest request))) → fits (mkIpcEnvelope (Some (MsgAdminRequest request))) →
  handler aenv request pid uid (admin_view s) = (a, resp) →
  wire_ok (envelope_admin_response resp) → fits (envelope_admin_response resp) → delay ≤ timeout →
  send_admin_request_with_read_timeout (link senv aenv pid uid delay) early_eof decode_error request timeout s
  = (admin_update a s, Ok resp).
Proof.
  intros Hw Hf Hh Hw' Hf' Hd. unfold send_admin_request_with_read_timeout, timed.
  rewrite !bind_run. unfold mapM_err at 1. cbn [lk_connect link map_err].
  rewrite bind_run. unfold mapM_err at 1. rewrite (link_exchange _ _ _ _ _ _ _ _ _ Hw Hf Hh Hf'). cbn [map_err].
  rewrite bind_run. unfold mapM_err, lift at 1.
  rewrite (proj2 (read_frame_Ok early_eof "frame too large" timeout (mkReply delay _ Closed) _)
    (conj Hd (conj (proj2 Hf') (ex_intro _ [] eq_refl)))). simpl.
  unfold lift. rewrite bind_run, decode_encode by done. done.
Qed.

Lemma cli_call_run senv aenv pid uid delay request timeout out err s a resp :
  wire_ok (mkIpcEnvelope (Some (MsgAdminRequest request))) → fits (mkIpcEnvelope (Some (MsgAdminRequest request))) →
  handler aenv request pid uid (admin_view s) = (a, resp) →
  wire_ok (envelope_admin_response resp) → fits (envelope_admin_response resp) → delay ≤ timeout →
  send_admin (link senv aenv pid uid delay) early_eof elapsed decode_error request timeout (mkCli s out err)
  = (mkCli (admin_update a s) out err, Ok resp).
Proof.
  intros Hw Hf Hh Hw' Hf' Hd. unfold send_admin, send_envelope. rewrite !bind_run.
  unfold on_link at 1. cbn [lk_connect link cl_daemon cl_out cl_err map_err].
  rewrite bind_run. unfold on_link at 1. cbn [cl_daemon cl_out cl_err].
  rewrite (link_exchange _ _ _ _ _ _ _ _ _ Hw Hf Hh Hf'). cbn [map_err].
  rewrite bind_run. unfold on_link, lift at 1. cbn [cl_daemon cl_out cl_err].
  rewrite (proj2 (read_frame_Ok early_eof "Frame too large" timeout (mkReply delay _ Closed) _)
    (conj Hd (conj (proj2 Hf') (ex_intro _ [] eq_refl)))). simpl.
  unfold lift. rewrite decode_encode by done. done.
Qed.

(** An answer that is late. *)
Lemma gui_call_late senv aenv pid uid delay request timeout s a resp :
  wire_ok (mkIpcEnvelope (Some (MsgAdminRequest request))) → fits (mkIpcEnvelope (Some (MsgAdminRequest request))) →
  handler aenv request pid uid (admin_view s) = (a, resp) → fits (envelope_admin_response resp) → timeout < delay →
  send_admin_request_with_read_timeout (link senv aenv pid uid delay) early_eof decode_error request timeout s
  = (admin_update a s, Err ResponseTimeout).
Proof.
  intros Hw Hf Hh Hf' Hd. unfold send_admin_request_with_read_timeout, timed.
  rewrite !bind_run. unfold mapM_err at 1. cbn [lk_connect link map_err].
  rewrite bind_run. unfold mapM_err at 1. rewrite (link_exchange _ _ _ _ _ _ _ _ _ Hw Hf Hh Hf'). cbn [map_err].
  rewrite bind_run. unfold mapM_err, lift, read_frame at 1. by rewrite decide_True.
Qed.

Lemma cli_call_late senv aenv pid uid delay request timeout out err s a resp :
  wire_ok (mkIpcEnvelope (Some (MsgAdminRequest request))) → fits (mkIpcEnvelope (Some (MsgAdminRequest request))) →
  handler aenv request pid uid (admin_view s) = (a, resp) → fits (envelope_admin_response resp) → timeout < delay →
  send_admin (link senv aenv pid uid delay) early_eof elapsed decode_error request timeout (mkCli s out err)
  = (mkCli (admin_update a s) out err, Err (Failed elapsed)).
Proof.
  intros Hw Hf Hh Hf' Hd. unfold send_admin, send_envelope. rewrite !bind_run.
  unfold on_link at 1. cbn [lk_connect link cl_daemon cl_out cl_err map_err].
  rewrite bind_run. unfold on_link at 1. cbn [cl_daemon cl_out cl_err].
  rewrite (link_exchange _ _ _ _ _ _ _ _ _ Hw Hf Hh Hf'). cbn [map_err].
  rewrite bind_run. unfold on_link, lift, read_frame at 1. by rewrite decide_True.
Qed.

Lemma admin_view_update a s : admin_view (admin_update a s) = a.
Proof. by destruct a. Qed.

(** ** Claims *)

(** C13: A request over the socket is a call of the handler.  Let the client reach the
    daemon and write its request, and let the frames of the request and of the answer be
    within the limits.  When the answer is there within the client's read timeout, the
    configuration tool gets exactly the answer of [handle_admin_request] for the process
    and user the kernel names, and so does the command line; when it comes later, both
    report a timeout.  In both cases the daemon is left in exactly the state that call
    leaves it in: a request reported as timed out has taken effect. *)
Theorem admin_call_transparent senv aenv pid uid delay request timeout s a resp out err :
  wire_ok (mkIpcEnvelope (Some (MsgAdminRequest request))) → fits (mkIpcEnvelope (Some (MsgAdminRequest request))) →
  handler aenv request pid uid (admin_view s) = (a, resp) →
  wire_ok (envelope_admin_response resp) → fits (envelope_admin_response resp) →
  send_admin_request_with_read_timeout (daemon_link senv aenv pid uid delay) early_eof decode_error request timeout s
  = (admin_update a s, if decide (delay ≤ timeout) then Ok resp else Err ResponseTimeout) ∧
  send_admin (daemon_link senv aenv pid uid delay) early_eof elapsed decode_error request timeout (mkCli s out err)
  = (mkCli (admin_update a s) out err, if decide (delay ≤ timeout) then Ok resp else Err (Failed elapsed)).
Proof.
  intros Hw Hf Hh Hw' Hf'. case_decide as Hd; [split; [by apply gui_call_run|by apply cli_call_run]|].
  split; [eapply gui_call_late|eapply cli_call_late]; try done; lia.
Qed.

Context `{!JsonLaws ClientConfig JC} `{!TomlLaws T}.

(** A server whose store and settings are in order, administered by [pid] and [uid]. *)
Record manageable (aenv : AdminEnv) (pid uid tuid : Z) (s : Server) : Prop := {
  mg_auth : ∃ identity, may_administer (ae_peer aenv) pid uid identity;
  mg_manager : ds_config_manager (sv_daemon s) = new_manager;
  mg_ready : store_ready new_manager tuid (sw_world (sv_session s));
  mg_root : w_euid (sw_world (sv_session s)) = 0;
  mg_toml : toml_ok (settings (sw_world (sv_session s)));
  mg_tpm : tpm_mode feature_tpm (sw_world (sv_session s)) = false;
}.

(** What the tool's user types is what it shows.  Saving a host name, a port and the two
    switches through the configuration tool succeeds, and asking for the configuration
    afterwards shows the trimmed name and the same values. *)
Theorem gui_settings_roundtrip senv aenv pid uid tuid delay h port ble net s :
  manageable aenv pid uid tuid s → 1 ≤ port ≤ 65535 → trim h ≠ EmptyString → delay ≤ 120 * 1000 →
  fits (mkIpcEnvelope (Some (MsgAdminRequest (mkAdminRequest (Some (AdmSaveConfig
    (mkSaveConfigRequest h port (Some ble) (Some net)))))))) →
  fits (mkIpcEnvelope (Some (MsgAdminRequest (mkAdminRequest (Some AdmGetConfig))))) →
  fits (envelope_admin_response empty_success) →
  fits (envelope_admin_response (success_with (AdmConfig (trim h) port ble net))) →
  ∃ s', gui_save_config (daemon_link senv aenv pid uid delay) early_eof decode_error h port ble net s = (s', Ok ()) ∧
    gui_get_config (daemon_link senv aenv pid uid delay) early_eof decode_error s'
    = (s', Ok (mkClientConfigValues (trim h) port ble net)).
Proof.
  intros [[identity Ha] Hm Hr He Ht Htpm] Hp Hh Hd Hf1 Hf2 Hf3 Hf4.
  destruct (admin_save_run feature_tpm show_config_error show_crypto_error show_protocol_error show_peer_error to_rfc3339
    aenv (mkAdminRequest (Some (AdmSaveConfig (mkSaveConfigRequest h port (Some ble) (Some net))))) pid uid identity
    (mkSaveConfigRequest h port (Some ble) (Some net)) tuid (admin_view s)) as (a & Hs & Hset & _ & Hm' & Hr' & Hcfg); [done..|].
  exists (admin_update a s). unfold gui_save_config, gui_get_config, send_admin_request. rewrite !bind_run.
  rewrite (gui_call_run senv aenv pid uid delay _ (120 * 1000) s a empty_success); [|change (u32 port); unfold u32; lia|done..].
  split; [done|]. rewrite <-Hm' in Hcfg.
  pose proof (admin_get_config_run feature_tpm show_config_error show_crypto_error show_protocol_error show_peer_error to_rfc3339
    aenv (mkAdminRequest (Some AdmGetConfig)) pid uid identity _ a eq_refl Ha (sr_quiet _ _ _ Hr') Hcfg) as Hget.
  rewrite Hset in Hget. cbn [requested udp_port enable_ble enable_network scr_udp_port scr_enable_ble scr_enable_network
    default scr_hostname hostname] in Hget.
  rewrite (gui_call_run senv aenv pid uid delay _ (120 * 1000) (admin_update a s) a
    (success_with (AdmConfig (trim h) port ble net)));
    [|done|done|rewrite admin_view_update; exact Hget|split; [done|change (u32 port); unfold u32; lia]|done|done].
  cbn. unfold as_u16. rewrite Z.mod_small by lia. by destruct a, s.
Qed.

Lemma admin_or_die_run senv aenv pid uid delay prefix p timeout out err s a payload :
  wire_ok (mkIpcEnvelope (Some (MsgAdminRequest (mkAdminRequest (Some p))))) →
  fits (mkIpcEnvelope (Some (MsgAdminRequest (mkAdminRequest (Some p))))) →
  handler aenv (mkAdminRequest (Some p)) pid uid (admin_view s) = (a, mkAdminResponse ADMIN_SUCCESS "" payload) →
  wire_ok (envelope_admin_response (mkAdminResponse ADMIN_SUCCESS "" payload)) →
  fits (envelope_admin_response (mkAdminResponse ADMIN_SUCCESS "" payload)) → delay ≤ timeout →
  admin_or_die (daemon_link senv aenv pid uid delay) early_eof elapsed decode_error prefix p timeout (mkCli s out err)
  = (mkCli (admin_update a s) out err, Ok payload).
Proof.
  intros. unfold admin_or_die. rewrite bind_run.
  by rewrite (cli_call_run senv aenv pid uid delay _ timeout out err s a (mkAdminResponse ADMIN_SUCCESS "" payload)).
Qed.

Context (debug_users : list string → string) (cli_pid : Z).

(** [set-transports] changes the switches it names and nothing else.  With a host name,
    stored or the system's, and valid settings, the command reads the configuration and
    writes it back: afterwards the settings differ at most in the transports given on
    the command line, the host name is the same, and the command reports success. *)
Theorem cli_set_transports_exact senv aenv pid uid tuid delay args ble net h out err s :
  let c := settings (sw_world (sv_session s)) in
  manageable aenv pid uid tuid s →
  load_config new_manager (sw_world (sv_session s)) = (sw_world (sv_session s), Ok (mkClientConfig h)) →
  trim h = h → h ≠ EmptyString → 1 ≤ udp_port c ≤ 65535 → delay ≤ 10 * 1000 →
  parse_transports (S := Server) bool_error args None None (mkCli s out err) = (mkCli s out err, Ok (ble, net)) →
  fits (mkIpcEnvelope (Some (MsgAdminRequest (mkAdminRequest (Some AdmGetConfig))))) →
  fits (envelope_admin_response (success_with (AdmConfig h (udp_port c) (enable_ble c) (enable_network c)))) →
  fits (mkIpcEnvelope (Some (MsgAdminRequest (mkAdminRequest (Some (AdmSaveConfig
    (mkSaveConfigRequest h (udp_port c) ble net))))))) →
  fits (envelope_admin_response empty_success) →
  ∃ s', cli_main (daemon_link senv aenv pid uid delay) early_eof elapsed decode_error int_error bool_error debug_users
      cli_pid ("set-transports"%string :: args) (mkCli s out err)
    = (mkCli s' (out ++ ["CONFIG_SAVED=true"%string]) err, Ok ()) ∧
    settings (sw_world (sv_session s')) = mkTapAuthConfig (pam_operation_timeout_secs c) (pam_gui_timeout_secs c)
      (udp_port c) (default (enable_network c) net) (default (enable_ble c) ble) (use_tpm c) (tpm_pcr_policy c) ∧
    load_config new_manager (sw_world (sv_session s')) = (sw_world (sv_session s'), Ok (mkClientConfig h)).
Proof.
  intros c [[identity Ha] Hm Hr He Ht Htpm] Hcfg Htrim Hh Hp Hd Hargs Hf1 Hf2 Hf3 Hf4.
  pose proof (admin_get_config_run feature_tpm show_config_error show_crypto_error show_protocol_error show_peer_error to_rfc3339
    aenv (mkAdminRequest (Some AdmGetConfig)) pid uid identity (mkClientConfig h) (admin_view s) eq_refl Ha (sr_quiet _ _ _ Hr)) as Hget.
  simpl in Hget. rewrite Hm in Hget. specialize (Hget Hcfg). cbn [hostname] in Hget. fold c in Hget.
  destruct (admin_save_run feature_tpm show_config_error show_crypto_error show_protocol_error show_peer_error to_rfc3339
    aenv (mkAdminRequest (Some (AdmSaveConfig (mkSaveConfigRequest h (udp_port c) ble net)))) pid uid identity
    (mkSaveConfigRequest h (udp_port c) ble net) tuid (admin_view s)) as (a & Hs & Hset & _ & _ & _ & Hcfg');
    [done..|by cbn [scr_hostname]; rewrite Htrim|].
  assert (Hsame : admin_update (admin_view s) s = s) by by destruct s as [? [] ? ? ?].
  exists (admin_update a s). simpl in *. rewrite Htrim in Hcfg'. split; [|by rewrite Hset].
  unfold cmd_set_transports. rewrite bind_run, Hargs, bind_run.
  rewrite (admin_or_die_run senv aenv pid uid delay _ _ _ _ _ s (admin_view s)
    (Some (AdmConfig h (udp_port c) (enable_ble c) (enable_network c))));
    [|done|done|exact Hget|split; [done|change (u32 (udp_port c)); unfold u32; lia]|done|done].
  rewrite Hsame, bind_run. cbn [mret M_ret]. rewrite bind_run.
  by rewrite (admin_or_die_run senv aenv pid uid delay _ _ _ _ _ s a None);
    [|change (u32 (udp_port c)); unfold u32; lia|done|exact Hs|done|done|done].
Qed.
End client.

(** The configuration tool accepts an answer exactly when the connection is made, the
    request is written, and in time there is a frame of at most 10 MiB that decodes to
    an administrative response; everything else is an error. *)
Theorem gui_reply_exact `{KI : !Codec IpcEnvelope} {S} (link : Link S) early_eof decode_error request timeout s s' resp :
  send_admin_request_with_read_timeout link early_eof decode_error request timeout s = (s', Ok resp) ↔
  ∃ s1 reply body rest, lk_connect link s = (s1, Ok ()) ∧
    lk_write link (frame (encode_to_vec (mkIpcEnvelope (Some (MsgAdminRequest request))))) s1 = (s', Ok reply) ∧
    rp_at reply ≤ timeout ∧ rp_bytes reply = to_be_bytes 4 (Z.of_nat (length body)) ++ body ++ rest ∧
    Z.of_nat (length body) ≤ MAX_REPLY ∧ decode body = Some (mkIpcEnvelope (Some (MsgAdminResponse resp))).
Proof.
  unfold send_admin_request_with_read_timeout, timed. split.
  - intros Hs. rewrite bind_run in Hs. unfold mapM_err at 1 in Hs.
    destruct (lk_connect link s) as [s1 [[]|]]; [|done]. simpl in Hs. rewrite bind_run in Hs. unfold mapM_err at 1 in Hs.
    destruct (lk_write link _ s1) as [s2 [reply|]] eqn:Ew; [|done]. cbn [map_err] in Hs. rewrite bind_run in Hs.
    unfold mapM_err, lift at 1 in Hs.
    destruct (read_frame _ _ timeout reply) as [body|] eqn:Er; [|done]. cbn [map_err] in Hs.
    apply read_frame_Ok in Er as (Ht & Hl & rest & Hb). unfold lift in Hs. rewrite bind_run in Hs.
    destruct (decode body) as [[[[]|]]|] eqn:Ed; simpl in Hs; simplify_eq. munfold. simplify_eq.
    by exists s1, reply, body, rest.
  - intros (s1 & reply & body & rest & Hc & Hw & Ht & Hb & Hl & Hd).
    rewrite bind_run. unfold mapM_err at 1. rewrite Hc. cbn [map_err]. rewrite bind_run. unfold mapM_err at 1.
    rewrite Hw. cbn [map_err]. rewrite bind_run. unfold mapM_err, lift at 1.
    rewrite (proj2 (read_frame_Ok early_eof "frame too large" timeout reply body) (conj Ht (conj Hl (ex_intro _ rest Hb)))).
    cbn [map_err]. unfold lift. by rewrite bind_run, Hd.
Qed.

(** ** Witnesses: a daemon reached over its socket *)

Definition toy_server : Server := mkServer toy_daemon toy_session_world ∅ None 0.
Definition toy_link : Link Server :=
  daemon_link true true no_text "" no_text no_text no_text no_text no_text (toy_session_env []) toy_admin_env 42 1000 5.

Ltac fits_now := split; [by vm_compute|by vm_compute].

Lemma toy_manageable : manageable true toy_admin_env 42 1000 990 toy_server.
Proof.
  split; [exists toy_identity; exact toy_authorised|exact eq_refl|exact quiet_ready|exact eq_refl|by vm_compute|by vm_compute].
Qed.

Lemma admin_call_transparent_witness :
  ∃ s' resp, send_admin_request_with_read_timeout toy_link "" no_text (mkAdminRequest (Some AdmGetDaemonStatus)) 120000 toy_server
    = (s', Ok resp) ∧ adr_payload resp = Some (AdmDaemonStatus true "").
Proof.
  destruct (toy_handle toy_admin_env (mkAdminRequest (Some AdmGetDaemonStatus)) 42 1000 (admin_view toy_server)) as [a resp] eqn:E.
  assert (resp = success_with (AdmDaemonStatus true "")) as ->.
  { change resp with (a, resp).2. rewrite <-E. vm_compute. exact eq_refl. }
  destruct (admin_call_transparent true true no_text "" no_text no_text no_text no_text no_text "" "" no_text
    (toy_session_env []) toy_admin_env 42 1000 5 (mkAdminRequest (Some AdmGetDaemonStatus)) 120000 toy_server a
    (success_with (AdmDaemonStatus true "")) [] []) as [Hg _];
    [done|fits_now|exact E|by repeat split|fits_now|].
  eexists _, _. split; [exact Hg|exact eq_refl].
Defined.

Lemma gui_settings_roundtrip_witness :
  ∃ s', gui_save_config toy_link "" no_text " desk" 5000 false true toy_server = (s', Ok ()) ∧
    gui_get_config toy_link "" no_text s' = (s', Ok (mkClientConfigValues "desk" 5000 false true)).
Proof.
  apply (gui_settings_roundtrip true true no_text "" no_text no_text no_text no_text no_text "" no_text
    (toy_session_env []) toy_admin_env 42 1000 990 5 " desk" 5000 false true toy_server toy_manageable);
    [lia|by vm_compute|lia|fits_now..].
Defined.

Lemma cli_set_transports_exact_witness :
  ∃ s', cli_main toy_link "" "" no_text no_text no_text no_text 7
      ["set-transports"%string; "--ble"%string; "false"%string] (mkCli toy_server [] [])
    = (mkCli s' ["CONFIG_SAVED=true"%string] [], Ok ()) ∧
    enable_ble (settings (sw_world (sv_session s'))) = false ∧ enable_network (settings (sw_world (sv_session s'))) = true.
Proof.
  destruct (cli_set_transports_exact true true no_text "" no_text no_text no_text no_text no_text "" "" no_text no_text no_text
    no_text 7 (toy_session_env []) toy_admin_env 42 1000 990 5 ["--ble"%string; "false"%string] (Some false) None "laptop"
    [] [] toy_server toy_manageable) as (s' & Hs & Hset & _);
    [exact eq_refl|by vm_compute|done|by vm_compute|lia|exact eq_refl|fits_now..|].
  exists s'. split; [exact Hs|]. rewrite Hset. split; vm_compute; exact eq_refl.
Defined.
