(* ===== verification/Gui.v ===== *)
(** * The configuration tool: [client-config-gui/src/app.rs], [screens.rs],
    [screens/*.rs], [main.rs] and [utils/*.rs]

    A screen receives a message, changes, and may start a task; a task runs on its own
    and ends with another message.  Screens are records, tasks are data ([GuiTask]) and
    [perform] runs them over the connection of [GuiIpc].  What a screen shows is its
    list of widgets, without layout and colours. *)

From stdpp Require Import base gmap strings list.
From Stdlib Require Import Strings.Ascii.
From S2P Require Import Prelude Os Text Crypto Protocol Config PairingUrl Ipc Locale GuiIpc.

(** [n.to_string()] and [format!("{}", n)] of an unsigned number. *)
Definition show_uint (n : Z) : string := String.string_of_list_ascii (dec (Z.to_N n)).
(** [s.parse::<u16>()] *)
Definition parse_u16 (s : string) : option Z := Z.of_N <$> parse_uint 16 (chars s).

Definition starts_with (p s : string) : bool := bool_decide (is_Some (strip_prefix (chars p) (chars s))).

(** [s.split(sep).nth(1)] for a text [sep]: between its first two occurrences. *)
Fixpoint before_text (sep l : list ascii) : list ascii :=
  match strip_prefix sep l with
  | Some _ => []
  | None => match l with [] => [] | c :: l' => c :: before_text sep l' end
  end.
Fixpoint after_text (sep l : list ascii) : option (list ascii) :=
  match strip_prefix sep l with
  | Some r => Some r
  | None => match l with [] => None | _ :: l' => after_text sep l' end
  end.
Definition second_piece (sep l : list ascii) : option (list ascii) := before_text sep <$> after_text sep l.

(** [s.splitn(3, c)] *)
Fixpoint cut (c : ascii) (l : list ascii) : list ascii * option (list ascii) :=
  match l with
  | [] => ([], None)
  | d :: l' => if decide (d = c) then ([], Some l') else let '(a, r) := cut c l' in (d :: a, r)
  end.
Definition splitn3 (c : ascii) (l : list ascii) : list (list ascii) :=
  match cut c l with
  | (a, None) => [a]
  | (a, Some l1) => match cut c l1 with
                    | (b, None) => [a; b]
                    | (b, Some l2) => [a; b; l2]
                    end
  end.

Definition text_of (l : list ascii) : string := String.string_of_list_ascii l.

(** [", "] between the elements *)
Fixpoint join_with (sep : string) (l : list string) : string :=
  match l with
  | [] => ""
  | [a] => a
  | a :: l' => a +:+ sep +:+ join_with sep l'
  end.

(** ** Messages *)

Inductive ScreenMessage :=
| NavigateToMainMenu | NavigateToPairing | NavigateToDeviceList | NavigateToSettings
| StartPairing | ViewDevices | OpenSettings
| PairingStarted
| PairingComplete_ (data : string)       (* a URL, an authentication string or a device *)
| PairingFailed (e : GuiIpcError)
| PairingCancelled
| PairingSASConfirmed
| RemoveDevice (device_id : string)
| DevicesLoaded (devices : gmap string PairedServer)
| RotateCSK | CSKRotated
| CSKRotationFailed (e : GuiIpcError)
| HostnameChanged (s : string)
| UdpPortChanged (s : string)
| BleEnabledChanged (b : bool)
| NetworkEnabledChanged (b : bool)
| SaveConfig | ConfigSaved
| ConfigSaveFailed (e : GuiIpcError)
| ConfigLoaded (c : ClientConfigValues)
| LocaleChanged (code : string)
(* builds with TPM support *)
| TPMStatusChecked (e : option string)
| RecoverFromTPMFailure
| TPMRecoveryComplete
| TPMRecoveryFailed (e : GuiIpcError).

(** ** Tasks *)

Inductive GuiTask :=
| TaskNone
| TaskDone (m : ScreenMessage)
| DoStartPairing
| DoWaitForPairing (port : Z) (cancel : nat)
| DoCompletePairing (port : Z)
| DoLoadDevices
| DoRemoveDevice (device_id : string)
| DoGetConfig
| DoSaveConfig (hostname : string) (udp_port : Z) (ble net : bool)
| DoRotateCsk
| DoRecoverTpm
| DoCheckTpm.

(** [tokio::sync::Notify] handles: the next new one, and those with a stored permit. *)
Record Notifies := mkNotifies { nf_next : nat; nf_permits : gset nat }.
Definition notify_new (n : Notifies) : Notifies * nat := (mkNotifies (S (nf_next n)) (nf_permits n), nf_next n).
Definition notify_one (i : nat) (n : Notifies) : Notifies := mkNotifies (nf_next n) ({[i]} ∪ nf_permits n).
Definition notified (i : nat) (n : Notifies) : Notifies := mkNotifies (nf_next n) (nf_permits n ∖ {[i]}).

(** QR codes of the widget library; a text may be too long for one. *)
Class QrCode := { QrData : Type; qr_new : string → option QrData }.

(** ** What the process sees of the system *)

(** [utils/identity.rs] *)
Record IdEnv := mkIdEnv {
  id_user : result () (option string);   (* [User::from_uid(geteuid())] *)
  id_whoami : result () string;
}.
Definition get_username (e : IdEnv) : string :=
  match id_user e with
  | Ok (Some name) => name
  | _ => match id_whoami e with Ok n => n | Err _ => "unknown" end
  end.

Record GuiEnv := mkGuiEnv {
  ge_tpm : bool;                       (* built with TPM support *)
  ge_tables : Tables;
  ge_id : IdEnv;
  ge_world : World;                    (* files and host name *)
  ge_rfc3339 : string → option Z;      (* [DateTime::parse_from_rfc3339] *)
  ge_now : Z;
}.

(** ** Errors as texts: [GuiIpcError::localized] *)

Section gui_screens.
Context `{F : Fluent} `{Q : QrCode} `{T : Toml} (env : GuiEnv).

Definition localized (e : GuiIpcError) (l : L10n) : string :=
  match e with
  | ConnectionTimeout => tr l "error-ipc-connection-timeout"
  | ConnectionFailed detail => tr_args l "error-ipc-connection-failed" [("detail", detail)]%string
  | SendTimeout => tr l "error-ipc-send-timeout"
  | SendFailed detail => tr_args l "error-ipc-send-failed" [("detail", detail)]%string
  | ResponseTimeout => tr l "error-ipc-response-timeout"
  | ReadFailed detail => tr_args l "error-ipc-read-failed" [("detail", detail)]%string
  | DecodeFailed detail => tr_args l "error-ipc-decode-failed" [("detail", detail)]%string
  | UnexpectedEnvelope => tr l "error-ipc-unexpected-envelope"
  | GuiDaemonError detail => detail
  | UnexpectedResponse => tr l "error-ipc-unexpected-response"
  end.

(** ** The main menu *)

Record MainMenuScreen := mkMainMenu {
  mm_l10n : L10n;
  tpm_error : option string;
  recovery_status : option string;
}.

Definition main_menu_new (l : L10n) : MainMenuScreen * GuiTask :=
  (mkMainMenu l None None, if ge_tpm env then DoCheckTpm else TaskNone).

Definition main_menu_update (s : MainMenuScreen) (message : ScreenMessage) : MainMenuScreen * GuiTask :=
  match message with
  | StartPairing => (s, TaskDone NavigateToPairing)
  | ViewDevices => (s, TaskDone NavigateToDeviceList)
  | OpenSettings => (s, TaskDone NavigateToSettings)
  | _ =>
      if negb (ge_tpm env) then (s, TaskNone) else
      match message with
      | TPMStatusChecked error =>
          (match error with
           | Some e => mkMainMenu (mm_l10n s) (Some e) (recovery_status s)
           | None => s
           end, TaskNone)
      | RecoverFromTPMFailure =>
          (mkMainMenu (mm_l10n s) (tpm_error s) (Some (tr (mm_l10n s) "label-recovering")), DoRecoverTpm)
      | TPMRecoveryComplete =>
          (mkMainMenu (mm_l10n s) None (Some (tr (mm_l10n s) "label-recovery-success")), TaskNone)
      | TPMRecoveryFailed e =>
          let msg := localized e (mm_l10n s) in
          (mkMainMenu (mm_l10n s) (tpm_error s)
             (Some (tr_args (mm_l10n s) "label-recovery-failed" [("error", msg)]%string)), TaskNone)
      | _ => (s, TaskNone)
      end
  end.

(** ** Pairing *)

Inductive PairingState :=
| Loading
| ShowingQRCode (url : string) (qr_data : QrData)
| VerifyingSAS (sas : string) (port : Z)
| CompletingPairing
| PairSuccess (device_id : string)
| PairError (error : GuiIpcError).

Record PairingScreen := mkPairingScreen {
  ps_l10n : L10n;
  ps_state : PairingState;
  cancel_wait : option nat;
}.

Definition pairing_new (l : L10n) : PairingScreen := mkPairingScreen l Loading None.

(** [data.split("&p=").nth(1).and_then(|s| s.split('&').next())], parsed *)
Definition url_port (data : string) : option Z :=
  s ← second_piece (chars "&p=") (chars data);
  port_str ← head (split "&"%char s);
  Z.of_N <$> parse_uint 16 port_str.

Definition pairing_complete (s : PairingScreen) (data : string) (n : Notifies)
    : Notifies * (PairingScreen * GuiTask) :=
  if starts_with "tapauth://" data then
    match qr_new data with
    | None => (n, (s, TaskDone (PairingFailed (GuiDaemonError "Failed to generate QR code"))))
    | Some qr_data =>
        match url_port data with
        | Some port =>
            let '(n, cancel) := notify_new n in
            (n, (mkPairingScreen (ps_l10n s) (ShowingQRCode data qr_data) (Some cancel), DoWaitForPairing port cancel))
        | None => (n, (mkPairingScreen (ps_l10n s) (ShowingQRCode data qr_data) (cancel_wait s), TaskNone))
        end
    end
  else if starts_with "SAS:" data then
    let state := match splitn3 ":"%char (chars data) with
                 | [_; sas; port] => VerifyingSAS (text_of sas) (default 0 (parse_u16 (text_of port)))
                 | _ => ps_state s
                 end in
    (n, (mkPairingScreen (ps_l10n s) state None, TaskNone))
  else (n, (mkPairingScreen (ps_l10n s) (PairSuccess data) (cancel_wait s), TaskNone)).

Definition pairing_update (s : PairingScreen) (message : ScreenMessage) (n : Notifies)
    : Notifies * (PairingScreen * GuiTask) :=
  match message with
  | PairingStarted => (n, (mkPairingScreen (ps_l10n s) Loading (cancel_wait s), DoStartPairing))
  | PairingComplete_ data => pairing_complete s data n
  | PairingSASConfirmed =>
      match ps_state s with
      | VerifyingSAS _ port => (n, (mkPairingScreen (ps_l10n s) CompletingPairing (cancel_wait s), DoCompletePairing port))
      | _ => (n, (s, TaskNone))
      end
  | PairingFailed error => (n, (mkPairingScreen (ps_l10n s) (PairError error) None, TaskNone))
  | PairingCancelled =>
      (match cancel_wait s with Some cancel => notify_one cancel n | None => n end,
       (mkPairingScreen (ps_l10n s) (ps_state s) None, TaskDone NavigateToMainMenu))
  | _ => (n, (s, TaskNone))
  end.

(** ** Paired devices *)

Definition convert_to_paired_server (info : PairedServerInfo) : string * PairedServer :=
  let paired_at := default (ge_now env) (ge_rfc3339 env (psi_paired_at info)) in
  (psi_public_key info, mkPairedServer (psi_name info) (psi_public_key info) (psi_allowed_users info) paired_at).

(** [.collect()] into a map: the last entry of a key stays. *)
Definition collect_devices (l : list PairedServerInfo) : gmap string PairedServer :=
  foldl (λ m info, let '(k, v) := convert_to_paired_server info in <[k := v]> m) ∅ l.

Record DeviceListScreen := mkDeviceList {
  dl_l10n : L10n;
  devices : gmap string PairedServer;
  current_username : string;
  loading : bool;
  dl_error : option GuiIpcError;
}.

Definition device_list_new (l : L10n) : DeviceListScreen * GuiTask :=
  (mkDeviceList l ∅ (get_username (ge_id env)) true None, DoLoadDevices).

Definition device_list_update (s : DeviceListScreen) (message : ScreenMessage) : DeviceListScreen * GuiTask :=
  match message with
  | NavigateToDeviceList => (mkDeviceList (dl_l10n s) (devices s) (current_username s) true None, DoLoadDevices)
  | DevicesLoaded d => (mkDeviceList (dl_l10n s) d (current_username s) false None, TaskNone)
  | RemoveDevice device_id =>
      (mkDeviceList (dl_l10n s) (delete device_id (devices s)) (current_username s) (loading s) (dl_error s),
       DoRemoveDevice device_id)
  | PairingFailed e => (mkDeviceList (dl_l10n s) (devices s) (current_username s) false (Some e), TaskNone)
  | _ => (s, TaskNone)
  end.

(** ** Settings *)

Record LocaleOption := mkLocaleOption { code : string; display : string }.
Definition locale_options : list LocaleOption :=
  (λ c, mkLocaleOption c (locale_display_name (ge_tables env) c)) <$> AVAILABLE_LOCALES (ge_tables env).

Record SettingsScreen := mkSettings {
  st_l10n : L10n;
  rotating_csk : bool;
  st_error : option string;
  st_success : option string;
  hostname_input : string;
  udp_port_input : string;
  ble_enabled : bool;
  network_enabled : bool;
}.

Definition settings_new (l : L10n) : SettingsScreen := mkSettings l false None None "" "" true true.

(** The status line and the rotation in progress, with the inputs kept. *)
Definition status (s : SettingsScreen) (rotating : bool) (error success : option string) : SettingsScreen :=
  mkSettings (st_l10n s) rotating error success (hostname_input s) (udp_port_input s) (ble_enabled s) (network_enabled s).
Definition inputs (s : SettingsScreen) (hostname port : string) (ble net : bool) : SettingsScreen :=
  mkSettings (st_l10n s) (rotating_csk s) (st_error s) (st_success s) hostname port ble net.

Definition settings_update (s : SettingsScreen) (message : ScreenMessage) : SettingsScreen * GuiTask :=
  match message with
  | RotateCSK => (status s true None None, DoRotateCsk)
  | CSKRotated => (status s false None (Some (tr (st_l10n s) "settings-csk-rotated")), TaskNone)
  | CSKRotationFailed e => (status s false (Some (localized e (st_l10n s))) None, TaskNone)
  | HostnameChanged h => (inputs s h (udp_port_input s) (ble_enabled s) (network_enabled s), TaskNone)
  | UdpPortChanged p => (inputs s (hostname_input s) p (ble_enabled s) (network_enabled s), TaskNone)
  | BleEnabledChanged b => (inputs s (hostname_input s) (udp_port_input s) b (network_enabled s), TaskNone)
  | NetworkEnabledChanged b => (inputs s (hostname_input s) (udp_port_input s) (ble_enabled s) b, TaskNone)
  | SaveConfig =>
      let s := status s (rotating_csk s) None None in
      let invalid := (status s (rotating_csk s) (Some (tr (st_l10n s) "settings-invalid-port")) None, TaskNone) in
      match parse_u16 (udp_port_input s) with
      | Some p =>
          if decide (0 < p) then (s, DoSaveConfig (hostname_input s) p (ble_enabled s) (network_enabled s)) else invalid
      | None => invalid
      end
  | ConfigSaved => (status s (rotating_csk s) None (Some (tr (st_l10n s) "settings-config-saved")), TaskNone)
  | ConfigSaveFailed e => (status s (rotating_csk s) (Some (localized e (st_l10n s))) None, TaskNone)
  | ConfigLoaded c => (inputs s (cv_hostname c) (show_uint (cv_udp_port c)) (cv_enable_ble c) (cv_enable_network c), TaskNone)
  | _ => (s, TaskNone)
  end.

(** ** All screens: [screens.rs] and [app.rs] *)

Inductive Screen :=
| MainMenu (s : MainMenuScreen)
| Pairing (s : PairingScreen)
| DeviceList (s : DeviceListScreen)
| Settings (s : SettingsScreen).

Definition set_l10n (l : L10n) (s : Screen) : Screen :=
  match s with
  | MainMenu s => MainMenu (mkMainMenu l (tpm_error s) (recovery_status s))
  | Pairing s => Pairing (mkPairingScreen l (ps_state s) (cancel_wait s))
  | DeviceList s => DeviceList (mkDeviceList l (devices s) (current_username s) (loading s) (dl_error s))
  | Settings s => Settings (mkSettings l (rotating_csk s) (st_error s) (st_success s) (hostname_input s)
                              (udp_port_input s) (ble_enabled s) (network_enabled s))
  end.

Definition default_with_l10n (l : L10n) : Screen * GuiTask :=
  let '(s, t) := main_menu_new l in (MainMenu s, t).

Definition screen_update (s : Screen) (message : ScreenMessage) (l : L10n) (n : Notifies) : Notifies * (Screen * GuiTask) :=
  match message with
  | NavigateToMainMenu => let '(s, t) := main_menu_new l in (n, (MainMenu s, t))
  | NavigateToPairing => (n, (Pairing (pairing_new l), TaskDone PairingStarted))
  | NavigateToDeviceList => let '(s, t) := device_list_new l in (n, (DeviceList s, t))
  | NavigateToSettings => (n, (Settings (settings_new l), DoGetConfig))
  | LocaleChanged _ => (n, (set_l10n l s, TaskNone))
  | _ =>
      match s with
      | MainMenu s => let '(s, t) := main_menu_update s message in (n, (MainMenu s, t))
      | Pairing s => let '(n, (s, t)) := pairing_update s message n in (n, (Pairing s, t))
      | DeviceList s => let '(s, t) := device_list_update s message in (n, (DeviceList s, t))
      | Settings s => let '(s, t) := settings_update s message in (n, (Settings s, t))
      end
  end.

Record App := mkApp {
  app_l10n : L10n;
  current_screen : Screen;
  username : string;
}.

Definition app_new (loc user : string) : App * GuiTask :=
  let l := l10n_new (ge_tables env) loc in
  let '(s, t) := default_with_l10n l in
  (mkApp l s user, t).

Definition app_update (a : App) (message : ScreenMessage) (n : Notifies) (u : UserEnv)
    : Notifies * UserEnv * (App * GuiTask) :=
  let '(l, u) := match message with
                 | LocaleChanged loc => (l10n_new (ge_tables env) loc, save_user_locale (username a) loc u)
                 | _ => (app_l10n a, u)
                 end in
  let '(n, (s, t)) := screen_update (current_screen a) message l n in
  (n, u, (mkApp l s (username a), t)).

(** ** What is shown *)

Inductive Widget :=
| Text (s : string)
| Button (label : string) (on_press : option ScreenMessage)
| TextInput (placeholder value : string) (on_input : string → ScreenMessage)
| Checkbox (checked : bool) (label : string) (on_toggle : bool → ScreenMessage)
| PickList (options : list LocaleOption) (selected : option LocaleOption) (on_select : LocaleOption → ScreenMessage)
| QRCode (d : QrData).

(** What a user can make a widget send. *)
Definition sends (w : Widget) (m : ScreenMessage) : Prop :=
  match w with
  | Text _ | QRCode _ => False
  | Button _ p => p = Some m
  | TextInput _ _ f => ∃ s, m = f s
  | Checkbox _ _ f => ∃ b, m = f b
  | PickList os _ f => ∃ o, o ∈ os ∧ m = f o
  end.

Definition main_menu_view (s : MainMenuScreen) : list Widget :=
  let l := mm_l10n s in
  [Text (tr l "title-main-menu")] ++
  (if ge_tpm env then
     match tpm_error s with
     | Some error => [Text (tr_args l "label-tpm-error" [("error", error)]%string);
                      Button (tr l "btn-recover-keys") (Some RecoverFromTPMFailure)]
     | None => []
     end ++ match recovery_status s with Some st => [Text st] | None => [] end
   else []) ++
  [Button (tr l "btn-pair-new-device") (Some StartPairing);
   Button (tr l "btn-manage-devices") (Some ViewDevices);
   Button (tr l "btn-settings") (Some OpenSettings)].

Definition view_loading (l : L10n) : list Widget := [Text (tr l "pairing-preparing"); Text (tr l "label-please-wait")].
Definition view_qr_code (l : L10n) (url : string) (qr_data : QrData) : list Widget :=
  [Text (tr l "pairing-scan-qr"); QRCode qr_data; Text (tr l "pairing-enter-manually"); Text url;
   Button (tr l "btn-cancel") (Some PairingCancelled)].
Definition view_completing (l : L10n) : list Widget := [Text (tr l "pairing-completing"); Text (tr l "label-please-wait")].
Definition view_sas_verification (l : L10n) (sas : string) : list Widget :=
  [Text (tr l "pairing-verify-sas-title"); Text (tr l "pairing-sas-ensure-match"); Text sas;
   Button (tr l "btn-confirm") (Some PairingSASConfirmed); Button (tr l "btn-cancel") (Some PairingCancelled)].
Definition view_success (l : L10n) (device_id : string) : list Widget :=
  [Text (tr l "pairing-success"); Text (tr_args l "pairing-device-id" [("device_id", device_id)]%string);
   Button (tr l "btn-done") (Some NavigateToMainMenu)].
Definition view_error (l : L10n) (error : GuiIpcError) : list Widget :=
  [Text (tr l "pairing-failed"); Text (localized error l); Button (tr l "btn-back") (Some NavigateToMainMenu)].

Definition pairing_view (s : PairingScreen) : list Widget :=
  let l := ps_l10n s in
  match ps_state s with
  | Loading => view_loading l
  | ShowingQRCode url qr_data => view_qr_code l url qr_data
  | VerifyingSAS sas _ => view_sas_verification l sas
  | CompletingPairing => view_completing l
  | PairSuccess device_id => view_success l device_id
  | PairError error => view_error l error
  end.

(** Only devices of the user are shown. *)
Definition user_devices (s : DeviceListScreen) : gmap string PairedServer :=
  filter (λ '(_, server), current_username s ∈ allowed_users server) (devices s).

(** The identifier is cut at a byte; identifiers are hexadecimal. *)
Definition device_row (l : L10n) (device_id : string) (server : PairedServer) : list Widget :=
  let user_count := length (allowed_users server) in
  let user_info := if decide (1 < user_count)%nat
                   then tr_args l "devices-shared-info"
                          [("count"%string, show_uint (Z.of_nat (user_count - 1)));
                           ("s"%string, if decide (user_count - 1 = 1)%nat then ""%string else "s"%string)]
                   else ""%string in
  [Text (ps_name server);
   Text (tr_args l "devices-id-truncated"
           [("prefix"%string, text_of (take 8 (chars device_id)));
            ("suffix"%string, if decide (8 < String.length device_id)%nat then "..."%string else ""%string)]);
   Text (tr_args l "devices-users-list"
           [("users"%string, join_with ", " (allowed_users server)); ("info"%string, user_info)]);
   Button (tr l "btn-remove") (Some (RemoveDevice device_id))].

Definition device_list_view (s : DeviceListScreen) : list Widget :=
  let l := dl_l10n s in
  [Button (tr l "btn-back") (Some NavigateToMainMenu);
   Text (tr l "title-paired-devices");
   Text (tr_args l "devices-current-user" [("username"%string, current_username s)])] ++
  match dl_error s with Some e => [Text (localized e l)] | None => [] end ++
  if decide (user_devices s = ∅) then [Text (tr l "devices-none-for-user")]
  else '(device_id, server) ← map_to_list (user_devices s); device_row l device_id server.

Definition settings_view (s : SettingsScreen) : list Widget :=
  let l := st_l10n s in
  [Button (tr l "btn-back") (Some NavigateToMainMenu);
   Text (tr l "title-settings");
   Text (tr l "settings-config-section");
   Text (tr l "settings-hostname-label");
   TextInput (tr l "settings-hostname-placeholder") (hostname_input s) HostnameChanged;
   Text (tr l "settings-udp-port-label");
   TextInput (tr l "settings-udp-port-placeholder") (udp_port_input s) UdpPortChanged;
   Text (tr l "settings-connectivity-section");
   Checkbox (network_enabled s) (tr l "settings-enable-network") NetworkEnabledChanged;
   Checkbox (ble_enabled s) (tr l "settings-enable-ble") BleEnabledChanged;
   Text (tr l "settings-connectivity-note");
   Button (tr l "btn-save-config") (Some SaveConfig);
   Text (tr l "settings-language-section");
   PickList locale_options (snd <$> list_find (λ o, code o = locale l) locale_options) (λ opt, LocaleChanged (code opt));
   Text (tr l "settings-security-section");
   (if rotating_csk s then Button (tr l "label-rotating") None else Button (tr l "btn-rotate-csk") (Some RotateCSK));
   Text (tr l "settings-csk-warning");
   Text (match st_error s, st_success s with
         | Some error, _ => tr_args l "settings-error-prefix" [("message"%string, error)]
         | None, Some success => success
         | None, None => ""%string
         end)].

Definition screen_view (s : Screen) : list Widget :=
  match s with
  | MainMenu s => main_menu_view s
  | Pairing s => pairing_view s
  | DeviceList s => device_list_view s
  | Settings s => settings_view s
  end.

Definition title (a : App) : string := tr (app_l10n a) "app-title".

(** ** Running tasks *)

Section run.
Context `{KI : !Codec IpcEnvelope} {S : Type} (link : Link S).
Context (early_eof : string) (decode_error : bytes → string).

(** [Task::perform(call, |result| ..)] *)
Definition perform_call {A} (call : M S GuiIpcError A) (ok : A → ScreenMessage) (err : GuiIpcError → ScreenMessage) (s : S)
    : S * option ScreenMessage :=
  let '(s', r) := call s in (s', Some match r with Ok a => ok a | Err e => err e end).

(** Shown when the configuration cannot be had. *)
Definition fallback_config : ClientConfigValues :=
  let w := ge_world env in
  let host := match (default_client_config (E := ()) w).2 with Ok c => hostname c | Err _ => ""%string end in
  let toml := match (tapauth_config_load (E := ()) w).2 with Ok c => c | Err _ => default_tapauth_config end in
  mkClientConfigValues host (udp_port toml) (enable_ble toml) (enable_network toml).

(** [perform_check_tpm_status] and what the menu makes of it *)
Definition tpm_status (r : bool * string) : ScreenMessage :=
  let error := if r.1 then r.2 else ""%string in
  TPMStatusChecked (if decide (error = ""%string) then None else Some error).

Definition sas_message (r : string * Z) : ScreenMessage :=
  PairingComplete_ ("SAS:" +:+ r.1 +:+ ":" +:+ show_uint r.2)%string.

(** The tasks, by the screen that starts them: the pairing, *)
Definition start_pairing_call : S → S * option ScreenMessage :=
  perform_call (gui_start_pairing link early_eof decode_error) (λ r, PairingComplete_ r.1) PairingFailed.
Definition wait_for_pairing_call (port : Z) : S → S * option ScreenMessage :=
  perform_call (gui_wait_for_pairing link early_eof decode_error port) sas_message PairingFailed.
Definition complete_pairing_call (port : Z) : S → S * option ScreenMessage :=
  perform_call (gui_complete_pairing link early_eof decode_error port) PairingComplete_ PairingFailed.
(** the devices, *)
Definition load_devices_call : S → S * option ScreenMessage :=
  perform_call (gui_get_paired_servers link early_eof decode_error) (λ l, DevicesLoaded (collect_devices l)) PairingFailed.
Definition remove_device_call (id : string) : S → S * option ScreenMessage :=
  perform_call (gui_remove_device link early_eof decode_error id) (λ _, NavigateToDeviceList) PairingFailed.
(** the settings, *)
Definition get_config_call : S → S * option ScreenMessage :=
  perform_call (gui_get_config link early_eof decode_error) ConfigLoaded (λ _, ConfigLoaded fallback_config).
Definition save_config_call (h : string) (p : Z) (b n : bool) : S → S * option ScreenMessage :=
  perform_call (gui_save_config link early_eof decode_error h p b n) (λ _, ConfigSaved) ConfigSaveFailed.
Definition rotate_csk_call : S → S * option ScreenMessage :=
  perform_call (gui_rotate_csk link early_eof decode_error) (λ _, CSKRotated) CSKRotationFailed.
(** and the menu. *)
Definition recover_tpm_call : S → S * option ScreenMessage :=
  perform_call (gui_recover_tpm link early_eof decode_error) (λ _, TPMRecoveryComplete) TPMRecoveryFailed.
Definition check_tpm_call : S → S * option ScreenMessage :=
  perform_call (gui_get_daemon_status link early_eof decode_error) tpm_status (λ _, TPMStatusChecked None).

Definition perform (t : GuiTask) : S → S * option ScreenMessage :=
  match t with
  | TaskNone => λ s, (s, None)
  | TaskDone m => λ s, (s, Some m)
  | DoStartPairing => start_pairing_call
  | DoWaitForPairing port _ => wait_for_pairing_call port
  | DoCompletePairing port => complete_pairing_call port
  | DoLoadDevices => load_devices_call
  | DoRemoveDevice id => remove_device_call id
  | DoGetConfig => get_config_call
  | DoSaveConfig h p b n => save_config_call h p b n
  | DoRotateCsk => rotate_csk_call
  | DoRecoverTpm => recover_tpm_call
  | DoCheckTpm => check_tpm_call
  end.

(** A wait that is given up has got as far as connecting, or writing its request. *)
Definition wait_left (port : Z) (s s' : S) : Prop :=
  s' = s ∨ s' = (lk_connect link s).1 ∨
  s' = (lk_write link (frame (encode_to_vec (mkIpcEnvelope (Some (MsgAdminRequest
         (mkAdminRequest (Some (AdmWaitForPairing port)))))))) (lk_connect link s).1).1.

(** *** The running program *)

Inductive Event :=
| Pressed (m : ScreenMessage) (shown : Screen)
| Performed (t : GuiTask) (m : ScreenMessage)
| GaveUp (port : Z).

Record Gui := mkGui {
  gu_app : App;
  gu_notifies : Notifies;
  gu_user : UserEnv;
  gu_tasks : list GuiTask;      (* running *)
  gu_daemon : S;
  gu_log : list Event;          (* latest first *)
}.

(** A message is handled, and the task it starts runs from then on. *)
Definition receive (e : Event) (m : ScreenMessage) (g : Gui) : Gui :=
  let '(n, u, (a, t)) := app_update (gu_app g) m (gu_notifies g) (gu_user g) in
  mkGui a n u (match t with TaskNone => gu_tasks g | _ => t :: gu_tasks g end) (gu_daemon g) (e :: gu_log g).

Definition launch (loc user : string) (u : UserEnv) (d : S) : Gui :=
  let '(a, t) := app_new loc user in
  mkGui a (mkNotifies 0 ∅) u (match t with TaskNone => [] | _ => [t] end) d [].

(** Tasks end in any order; others use the daemon too. *)
Inductive gui_step : Gui → Gui → Prop :=
| step_press g w m :
    w ∈ screen_view (current_screen (gu_app g)) → sends w m →
    gui_step g (receive (Pressed m (current_screen (gu_app g))) m g)
| step_finish g i t d m :
    gu_tasks g !! i = Some t → perform t (gu_daemon g) = (d, Some m) →
    gui_step g (receive (Performed t m) m
      (mkGui (gu_app g) (gu_notifies g) (gu_user g) (delete i (gu_tasks g)) d (gu_log g)))
| step_give_up g i port c d :
    gu_tasks g !! i = Some (DoWaitForPairing port c) → c ∈ nf_permits (gu_notifies g) →
    wait_left port (gu_daemon g) d →
    gui_step g (receive (GaveUp port) PairingCancelled
      (mkGui (gu_app g) (notified c (gu_notifies g)) (gu_user g) (delete i (gu_tasks g)) d (gu_log g)))
| step_elsewhere g d :
    gui_step g (mkGui (gu_app g) (gu_notifies g) (gu_user g) (gu_tasks g) d (gu_log g)).

Definition gui_reachable (loc user : string) (u : UserEnv) (d : S) : Gui → Prop := rtc gui_step (launch loc user u d).
End run.
End gui_screens.

(** ** Checks at the start: [utils/system_check.rs] and [main.rs] *)

Inductive ValidationError :=
| TapauthdUserMissing
| TapauthdClientsGroupMissing
| NotInTapauthdClientsGroup.

Definition title_key (e : ValidationError) : string :=
  match e with
  | TapauthdUserMissing => "error-user-missing-title"
  | TapauthdClientsGroupMissing => "error-group-missing-title"
  | NotInTapauthdClientsGroup => "warn-group-missing-title"
  end.
Definition message_key (e : ValidationError) : string :=
  match e with
  | TapauthdUserMissing => "error-user-missing-message"
  | TapauthdClientsGroupMissing => "error-group-missing-message"
  | NotInTapauthdClientsGroup => "warn-group-missing-message"
  end.
Definition is_fatal (e : ValidationError) : bool :=
  match e with TapauthdUserMissing | TapauthdClientsGroupMissing => true | _ => false end.

(** The account data base and the process's ids. *)
Record Accounts := mkAccounts {
  ac_user : string → result () (option Z);
  ac_group : string → result () (option Z);
  ac_euid : Z;
  ac_egid : Z;
  ac_groups : result () (list Z);
}.

Definition validate_tapauthd_user (a : Accounts) : result ValidationError () :=
  match ac_user a "tapauthd" with
  | Ok (Some _) => Ok ()
  | Ok None => Err TapauthdUserMissing
  | Err _ => Err TapauthdUserMissing
  end.

Definition validate_tapauthd_clients_group (a : Accounts) : result ValidationError () :=
  match ac_group a "tapauthd-clients" with
  | Ok (Some target_gid) =>
      if decide (ac_euid a = 0) then Ok () else
      if decide (ac_egid a = target_gid) then Ok () else
      groups ← map_err (λ _, NotInTapauthdClientsGroup) (ac_groups a);
      if decide (target_gid ∈ groups) then Ok () else Err NotInTapauthdClientsGroup
  | _ => Err TapauthdClientsGroupMissing
  end.

Definition validate_all (a : Accounts) : list ValidationError :=
  let second := match validate_tapauthd_clients_group a with Err e => [e] | Ok _ => [] end in
  match validate_tapauthd_user a with
  | Err e => if is_fatal e then [e] else e :: second
  | Ok _ => second
  end.

(** The dialogs, until one is fatal: those shown, and whether the program goes on. *)
Fixpoint show_dialogs (errors : list ValidationError) : list ValidationError * bool :=
  match errors with
  | [] => ([], true)
  | e :: errors' => if is_fatal e then ([e], false) else let '(shown, go) := show_dialogs errors' in (e :: shown, go)
  end.

(** [--locale <code>] *)
Definition forced_locale (args : list string) : option string :=
  '(pos, _) ← list_find (λ a, a = "--locale"%string) args; args !! S pos.

(** [main], up to the event loop. *)
Definition gui_main `{F : Fluent} `{Q : QrCode} (env : GuiEnv) (args : list string) (acc : Accounts) (u : UserEnv)
    : list ValidationError * option (App * GuiTask) :=
  let original_user := get_username (ge_id env) in
  let locale := resolve_locale (AVAILABLE_LOCALES (ge_tables env)) (forced_locale args) u original_user in
  let '(shown, go) := show_dialogs (validate_all acc) in
  (shown, if go then Some (app_new env locale original_user) else None).
