(* ===== verification/GuiTheorems.v ===== *)
(** * Theorems about the configuration tool

    A pairing is completed only after its user has confirmed the authentication string
    the daemon answered with; the messages that carry addresses and strings between the
    steps are read back exactly; settings are sent as they are shown; only the user's own
    devices are shown. *)

From stdpp Require Import base gmap strings list relations.
From Stdlib Require Import Strings.Ascii Strings.Byte.
From S2P Require Import Prelude Os Text Crypto Protocol Config Pairing PairingUrl Network Auth Ipc Session.
From S2P Require Import SessionTheorems PeerIdentity Admin Daemon Concrete ConcreteCodec ConcreteConfig ConcreteIpc.
From S2P Require Import GuiIpc ClientTheorems Locale LocaleTheorems Gui.

(** ** Text between the steps of a pairing *)

Lemma chars_app a b : chars (a +:+ b) = chars a ++ chars b.
Proof. unfold chars. induction a as [|c a IH]; [done|]. change (c :: String.list_ascii_of_string (a +:+ b) = c :: String.list_ascii_of_string a ++ String.list_ascii_of_string b). by rewrite IH. Qed.
Lemma chars_text l : chars (text_of l) = l.
Proof. apply String.list_ascii_of_string_of_list_ascii. Qed.
Lemma text_chars s : text_of (chars s) = s.
Proof. apply String.string_of_list_ascii_of_string. Qed.

Lemma cut_app c a l : c ∉ a → cut c (a ++ c :: l) = (a, Some l).
Proof.
  induction a as [|d a IH]; cbn; intros Hc; [by rewrite decide_True|].
  rewrite decide_False by set_solver. rewrite IH by set_solver. done.
Qed.

Lemma parse_u16_show p : 0 ≤ p < 2 ^ 16 → parse_u16 (show_uint p) = Some p.
Proof.
  intros Hp. unfold parse_u16, show_uint. change (String.string_of_list_ascii (dec (Z.to_N p))) with (text_of (dec (Z.to_N p))).
  rewrite chars_text, parse_dec by lia. simpl. f_equal. lia.
Qed.

Lemma parse_u16_range s p : parse_u16 s = Some p → 0 ≤ p < 2 ^ 16.
Proof.
  unfold parse_u16. destruct (parse_uint 16 (chars s)) as [v|] eqn:E; [|done]. intros [= <-].
  unfold parse_uint in E. revert E.
  generalize (match chars s with "+"%char :: l' => l' | _ => chars s end). intros [|c body] E; [done|].
  destruct (dec_value 0 (c :: body)) as [u|]; [|done]. destruct (N.ltb_spec u (2 ^ 16)); simplify_eq. lia.
Qed.

(** The message of a finished wait is read back. *)
Lemma sas_message_read sas port :
  ":"%char ∉ chars sas →
  splitn3 ":"%char (chars ("SAS:" +:+ sas +:+ ":" +:+ show_uint port)) = [chars "SAS"; chars sas; chars (show_uint port)].
Proof.
  intros Hs. rewrite !chars_app. change (chars "SAS:") with (chars "SAS" ++ [":"%char]). change (chars ":") with [":"%char].
  rewrite <-app_assoc. unfold splitn3. cbn [app]. rewrite cut_app by set_solver. by rewrite cut_app.
Qed.

Lemma strip_prefix_Some p l r : strip_prefix p l = Some r ↔ l = p ++ r.
Proof.
  split; [|intros ->; apply strip_prefix_app].
  revert l. induction p as [|a p IH]; intros l; cbn; [by intros [= ->]|].
  destruct l as [|b l]; [done|]. case_decide; [|done]. subst. intros ->%IH. done.
Qed.

Lemma starts_with_app p s : starts_with p (p +:+ s) = true.
Proof. unfold starts_with. rewrite chars_app, strip_prefix_app. done. Qed.

(** ** The port in the URL *)

(** Text without the first character of a separator. *)
Lemma before_text_plain c sep p l : c ∉ p → before_text (c :: sep) (p ++ l) = p ++ before_text (c :: sep) l.
Proof.
  induction p as [|d p IH]; intros Hc; [done|]. cbn [app before_text strip_prefix].
  rewrite decide_False by set_solver. f_equal. apply IH. set_solver.
Qed.
Lemma after_text_plain c sep p l : c ∉ p → after_text (c :: sep) (p ++ l) = after_text (c :: sep) l.
Proof.
  induction p as [|d p IH]; intros Hc; [done|]. cbn [app after_text strip_prefix].
  rewrite decide_False by set_solver. apply IH. set_solver.
Qed.

Lemma after_text_skip c sep l : strip_prefix sep l = None → after_text (c :: sep) (c :: l) = after_text (c :: sep) l.
Proof. intros H. cbn [after_text strip_prefix]. rewrite decide_True by done. by rewrite H. Qed.
Lemma after_text_hit sep l : sep ≠ [] → after_text sep (sep ++ l) = Some l.
Proof. destruct sep as [|c sep]; [done|]. intros _. cbn [app after_text strip_prefix]. rewrite decide_True by done. by rewrite strip_prefix_app. Qed.

Lemma before_text_head sep l : head (before_text sep l) = None ∨ head (before_text sep l) = head l.
Proof. destruct l as [|c l]; cbn; destruct (strip_prefix sep _); auto. Qed.

Lemma split_head sep p l : sep ∉ p → (head l = None ∨ head l = Some sep) → head (split sep (p ++ l)) = Some p.
Proof.
  intros Hp [Hl|Hl]; destruct l as [|c l]; simplify_eq/=.
  - by rewrite app_nil_r, split_plain.
  - by rewrite split_app.
Qed.

Section url.
Context `{I6 : Ipv6Text}.

Lemma url_port_generated pk port ip4 ip6 :
  "&"%char ∉ pk → (port < 2 ^ 16)%N → url_port (text_of (generate_pairing_url pk port ip4 ip6)) = Some (Z.of_N port).
Proof.
  intros Hpk Hport. unfold url_port. rewrite chars_text. unfold generate_pairing_url, param, second_piece.
  set (rest := match ip4 with Some _ => _ | None => _ end ++ _).
  assert (Hrest : head rest = None ∨ head rest = Some "&"%char).
  { unfold rest. destruct ip4, ip6; simpl; auto. }
  assert (Hd : "&"%char ∉ dec port) by (intros Hin; by apply plain_dec in Hin as [? _]).
  set (tail := dec port ++ rest). change (chars "&p=") with ["&"; "p"; "="]%char.
  assert (E : URL_PREFIX ++ (chars "v" ++ "="%char :: chars "1") ++ "&"%char :: (chars "pk" ++ "="%char :: pk) ++
    "&"%char :: (chars "p" ++ "="%char :: dec port) ++ rest
    = chars "tapauth://pair?v=1" ++ "&"%char :: (chars "pk=" ++ pk) ++ (["&"; "p"; "="]%char ++ tail)).
  { unfold tail. cbn. by rewrite <-?app_assoc. }
  rewrite E, after_text_plain by (cbn; set_solver).
  rewrite after_text_skip by exact eq_refl.
  rewrite after_text_plain by (apply not_elem_of_app; split; [cbn; set_solver|done]).
  rewrite after_text_hit by done. cbn [fmap option_fmap option_map]. unfold tail.
  rewrite before_text_plain by done. cbn [mbind option_bind].
  rewrite split_head; [|done|].
  - cbn [mbind option_bind]. by rewrite parse_dec.
  - destruct (before_text_head ["&"; "p"; "="]%char rest) as [->| ->]; auto.
Qed.
End url.

(** ** The daemon's answers

    The texts of the three answers of a pairing, as [tapauthd/src/admin_handler.rs]
    makes them. *)

(** A handler answers with [Q], or refuses. *)
Definition answers {A} (k : AM A) (Q : A → Prop) : Prop :=
  ∀ s s' r, k s = (s', r) → match r with Ok a => Q a | Err resp => adr_status resp ≠ ADMIN_SUCCESS end.

Lemma answers_bind {A B} (k : AM A) (f : A → AM B) Q R :
  answers k Q → (∀ a, Q a → answers (f a) R) → answers (k ≫= f) R.
Proof.
  intros Hk Hf s s' r. unfold mbind, M_bind. destruct (k s) as [s1 [a|resp]] eqn:E; apply Hk in E.
  - by apply Hf.
  - intros. by simplify_eq.
Qed.
Lemma answers_any {A B} (k : AM A) (f : A → AM B) R :
  answers k (λ _, True) → (∀ a, answers (f a) R) → answers (k ≫= f) R.
Proof. intros Hk Hf. eapply answers_bind; [done|auto]. Qed.
Lemma answers_mret {A} (a : A) (Q : A → Prop) : Q a → answers (mret a) Q.
Proof. intros HQ s s' r H. unfold mret, M_ret in H. by simplify_eq. Qed.
Lemma answers_refuse {A} msg (Q : A → Prop) : answers (refuse msg) Q.
Proof. intros s s' r H. unfold refuse, throw in H. by simplify_eq. Qed.
Lemma answers_or_refuse {E A} (r : result E A) msg : answers (or_refuse r msg) (λ _, True).
Proof. destruct r; [by apply answers_mret|apply answers_refuse]. Qed.
Lemma answers_on_os {A} (k : M World ConfigError A) : answers (on_os_state k) (λ _, True).
Proof. intros s s' r. unfold on_os_state. destruct (k _). intros. by simplify_eq. Qed.
Lemma answers_get : answers get (λ _, True).
Proof. intros s s' r H. unfold get in H. by simplify_eq. Qed.
Lemma answers_gets {A} (f : AdminState → A) : answers (gets f) (λ _, True).
Proof. intros s s' r H. unfold gets in H. by simplify_eq. Qed.
Lemma answers_modify f : answers (modify f) (λ _, True).
Proof. intros s s' r H. unfold modify in H. by simplify_eq. Qed.
Lemma answers_generation : answers next_generation (λ _, True).
Proof. intros s s' r H. unfold next_generation in H. by simplify_eq. Qed.
Lemma answers_set_pairing p : answers (set_pairing p) (λ _, True).
Proof. apply answers_modify. Qed.
Lemma answers_set_world w : answers (set_world w) (λ _, True).
Proof. apply answers_modify. Qed.
Lemma answers_manager : answers manager (λ _, True).
Proof. apply answers_gets. Qed.
Lemma answers_check_port a b : answers (check_port a b) (λ _, True).
Proof. unfold check_port. case_decide; [apply answers_refuse|by apply answers_mret]. Qed.
#[local] Hint Resolve answers_refuse answers_or_refuse answers_on_os answers_get answers_gets answers_modify
  answers_generation answers_set_pairing answers_set_world answers_manager answers_check_port : core.

Ltac answers :=
  repeat first
    [ progress auto
    | apply answers_any; [|intros ?]
    | apply answers_mret
    | match goal with |- answers (match ?x with _ => _ end) _ => destruct x eqn:? end
    | match goal with |- answers (let '_ := ?x in _) _ => destruct x eqn:? end ].

Definition pairing_text (resp : AdminResponse) : Prop :=
  match adr_payload resp with
  | Some (AdmPairingStarted url _) => starts_with "tapauth://" url = true
  | Some (AdmPairingSas sas _) => ":"%char ∉ chars sas
  | Some (AdmPairingCompleted id) => ∀ c l, chars id = c :: l → c ≠ "S"%char
  | _ => True
  end.

Lemma format_sas_plain n : (n < 1000000)%N → ":"%char ∉ chars (format_sas (fmt06 n)).
Proof.
  intros Hn Hin. pose proof (fmt06_digits n) as Hd. pose proof (fmt06_length n Hn) as Hl. revert Hin Hd Hl. unfold chars.
  generalize (fmt06 n). intros s. destruct s as [|a [|b [|c [|d [|e [|f [|]]]]]]]; try done. cbn.
  intros Hin Hd _. repeat (apply Forall_cons in Hd as [? Hd]).
  repeat (apply elem_of_cons in Hin as [Hin|Hin]; [by subst|]). by apply elem_of_nil in Hin.
Qed.

Section daemon_texts.
Context `{C : CryptoOps} `{L : !CryptoLaws C} `{H : Hex} `{T : Toml} `{TT : TpmTools} `{I6 : Ipv6Text}.
Context `{JC : !Json ClientConfig} `{JS : !Json (gmap string PairedServer)}.
Context `{KH : !Codec PairingHello} `{KR : !Codec PairingResponse}.
Context `{KM : !Codec PairingCskMessage} `{KC : !Codec PairingComplete}.
Context (feature_tpm : bool).
Context (show_config_error : ConfigError → string) (show_crypto_error : CryptoError → string).
Context (show_protocol_error : ProtocolError → string).
Context (show_peer_error : PeerIdentityError → string) (to_rfc3339 : Z → string).

Lemma start_answers env : answers (handle_start_pairing feature_tpm show_config_error show_crypto_error env) pairing_text.
Proof.
  unfold handle_start_pairing, pairing_keypair. answers. unfold pairing_text, starts_with. cbn [adr_payload success_with].
  change (chars (String.string_of_list_ascii ?l)) with (chars (text_of l)). by rewrite chars_text.
Qed.

Lemma initiate_sas name p p' k n sas :
  initiate_pairing name p = (p', Ok (k, n, sas)) → ":"%char ∉ chars (format_sas sas).
Proof.
  unfold initiate_pairing. intros Hi. inv_bind. unfold mret, M_ret in Hi. simplify_eq.
  repeat match goal with H : lift (map_err PE_Crypto (derive_sas ?a ?b ?c)) _ = _ |- _ =>
    unfold lift in H; destruct (derive_sas_total a b c) as (m & Hm & ?); rewrite Hm in H; simplify_eq/= end.
  by apply format_sas_plain.
Qed.

Lemma wait_answers env port : answers (handle_wait_for_pairing show_protocol_error env port) pairing_text.
Proof.
  unfold handle_wait_for_pairing, take_pending, accept_pending. answers. unfold pairing_text. cbn. by eapply initiate_sas.
Qed.

Lemma complete_answers env u port :
  (∀ b c l, chars (hex_encode b) = c :: l → c ≠ "S"%char) →
  answers (handle_complete_pairing show_config_error show_crypto_error show_protocol_error env u port) pairing_text.
Proof.
  intros Hx. unfold handle_complete_pairing, take_active, confirm_pairing, pairing_csk. answers. exact (Hx _).
Qed.

(** The daemon's answers cannot be mistaken for one another: a pairing starts with a
    [tapauth://] address, the authentication string has no colon, and the device's
    identifier, in hexadecimal digits, does not begin like an authentication string. *)
Theorem daemon_pairing_texts env p pid uid s s' resp :
  (∀ b c l, chars (hex_encode b) = c :: l → c ≠ "S"%char) →
  p = AdmStartPairing ∨ (∃ port, p = AdmWaitForPairing port) ∨ (∃ port, p = AdmCompletePairing port) →
  handle_admin_request feature_tpm show_config_error show_crypto_error show_protocol_error show_peer_error to_rfc3339
    env (mkAdminRequest (Some p)) pid uid s = (s', resp) →
  adr_status resp = ADMIN_SUCCESS → pairing_text resp.
Proof.
  intros Hx Hp Hh Hok. unfold handle_admin_request in Hh.
  destruct (resolve_peer _ _ _) as [identity|]; [|by simplify_eq].
  destruct (check_authorization _ _ _); [|by simplify_eq].
  assert (Ha : answers (dispatch feature_tpm show_config_error show_crypto_error show_protocol_error to_rfc3339 env
    (pe_username identity) (Some p)).1 pairing_text).
  { destruct Hp as [->|[[port ->]|[port ->]]]; [apply start_answers|apply wait_answers|by apply complete_answers]. }
  cbn [adm_payload] in Hh. destruct (dispatch _ _ _ _ _ _ _ _) as [k reload]. simpl in Ha. unfold answer_of in Hh.
  destruct (k s) as [s1 r] eqn:E. apply Ha in E. destruct r, reload; simplify_eq; done.
Qed.
End daemon_texts.

(** ** What the tool relies on *)

Section pairing.
Context `{F : Fluent} `{Q : QrCode} `{T : Toml} `{KI : !Codec IpcEnvelope} (env : GuiEnv).
Context {S : Type} (link : Link S) (early_eof : string) (decode_error : bytes → string).

(** One text carries a URL, an authentication string or a device: the daemon's answers
    must not be mistaken for one another. *)
Class PairingTexts : Prop := {
  pt_url s s' url port :
    gui_start_pairing link early_eof decode_error s = (s', Ok (url, port)) → starts_with "SAS:" url = false;
  pt_sas p s s' sas port :
    gui_wait_for_pairing link early_eof decode_error p s = (s', Ok (sas, port)) → ":"%char ∉ chars sas;
  pt_device p s s' id :
    gui_complete_pairing link early_eof decode_error p s = (s', Ok id) → starts_with "SAS:" id = false;
}.

#[local] Abbreviation step := (gui_step env link early_eof decode_error).
#[local] Abbreviation run := (perform env link early_eof decode_error).

(** ** Events *)

(** The daemon has answered with this string for this port. *)
Definition announced (sas : string) (port : Z) (log : list Event) : Prop :=
  ∃ p c, Performed (DoWaitForPairing p c) (sas_message (sas, port)) ∈ log.

(** The user has confirmed a string that was shown, after it was announced. *)
Definition confirmed (port : Z) (log : list Event) : Prop :=
  ∃ later earlier s sas, log = later ++ Pressed PairingSASConfirmed (Pairing s) :: earlier ∧
    ps_state s = VerifyingSAS sas port ∧ Text sas ∈ pairing_view s ∧ announced sas port earlier.

(** The user has pressed a button of a screen. *)
Definition pressed_on (log : list Event) (m : ScreenMessage) (P : Screen → Prop) : Prop :=
  ∃ scr, Pressed m scr ∈ log ∧ P scr.
Definition asked_to_pair (log : list Event) : Prop := pressed_on log StartPairing (λ scr, ∃ s, scr = MainMenu s).

(** A request that changes something was asked for, on a screen that showed what it
    says. *)
Definition asked (log : list Event) (t : GuiTask) : Prop :=
  match t with
  | DoStartPairing => asked_to_pair log
  | DoCompletePairing port => confirmed port log
  | DoRemoveDevice id => pressed_on log (RemoveDevice id) (λ scr, ∃ s server,
      scr = DeviceList s ∧ devices s !! id = Some server ∧ current_username s ∈ allowed_users server)
  | DoSaveConfig h p ble net => pressed_on log SaveConfig (λ scr, ∃ s, scr = Settings s ∧
      hostname_input s = h ∧ parse_u16 (udp_port_input s) = Some p ∧ 1 ≤ p ≤ 65535 ∧ ble_enabled s = ble ∧
      network_enabled s = net)
  | DoRotateCsk => pressed_on log RotateCSK (λ scr, ∃ s, scr = Settings s ∧ rotating_csk s = false)
  | DoRecoverTpm => pressed_on log RecoverFromTPMFailure (λ scr, ∃ s, scr = MainMenu s ∧ is_Some (tpm_error s))
  | _ => True
  end.

Lemma announced_cons sas port e log : announced sas port log → announced sas port (e :: log).
Proof. intros (p & c & ?). exists p, c. by constructor. Qed.
Lemma confirmed_cons port e log : confirmed port log → confirmed port (e :: log).
Proof. intros (l2 & l1 & s & sas & -> & ?). by exists (e :: l2), l1, s, sas. Qed.
Lemma pressed_cons e log m P : pressed_on log m P → pressed_on (e :: log) m P.
Proof. intros (scr & ? & ?). exists scr. split; [by constructor|done]. Qed.
Lemma pressed_now log m scr (P : Screen → Prop) : P scr → pressed_on (Pressed m scr :: log) m P.
Proof. intros. exists scr. split; [by constructor|done]. Qed.
#[local] Hint Resolve announced_cons confirmed_cons pressed_cons pressed_now : core.
#[local] Hint Unfold asked_to_pair : core.

(** ** The invariant *)

Definition task_ok (log : list Event) (t : GuiTask) : Prop :=
  match t with
  | TaskDone m =>
      match m with
      | PairingSASConfirmed | PairingComplete_ _ | RemoveDevice _ | SaveConfig | RotateCSK | RecoverFromTPMFailure
      | StartPairing => False
      | NavigateToPairing | PairingStarted => asked_to_pair log
      | _ => True
      end
  | _ => asked log t
  end.

Definition screen_ok (log : list Event) (s : Screen) : Prop :=
  match s with
  | Pairing p => match ps_state p with VerifyingSAS sas port => announced sas port log | _ => True end
  | _ => True
  end.

Definition requests_ok (log : list Event) : Prop :=
  ∀ l2 t m l1, log = l2 ++ Performed t m :: l1 → asked l1 t.

Definition gui_ok (g : Gui (S := S)) : Prop :=
  Forall (task_ok (gu_log g)) (gu_tasks g) ∧ screen_ok (gu_log g) (current_screen (gu_app g)) ∧ requests_ok (gu_log g).

Lemma task_ok_cons e log t : task_ok log t → task_ok (e :: log) t.
Proof. destruct t as [|[]| | | | | | | | | |]; simpl; auto. Qed.
Lemma task_ok_asked log t : task_ok log t → asked log t.
Proof. by destruct t. Qed.
Lemma screen_ok_cons e log s : screen_ok log s → screen_ok (e :: log) s.
Proof. destruct s; simpl; try done. destruct (ps_state s); auto. Qed.

(** Where a message may come from. *)
Definition message_ok (e : Event) (m : ScreenMessage) (shown : Screen) (log : list Event) : Prop :=
  match m with
  | PairingSASConfirmed | RemoveDevice _ | SaveConfig | RotateCSK | RecoverFromTPMFailure | StartPairing =>
      e = Pressed m shown ∧ ∃ w, w ∈ screen_view env shown ∧ sends w m
  | NavigateToPairing | PairingStarted => asked_to_pair (e :: log)
  | PairingComplete_ data =>
      starts_with "SAS:" data = true →
      ∃ sas port, data = ("SAS:" +:+ sas +:+ ":" +:+ show_uint port)%string ∧ ":"%char ∉ chars sas ∧
        0 ≤ port < 2 ^ 16 ∧ announced sas port (e :: log)
  | _ => True
  end.

(** *** What the screens offer *)

Lemma device_list_sends s w m :
  w ∈ device_list_view s → sends w m → m = NavigateToMainMenu ∨ ∃ id, m = RemoveDevice id ∧ is_Some (user_devices s !! id).
Proof.
  unfold device_list_view. rewrite !elem_of_app. intros [Hw|[Hw|Hw]] Hm.
  - set_unfold. destruct_or! Hw; subst; simplify_eq/=; try done; auto.
  - destruct (dl_error s); set_unfold; destruct_or? Hw; subst; simplify_eq/=; done.
  - case_decide; [set_unfold; destruct_or? Hw; subst; simplify_eq/=; done|].
    apply list_elem_of_bind in Hw as ([id server] & Hw & Hin).
    apply elem_of_map_to_list in Hin. unfold device_row in Hw. set_unfold.
    destruct_or! Hw; subst; simplify_eq/=; try done. right. exists id. split; [done|by eexists].
Qed.

Lemma main_menu_sends s w m :
  w ∈ main_menu_view env s → sends w m →
  m ∈ [StartPairing; ViewDevices; OpenSettings] ∨ m = RecoverFromTPMFailure ∧ is_Some (tpm_error s).
Proof.
  unfold main_menu_view. intros Hw Hm.
  destruct (ge_tpm env), (tpm_error s) eqn:?, (recovery_status s); set_unfold; destruct_or! Hw; subst; simplify_eq/=; try done;
    eauto 8.
Qed.

Lemma pairing_sends s w m :
  w ∈ pairing_view s → sends w m → m ∈ [PairingCancelled; PairingSASConfirmed; NavigateToMainMenu].
Proof.
  unfold pairing_view. intros Hw Hm. destruct (ps_state s); set_unfold; destruct_or! Hw; subst; simplify_eq/=; try done; eauto.
Qed.

Lemma settings_sends s w m :
  w ∈ settings_view env s → sends w m →
  match m with
  | RotateCSK => rotating_csk s = false
  | NavigateToMainMenu | HostnameChanged _ | UdpPortChanged _ | BleEnabledChanged _ | NetworkEnabledChanged _ | SaveConfig
  | LocaleChanged _ => True
  | _ => False
  end.
Proof.
  unfold settings_view. intros Hw Hm. destruct (rotating_csk s); set_unfold; destruct_or! Hw; subst; simpl in Hm;
    repeat match goal with H : ∃ _, _ |- _ => destruct H | H : _ ∧ _ |- _ => destruct H end; simplify_eq; done.
Qed.

Lemma press_ok s w m log : w ∈ screen_view env s → sends w m → message_ok (Pressed m s) m s log.
Proof.
  intros Hw Hm. destruct m; try done; try (split; [done|by exists w]); exfalso; destruct s as [mm|p|dl|st]; simpl in Hw;
    try (destruct (main_menu_sends mm w _ Hw Hm) as [H|[H _]]; set_unfold; naive_solver);
    try (pose proof (pairing_sends p w _ Hw Hm) as H; set_unfold; naive_solver);
    try (destruct (device_list_sends dl w _ Hw Hm) as [H|(? & H & _)]; done);
    by pose proof (settings_sends st w _ Hw Hm).
Qed.

(** *** What the screens do *)

Lemma pairing_update_ok p m n n' p' t e log :
  pairing_update p m n = (n', (p', t)) → screen_ok log (Pairing p) → message_ok e m (Pairing p) log →
  task_ok (e :: log) t ∧ screen_ok (e :: log) (Pairing p').
Proof.
  intros Hu Hs Hm. pose proof (screen_ok_cons e _ _ Hs) as Hs'.
  destruct m; simpl in Hu; try by simplify_eq.
  - unfold pairing_complete in Hu. destruct (starts_with "tapauth://" data).
    + destruct (qr_new data); [|by simplify_eq]. destruct (url_port data); simpl in Hu; by simplify_eq.
    + destruct (starts_with "SAS:" data) eqn:E; [|by simplify_eq].
      destruct (Hm E) as (sas & port & -> & Hc & Hp & Ha). rewrite sas_message_read in Hu by done.
      simplify_eq. split; [done|]. simpl. rewrite !text_chars, parse_u16_show by done. done.
  - destruct (ps_state p) as [| |sas port| | |] eqn:E; simplify_eq; try (split; [done|]; simpl; by rewrite E).
    split; [|done]. simpl in Hm, Hs. rewrite E in Hs. destruct Hm as [-> _].
    exists [], log, p, sas. split_and!; [done..| |done]. unfold pairing_view. rewrite E. set_solver.
Qed.

Lemma main_menu_update_ok s m s' t e log :
  main_menu_update env s m = (s', t) → message_ok e m (MainMenu s) log → task_ok (e :: log) t.
Proof.
  intros Hu Hm. destruct m; simpl in Hu; try (destruct (ge_tpm env); simpl in Hu; by simplify_eq).
  - simplify_eq. destruct Hm as [-> _]. simpl. eauto.
  - destruct (ge_tpm env); simpl in Hu; simplify_eq; [|done]. destruct Hm as [-> (w & Hw & Hm)].
    destruct (main_menu_sends _ _ _ Hw Hm) as [H|[_ H]]; [set_unfold; naive_solver|]. simpl. eauto.
Qed.

Lemma device_list_update_ok s m s' t e log :
  device_list_update s m = (s', t) → message_ok e m (DeviceList s) log → task_ok (e :: log) t.
Proof.
  intros Hu Hm. destruct m; simpl in Hu; simplify_eq; try done.
  destruct Hm as [-> (w & Hw & Hm)]. destruct (device_list_sends _ _ _ Hw Hm) as [|(id & [= <-] & [server Hs])]; [done|].
  apply pressed_now. apply map_lookup_filter_Some in Hs as [Hd Hu]. by exists s, server.
Qed.

Lemma settings_update_ok s m s' t e log :
  settings_update s m = (s', t) → message_ok e m (Settings s) log → task_ok (e :: log) t.
Proof.
  intros Hu Hm. destruct m; simpl in Hu; simplify_eq; try done.
  - destruct Hm as [-> (w & Hw & Hm)]. apply pressed_now. exists s. split; [done|by apply (settings_sends s w RotateCSK)].
  - destruct Hm as [-> _]. destruct (parse_u16 (udp_port_input s)) as [p|] eqn:E; [|by simplify_eq].
    case_decide; simplify_eq; [|done]. apply pressed_now. exists s. apply parse_u16_range in E as Hr. split_and!; (done || lia).
Qed.

Lemma app_update_ok a m n u n' u' a' t e log :
  app_update env a m n u = (n', u', (a', t)) → screen_ok log (current_screen a) →
  message_ok e m (current_screen a) log →
  task_ok (e :: log) t ∧ screen_ok (e :: log) (current_screen a').
Proof.
  unfold app_update. intros Hu Hs Hm. pose proof (screen_ok_cons e _ _ Hs) as Hs'.
  destruct (match m with LocaleChanged _ => _ | _ => _ end) as [l u1].
  destruct (screen_update env _ m l n) as [n1 [s1 t1]] eqn:E. simplify_eq. simpl.
  destruct m; try (simpl in E; unfold main_menu_new in E; simplify_eq; destruct (ge_tpm env); done);
    try (simpl in E; simplify_eq; split; [done|by destruct (current_screen a)]);
    destruct (current_screen a) as [mm|p|dl|st]; cbn -[pairing_update main_menu_update device_list_update settings_update] in E;
    repeat case_match; simplify_eq;
    eauto using pairing_update_ok, main_menu_update_ok, device_list_update_ok, settings_update_ok.
Qed.

Lemma perform_call_inv {A} (call : M S GuiIpcError A) ok err s s' m :
  perform_call call ok err s = (s', Some m) →
  (∃ a, call s = (s', Ok a) ∧ m = ok a) ∨ ∃ e, call s = (s', Err e) ∧ m = err e.
Proof. unfold perform_call. destruct (call s) as [s1 [a|e]]; intros; simplify_eq; eauto. Qed.

Lemma wait_port_range p d d' sas port :
  gui_wait_for_pairing link early_eof decode_error p d = (d', Ok (sas, port)) → 0 ≤ port < 2 ^ 16.
Proof.
  unfold gui_wait_for_pairing. intros Hr. rewrite bind_run in Hr.
  destruct (send_admin_request_with_read_timeout _ _ _ _ _ d) as [s1 [resp|]]; [|done]. rewrite bind_run in Hr.
  unfold check_status in Hr. case_decide; [|done]. simpl in Hr.
  destruct (adr_payload resp) as [[]|]; munfold; simplify_eq. apply Z.mod_pos_bound. lia.
Qed.

Lemma finish_ok `{!PairingTexts} t d d' m shown log :
  run t d = (d', Some m) → task_ok log t → message_ok (Performed t m) m shown log.
Proof.
  intros Hr Ht. destruct t; cbn in Hr; try (apply perform_call_inv in Hr as [(r & Hr & ->)|(r & Hr & ->)]); try done.
  - simplify_eq. destruct m; simpl in *; auto; done.
  - destruct r as [url port]. apply pt_url in Hr. simpl. congruence.
  - destruct r as [sas p]. pose proof Hr as Hc. apply pt_sas in Hc. intros _. exists sas, p.
    split; [exact eq_refl|]. split; [done|]. split; [by eapply wait_port_range|]. exists port, cancel. by left.
  - apply pt_device in Hr. simpl. congruence.
Qed.

Lemma receive_ok e m (g : Gui (S := S)) :
  gui_ok g → message_ok e m (current_screen (gu_app g)) (gu_log g) → requests_ok (e :: gu_log g) → gui_ok (receive env e m g).
Proof.
  intros (Ht & Hs & _) Hm Hc. unfold receive.
  destruct (app_update env _ m _ _) as [[n u] [a t]] eqn:E. eapply app_update_ok in E as [Hnew Hscr]; [|done..].
  split_and!; [|done..]. simpl.
  assert (Forall (task_ok (e :: gu_log g)) (gu_tasks g)) by (eapply Forall_impl; [done|]; apply task_ok_cons).
  destruct t; [done|by constructor..].
Qed.

Lemma requests_cons e log :
  requests_ok log → (∀ t m, e = Performed t m → asked log t) → requests_ok (e :: log).
Proof. intros Hc He [|e' l2] t m l1 [=]; subst; [by eapply He|by eapply Hc]. Qed.

Lemma gui_step_ok `{!PairingTexts} g g' : step g g' → gui_ok g → gui_ok g'.
Proof.
  intros Hstep Hg. pose proof Hg as (Ht & Hs & Hc). destruct Hstep as [g w m Hw Hm|g i t d m Hi Hr|g i port c d Hi Hp Hw|g d].
  - apply receive_ok; [done|by eapply press_ok|by apply requests_cons].
  - assert (Hok : task_ok (gu_log g) t) by by eapply Forall_lookup_1.
    apply receive_ok; simpl; [split_and!; [by apply Forall_delete|done..]|by eapply finish_ok|].
    apply requests_cons; [done|]. intros ? ? [= <- <-]. by apply task_ok_asked.
  - apply receive_ok; simpl; [split_and!; [by apply Forall_delete|done..]|done|by apply requests_cons].
  - done.
Qed.

Lemma reachable_ok `{!PairingTexts} loc user u d g :
  gui_reachable env link early_eof decode_error loc user u d g → gui_ok g.
Proof.
  intros Hr. assert (H0 : gui_ok (launch env loc user u d)).
  { unfold launch, app_new, default_with_l10n, main_menu_new. destruct (ge_tpm env); simpl;
      (split_and!; [repeat constructor|done|by intros [] ? ? ?]). }
  revert H0. induction Hr as [|g g1 g2 Hs _ IH]; [done|]. intros H0. apply IH. by eapply gui_step_ok.
Qed.

(** ** Runs *)

(** A state of the tool, and the tasks after one more is started. *)
Definition at_screen (l : L10n) (user : string) (u : UserEnv) (scr : Screen) (n : Notifies) (tasks : list GuiTask) (d : S)
    (log : list Event) : Gui := mkGui (mkApp l scr user) n u tasks d log.
Definition started (t : GuiTask) (tasks : list GuiTask) : list GuiTask :=
  match t with TaskNone => tasks | _ => t :: tasks end.
Definition changes_locale (m : ScreenMessage) : bool := match m with LocaleChanged _ => true | _ => false end.

Lemma receive_run l user u scr n tasks d log e m n' scr' t :
  changes_locale m = false → screen_update env scr m l n = (n', (scr', t)) →
  receive env e m (at_screen l user u scr n tasks d log) = at_screen l user u scr' n' (started t tasks) d (e :: log).
Proof. intros Hm Hu. unfold receive, app_update, at_screen. destruct m; try done; simpl gu_app; cbn [app_l10n current_screen username gu_notifies gu_user]; by rewrite Hu. Qed.

Lemma press_run l user u scr n tasks d log w m n' scr' t :
  w ∈ screen_view env scr → sends w m → changes_locale m = false → screen_update env scr m l n = (n', (scr', t)) →
  step (at_screen l user u scr n tasks d log) (at_screen l user u scr' n' (started t tasks) d (Pressed m scr :: log)).
Proof. intros Hw Hs Hm Hu. rewrite <-(receive_run l user u scr n tasks d log _ m n' scr' t) by done. by eapply step_press. Qed.

Lemma task_run l user u scr n k tasks d log d' m n' scr' t :
  run k d = (d', Some m) → changes_locale m = false → screen_update env scr m l n = (n', (scr', t)) →
  step (at_screen l user u scr n (k :: tasks) d log)
       (at_screen l user u scr' n' (started t tasks) d' (Performed k m :: log)).
Proof.
  intros Hr Hm Hu. rewrite <-(receive_run l user u scr n tasks d' log _ m n' scr' t) by done.
  by apply (step_finish _ _ _ _ (at_screen l user u scr n (k :: tasks) d log) 0).
Qed.

Lemma perform_call_Ok {A} (call : M S GuiIpcError A) ok err s s' a :
  call s = (s', Ok a) → perform_call call ok err s = (s', Some (ok a)).
Proof. unfold perform_call. by intros ->. Qed.

(** The events of a pairing, latest first. *)
Definition pairing_log (l : L10n) (menu : MainMenuScreen) (url sas id : string) (port : Z) : list Event :=
  [Performed (DoCompletePairing port) (PairingComplete_ id);
   Pressed PairingSASConfirmed (Pairing (mkPairingScreen l (VerifyingSAS sas port) None));
   Performed (DoWaitForPairing port 0) (sas_message (sas, port));
   Performed DoStartPairing (PairingComplete_ url);
   Performed (TaskDone PairingStarted) PairingStarted;
   Performed (TaskDone NavigateToPairing) NavigateToPairing;
   Pressed StartPairing (MainMenu menu)].

Lemma pairing_run `{I6 : Ipv6Text} loc user u pk port ip4 ip6 qr sas id d d1 d2 d3 :
  let url := text_of (generate_pairing_url pk (Z.to_N port) ip4 ip6) in
  "&"%char ∉ pk → 0 ≤ port < 2 ^ 16 → ":"%char ∉ chars sas → qr_new url = Some qr →
  starts_with "tapauth://" id = false → starts_with "SAS:" id = false →
  gui_start_pairing link early_eof decode_error d = (d1, Ok (url, port)) →
  gui_wait_for_pairing link early_eof decode_error port d1 = (d2, Ok (sas, port)) →
  gui_complete_pairing link early_eof decode_error port d2 = (d3, Ok id) →
  ∃ g l menu, gui_reachable env link early_eof decode_error loc user u d g ∧ gu_daemon g = d3 ∧
    current_screen (gu_app g) = Pairing (mkPairingScreen l (PairSuccess id) None) ∧
    gu_log g = pairing_log l menu url sas id port.
Proof.
  intros url Hpk Hport Hsas Hqr Hid1 Hid2 Hs Hw Hc.
  set (l := l10n_new (ge_tables env) loc). set (menu := mkMainMenu l None None).
  set (tasks := if ge_tpm env then [DoCheckTpm] else []).
  assert (Hl : launch env loc user u d = at_screen l user u (MainMenu menu) (mkNotifies 0 ∅) tasks d []).
  { unfold launch, app_new, default_with_l10n, main_menu_new, tasks. by destruct (ge_tpm env). }
  assert (Hpre : starts_with "tapauth://" url = true).
  { unfold starts_with, url. by rewrite chars_text. }
  assert (Hp : url_port url = Some port).
  { unfold url. rewrite url_port_generated by (done || lia). f_equal. lia. }
  eexists (at_screen l user u (Pairing (mkPairingScreen l (PairSuccess id) None)) (mkNotifies 1 ∅) tasks d3 _), l, menu.
  split_and!; [|done..]. unfold gui_reachable. rewrite Hl.
  eapply rtc_l; [eapply (press_run _ _ _ _ _ _ _ _ (Button (tr l "btn-pair-new-device") (Some StartPairing)));
    [|exact eq_refl..]; apply elem_of_app; right; apply elem_of_app; right; by left|].
  eapply rtc_l; [eapply task_run; exact eq_refl|]. eapply rtc_l; [eapply task_run; exact eq_refl|].
  eapply rtc_l; [eapply task_run; [apply (perform_call_Ok _ _ _ _ _ _ Hs)|exact eq_refl|]|].
  { cbn [screen_update pairing_update fst]. unfold pairing_complete. rewrite Hpre, Hqr, Hp. exact eq_refl. }
  eapply rtc_l; [eapply task_run; [apply (perform_call_Ok _ _ _ _ _ _ Hw)|exact eq_refl|]|].
  { unfold sas_message. cbn [screen_update pairing_update fst snd]. unfold pairing_complete.
    change (starts_with "tapauth://" ("SAS:" +:+ _)) with false. rewrite starts_with_app, sas_message_read by done.
    rewrite !text_chars, parse_u16_show by done. exact eq_refl. }
  eapply rtc_l; [eapply (press_run _ _ _ _ _ _ _ _ (Button (tr l "btn-confirm") (Some PairingSASConfirmed)));
    [|exact eq_refl..]; cbn; set_solver|].
  eapply rtc_l; [eapply task_run; [apply (perform_call_Ok _ _ _ _ _ _ Hc)|exact eq_refl|]|].
  { cbn [screen_update pairing_update]. unfold pairing_complete. rewrite Hid1, Hid2. exact eq_refl. }
  exact (rtc_refl _ _).
Qed.

(** ** Claims *)

(** C12: The tool changes nothing on its own.  In every run, with messages and tasks in any
    order, each request that starts or completes a pairing, removes a device, saves the
    settings, rotates the key or recovers from a TPM failure follows a press of the
    button for it, on a screen that showed what the request says: a device of the user,
    the very settings with a port from 1 to 65535, and for a completed pairing an
    authentication string that the daemon had before answered, with the same port. *)
Theorem gui_requests_asked `{!PairingTexts} loc user u d g t m l1 l2 :
  gui_reachable env link early_eof decode_error loc user u d g →
  gu_log g = l2 ++ Performed t m :: l1 → asked l1 t.
Proof. intros Hr Hl. destruct (reachable_ok _ _ _ _ _ Hr) as (_ & _ & Hc). by eapply Hc. Qed.

(** A pairing can go through.  When the daemon starts a pairing with a generated URL that
    a QR code can hold, answers the wait with the same port and a string without a colon,
    and completes the pairing for a device whose name is not taken for a URL or a string,
    then some run, of presses of the pairing button and of the confirmation and of the
    tasks they start, ends on the success screen of the new device. *)
Theorem gui_pairing_succeeds `{I6 : Ipv6Text} loc user u pk port ip4 ip6 qr sas id d d1 d2 d3 :
  let url := text_of (generate_pairing_url pk (Z.to_N port) ip4 ip6) in
  "&"%char ∉ pk → 0 ≤ port < 2 ^ 16 → ":"%char ∉ chars sas → qr_new url = Some qr →
  starts_with "tapauth://" id = false → starts_with "SAS:" id = false →
  gui_start_pairing link early_eof decode_error d = (d1, Ok (url, port)) →
  gui_wait_for_pairing link early_eof decode_error port d1 = (d2, Ok (sas, port)) →
  gui_complete_pairing link early_eof decode_error port d2 = (d3, Ok id) →
  ∃ g l menu, gui_reachable env link early_eof decode_error loc user u d g ∧ gu_daemon g = d3 ∧
    current_screen (gu_app g) = Pairing (mkPairingScreen l (PairSuccess id) None) ∧
    gu_log g = pairing_log l menu url sas id port.
Proof. exact (pairing_run loc user u pk port ip4 ip6 qr sas id d d1 d2 d3). Qed.

Lemma loaded_then_saved s c :
  1 ≤ cv_udp_port c ≤ 65535 →
  (settings_update (settings_update s (ConfigLoaded c)).1 SaveConfig).2
  = DoSaveConfig (cv_hostname c) (cv_udp_port c) (cv_enable_ble c) (cv_enable_network c).
Proof.
  intros Hp. unfold settings_update, inputs, status. cbn -[parse_u16 show_uint].
  rewrite parse_u16_show by lia. by rewrite decide_True by lia.
Qed.

(** Settings that could not be read can be overwritten.  When the daemon's answer to
    the request for the settings fails, the settings screen shows the defaults of this
    process as if they had been loaded, and the save button sends them. *)
Theorem settings_fallback_saved s d d' e :
  gui_get_config link early_eof decode_error d = (d', Err e) → 1 ≤ cv_udp_port (fallback_config env) ≤ 65535 →
  let c := fallback_config env in
  run DoGetConfig d = (d', Some (ConfigLoaded c)) ∧
  (settings_update (settings_update s (ConfigLoaded c)).1 SaveConfig).2
  = DoSaveConfig (cv_hostname c) (cv_udp_port c) (cv_enable_ble c) (cv_enable_network c).
Proof.
  intros He Hp c. split; [|by apply loaded_then_saved]. cbn [perform]. unfold get_config_call, perform_call. by rewrite He.
Qed.

(** A cancelled wait can cancel the next pairing.  When a wait that was cancelled is
    noticed only after a new pairing has begun, its message makes the new pairing's
    screen give up its own wait and go back to the menu. *)
Theorem stale_cancel_hits_new_pairing l user u p n c c' port log d tasks :
  c ∈ nf_permits n → cancel_wait p = Some c' →
  step (at_screen l user u (Pairing p) n (DoWaitForPairing port c :: tasks) d log)
       (at_screen l user u (Pairing (mkPairingScreen (ps_l10n p) (ps_state p) None)) (notify_one c' (notified c n))
          (TaskDone NavigateToMainMenu :: tasks) d (GaveUp port :: log)).
Proof.
  intros Hc Hp.
  assert (Hu : screen_update env (Pairing p) PairingCancelled l (notified c n)
    = (notify_one c' (notified c n), (Pairing (mkPairingScreen (ps_l10n p) (ps_state p) None), TaskDone NavigateToMainMenu)))
    by (cbn; by rewrite Hp).
  change (TaskDone NavigateToMainMenu :: tasks) with (started (TaskDone NavigateToMainMenu) tasks).
  rewrite <-(receive_run l user u (Pairing p) (notified c n) tasks d log (GaveUp port) PairingCancelled) by done.
  apply (step_give_up _ _ _ _ (at_screen l user u (Pairing p) n (DoWaitForPairing port c :: tasks) d log) 0); [done..|by left].
Qed.
End pairing.

(** ** Starting the tool *)

(** The tool runs exactly on an installed system.  It starts when the daemon's user and
    the clients' group are found, and stops otherwise; the warning appears exactly when
    it runs as a user who is neither root nor a member of that group. *)
Theorem gui_starts_iff_installed `{F : Fluent} `{Q : QrCode} env args acc u :
  let '(shown, app) := gui_main env args acc u in
  let installed := ∃ uid gid, ac_user acc "tapauthd" = Ok (Some uid) ∧ ac_group acc "tapauthd-clients" = Ok (Some gid) in
  (is_Some app ↔ installed) ∧
  (shown = [] ↔ ∃ uid gid, ac_user acc "tapauthd" = Ok (Some uid) ∧ ac_group acc "tapauthd-clients" = Ok (Some gid) ∧
     (ac_euid acc = 0 ∨ ac_egid acc = gid ∨ ∃ l, ac_groups acc = Ok l ∧ gid ∈ l)) ∧
  (length shown ≤ 1)%nat.
Proof.
  unfold gui_main, validate_all, validate_tapauthd_user, validate_tapauthd_clients_group.
  destruct (ac_user acc "tapauthd") as [[uid|]|] eqn:Eu; simpl; [|split_and!; [|naive_solver|lia]; split; [by intros []|naive_solver]..].
  destruct (ac_group acc "tapauthd-clients") as [[gid|]|] eqn:Eg; simpl;
    [|split_and!; [|naive_solver|lia]; split; [by intros []|naive_solver]..].
  repeat (case_decide; simpl; [split_and!; [split; [naive_solver|by eexists]|naive_solver|lia]|]).
  destruct (ac_groups acc) as [l|] eqn:El; simpl; [case_decide; simpl|]; (split_and!; [split; [naive_solver|by eexists]|naive_solver|lia]).
Qed.

(** ** Witnesses: a tool whose daemon answers by a script *)

#[export] Instance toy_fluent : Fluent := {|
  Bundle := string; make_bundle ftl _ := ftl; is_language _ := true;
  format_message _ key _ := Some key; is_f64 _ := false |}.
#[export] Instance toy_qr : QrCode := {| QrData := string; qr_new s := Some s |}.
Definition toy_tables : Tables := mkTables ["de"; "en"; "ja"]%string id (λ _, None) "".
Definition toy_gui_env : GuiEnv :=
  mkGuiEnv true toy_tables (mkIdEnv (Ok (Some "ann"%string)) (Err ())) quiet_world (λ _, None) 0.

(** The [n]th request gets the [n]th answer. *)
Definition scripted (script : nat → AdminResponse) : Link nat := mkLink
  (λ s, (s, Ok ()))
  (λ _ s, (Datatypes.S s, Ok (mkReply 0 (frame (encode_to_vec (envelope_admin_response (script s)))) Closed))).

Lemma scripted_call script request timeout s :
  0 ≤ timeout → wire_ok (envelope_admin_response (script s)) → fits (envelope_admin_response (script s)) →
  send_admin_request_with_read_timeout (scripted script) "" no_text request timeout s = (Datatypes.S s, Ok (script s)).
Proof.
  intros Ht Hw [_ Hf]. unfold send_admin_request_with_read_timeout, timed. rewrite bind_run. unfold mapM_err at 1.
  cbn [lk_connect scripted map_err]. rewrite bind_run. unfold mapM_err at 1. cbn [lk_write scripted map_err].
  rewrite bind_run. unfold mapM_err, lift at 1.
  set (body := encode_to_vec (envelope_admin_response (script s))) in *.
  rewrite (proj2 (read_frame_Ok "" "frame too large" timeout (mkReply 0 (frame body) Closed) body)).
  - cbn [map_err]. unfold lift. rewrite bind_run. unfold body. by rewrite decode_encode.
  - unfold MAX_REPLY, MAX_FRAME in *. split_and!; [done|lia|]. exists []. cbn [rp_bytes]. unfold frame.
    by rewrite app_nil_r, Z.mod_small by lia.
Qed.

Definition toy_url : string := text_of (generate_pairing_url (chars "ab") 40000 None None).
Definition pairing_script (n : nat) : AdminResponse :=
  match n with
  | 0%nat => success_with (AdmPairingStarted toy_url 40000)
  | 1%nat => success_with (AdmPairingSas "123-456" 40000)
  | 2%nat => success_with (AdmPairingCompleted "c0ffee")
  | _ => err_resp ADMIN_ERROR "no"
  end.

Lemma pairing_script_fits n :
  wire_ok (envelope_admin_response (pairing_script n)) ∧ fits (envelope_admin_response (pairing_script n)).
Proof. destruct n as [|[|[|n]]]; (split; [by repeat split|fits_now]). Qed.

Lemma script_call request timeout s :
  0 ≤ timeout →
  send_admin_request_with_read_timeout (scripted pairing_script) "" no_text request timeout s
  = (Datatypes.S s, Ok (pairing_script s)).
Proof. intros. apply scripted_call; [done|apply pairing_script_fits..]. Qed.

#[export] Instance script_texts : PairingTexts (scripted pairing_script) "" no_text.
Proof.
  split.
  - intros s s' url port. unfold gui_start_pairing, send_admin_request. rewrite bind_run, script_call by done.
    destruct s as [|[|[|s]]]; intros Hs; munfold; simplify_eq. vm_compute. exact eq_refl.
  - intros p s s' sas port. unfold gui_wait_for_pairing. rewrite bind_run, script_call by done.
    destruct s as [|[|[|s]]]; intros Hs; munfold; simplify_eq. cbn. set_solver.
  - intros p s s' id. unfold gui_complete_pairing, send_admin_request. rewrite bind_run, script_call by done.
    destruct s as [|[|[|s]]]; intros Hs; munfold; simplify_eq. vm_compute. exact eq_refl.
Qed.

Lemma script_start : gui_start_pairing (scripted pairing_script) "" no_text 0%nat = (1%nat, Ok (toy_url, 40000)).
Proof. unfold gui_start_pairing, send_admin_request. rewrite bind_run, script_call by done. exact eq_refl. Qed.
Lemma script_wait p : gui_wait_for_pairing (scripted pairing_script) "" no_text p 1%nat = (2%nat, Ok ("123-456"%string, 40000)).
Proof. unfold gui_wait_for_pairing. rewrite bind_run, script_call by done. exact eq_refl. Qed.
Lemma script_complete p : gui_complete_pairing (scripted pairing_script) "" no_text p 2%nat = (3%nat, Ok "c0ffee"%string).
Proof. unfold gui_complete_pairing, send_admin_request. rewrite bind_run, script_call by done. exact eq_refl. Qed.

Lemma gui_pairing_succeeds_witness :
  ∃ g l menu, gui_reachable toy_gui_env (scripted pairing_script) "" no_text "en" "ann" toy_user_env 0%nat g ∧
    gu_daemon g = 3%nat ∧ current_screen (gu_app g) = Pairing (mkPairingScreen l (PairSuccess "c0ffee") None) ∧
    gu_log g = pairing_log l menu toy_url "123-456" "c0ffee" 40000.
Proof.
  apply (gui_pairing_succeeds (Q := toy_qr) toy_gui_env (scripted pairing_script) "" no_text "en" "ann" toy_user_env (chars "ab") 40000 None None
    toy_url "123-456" "c0ffee" 0%nat 1%nat 2%nat 3%nat);
    [cbn; set_solver|lia|cbn; set_solver|exact eq_refl|vm_compute; exact eq_refl|vm_compute; exact eq_refl
    |exact script_start|exact (script_wait _)|exact (script_complete _)].
Defined.

Lemma gui_requests_asked_witness : ∃ g l1, gui_reachable toy_gui_env (scripted pairing_script) "" no_text "en" "ann"
    toy_user_env 0%nat g ∧ confirmed 40000 l1 ∧ (∃ e, gu_log g = e :: l1).
Proof.
  destruct (pairing_run (Q := toy_qr) toy_gui_env (scripted pairing_script) "" no_text "en" "ann" toy_user_env (chars "ab") 40000 None None
    toy_url "123-456" "c0ffee" 0%nat 1%nat 2%nat 3%nat) as (g & l & menu & Hr & _ & _ & Hl);
    [cbn; set_solver|lia|cbn; set_solver|exact eq_refl|vm_compute; exact eq_refl|vm_compute; exact eq_refl
    |exact script_start|exact (script_wait _)|exact (script_complete _)|].
  exists g. eexists. split; [exact Hr|]. split; [|eexists; exact Hl].
  exact (gui_requests_asked toy_gui_env (scripted pairing_script) "" no_text "en" "ann" toy_user_env 0%nat g
    (DoCompletePairing 40000) _ _ [] Hr Hl).
Defined.
