(* ===== verification/IpcClient.v ===== *)
(** * The IPC client: [client-pam/src/ipc_client.rs]

    Framed messages to the daemon, a blocking reader, and the incremental reader
    that the poll loops of the PAM module use. *)

From stdpp Require Import base gmap strings list.
From S2P Require Import Prelude Os Text Crypto Protocol Ipc.

Inductive IpcError :=
| IE_Io (k : io_kind)
| IE_Encode
| IE_Decode
| IE_FrameTooLarge (n : Z).

Definition MAX_RESPONSE : Z := 1024 * 1024.

(** ** The socket

    What the next reads meet: data, an error (which includes having to wait), or
    the end of the stream, which stays. *)
Inductive sock_event :=
| Chunk (d : bytes)
| Failing (k : io_kind)
| Hangup.

Record IpcClient := mkIpcClient {
  ic_in : list sock_event;
  ic_write : option io_kind;      (* the error a write meets, if any *)
  ic_out : bytes;                 (* everything written *)
  read_buf : bytes;
  expected_total : option Z;
}.

Definition set_in (l : list sock_event) (c : IpcClient) : IpcClient :=
  mkIpcClient l (ic_write c) (ic_out c) (read_buf c) (expected_total c).
Definition set_out (o : bytes) (c : IpcClient) : IpcClient :=
  mkIpcClient (ic_in c) (ic_write c) o (read_buf c) (expected_total c).
Definition set_buf (b : bytes) (e : option Z) (c : IpcClient) : IpcClient :=
  mkIpcClient (ic_in c) (ic_write c) (ic_out c) b e.

(** A socket on which nothing has happened yet. *)
Definition fresh_client (input : list sock_event) (wr : option io_kind) : IpcClient :=
  mkIpcClient input wr [] [] None.

(** [Read::read] into a buffer of [cap] bytes.  Silence is [WouldBlock], both on a
    non-blocking socket and when a read timeout runs out. *)
Definition stream_read (cap : nat) (l : list sock_event) : list sock_event * result io_kind bytes :=
  match l with
  | [] => ([], Err WouldBlock)
  | Chunk d :: r =>
      if decide (length d ≤ cap)%nat then (r, Ok d) else (Chunk (drop cap d) :: r, Ok (take cap d))
  | Failing k :: r => (r, Err k)
  | Hangup :: r => (Hangup :: r, Ok [])
  end.

(** A bound on the reads that make progress. *)
Fixpoint pending (l : list sock_event) : nat :=
  match l with
  | [] => 1
  | Chunk d :: r => S (length d) + pending r
  | _ :: r => S (pending r)
  end.

Definition read_sock {E} (cap : nat) : M IpcClient E (result io_kind bytes) := λ c,
  let '(l, r) := stream_read cap (ic_in c) in (set_in l c, Ok r).

(** [Read::read_exact]: retries when interrupted. *)
Fixpoint read_exact (fuel n : nat) : M IpcClient IpcError bytes :=
  match fuel with
  | O => throw (IE_Io OtherIo)
  | S fuel' =>
      if decide (n = 0)%nat then mret [] else
      r ← read_sock n;
      match r with
      | Ok [] => throw (IE_Io UnexpectedEof)
      | Ok d => rest ← read_exact fuel' (n - length d); mret (d ++ rest)
      | Err Interrupted => read_exact fuel' n
      | Err k => throw (IE_Io k)
      end
  end.

Definition read_exact_now (n : nat) : M IpcClient IpcError bytes := λ c,
  read_exact (S (pending (ic_in c))) n c.

Section client.
Context `{KI : !Codec IpcEnvelope}.

(** ** Sending *)

Definition send_message (m : IpcEnvelope) : M IpcClient IpcError () := λ c,
  let encoded := encode_to_vec m in
  let encoded_len := Z.of_nat (length encoded) in
  if decide (2 ^ 32 ≤ encoded_len) then (c, Err (IE_FrameTooLarge (2 ^ 32 - 1))) else
  match ic_write c with
  | Some k => (c, Err (IE_Io k))
  | None => (set_out (ic_out c ++ to_be_bytes 4 encoded_len ++ encoded) c, Ok ())
  end.

(** [set_read_timeout] refuses a zero duration. *)
Definition set_read_timeout (millis : Z) : M IpcClient IpcError () :=
  if decide (millis = 0) then throw (IE_Io InvalidInput) else mret ().

(** ** Receiving *)

Definition recv_response : M IpcClient IpcError PamAuthenticateResponse :=
  len_buf ← read_exact_now 4;
  let len := from_be_bytes len_buf in
  if decide (MAX_RESPONSE < len) then throw (IE_FrameTooLarge len) else
  data ← read_exact_now (Z.to_nat len);
  envelope ← lift (ok_or IE_Decode (decode data));
  match env_msg envelope with
  | Some (MsgPamResponse response) => mret response
  | _ => throw (IE_Io InvalidData)
  end.

(** The reads of [try_read_response_nonblocking]: into the buffer until there is
    nothing more to read now. *)
Fixpoint drain (fuel : nat) : M IpcClient IpcError () :=
  match fuel with
  | O => mret ()
  | S fuel' =>
      r ← read_sock 4096;
      match r with
      | Ok [] => mret ()
      | Ok d => _ ← modify (λ c, set_buf (read_buf c ++ d) (expected_total c) c); drain fuel'
      | Err WouldBlock | Err Interrupted => mret ()
      | Err k => throw (IE_Io k)
      end
  end.

(** The length of the frame being assembled, once its header is there. *)
Definition frame_total : M IpcClient IpcError (option Z) := λ c,
  match expected_total c with
  | Some total => (c, Ok (Some total))
  | None =>
      if decide (4 ≤ length (read_buf c))%nat then
        let len := from_be_bytes (take 4 (read_buf c)) in
        if decide (MAX_RESPONSE < len) then (c, Err (IE_FrameTooLarge len)) else
        (set_buf (read_buf c) (Some (4 + len)) c, Ok (Some (4 + len)))
      else (c, Ok None)
  end.

(** The frame at the front of the buffer; [Ok None] while it is incomplete. *)
Definition take_response : M IpcClient IpcError (option PamAuthenticateResponse) :=
  total ← frame_total;
  c ← get;
  match total with
  | None => mret None
  | Some total =>
      if decide (total ≤ Z.of_nat (length (read_buf c))) then
        let frame := take (Z.to_nat total) (read_buf c) in
        _ ← modify (set_buf (drop (Z.to_nat total) (read_buf c)) None);
        resp ← lift (ok_or IE_Decode (decode (drop 4 frame)));
        match env_msg resp with
        | Some (MsgPamResponse response) => mret (Some response)
        | _ => throw (IE_Io InvalidData)
        end
      else mret None
  end.

Definition try_read_response_nonblocking : M IpcClient IpcError (option PamAuthenticateResponse) :=
  fuel ← gets (λ c, pending (ic_in c));
  _ ← drain fuel;
  take_response.

(** ** Requests *)

Definition authenticate_envelope (username : string) (tty_present : bool) (timeout_seconds : Z)
    (request_id : string) : IpcEnvelope :=
  mkIpcEnvelope (Some (MsgPamAuthenticate
    (mkPamAuthenticateRequest username tty_present timeout_seconds request_id))).

Definition send_cancel (reason request_id : string) : M IpcClient IpcError PamAuthenticateResponse :=
  _ ← send_message (mkIpcEnvelope (Some (MsgPamCancel (mkPamCancelRequest reason request_id))));
  _ ← set_read_timeout 750;
  recv_response.

Definition send_authenticate (username : string) (tty_present : bool) (timeout_seconds : Z)
    (request_id : string) : M IpcClient IpcError PamAuthenticateResponse :=
  _ ← send_message (authenticate_envelope username tty_present timeout_seconds request_id);
  _ ← set_read_timeout (timeout_seconds * 1000);
  recv_response.

Definition send_authenticate_start (username : string) (tty_present : bool) (timeout_seconds : Z)
    (request_id : string) : M IpcClient IpcError () :=
  send_message (authenticate_envelope username tty_present timeout_seconds request_id).
End client.
