(* ===== verification/IpcClientTheorems.v ===== *)
(** * Theorems about the IPC client

    What the incremental reader returns is what the peer sent, however the bytes
    arrive. *)

From stdpp Require Import base gmap strings list.
From Stdlib Require Import Strings.Byte.
From S2P Require Import Prelude Os Text Crypto Protocol Ipc ConcreteIpc Daemon DaemonTheorems IpcClient.

#[local] Opaque to_be_bytes.

(** Bytes still to come. *)
Fixpoint incoming (l : list sock_event) : bytes :=
  match l with
  | [] => []
  | Chunk d :: r => d ++ incoming r
  | _ :: r => incoming r
  end.

(** Bytes received but not yet handed out, and those to come. *)
Definition unread (c : IpcClient) : bytes := read_buf c ++ incoming (ic_in c).

Section reader.
Context `{KI : !Codec IpcEnvelope}.

(** A response frame at the front of [b]. *)
Definition carries (b : bytes) (resp : PamAuthenticateResponse) : Prop :=
  ∃ payload rest, b = to_be_bytes 4 (Z.of_nat (length payload)) ++ payload ++ rest ∧
    Z.of_nat (length payload) ≤ MAX_RESPONSE ∧
    decode payload = Some (mkIpcEnvelope (Some (MsgPamResponse resp))).

(** The announced length is the one at the front of the buffer. *)
Definition buffer_ok (c : IpcClient) : Prop :=
  match expected_total c with
  | None => True
  | Some total => (4 ≤ length (read_buf c))%nat ∧ total = 4 + from_be_bytes (take 4 (read_buf c)) ∧
      from_be_bytes (take 4 (read_buf c)) ≤ MAX_RESPONSE
  end.

Lemma stream_read_incoming cap l l' d :
  stream_read cap l = (l', Ok d) → d ++ incoming l' = incoming l.
Proof.
  destruct l as [|[d0|k|] r]; simpl; intros; simplify_eq; [|done].
  case_decide; simplify_eq; [done|]. simpl. by rewrite (assoc_L (++)), take_drop.
Qed.

Lemma stream_read_fails cap l l' k : stream_read cap l = (l', Err k) → incoming l' = incoming l.
Proof. destruct l as [|[d0|k0|] r]; simpl; intros; simplify_eq; try done. by case_decide; simplify_eq. Qed.

Lemma drain_spec fuel c c' r :
  drain fuel c = (c', r) →
  unread c' = unread c ∧ expected_total c' = expected_total c ∧ read_buf c `prefix_of` read_buf c' ∧
  ic_out c' = ic_out c.
Proof.
  revert c. induction fuel as [|fuel IH]; intros c Hd; simpl in Hd; [by munfold; simplify_eq|].
  rewrite bind_run in Hd. unfold read_sock in Hd.
  destruct (stream_read 4096 (ic_in c)) as [l [d|k]] eqn:Er.
  - apply stream_read_incoming in Er. destruct d as [|b d]; munfold.
    + simplify_eq. unfold unread; simpl. by rewrite <-Er.
    + apply IH in Hd as (Hu & He & Hp & Ho). cbn in He, Hp, Ho.
      split; [|split; [done|split; [|done]]].
      * rewrite Hu. unfold unread. cbn. rewrite <-(assoc_L (++)). f_equal. exact Er.
      * etrans; [|exact Hp]. by eexists.
  - apply stream_read_fails in Er. assert (c' = set_in l c) as -> by (destruct k; munfold; by simplify_eq).
    unfold unread; simpl. by rewrite Er.
Qed.

Lemma buffer_ok_extend c c' :
  buffer_ok c → expected_total c' = expected_total c → read_buf c `prefix_of` read_buf c' → buffer_ok c'.
Proof.
  unfold buffer_ok. intros Hok -> [k ->]. destruct (expected_total c); [|done].
  destruct Hok as (H4 & Ht & Hm). rewrite take_app_le by lia. rewrite length_app. split; [lia|done].
Qed.

Lemma frame_total_spec c c' r :
  buffer_ok c → frame_total c = (c', r) →
  match r with
  | Ok (Some t) => (4 ≤ length (read_buf c))%nat ∧ t = 4 + from_be_bytes (take 4 (read_buf c)) ∧
      from_be_bytes (take 4 (read_buf c)) ≤ MAX_RESPONSE ∧ c' = set_buf (read_buf c) (Some t) c
  | _ => c' = c
  end.
Proof.
  unfold frame_total, buffer_ok. intros Hok. destruct (expected_total c) as [t|] eqn:Et.
  - intros [= <- <-]. destruct Hok as (? & ? & ?). split; [done|]. split; [done|]. split; [done|].
    destruct c; simpl in *. by subst.
  - case_decide; [|by intros [= <- <-]]. case_decide; intros [= <- <-]; [done|].
    split; [done|]. split; [done|]. split; [lia|done].
Qed.

(** Either nothing is handed out and nothing is lost, or what is handed out is the
    frame at the front. *)
Lemma take_response_spec c c' r :
  buffer_ok c → take_response c = (c', r) →
  ic_out c' = ic_out c ∧
  match r with
  | Ok None => unread c' = unread c ∧ buffer_ok c'
  | Ok (Some resp) => carries (unread c) resp
  | Err _ => True
  end.
Proof.
  intros Hok. unfold take_response. rewrite bind_run. destruct (frame_total c) as [c1 r1] eqn:Ef.
  apply frame_total_spec in Ef; [|done]. destruct r1 as [[t|]|e]; [|munfold; intros [= <- <-]; by subst..].
  destruct Ef as (H4 & Ht & Hmax & ->). munfold. case_decide as Hlen; [|by intros [= <- <-]].
  destruct (decode _) as [[[m|]]|] eqn:Ed; [destruct m|..]; intros [= <- <-]; simpl; split; try done.
  pose proof (from_be_bytes_range (take 4 (read_buf c))) as Hrange.
  assert (Hl4 : length (take 4 (read_buf c)) = 4%nat) by (rewrite length_take; lia).
  exists (drop 4 (take (Z.to_nat t) (read_buf c))), (drop (Z.to_nat t) (read_buf c) ++ incoming (ic_in c)).
  assert (Hp : Z.of_nat (length (drop 4 (take (Z.to_nat t) (read_buf c)))) = from_be_bytes (take 4 (read_buf c)))
    by (rewrite length_drop, length_take; lia).
  split; [|split; [by rewrite Hp|done]]. rewrite Hp. rewrite <-Hl4 at 1. rewrite to_from_be_bytes.
  rewrite (assoc_L (++) (drop 4 _)), (assoc_L (++) (take 4 _)). unfold unread. f_equal.
  rewrite <-(take_drop (Z.to_nat t) (read_buf c)) at 1. rewrite (assoc_L (++) (take 4 _)). f_equal.
  rewrite <-(take_drop 4 (take (Z.to_nat t) (read_buf c))) at 1. f_equal. rewrite take_take. f_equal. lia.
Qed.

Lemma try_read_spec c c' r :
  buffer_ok c → try_read_response_nonblocking c = (c', r) →
  ic_out c' = ic_out c ∧
  match r with
  | Ok None => unread c' = unread c ∧ buffer_ok c'
  | Ok (Some resp) => carries (unread c) resp
  | Err _ => True
  end.
Proof.
  intros Hok. unfold try_read_response_nonblocking. rewrite (bind_step _ _ _ c (pending (ic_in c))) by done.
  rewrite bind_run. destruct (drain _ c) as [c1 [[]|e]] eqn:Ed; apply drain_spec in Ed as (Hu & He & Hp & Ho).
  - intros Ht. apply take_response_spec in Ht; [|by eapply buffer_ok_extend].
    destruct Ht as [Ho' Ht]. split; [by rewrite Ho'|]. by rewrite <-Hu.
  - by intros [= <- <-].
Qed.

(** ** Completeness *)

Definition response_frame (payload : bytes) : bytes := to_be_bytes 4 (Z.of_nat (length payload)) ++ payload.

(** What a socket delivers in one round: some chunks, then nothing for now. *)
Definition round (cs : list bytes) : list sock_event := (Chunk <$> cs) ++ [Failing WouldBlock].

Lemma drain_chunks fuel c cs tail :
  Forall (λ d, d ≠ []) cs → ic_in c = (Chunk <$> cs) ++ Failing WouldBlock :: tail →
  (pending (ic_in c) ≤ fuel)%nat →
  drain fuel c = (set_in tail (set_buf (read_buf c ++ concat cs) (expected_total c) c), Ok ()).
Proof.
  revert c cs. induction fuel as [|fuel IH]; intros c cs Hne Hin Hf.
  { rewrite Hin in Hf. destruct cs; simpl in Hf; lia. }
  destruct Hne as [|d cs Hd Hne]; cbn [drain]; rewrite bind_run; unfold read_sock; rewrite Hin in *.
  - simpl. munfold. rewrite app_nil_r. by destruct c; simpl in *; subst.
  - cbn [fmap list_fmap app stream_read] in *. case_decide as Hs.
    + destruct d as [|b d]; [done|]. munfold. erewrite (IH _ cs); [|done|done|simpl; lia].
      unfold set_in, set_buf. simpl. by rewrite <-(assoc_L (++)).
    + destruct (take 4096 d) as [|b t] eqn:Et; [by destruct d|].
      assert (Hlt : length (b :: t) = 4096%nat) by (rewrite <-Et, length_take; lia).
      assert (Hdr : drop 4096 d ≠ []) by (intros H0%(f_equal length); rewrite length_drop in H0; simpl in H0; lia).
      munfold. erewrite (IH _ (drop 4096 d :: cs)); [|by constructor|done|].
      2:{ simpl in *. rewrite length_drop. lia. }
      unfold set_in, set_buf. simpl. rewrite <-(assoc_L (++)). simpl.
      by rewrite (app_comm_cons t), <-Et, (assoc_L (++) (take 4096 d)), take_drop.
Qed.

Lemma take_response_prefix c payload rest :
  buffer_ok c → Z.of_nat (length payload) ≤ MAX_RESPONSE → read_buf c ++ rest = response_frame payload → rest ≠ [] →
  ∃ c', take_response c = (c', Ok None) ∧ read_buf c' = read_buf c ∧ ic_in c' = ic_in c ∧ buffer_ok c'.
Proof.
  intros Hok Hmax Hb Hr. unfold take_response. rewrite bind_run.
  assert (Hlen : (length (read_buf c) < length (response_frame payload))%nat).
  { rewrite <-Hb, length_app. destruct rest; [done|simpl; lia]. }
  assert (Hhdr : (4 ≤ length (read_buf c))%nat → from_be_bytes (take 4 (read_buf c)) = Z.of_nat (length payload)).
  { intros H4. rewrite <-(take_app_le _ rest) by done. rewrite Hb. unfold response_frame.
    rewrite take_app_exact by (by rewrite length_to_be_bytes).
    apply from_to_be_bytes_small. unfold MAX_RESPONSE in *. lia. }
  unfold response_frame in Hlen. rewrite length_app, length_to_be_bytes in Hlen.
  unfold frame_total, buffer_ok in *. destruct (expected_total c) as [t|] eqn:Et.
  - destruct Hok as (H4 & -> & _). munfold. rewrite Hhdr by done. rewrite decide_False by lia.
    eexists. split; [done|]. rewrite Et. rewrite Hhdr by done. split_and!; [done|done|lia|lia|lia].
  - case_decide as H4; [|eexists; munfold; split; [done|]; by rewrite Et].
    rewrite Hhdr by done. rewrite decide_False by lia. munfold. rewrite decide_False by lia.
    eexists. split; [done|]. split_and!; [done|done|]. simpl. rewrite Hhdr by done. split_and!; [lia|lia|lia].
Qed.

Lemma take_response_complete c payload resp :
  buffer_ok c → Z.of_nat (length payload) ≤ MAX_RESPONSE → read_buf c = response_frame payload →
  decode payload = Some (mkIpcEnvelope (Some (MsgPamResponse resp))) →
  (take_response c).2 = Ok (Some resp).
Proof.
  intros Hok Hmax Hb Hd. unfold take_response. rewrite bind_run.
  assert (Hhdr : from_be_bytes (take 4 (read_buf c)) = Z.of_nat (length payload)).
  { rewrite Hb. unfold response_frame. rewrite take_app_exact by (by rewrite length_to_be_bytes).
    apply from_to_be_bytes_small. unfold MAX_RESPONSE in *. lia. }
  assert (Hlen : length (read_buf c) = (4 + length payload)%nat)
    by (rewrite Hb; unfold response_frame; by rewrite length_app, length_to_be_bytes).
  assert (Hdrop : drop 4 (take (Z.to_nat (4 + Z.of_nat (length payload))) (read_buf c)) = payload).
  { rewrite take_ge by lia. rewrite Hb. unfold response_frame. by rewrite drop_app_exact by (by rewrite length_to_be_bytes). }
  unfold frame_total, buffer_ok in *. destruct (expected_total c) as [t|] eqn:Et.
  - destruct Hok as (H4 & -> & _). munfold. rewrite Hhdr, decide_True, Hdrop, Hd by lia. done.
  - rewrite decide_True by lia. rewrite Hhdr, decide_False by lia. munfold.
    rewrite decide_True, Hdrop, Hd by lia. done.
Qed.

(** [n] successive calls of the reader. *)
Fixpoint poll_reads (n : nat) (c : IpcClient) : list (result IpcError (option PamAuthenticateResponse)) :=
  match n with
  | O => []
  | S n' => let '(c', r) := try_read_response_nonblocking c in r :: poll_reads n' c'
  end.

Lemma try_read_round c cs tail :
  Forall (λ d, d ≠ []) cs → ic_in c = round cs ++ tail →
  try_read_response_nonblocking c
  = take_response (set_in tail (set_buf (read_buf c ++ concat cs) (expected_total c) c)).
Proof.
  intros Hne Hin. unfold round in Hin. rewrite <-(assoc_L (++)) in Hin. cbn [app] in Hin.
  unfold try_read_response_nonblocking. rewrite (bind_step _ _ _ c (pending (ic_in c))) by done.
  by rewrite (bind_step _ _ _ _ _ (drain_chunks _ c cs tail Hne Hin (Nat.le_refl _))).
Qed.

Lemma poll_reads_rounds rounds final c payload resp :
  Z.of_nat (length payload) ≤ MAX_RESPONSE →
  decode payload = Some (mkIpcEnvelope (Some (MsgPamResponse resp))) →
  Forall (Forall (λ d, d ≠ [])) (rounds ++ [final]) → concat final ≠ [] → buffer_ok c →
  ic_in c = concat (round <$> rounds ++ [final]) →
  read_buf c ++ concat (concat (rounds ++ [final])) = response_frame payload →
  poll_reads (S (length rounds)) c = replicate (length rounds) (Ok None) ++ [Ok (Some resp)].
Proof.
  intros Hmax Hd. revert c. induction rounds as [|cs rounds IH]; intros c Hne Hfin Hok Hin Hb;
    cbn [app fmap list_fmap concat] in *; apply Forall_cons in Hne as [Hcs Hne];
    cbn [length replicate app]; cbn [poll_reads]; erewrite try_read_round by done.
  - rewrite !app_nil_r in Hb. set (c1 := set_in _ _).
    assert (Hok1 : buffer_ok c1) by (eapply buffer_ok_extend; [exact Hok|done|by eexists]).
    pose proof (take_response_complete c1 payload resp Hok1 Hmax Hb Hd) as Hr.
    destruct (take_response c1) as [c2 r]. simpl in Hr. by subst r.
  - set (c1 := set_in _ _).
    assert (Hok1 : buffer_ok c1) by (eapply buffer_ok_extend; [exact Hok|done|by eexists]).
    rewrite concat_app, (assoc_L (++)) in Hb.
    destruct (take_response_prefix c1 payload (concat (concat (rounds ++ [final]))) Hok1 Hmax Hb)
      as (c2 & Ht & Hb2 & Hi2 & Hok2).
    { rewrite concat_app, concat_app. simpl. rewrite app_nil_r. intros [_ ?]%app_eq_nil. done. }
    rewrite Ht. f_equal. apply IH; [done|done|done|by rewrite Hi2|by rewrite Hb2].
Qed.

(** ** The blocking reader *)

Lemma read_exact_chunks fuel n c cs b :
  Forall (λ d, d ≠ []) cs → ic_in c = Chunk <$> cs → (pending (ic_in c) ≤ fuel)%nat →
  (n ≤ length (concat cs))%nat → concat cs = b →
  ∃ cs', read_exact fuel n c = (set_in (Chunk <$> cs') c, Ok (take n b)) ∧
    Forall (λ d, d ≠ []) cs' ∧ concat cs' = drop n b.
Proof.
  revert n c cs b. induction fuel as [|fuel IH]; intros n c cs b Hne Hin Hf Hn <-.
  { rewrite Hin in Hf. destruct cs; simpl in Hf; lia. }
  cbn [read_exact]. destruct (decide (n = 0)%nat) as [->|Hn0].
  { exists cs. rewrite take_0, drop_0. split; [|done]. destruct c; simpl in *. by subst. }
  destruct Hne as [|d cs Hd Hne]; [by simpl in Hn; lia|].
  rewrite bind_run. unfold read_sock. rewrite Hin in *. cbn [fmap list_fmap stream_read concat] in *.
  case_decide as Hs.
  - destruct d as [|x d]; [done|]. rewrite bind_run. simpl in Hf, Hn. rewrite length_app in Hn.
    destruct (IH (n - length (x :: d))%nat (set_in (Chunk <$> cs) c) cs (concat cs))
      as (cs' & Hr & Hne' & Hc); [done|done|simpl; lia|simpl in *; lia|done|].
    rewrite Hr. exists cs'. split; [|split; [done|]].
    + rewrite take_app_ge by done. by destruct c.
    + by rewrite drop_app_ge by done.
  - destruct (take n d) as [|x t] eqn:Et; [by destruct d, n|].
    assert (Hlt : length (x :: t) = n) by (rewrite <-Et, length_take; lia).
    rewrite Hlt, Nat.sub_diag. exists (drop n d :: cs).
    rewrite bind_run. destruct fuel; [simpl in Hf; lia|]. cbn [read_exact]. rewrite decide_True by done.
    munfold. rewrite app_nil_r, <-Et, take_app_le, drop_app_le by lia. split; [by destruct c|].
    split; [|done]. constructor; [|done]. intros H0%(f_equal length). rewrite length_drop in H0. simpl in H0. lia.
Qed.

Lemma recv_response_chunks c cs payload resp :
  Z.of_nat (length payload) ≤ MAX_RESPONSE →
  decode payload = Some (mkIpcEnvelope (Some (MsgPamResponse resp))) →
  Forall (λ d, d ≠ []) cs → ic_in c = Chunk <$> cs → concat cs = response_frame payload →
  (recv_response c).2 = Ok resp.
Proof.
  intros Hmax Hd Hne Hin Hc. unfold recv_response. rewrite bind_run. unfold read_exact_now at 1.
  assert (Hlen : length (concat cs) = (4 + length payload)%nat)
    by (rewrite Hc; unfold response_frame; by rewrite length_app, length_to_be_bytes).
  destruct (read_exact_chunks (S (pending (ic_in c))) 4 c cs (response_frame payload))
    as (cs' & Hr & Hne' & Hc'); [done|done|lia|lia|done|].
  rewrite Hr. unfold response_frame in *. rewrite take_app_exact by (by rewrite length_to_be_bytes).
  rewrite drop_app_exact in Hc' by (by rewrite length_to_be_bytes).
  rewrite from_to_be_bytes_small by (unfold MAX_RESPONSE in *; lia). rewrite decide_False by lia.
  rewrite bind_run. unfold read_exact_now. set (c1 := set_in _ c).
  destruct (read_exact_chunks (S (pending (ic_in c1))) (Z.to_nat (Z.of_nat (length payload))) c1 cs' payload)
    as (cs2 & Hr2 & _); [done|done|lia|rewrite Hc'; lia|done|].
  rewrite Hr2, Nat2Z.id, take_ge by lia. rewrite bind_run. rewrite Hd. done.
Qed.
End reader.

(** ** Claims *)

(** C32: The reader does not depend on how bytes arrive.  However a response frame
    of at most 1 MiB is cut into chunks, and however the chunks are spread over
    successive polls, the incremental reader reports nothing before the poll that
    brings the last byte and the response then, and the blocking reader returns the
    same response. *)
Theorem incremental_reader_exact `{KI : !Codec IpcEnvelope} rounds final payload resp wr :
  Z.of_nat (length payload) ≤ MAX_RESPONSE →
  decode payload = Some (mkIpcEnvelope (Some (MsgPamResponse resp))) →
  Forall (Forall (λ d, d ≠ [])) (rounds ++ [final]) → final ≠ [] →
  concat (concat (rounds ++ [final])) = response_frame payload →
  poll_reads (S (length rounds)) (fresh_client (concat (round <$> rounds ++ [final])) wr)
    = replicate (length rounds) (Ok None) ++ [Ok (Some resp)] ∧
  (recv_response (fresh_client (Chunk <$> concat (rounds ++ [final])) wr)).2 = Ok resp.
Proof.
  intros Hmax Hd Hne Hfin Hc. split.
  - eapply poll_reads_rounds; try done. apply Forall_app in Hne as [_ Hf].
    apply Forall_cons in Hf as [Hf _]. destruct final as [|d l]; [done|].
    apply Forall_cons in Hf as [Hd0 _]. by destruct d.
  - apply (recv_response_chunks _ (concat (rounds ++ [final])) payload); try done. by apply Forall_concat.
Qed.

Definition toy_response : PamAuthenticateResponse := mkPamAuthenticateResponse OUTCOME_DENIED "no" [].
Definition toy_payload : bytes := encode_to_vec (mkIpcEnvelope (Some (MsgPamResponse toy_response))).

Lemma incremental_reader_exact_witness :
  poll_reads 3 (fresh_client
    (concat (round <$> [[take 2 (response_frame toy_payload)]; []; [drop 2 (response_frame toy_payload)]])) None)
  = [Ok None; Ok None; Ok (Some toy_response)].
Proof.
  refine (proj1 (incremental_reader_exact [[take 2 (response_frame toy_payload)]; []] [drop 2 (response_frame toy_payload)]
    toy_payload toy_response None _ _ _ _ _)).
  - by vm_compute.
  - by vm_compute.
  - repeat constructor; by vm_compute.
  - done.
  - cbn [concat app]. rewrite app_nil_r. apply take_drop.
Defined.

(** An oversized frame is refused by its header alone, by both readers, however
    little of it has arrived. *)
Theorem oversized_response_refused `{KI : !Codec IpcEnvelope} len more wr :
  MAX_RESPONSE < len < 2 ^ 32 →
  (try_read_response_nonblocking (fresh_client (round [to_be_bytes 4 len ++ more]) wr)).2
    = Err (IE_FrameTooLarge len) ∧
  (recv_response (fresh_client [Chunk (to_be_bytes 4 len ++ more)] wr)).2 = Err (IE_FrameTooLarge len).
Proof.
  intros Hlen. assert (Hh : from_be_bytes (to_be_bytes 4 len) = len)
    by (apply from_to_be_bytes_small; unfold MAX_RESPONSE in *; lia).
  assert (Hl : (4 ≤ length (to_be_bytes 4 len ++ more))%nat) by (rewrite length_app, length_to_be_bytes; lia).
  assert (Hne : Forall (λ d, d ≠ []) [to_be_bytes 4 len ++ more]).
  { constructor; [|done]. intros H0. by rewrite H0 in Hl; simpl in Hl; lia. }
  split.
  - erewrite try_read_round; [|done|by rewrite app_nil_r]. unfold take_response. rewrite bind_run.
    unfold frame_total. cbn -[from_be_bytes take]. rewrite app_nil_r, decide_True by done.
    rewrite take_app_exact by (by rewrite length_to_be_bytes). by rewrite Hh, decide_True by lia.
  - unfold recv_response. rewrite bind_run. unfold read_exact_now. set (c := fresh_client _ _).
    destruct (read_exact_chunks (S (pending (ic_in c))) 4 c [to_be_bytes 4 len ++ more] (to_be_bytes 4 len ++ more))
      as (cs' & Hr & _); [done|done|lia|by simpl; rewrite app_nil_r|by simpl; rewrite app_nil_r|].
    rewrite Hr, take_app_exact by (by rewrite length_to_be_bytes). by rewrite Hh, decide_True by lia.
Qed.

Lemma oversized_response_refused_witness :
  (recv_response (fresh_client [Chunk (to_be_bytes 4 (2 ^ 20 + 1) ++ [])] None)).2
  = Err (IE_FrameTooLarge (2 ^ 20 + 1)).
Proof. refine (proj2 (oversized_response_refused (2 ^ 20 + 1) [] None _)). unfold MAX_RESPONSE. lia. Defined.
