(* ===== verification/Pam.v ===== *)
(** * The PAM module: [client-pam/src/pam_logic.rs], [config.rs], [lib.rs]

    What the module answers to the host that called [pam_authenticate], and the
    reuse of the last verdict. *)

From stdpp Require Import base gmap strings list.
From Stdlib Require Import Strings.Byte Strings.Ascii.
From S2P Require Import Prelude Os Text Crypto Protocol Config Auth Ipc IpcClient.

(** ** Linux-PAM *)

Definition PAM_SUCCESS : Z := 0.
Definition PAM_SYSTEM_ERR : Z := 4.
Definition PAM_PERM_DENIED : Z := 6.
Definition PAM_AUTH_ERR : Z := 7.
Definition PAM_AUTHINFO_UNAVAIL : Z := 9.
Definition PAM_USER_UNKNOWN : Z := 10.
Definition PAM_CONV_ERR : Z := 19.
Definition PAM_IGNORE : Z := 25.

(** What [pam_get_item] finds: a null pointer, a string that is not UTF-8, or
    text. *)
Inductive pam_item := NullItem | BadText | Item (s : string).
#[global] Instance pam_item_eq_dec : EqDecision pam_item.
Proof. solve_decision. Defined.

(** The host's handle: each item with the code [pam_get_item] returns for it. *)
Record PamHandle := mkPamHandle {
  ph_null : bool;
  ph_service : Z * pam_item;
  ph_user : Z * pam_item;
  ph_ruser : Z * pam_item;
  ph_conv : Z * bool;             (* and whether the pointer is not null *)
}.

Definition get_service_name (h : PamHandle) : option string :=
  if ph_null h then None else
  if decide ((ph_service h).1 = PAM_SUCCESS)
  then match (ph_service h).2 with Item s => Some s | _ => None end
  else None.

Definition get_user (h : PamHandle) : result Z string :=
  if ph_null h then Err PAM_SYSTEM_ERR else
  if decide ((ph_user h).1 ≠ PAM_SUCCESS) then Err (ph_user h).1 else
  let text i := match i with Item s => Ok s | _ => Err PAM_USER_UNKNOWN end in
  match (ph_user h).2 with
  | NullItem =>
      if decide ((ph_ruser h).1 ≠ PAM_SUCCESS) then Err (ph_ruser h).1 else text (ph_ruser h).2
  | i => text i
  end.

Definition get_conv (h : PamHandle) : result Z () :=
  if ph_null h then Err PAM_SYSTEM_ERR else
  if decide ((ph_conv h).1 ≠ PAM_SUCCESS) then Err (ph_conv h).1 else
  if (ph_conv h).2 then Ok () else Err PAM_CONV_ERR.

(** ** Configuration *)

Record PamConfig := mkPamConfig { pc_operation_timeout_secs : N; pc_gui_timeout_secs : N }.
Definition default_pam_config : PamConfig :=
  mkPamConfig (Z.to_N DEFAULT_PAM_TIMEOUT_SECS) (Z.to_N DEFAULT_PAM_GUI_TIMEOUT_SECS).

(** The [toml] crate reading the module's own settings from a file's bytes;
    missing fields take the defaults. *)
Class PamToml := { pam_from_toml : bytes → option PamConfig }.

Definition pam_config_load_from_path `{PamToml} {E} (path : string) : M World E PamConfig :=
  contents ← attempt (fs_read path);
  match contents with
  | Err _ => mret default_pam_config
  | Ok c => mret (default default_pam_config (pam_from_toml c))
  end.
Definition pam_config_load `{PamToml} {E} : M World E PamConfig := pam_config_load_from_path DEFAULT_CONFIG_PATH.

(** ** Reuse of the last verdict *)

Definition VERDICT_REUSE_WINDOW : Z := 500.

Record LastConclusion := mkLastConclusion {
  lc_concluded_at : Z;
  lc_username : string;
  lc_service : string;
  lc_code : Z;
}.

Record Verdict := mkVerdict { vd_username : string; vd_service : option string; vd_from_cache : bool }.

(** [Instant::saturating_duration_since] *)
Definition saturating_duration_since (now earlier : Z) : Z := Z.max 0 (now - earlier).

Definition reusable_conclusion (prev : LastConclusion) (username service : string) (now : Z) : option Z :=
  if decide (lc_username prev = username ∧ lc_service prev = service ∧
             saturating_duration_since now (lc_concluded_at prev) < VERDICT_REUSE_WINDOW)
  then Some (lc_code prev) else None.

(** A mutex around the last conclusion: [None] when it is poisoned. *)
Definition cached_from (lock : option (option LastConclusion)) (username service : string) (now : Z)
    : option (Z * Z) :=
  guard ← lock;
  prev ← guard;
  code ← reusable_conclusion prev username service now;
  Some (code, saturating_duration_since now (lc_concluded_at prev)).

Definition record_conclusion (username service : string) (code now : Z) (lock : option (option LastConclusion))
    : option (option LastConclusion) :=
  match lock with
  | Some _ => Some (Some (mkLastConclusion now username service code))
  | None => None
  end.

Definition record_verdict (verdict : option Verdict) (code now : Z) (lock : option (option LastConclusion))
    : option (option LastConclusion) :=
  match verdict with
  | None => lock
  | Some v =>
      match vd_from_cache v, vd_service v with
      | false, Some service => record_conclusion (vd_username v) service code now lock
      | _, _ => lock
      end
  end.

(** ** The calling host *)

Inductive ConversationMode := Threaded | PreCollected | Sequential.
#[global] Instance ConversationMode_eq_dec : EqDecision ConversationMode.
Proof. solve_decision. Defined.

(** [exe] is the file name of [/proc/self/exe], [comm] the contents of
    [/proc/self/comm]. *)
Definition process_identity (exe comm : option string) : option string :=
  let from_comm := c ← comm; let t := trim c in if decide (t = EmptyString) then None else Some t in
  match exe with
  | Some name =>
      let name := default name (strip_suffix " (deleted)" name) in
      if decide (name = EmptyString) then from_comm else Some name
  | None => from_comm
  end.

Definition conversation_mode (service : string) (process : option string) (reauth : bool) : ConversationMode :=
  match process with
  | Some p =>
      if decide (p ∈ ["polkit-agent-helper-1"; "polkit-agent-he"; "kscreenlocker_worker"; "kscreenlocker_w";
                      "hyprlock"; "authproto_pam"]%string) then Threaded else
      if decide (p ∈ ["gdm-session-worker"; "gdm-session-wor"]%string ∧
                 reauth && eq_ignore_ascii_case service "gdm-password" = true) then Threaded else
      if decide (p ∈ ["swaylock"; "gtklock"; "i3lock"]%string) then PreCollected else Sequential
  | None => if decide (service = "polkit-1"%string) then Threaded else Sequential
  end.

(** [reauth_env]: [GDM_SESSION_FOR_REAUTH] is set. *)
Definition is_gdm_reauth (reauth_env : bool) (service : string) : bool :=
  eq_ignore_ascii_case service "gdm-password" && reauth_env.

Definition DM_PREFIXES : list string :=
  ["sddm"; "gdm"; "gdm3"; "lightdm"; "lxdm"; "slim"; "xdm"; "kdm"; "greetd"; "ly"; "nodm"; "entrance";
   "plasmalogin"]%string.

Definition is_dm_service (service : string) : bool :=
  let service_lower := to_ascii_lowercase service in
  existsb (λ p, bool_decide (service_lower = p) ||
    (String.prefix p service_lower &&
     bool_decide (String.get (String.length p) service_lower = Some "-"%char))) DM_PREFIXES.

Definition guard_display_manager_bypass (h : PamHandle) (reauth_env : bool) : option Z :=
  service ← get_service_name h;
  if is_dm_service service && negb (is_gdm_reauth reauth_env service)
  then Some PAM_AUTHINFO_UNAVAIL else None.

(** ** The daemon's answer *)

Inductive PamOutcome := OSuccess | ODenied | OTimeout | OIgnore | OError.

(** [PamOutcome::try_from]: the declared values only. *)
Definition outcome_try_from (raw : Z) : option PamOutcome :=
  match raw with
  | 0 => Some OSuccess
  | 1 => Some ODenied
  | 2 => Some OTimeout
  | 3 => Some OIgnore
  | 4 => Some OError
  | _ => None
  end.

Definition outcome_from_raw (raw : Z) : PamOutcome :=
  match outcome_try_from raw with
  | Some OSuccess => OSuccess
  | Some ODenied => ODenied
  | Some OTimeout => OTimeout
  | Some OIgnore => OIgnore
  | Some OError => OError
  | None => OError
  end.

Definition response_outcome (resp : PamAuthenticateResponse) : PamOutcome := outcome_from_raw (resp_outcome resp).

(** The texts shown to the user. *)
Inductive PamText :=
| waiting_for_tap_skip
| waiting_for_tap
| waiting_for_tap_password
| cannot_connect
| communication_error
| connection_lost
| timed_out
| skipped
| auth_successful
| auth_denied
| error_text (detail : string).

(** Everything the module does besides answering. *)
Inductive PamEffect :=
| EInfo (t : PamText)
| EError (t : PamText)
| ESent (b : bytes)               (* on the connection of the request *)
| ECancelSent (b : bytes)         (* on a connection of its own *)
| EReadToken                      (* the password, on the calling thread *)
| ESpawnWorker
| EJoinWorker (cancel : bool).

(** [lock] is the last conclusion; [dials] what successive connections to the
    daemon meet: refusal, or what the socket then delivers and whether writing to it
    fails. *)
Record PamState := mkPamState {
  ps_world : World;
  ps_lock : option (option LastConclusion);
  ps_dials : list (option (list sock_event * option io_kind));
  ps_verdict : option Verdict;
  ps_log : list PamEffect;
}.

(** A computation that may answer early: [Some code], or [None] while it is still
    waiting. *)
Definition PM (A : Type) : Type := M PamState (option Z) A.

Definition say (e : PamEffect) : PM () :=
  modify (λ s, mkPamState (ps_world s) (ps_lock s) (ps_dials s) (ps_verdict s) (ps_log s ++ [e])).
Definition set_verdict (v : Verdict) : PM () :=
  modify (λ s, mkPamState (ps_world s) (ps_lock s) (ps_dials s) (Some v) (ps_log s)).
Definition answer_code {A} (code : Z) : PM A := throw (Some code).

Definition on_world {A} (k : M World (option Z) A) : PM A := λ s,
  let '(w, r) := k (ps_world s) in
  (mkPamState w (ps_lock s) (ps_dials s) (ps_verdict s) (ps_log s), r).

(** Both ways to connect meet the next dial; none left means no daemon. *)
Definition connect : PM (option IpcClient) := λ s,
  match ps_dials s with
  | [] => (s, Ok None)
  | d :: l => (mkPamState (ps_world s) (ps_lock s) l (ps_verdict s) (ps_log s),
               Ok ((λ '(input, wr), fresh_client input wr) <$> d))
  end.

Definition map_pam_outcome (resp : PamAuthenticateResponse) : PM Z :=
  match response_outcome resp with
  | OSuccess => _ ← say (EInfo auth_successful); mret PAM_SUCCESS
  | ODenied => _ ← say (EInfo auth_denied); mret PAM_PERM_DENIED
  | OTimeout => mret PAM_AUTHINFO_UNAVAIL
  | OIgnore => mret PAM_AUTHINFO_UNAVAIL
  | OError => _ ← say (EError (error_text (resp_detail resp))); mret PAM_AUTH_ERR
  end.

(** ** Waiting *)

Record Revents := mkRevents { pollin : bool; pollhup : bool; pollerr : bool }.
Definition hup_or_err (r : Revents) : bool := pollhup r || pollerr r.

Inductive poll_result :=
| PollNone                                   (* the timeout ran out *)
| PollErr (eintr : bool)
| PollReady (ipc other : option Revents).

(** What reading one byte of the terminal gives. *)
Inductive tty_read := TtyByte (b : byte) | TtyEof | TtyWouldBlock | TtyError.

(** One turn of a loop: the clock at its top, what [poll] reports, whether the
    worker has stored a password by then, and what the terminal gives if it is
    read. *)
Record Tick := mkTick {
  tk_now : Z;
  tk_poll : poll_result;
  tk_password : bool;
  tk_tty : tty_read;
}.

Inductive ExitReason := Timeout | IpcResponseReceived | IpcErrorExit | PasswordEntered | PasswordFailed.
#[global] Instance ExitReason_eq_dec : EqDecision ExitReason.
Proof. solve_decision. Defined.

Section waiting.
Context `{KI : !Codec IpcEnvelope}.

(** A loop that has run out of turns is still waiting ([None]). *)
Definition LoopExit : Type := option (ExitReason * option PamAuthenticateResponse * option PamText).

Fixpoint run_gui_event_loop (deadline : Z) (request_id : string) (ticks : list Tick) (ipc : IpcClient)
    : IpcClient * LoopExit :=
  match ticks with
  | [] => (ipc, None)
  | t :: ticks' =>
      if decide (deadline ≤ tk_now t) then (ipc, Some (Timeout, None, None)) else
      match tk_poll t with
      | PollNone => run_gui_event_loop deadline request_id ticks' ipc
      | PollErr eintr =>
          if eintr then run_gui_event_loop deadline request_id ticks' ipc
          else (ipc, Some (IpcErrorExit, None, Some communication_error))
      | PollReady fd0 fd1 =>
          if tk_password t then
            ((send_cancel "gui-password-skip" request_id ipc).1, Some (PasswordEntered, None, None))
          else
            let self_pipe ipc :=
              match fd1 with
              | Some rev =>
                  if pollin rev
                  then ((send_cancel "gui-password-failed" request_id ipc).1, Some (PasswordFailed, None, None))
                  else run_gui_event_loop deadline request_id ticks' ipc
              | None => run_gui_event_loop deadline request_id ticks' ipc
              end in
            match fd0 with
            | Some rev =>
                if pollin rev then
                  let '(ipc', r) := try_read_response_nonblocking ipc in
                  match r with
                  | Ok (Some resp) => (ipc', Some (IpcResponseReceived, Some resp, None))
                  | Ok None =>
                      if hup_or_err rev then (ipc', Some (IpcErrorExit, None, Some connection_lost))
                      else run_gui_event_loop deadline request_id ticks' ipc'
                  | Err _ => (ipc', Some (IpcErrorExit, None, Some communication_error))
                  end
                else if hup_or_err rev then (ipc, Some (IpcErrorExit, None, Some connection_lost))
                else self_pipe ipc
            | None => self_pipe ipc
            end
      end
  end.

Fixpoint run_sequential_event_loop (deadline : Z) (ticks : list Tick) (ipc : IpcClient)
    : IpcClient * option (ExitReason * option PamAuthenticateResponse) :=
  match ticks with
  | [] => (ipc, None)
  | t :: ticks' =>
      if decide (deadline ≤ tk_now t) then (ipc, Some (Timeout, None)) else
      match tk_poll t with
      | PollNone => run_sequential_event_loop deadline ticks' ipc
      | PollErr eintr =>
          if eintr then run_sequential_event_loop deadline ticks' ipc else (ipc, Some (IpcErrorExit, None))
      | PollReady None _ => run_sequential_event_loop deadline ticks' ipc
      | PollReady (Some rev) _ =>
          if pollin rev then
            let '(ipc', r) := try_read_response_nonblocking ipc in
            match r with
            | Ok (Some resp) => (ipc', Some (IpcResponseReceived, Some resp))
            | Ok None =>
                if hup_or_err rev then (ipc', Some (IpcErrorExit, None))
                else run_sequential_event_loop deadline ticks' ipc'
            | Err _ => (ipc', Some (IpcErrorExit, None))
            end
          else if hup_or_err rev then (ipc, Some (IpcErrorExit, None))
          else run_sequential_event_loop deadline ticks' ipc
      end
  end.

(** A cancel on a new connection, whose outcome is ignored. *)
Definition best_effort_cancel (reason request_id : string) : PM () :=
  d ← connect;
  match d with
  | Some c => say (ECancelSent (ic_out (send_cancel reason request_id c).1))
  | None => mret ()
  end.

(** The terminal's part of one turn: Enter skips, any other key is dropped, and an
    end or an error stops its polling from then on. *)
Definition read_tty (t : Tick) (fd1 : option Revents) (poll_tty : bool) (request_id : string)
    (again : bool → PM Z) : PM Z :=
  if poll_tty then
    match fd1 with
    | Some rev =>
        if pollin rev then
          match tk_tty t with
          | TtyByte b =>
              if decide (b = x0a ∨ b = x0d) then
                _ ← best_effort_cancel "tty-skip" request_id;
                _ ← say (EInfo skipped);
                mret PAM_AUTHINFO_UNAVAIL
              else again true
          | TtyWouldBlock => again true
          | TtyEof | TtyError => again false
          end
        else if hup_or_err rev then again false
        else again true
    | None => again true
    end
  else again false.

(** The terminal loop at the end of [authenticate_inner]. *)
Fixpoint terminal_loop (deadline : Z) (request_id : string) (ticks : list Tick) (poll_tty : bool) (ipc : IpcClient)
    : PM Z :=
  match ticks with
  | [] => throw None
  | t :: ticks' =>
      if decide (deadline ≤ tk_now t) then _ ← say (EInfo timed_out); mret PAM_AUTHINFO_UNAVAIL else
      match tk_poll t with
      | PollNone | PollErr _ => terminal_loop deadline request_id ticks' poll_tty ipc
      | PollReady fd0 fd1 =>
          match fd0 with
          | Some rev =>
              if pollin rev then
                let '(ipc', r) := try_read_response_nonblocking ipc in
                match r with
                | Ok (Some resp) => map_pam_outcome resp
                | Ok None =>
                    if hup_or_err rev then _ ← say (EInfo connection_lost); mret PAM_AUTHINFO_UNAVAIL
                    else read_tty t fd1 poll_tty request_id (λ b, terminal_loop deadline request_id ticks' b ipc')
                | Err _ => _ ← say (EInfo communication_error); mret PAM_AUTHINFO_UNAVAIL
                end
              else if hup_or_err rev then _ ← say (EInfo connection_lost); mret PAM_AUTHINFO_UNAVAIL
              else read_tty t fd1 poll_tty request_id (λ b, terminal_loop deadline request_id ticks' b ipc)
          | None => read_tty t fd1 poll_tty request_id (λ b, terminal_loop deadline request_id ticks' b ipc)
          end
      end
  end.
End waiting.

(** ** The entry point *)

Inductive StartError := SE_Connect | SE_Send (e : IpcError).

(** Everything outside the module during one call. *)
Record PamCall := mkPamCall {
  pk_handle : PamHandle;
  pk_exe : option string;
  pk_comm : option string;
  pk_reauth_env : bool;
  pk_tty : bool;                  (* the terminal device can be opened *)
  pk_pipe_ok : bool;
  pk_thread_ok : bool;
  pk_joins : bool;                (* [pthread_join] on the password thread returns *)
  pk_lookup_at : Z;               (* the clock when the last verdict is looked up *)
  pk_wait_at : Z;                 (* when the wait begins *)
  pk_return_at : Z;               (* when the module returns *)
  pk_ticks : list Tick;
}.

Section entry.
Context `{KI : !Codec IpcEnvelope} `{PT : PamToml} `{H : Hex}.

(** The record is armed only when the request is on the wire. *)
Definition start_authentication (username : string) (service : option string)
    (send : M IpcClient IpcError ()) : PM (result StartError IpcClient) :=
  d ← connect;
  match d with
  | None => mret (Err SE_Connect)
  | Some c =>
      match send c with
      | (_, Err e) => mret (Err (SE_Send e))
      | (c', Ok _) =>
          _ ← say (ESent (drop (length (ic_out c)) (ic_out c')));
          _ ← set_verdict (mkVerdict username service false);
          mret (Ok c')
      end
  end.

(** The wait of hosts that must keep their conversation to themselves. *)
Definition sequential_wait (call : PamCall) (timeout_secs : Z) (request_id : string) (ipc : IpcClient) : PM Z :=
  let deadline := pk_wait_at call + timeout_secs * 1000 in
  _ ← say (EInfo waiting_for_tap_password);
  match (run_sequential_event_loop deadline (pk_ticks call) ipc).2 with
  | None => throw None
  | Some (IpcResponseReceived, Some resp) => map_pam_outcome resp
  | Some (IpcResponseReceived, None) => mret PAM_AUTHINFO_UNAVAIL
  | Some (Timeout, _) => _ ← say (EInfo timed_out); mret PAM_AUTHINFO_UNAVAIL
  | Some _ =>
      _ ← best_effort_cancel "gui-ipc-error" request_id;
      _ ← say (EError communication_error);
      mret PAM_AUTHINFO_UNAVAIL
  end.

(** The wait of hosts whose password dialog a worker thread may drive. *)
Definition threaded_wait (call : PamCall) (timeout_secs : Z) (request_id : string) (ipc : IpcClient) : PM Z :=
  if negb (pk_pipe_ok call) then
    _ ← best_effort_cancel "gui-pipe2-fail" request_id; mret PAM_AUTH_ERR else
  if negb (pk_thread_ok call) then
    _ ← best_effort_cancel "gui-thread-spawn-fail" request_id; mret PAM_AUTH_ERR else
  _ ← say ESpawnWorker;
  let deadline := pk_wait_at call + timeout_secs * 1000 in
  let '(ipc', exit) := run_gui_event_loop deadline request_id (pk_ticks call) ipc in
  match exit with
  | None => throw None
  | Some (exit_reason, auth_response, pending_error) =>
      _ ← say (ESent (drop (length (ic_out ipc)) (ic_out ipc')));
      if negb (pk_joins call) then throw None else
      _ ← say (EJoinWorker (bool_decide (exit_reason ≠ PasswordEntered ∧ exit_reason ≠ PasswordFailed)));
      _ ← (match pending_error with Some e => say (EInfo e) | None => mret () end);
      final_outcome ← (match auth_response with
                       | Some resp => map_pam_outcome resp
                       | None => mret PAM_AUTHINFO_UNAVAIL
                       end);
      _ ← (if decide (exit_reason = Timeout) then say (EInfo timed_out) else mret ());
      mret final_outcome
  end.

Definition clamp_u32 (secs : N) : Z := if decide (2 ^ 32 - 1 < Z.of_N secs) then 2 ^ 32 - 1 else Z.of_N secs.

(** The password of a host that collected it beforehand. *)
Definition pre_collected : PM Z := _ ← say EReadToken; mret PAM_AUTHINFO_UNAVAIL.

(** A verdict of this process that answers the request. *)
Definition replay_conclusion (username : string) (service : option string) (now : Z) : PM () :=
  match service with
  | None => mret ()
  | Some service_name =>
      lock ← gets ps_lock;
      match cached_from lock username service_name now with
      | Some (code, _) => _ ← set_verdict (mkVerdict username service true); answer_code code
      | None => mret ()
      end
  end.

(** The part of [authenticate_inner] that asks the daemon and waits. *)
Definition ask_daemon (call : PamCall) (config : PamConfig) (username : string) (service_item : option string)
    (mode : ConversationMode) (has_terminal : bool) : PM Z :=
  _ ← (if has_terminal then say (EInfo waiting_for_tap_skip)
       else if decide (mode = Threaded) then say (EInfo waiting_for_tap) else mret ());
  rid_bytes ← on_world (mapM_err (λ _, Some PAM_AUTH_ERR) (getrandom_fill 16));
  let request_id := hex_encode rid_bytes in
  let timeout_secs := clamp_u32
    (if negb has_terminal && bool_decide (mode = Sequential)
     then N.min (pc_gui_timeout_secs config) (pc_operation_timeout_secs config)
     else pc_operation_timeout_secs config) in
  started ← start_authentication username service_item
    (send_authenticate_start username has_terminal timeout_secs request_id);
  match started with
  | Err SE_Connect => _ ← say (EError cannot_connect); mret PAM_AUTHINFO_UNAVAIL
  | Err (SE_Send _) => _ ← say (EError communication_error); mret PAM_AUTHINFO_UNAVAIL
  | Ok ipc =>
      if negb has_terminal && bool_decide (mode = Sequential) then sequential_wait call timeout_secs request_id ipc else
      if negb has_terminal && bool_decide (mode = Threaded) then threaded_wait call timeout_secs request_id ipc else
      terminal_loop (pk_wait_at call + timeout_secs * 1000) request_id (pk_ticks call) true ipc
  end.

Definition authenticate_inner (call : PamCall) : PM Z :=
  _ ← (match guard_display_manager_bypass (pk_handle call) (pk_reauth_env call) with
       | Some pam_status => answer_code pam_status
       | None => mret ()
       end);
  config ← on_world pam_config_load;
  username ← (match get_user (pk_handle call) with
              | Ok user => mret user
              | Err _ => answer_code PAM_USER_UNKNOWN
              end);
  _ ← (match get_conv (pk_handle call) with Ok _ => mret () | Err _ => answer_code PAM_AUTH_ERR end);
  let service_item := get_service_name (pk_handle call) in
  let service := default EmptyString service_item in
  let process := process_identity (pk_exe call) (pk_comm call) in
  let reauth := is_gdm_reauth (pk_reauth_env call) service in
  let mode := conversation_mode service process reauth in
  let has_terminal := bool_decide (mode = Sequential) && pk_tty call in
  if decide (mode = PreCollected) then pre_collected else
  _ ← replay_conclusion username service_item (pk_lookup_at call);
  ask_daemon call config username service_item mode has_terminal.

(** The code of a finished call, returned early or at the end. *)
Definition answered (r : result (option Z) Z) : option Z :=
  match r with Ok code => Some code | Err early => early end.

(** One call of [pam_authenticate]; [None] while it is still waiting. *)
Definition authenticate (call : PamCall) (s : PamState) : PamState * option Z :=
  let '(s', r) := authenticate_inner call
                    (mkPamState (ps_world s) (ps_lock s) (ps_dials s) None (ps_log s)) in
  match answered r with
  | None => (s', None)
  | Some code =>
      (mkPamState (ps_world s') (record_verdict (ps_verdict s') code (pk_return_at call) (ps_lock s'))
         (ps_dials s') None (ps_log s'), Some code)
  end.

(** ** The C entry points: [client-pam/src/lib.rs] *)

(** How the body of an entry point ends: with a code ([None] while it is still
    waiting), or unwinding. *)
Inductive Unwinding := Returned (code : option Z) | Panicked.

(** [guard]: no panic leaves the module. *)
Definition panic_guard (f : PamState → PamState * Unwinding) (s : PamState) : PamState * option Z :=
  match f s with
  | (s', Returned code) => (s', code)
  | (s', Panicked) => (s', Some PAM_AUTH_ERR)
  end.

(** [panics]: the state a panic leaves, when the body meets one. *)
Definition pam_sm_authenticate (panics : option PamState) (call : PamCall) : PamState → PamState * option Z :=
  panic_guard (λ s, match panics with
                    | Some s' => (s', Panicked)
                    | None => let '(s', code) := authenticate call s in (s', Returned code)
                    end).

Definition pam_sm_setcred (h : PamHandle) (flags : Z) : Z := PAM_SUCCESS.
Definition pam_sm_acct_mgmt (h : PamHandle) (flags : Z) : Z := PAM_SUCCESS.
Definition pam_sm_open_session (h : PamHandle) (flags : Z) : Z := PAM_SUCCESS.
Definition pam_sm_close_session (h : PamHandle) (flags : Z) : Z := PAM_SUCCESS.
Definition pam_sm_chauthtok (h : PamHandle) (flags : Z) : Z := PAM_SUCCESS.
End entry.
