(* ===== verification/PamTheorems.v ===== *)
(** * Theorems about the PAM module

    Where [PAM_SUCCESS] comes from, which codes are ever returned, the reuse of a
    verdict, the worker thread, and that a call returns by its deadline. *)

From stdpp Require Import base gmap strings list.
From Stdlib Require Import Strings.Byte.
From S2P Require Import Prelude Os Text Crypto Concrete Protocol ConcreteCodec Config ConfigFacts.
From S2P Require Import ConcreteConfig Network Auth ConcreteAuth Ipc ConcreteIpc IpcClient.
From S2P Require Import IpcClientTheorems Pam.

(** The codes the module may answer with. *)
Definition VERDICTS : list Z :=
  [PAM_SUCCESS; PAM_PERM_DENIED; PAM_AUTHINFO_UNAVAIL; PAM_AUTH_ERR; PAM_USER_UNKNOWN].

(** ** The worker thread in a log *)

(** Whether a worker is running after the effects, provided nothing used the
    conversation while one was. *)
Fixpoint worker_scan (running : bool) (l : list PamEffect) : option bool :=
  match l with
  | [] => Some running
  | ESpawnWorker :: l' => if running then None else worker_scan true l'
  | EJoinWorker _ :: l' => if running then worker_scan false l' else None
  | (EInfo _ | EError _ | EReadToken) :: l' => if running then None else worker_scan running l'
  | _ :: l' => worker_scan running l'
  end.

Definition harmless (e : PamEffect) : Prop :=
  match e with ESpawnWorker | EJoinWorker _ => False | _ => True end.

Lemma worker_scan_harmless l l' : Forall harmless l → worker_scan false (l ++ l') = worker_scan false l'.
Proof. induction 1 as [|e l He _ IH]; simpl; [done|]. by destruct e. Qed.

Lemma worker_scan_app b l l' : worker_scan b (l ++ l') = worker_scan b l ≫= λ b', worker_scan b' l'.
Proof. revert b. induction l as [|e l IH]; intros b; simpl; [done|]. by destruct e, b; simpl. Qed.

(** ** Computations that neither answer nor touch the record *)

Definition quiet {A} (k : PM A) : Prop := ∀ s, ∃ s' a l, k s = (s', Ok a) ∧
  ps_lock s' = ps_lock s ∧ ps_verdict s' = ps_verdict s ∧ ps_log s' = ps_log s ++ l ∧ Forall harmless l.

Lemma quiet_ret {A} (a : A) : quiet (mret a).
Proof. intros s. exists s, a, []. by rewrite app_nil_r. Qed.
Lemma quiet_say e : harmless e → quiet (say e).
Proof. intros He s. eexists _, (), [e]. split_and!; try done. by constructor. Qed.
Lemma say_step {B} e (k : () → PM B) s :
  (say e ≫= k) s = k () (mkPamState (ps_world s) (ps_lock s) (ps_dials s) (ps_verdict s) (ps_log s ++ [e])).
Proof. done. Qed.
Lemma quiet_connect : quiet connect.
Proof.
  intros s. unfold connect. destruct (ps_dials s); eexists _, _, []; split; try done; by rewrite app_nil_r.
Qed.
Lemma quiet_bind {A B} (m : PM A) (k : A → PM B) : quiet m → (∀ a, quiet (k a)) → quiet (m ≫= k).
Proof.
  intros Hm Hk s. destruct (Hm s) as (s1 & a & l1 & H1 & HL1 & HV1 & Hl1 & Hh1).
  destruct (Hk a s1) as (s2 & b & l2 & H2 & HL2 & HV2 & Hl2 & Hh2).
  exists s2, b, (l1 ++ l2). rewrite (bind_step _ _ _ _ _ H1), H2, Hl2, Hl1, (assoc_L (++)), HL2, HV2.
  repeat split; try done. by apply Forall_app.
Qed.

#[export] Hint Resolve quiet_ret quiet_say quiet_connect quiet_bind : tapauth.

Section waiting.
Context `{KI : !Codec IpcEnvelope}.

Lemma quiet_cancel reason id : quiet (best_effort_cancel reason id).
Proof.
  unfold best_effort_cancel. apply quiet_bind; [apply quiet_connect|]. intros [c|]; [by apply quiet_say|apply quiet_ret].
Qed.

(** A success among the bytes on a connection. *)
Definition approved (ipc : IpcClient) : Prop :=
  ∃ resp, carries (unread ipc) resp ∧ resp_outcome resp = OUTCOME_SUCCESS.

(** The outcome of a wait on [ipc]. *)
Definition waits (ipc : IpcClient) (k : PM Z) : Prop := ∀ s s' r, k s = (s', r) →
  ps_lock s' = ps_lock s ∧ ps_verdict s' = ps_verdict s ∧
  ∃ l, ps_log s' = ps_log s ++ l ∧
  match r with
  | Ok code => code ∈ VERDICTS ∧ (code = PAM_SUCCESS → approved ipc) ∧ worker_scan false l = Some false
  | Err (Some _) => False
  | Err None => True
  end.

Lemma waits_bind {A} ipc (m : PM A) k : quiet m → (∀ a, waits ipc (k a)) → waits ipc (m ≫= k).
Proof.
  intros Hm Hk s s' r. destruct (Hm s) as (s1 & a & l1 & H1 & HL1 & HV1 & Hl1 & Hh1).
  rewrite (bind_step _ _ _ _ _ H1). intros (HL & HV & l & Hl & Hr)%Hk. rewrite HL, HV, HL1, HV1, Hl, Hl1.
  split; [done|]. split; [done|]. exists (l1 ++ l). rewrite (assoc_L (++)). split; [done|].
  destruct r as [code|[]]; try done. by rewrite worker_scan_harmless.
Qed.

Lemma waits_ret ipc code :
  code ∈ VERDICTS → (code = PAM_SUCCESS → approved ipc) → waits ipc (mret code).
Proof. intros Hc Ha s s' r [= <- <-]. split; [done|]. split; [done|]. exists []. by rewrite app_nil_r. Qed.

Lemma waits_unavailable ipc : waits ipc (mret PAM_AUTHINFO_UNAVAIL).
Proof. apply waits_ret; [unfold VERDICTS; set_solver|done]. Qed.

Lemma waits_still ipc : waits ipc (throw None).
Proof. intros s s' r [= <- <-]. split; [done|]. split; [done|]. exists []. by rewrite app_nil_r. Qed.

Lemma waits_outcome ipc resp : carries (unread ipc) resp → waits ipc (map_pam_outcome resp).
Proof.
  intros Hc. unfold map_pam_outcome, response_outcome, outcome_from_raw.
  destruct (outcome_try_from (resp_outcome resp)) as [[]|] eqn:Eo;
    repeat (apply waits_bind; [by apply quiet_say|intros _]);
    (apply waits_ret; [unfold VERDICTS; set_solver|]); try done.
  intros _. exists resp. split; [done|]. unfold outcome_try_from, OUTCOME_SUCCESS in *. case_all.
Qed.

Lemma waits_tail {A} ipc m (q : PM A) : waits ipc m → quiet q → waits ipc (code ← m; _ ← q; mret code).
Proof.
  intros Hm Hq s s' r. rewrite (bind_run m). destruct (m s) as [s1 r1] eqn:Em.
  destruct (Hm _ _ _ Em) as (HL & HV & l & Hl & Hr). destruct r1 as [code|e].
  - destruct (Hq s1) as (s2 & a & l2 & H2 & HL2 & HV2 & Hl2 & Hh2). rewrite (bind_step _ _ _ _ _ H2).
    intros [= <- <-]. rewrite HL2, HV2, Hl2, Hl. split; [done|]. split; [done|]. exists (l ++ l2).
    rewrite (assoc_L (++)). split; [done|]. destruct Hr as (Hc & Ha & Hw). split; [done|]. split; [done|].
    rewrite worker_scan_app, Hw. simpl. rewrite <-(app_nil_r l2). by rewrite worker_scan_harmless.
  - intros [= <- <-]. split; [done|]. split; [done|]. by exists l.
Qed.

Lemma waits_weaken ipc ipc' k : unread ipc' = unread ipc → waits ipc' k → waits ipc k.
Proof.
  intros Hu Hw s s' r Hk. destruct (Hw s s' r Hk) as (HL & HV & l & Hl & Hr). split; [done|]. split; [done|].
  exists l. split; [done|]. destruct r as [code|[]]; try done. destruct Hr as (? & Ha & ?).
  split; [done|]. split; [|done]. intros Hs. unfold approved. rewrite <-Hu. by apply Ha.
Qed.

Lemma sequential_loop_sound deadline ticks ipc ipc' r resp :
  buffer_ok ipc → run_sequential_event_loop deadline ticks ipc = (ipc', Some (r, Some resp)) →
  carries (unread ipc) resp.
Proof.
  revert ipc. induction ticks as [|t ticks IH]; intros ipc Hok Hl; simpl in Hl; [done|].
  case_decide; [done|]. destruct (tk_poll t) as [|e|[rev|] fd1]; try by eapply IH.
  - destruct e; [by eapply IH|done].
  - destruct (pollin rev); [|destruct (hup_or_err rev); [done|by eapply IH]].
    destruct (try_read_response_nonblocking ipc) as [ipc1 r1] eqn:Et.
    apply try_read_spec in Et as [_ Et]; [|done]. destruct r1 as [[resp1|]|]; [by simplify_eq| |done].
    destruct (hup_or_err rev); [done|]. destruct Et as [<- Hok1]. by eapply IH.
Qed.

Lemma gui_loop_sound deadline id ticks ipc ipc' r resp e :
  buffer_ok ipc → run_gui_event_loop deadline id ticks ipc = (ipc', Some (r, Some resp, e)) →
  carries (unread ipc) resp.
Proof.
  revert ipc. induction ticks as [|t ticks IH]; intros ipc Hok Hl; simpl in Hl; [done|].
  case_decide; [done|]. destruct (tk_poll t) as [|ei|fd0 fd1]; [by eapply IH|destruct ei; [by eapply IH|done]|].
  destruct (tk_password t); [done|].
  assert (Hpipe : match fd1 with
      | Some rev => if pollin rev
          then ((send_cancel "gui-password-failed" id ipc).1, Some (PasswordFailed, None, None))
          else run_gui_event_loop deadline id ticks ipc
      | None => run_gui_event_loop deadline id ticks ipc end = (ipc', Some (r, Some resp, e)) →
      carries (unread ipc) resp).
  { destruct fd1 as [rev|]; [destruct (pollin rev); [done|]|]; by apply IH. }
  destruct fd0 as [rev|]; [|by apply Hpipe]. destruct (pollin rev); [|destruct (hup_or_err rev); [done|by apply Hpipe]].
  destruct (try_read_response_nonblocking ipc) as [ipc1 r1] eqn:Et.
  apply try_read_spec in Et as [_ Et]; [|done]. destruct r1 as [[resp1|]|]; [by simplify_eq| |done].
  destruct (hup_or_err rev); [done|]. destruct Et as [<- Hok1]. by eapply IH.
Qed.

Lemma terminal_waits deadline id ticks tty ipc :
  buffer_ok ipc → waits ipc (terminal_loop deadline id ticks tty ipc).
Proof.
  assert (Hsay : ∀ ipc t, waits ipc (_ ← say (EInfo t); mret PAM_AUTHINFO_UNAVAIL)).
  { intros ipc0 t. apply waits_bind; [by apply quiet_say|intros _; apply waits_unavailable]. }
  revert tty ipc. induction ticks as [|t ticks IH]; intros tty ipc Hok; cbn [terminal_loop]; [apply waits_still|].
  case_decide; [apply Hsay|]. destruct (tk_poll t) as [|e|fd0 fd1]; try by apply IH.
  assert (Htty : ∀ ipc0, buffer_ok ipc0 →
    waits ipc0 (read_tty t fd1 tty id (λ b, terminal_loop deadline id ticks b ipc0))).
  { intros ipc0 Hok0. unfold read_tty. destruct tty; [|by apply IH]. destruct fd1 as [rev|]; [|by apply IH].
    destruct (pollin rev); [|destruct (hup_or_err rev); by apply IH].
    destruct (tk_tty t); try by apply IH. case_decide; [|by apply IH].
    apply waits_bind; [apply quiet_cancel|intros _; apply Hsay]. }
  destruct fd0 as [rev|]; [|by apply Htty].
  destruct (pollin rev); [|destruct (hup_or_err rev); [apply Hsay|by apply Htty]].
  destruct (try_read_response_nonblocking ipc) as [ipc1 r1] eqn:Et.
  apply try_read_spec in Et as [_ Et]; [|done]. destruct r1 as [[resp1|]|]; [by apply waits_outcome| |apply Hsay].
  destruct Et as [Hu Hok1]. destruct (hup_or_err rev); [apply Hsay|]. by apply (waits_weaken _ ipc1), Htty.
Qed.

Lemma sequential_waits call secs id ipc : buffer_ok ipc → waits ipc (sequential_wait call secs id ipc).
Proof.
  intros Hok. unfold sequential_wait. apply waits_bind; [by apply quiet_say|intros _].
  destruct (run_sequential_event_loop _ _ _) as [ipc' [[r [resp|]]|]] eqn:El; cbn [snd]; [| |apply waits_still].
  - apply sequential_loop_sound in El; [|done]. destruct r; [..|by apply waits_outcome| | |];
      repeat (apply waits_bind; [first [apply quiet_cancel|by apply quiet_say]|intros _]);
      apply waits_unavailable.
  - destruct r;
      repeat (apply waits_bind; [first [apply quiet_cancel|by apply quiet_say]|intros _]);
      apply waits_unavailable.
Qed.

Lemma threaded_waits call secs id ipc : buffer_ok ipc → waits ipc (threaded_wait call secs id ipc).
Proof.
  intros Hok. assert (Herr : waits ipc (mret PAM_AUTH_ERR)) by (apply waits_ret; [unfold VERDICTS; set_solver|done]).
  unfold threaded_wait.
  destruct (pk_pipe_ok call); cbn [negb]; [|apply waits_bind; [apply quiet_cancel|done]].
  destruct (pk_thread_ok call); cbn [negb]; [|apply waits_bind; [apply quiet_cancel|done]].
  intros s s' r Hrun. rewrite say_step in Hrun.
  destruct (run_gui_event_loop _ _ _ _) as [ipc' [[[er resp] pe]|]] eqn:El.
  2:{ injection Hrun as <- <-. split; [done|]. split; [done|]. by eexists. }
  rewrite say_step in Hrun. destruct (pk_joins call); cbn [negb] in Hrun.
  2:{ injection Hrun as <- <-. split; [done|]. split; [done|]. eexists. split; [cbn; by rewrite <-(assoc_L (++))|done]. }
  rewrite say_step in Hrun.
  match type of Hrun with ?k ?s0 = _ => assert (Hw : waits ipc k); [|destruct (Hw s0 s' r Hrun) as (HL & HV & l & Hl & Hr)] end.
  { apply waits_bind; [destruct pe; [by apply quiet_say|apply quiet_ret]|intros _].
    apply waits_tail; [|case_decide; [by apply quiet_say|apply quiet_ret]].
    destruct resp as [resp|]; [|apply waits_unavailable]. by apply waits_outcome, (gui_loop_sound _ _ _ _ _ _ _ _ Hok El). }
  split; [done|]. split; [done|]. eexists. split; [rewrite Hl; cbn; rewrite <-!(assoc_L (++)); reflexivity|].
  by destruct r as [code|[]].
Qed.
End waiting.

Section entry.
Context `{KI : !Codec IpcEnvelope} `{PT : PamToml} `{H : Hex}.

(** Where an answer comes from: a rule that needs no daemon, a verdict of this
    process, or a request to the daemon, with what is then armed for recording and
    what the module did. *)
Inductive concluded (call : PamCall) (s : PamState) : Z → option Verdict → list PamEffect → Prop :=
| by_policy code l :
    code ∈ VERDICTS → code ≠ PAM_SUCCESS → (∀ b, ESent b ∉ l) → concluded call s code None l
| by_replay user service prev code :
    get_user (pk_handle call) = Ok user → get_service_name (pk_handle call) = Some service →
    ps_lock s = Some (Some prev) →
    reusable_conclusion prev user service (pk_lookup_at call) = Some code →
    concluded call s code (Some (mkVerdict user (Some service) true)) []
| by_daemon user input dials tty secs code l l' :
    get_user (pk_handle call) = Ok user →
    ps_dials s = Some (input, None) :: dials →
    code ∈ VERDICTS → (code = PAM_SUCCESS → approved (fresh_client input None)) →
    Forall (λ e, ∀ b, e ≠ ESent b) l → 0 ≤ secs < 2 ^ 32 →
    let request := authenticate_envelope user tty secs (hex_encode (take 16 (w_entropy (ps_world s)))) in
    concluded call s code (Some (mkVerdict user (get_service_name (pk_handle call)) false))
      (l ++ ESent (response_frame (encode_to_vec request)) :: l').

Lemma ret_step {A B} (a : A) (k : A → PM B) s : ((mret a : PM A) ≫= k) s = k a s.
Proof. done. Qed.
Lemma answer_step {A B} code (k : A → PM B) s : (answer_code code ≫= k) s = (s, Err (Some code)).
Proof. done. Qed.

(** Loading the configuration only consumes faults. *)
Lemma config_step {B} (k : PamConfig → PM B) s :
  ∃ config w, (on_world pam_config_load ≫= k) s
    = k config (mkPamState w (ps_lock s) (ps_dials s) (ps_verdict s) (ps_log s)) ∧
    w_entropy w = w_entropy (ps_world s) ∧ (pam_config_load (E := option Z) (ps_world s)).2 = Ok config.
Proof.
  rewrite (bind_run (on_world _)). unfold on_world, pam_config_load, pam_config_load_from_path.
  rewrite bind_run. unfold attempt, fs_read, fs_call, fs_fault.
  destruct (w_faults (ps_world s)) as [|[] fl];
    [destruct (w_fs (ps_world s) !! DEFAULT_CONFIG_PATH); cbn; by eexists _, _|..].
  all: cbn; try by eexists _, _.
  destruct (w_fs (ps_world s) !! DEFAULT_CONFIG_PATH); cbn; by eexists _, _.
Qed.

Lemma send_start_spec user tty secs id input wr c' r :
  send_authenticate_start user tty secs id (fresh_client input wr) = (c', r) →
  match r with
  | Ok _ => wr = None ∧ ic_out c' = response_frame (encode_to_vec (authenticate_envelope user tty secs id)) ∧
      unread c' = incoming input ∧ buffer_ok c'
  | Err _ => True
  end.
Proof.
  unfold send_authenticate_start, send_message. case_decide; [by intros [= <- <-]|].
  destruct wr; cbn [fresh_client ic_write]; intros [= <- <-]; [done|]. done.
Qed.

Lemma clamp_u32_range n : 0 ≤ clamp_u32 n < 2 ^ 32.
Proof. unfold clamp_u32. case_decide; lia. Qed.

Lemma concluded_ext call s1 s code v l :
  ps_lock s1 = ps_lock s → ps_dials s1 = ps_dials s → w_entropy (ps_world s1) = w_entropy (ps_world s) →
  concluded call s1 code v l → concluded call s code v l.
Proof.
  intros HL HD HE. destruct 1 as [code l Hc Hn Hs|user service prev code Hu Hs Hl Hr|user input dials tty secs code l l' Hu Hd Hc Ha Hl Hsecs request].
  - by apply by_policy.
  - eapply by_replay; try done. by rewrite <-HL.
  - unfold request. rewrite HE. eapply by_daemon; try done. by rewrite <-HD.
Qed.

Lemma wait_spec (call : PamCall) (mode : ConversationMode) (term : bool) secs id ipc :
  buffer_ok ipc →
  waits ipc (if negb term && bool_decide (mode = Sequential) then sequential_wait call secs id ipc else
             if negb term && bool_decide (mode = Threaded) then threaded_wait call secs id ipc else
             terminal_loop (pk_wait_at call + secs * 1000) id (pk_ticks call) true ipc).
Proof.
  intros Hok. case_match; [by apply sequential_waits|]. case_match; [by apply threaded_waits|].
  by apply terminal_waits.
Qed.

Lemma ask_daemon_spec call config user mode term s s' r code :
  get_user (pk_handle call) = Ok user → ps_verdict s = None →
  ask_daemon call config user (get_service_name (pk_handle call)) mode term s = (s', r) →
  answered r = Some code →
  ps_lock s' = ps_lock s ∧ ∃ l, ps_log s' = ps_log s ++ l ∧ worker_scan false l = Some false ∧
    concluded call s code (ps_verdict s') l.
Proof.
  intros Hu Hv. unfold ask_daemon.
  match goal with |- ((?m ≫= _) _ = _) → _ => assert (Hm : ∃ l, m s
    = (mkPamState (ps_world s) (ps_lock s) (ps_dials s) (ps_verdict s) (ps_log s ++ l), Ok ()) ∧
      Forall harmless l ∧ Forall (λ e, ∀ b, e ≠ ESent b) l) end.
  { destruct term; [|case_decide]; [exists [EInfo waiting_for_tap_skip]|exists [EInfo waiting_for_tap]|exists []].
    1-2: split; [done|]; by repeat constructor.
    rewrite app_nil_r. by destruct s. }
  destruct Hm as (l0 & Hm & Hh0 & Hs0). rewrite (bind_step _ _ _ _ _ Hm). clear Hm.
  assert (Hpol : ∀ t c, c ∈ VERDICTS → c ≠ PAM_SUCCESS → t = [] ∨ (∃ x, t = [EError x]) →
    worker_scan false (l0 ++ t) = Some false ∧ concluded call s c None (l0 ++ t)).
  { intros t c Hc Hn Ht. rewrite worker_scan_harmless by done. split; [by destruct Ht as [->|[x ->]]|].
    apply by_policy; [done|done|]. intros b [Hin|Hin]%elem_of_app.
    - rewrite Forall_forall in Hs0. by apply (Hs0 _ Hin b).
    - destruct Ht as [->|[x ->]]; set_solver. }
  rewrite (bind_run (on_world _)). unfold on_world, mapM_err. cbn [ps_world].
  destruct (getrandom_fill 16 (ps_world s)) as [w [rid|]] eqn:Eg.
  2:{ intros [= <- <-] [= <-]. split; [done|]. exists l0. cbn. rewrite Hv.
      destruct (Hpol [] PAM_AUTH_ERR) as [H1 H2]; [unfold VERDICTS; set_solver|done|by left|].
      by rewrite app_nil_r in H1, H2. }
  apply getrandom_fill_Ok in Eg as (Hrl & -> & He).
  assert (Hrid : rid = take 16 (w_entropy (ps_world s))) by (rewrite He; by rewrite take_app_exact). clear He. subst rid.
  cbn [map_err]. rewrite (bind_run (start_authentication _ _ _)). unfold start_authentication.
  rewrite (bind_run connect). unfold connect. cbn [ps_dials ps_lock ps_log ps_world ps_verdict].
  destruct (ps_dials s) as [|[[input wr]|] dials] eqn:Ed.
  1,3: (intros [= <- <-] [= <-]; split; [done|]; exists (l0 ++ [EError cannot_connect]); cbn; rewrite Hv, (assoc_L (++));
      split; [done|]; apply Hpol; [unfold VERDICTS; set_solver|done|right; by eexists]).
  cbn [fmap option_fmap option_map].
  destruct (send_authenticate_start _ _ _ _ _) as [c' [[]|e]] eqn:Es; apply send_start_spec in Es.
  2:{ intros [= <- <-] [= <-]. split; [done|]; exists (l0 ++ [EError communication_error]). cbn. rewrite Hv, (assoc_L (++)).
      split; [done|]. apply Hpol; [unfold VERDICTS; set_solver|done|right; by eexists]. }
  destruct Es as (-> & Ho & Hun & Hok).
  rewrite say_step. cbn [fresh_client ic_out length]. rewrite drop_0, Ho.
  intros Hrun Hans. eapply wait_spec in Hrun; [|exact Hok]. destruct Hrun as (HL & HV & l & Hl & Hr).
  split; [done|]. exists (l0 ++ ESent (response_frame (encode_to_vec (authenticate_envelope user term (clamp_u32
    (if negb term && bool_decide (mode = Sequential)
     then N.min (pc_gui_timeout_secs config) (pc_operation_timeout_secs config)
     else pc_operation_timeout_secs config)) (hex_encode (take 16 (w_entropy (ps_world s))))))) :: l).
  split; [rewrite Hl; cbn; by rewrite <-!(assoc_L (++))|].
  destruct r as [c|[c|]]; simplify_eq; [|done]. cbn in Hans. simplify_eq. destruct Hr as (Hc & Ha & Hw).
  rewrite worker_scan_harmless by done. split; [done|]. rewrite HV. cbn.
  eapply by_daemon; try done; [|apply clamp_u32_range]. intros Hsucc. apply Ha in Hsucc as (resp & Hcar & Hout).
  exists resp. by rewrite Hun in Hcar.
Qed.

Lemma replay_run user service now s :
  replay_conclusion user service now s
  = match service ≫= λ name, cached_from (ps_lock s) user name now with
    | Some (code, _) => (mkPamState (ps_world s) (ps_lock s) (ps_dials s) (Some (mkVerdict user service true)) (ps_log s),
                         Err (Some code))
    | None => (s, Ok ())
    end.
Proof.
  destruct service as [name|]; [|done]. unfold replay_conclusion, mbind at 1, M_bind, gets. simpl.
  by destruct (cached_from _ _ _ _) as [[c age]|].
Qed.

Lemma policy_answer call s code :
  code ∈ VERDICTS → code ≠ PAM_SUCCESS → concluded call s code None [].
Proof. intros. apply by_policy; [done|done|set_solver]. Qed.

(** Every answer has one of the three origins. *)
Lemma inner_spec call s s' r code :
  ps_verdict s = None → authenticate_inner call s = (s', r) → answered r = Some code →
  ps_lock s' = ps_lock s ∧ ∃ l, ps_log s' = ps_log s ++ l ∧ worker_scan false l = Some false ∧
    concluded call s code (ps_verdict s') l.
Proof.
  intros Hv. unfold authenticate_inner.
  assert (Hstop : ∀ s1 c, ps_lock s1 = ps_lock s → ps_log s1 = ps_log s → ps_verdict s1 = None →
    c ∈ VERDICTS → c ≠ PAM_SUCCESS → ps_lock s1 = ps_lock s ∧ ∃ l, ps_log s1 = ps_log s ++ l ∧
    worker_scan false l = Some false ∧ concluded call s c (ps_verdict s1) l).
  { intros s1 c HL Hl Hv1 Hc Hn. split; [done|]. exists []. rewrite app_nil_r, Hv1. split; [done|].
    split; [done|]. by apply policy_answer. }
  destruct (guard_display_manager_bypass _ _) as [st|] eqn:Eg.
  { intros [= <- <-] [= <-]. apply Hstop; try done; unfold guard_display_manager_bypass in Eg;
      destruct (get_service_name _); simpl in Eg; try done; case_match; simplify_eq; [unfold VERDICTS; set_solver|done]. }
  rewrite ret_step.
  match goal with |- ((on_world pam_config_load ≫= ?k) s = _) → _ => destruct (config_step k s) as (config & w & Hc & He & _) end.
  rewrite Hc. clear Hc. set (s1 := mkPamState w _ _ _ _).
  destruct (get_user _) as [user|] eqn:Eu.
  2:{ intros [= <- <-] [= <-]. apply Hstop; try done. unfold VERDICTS; set_solver. }
  rewrite ret_step. destruct (get_conv _) as [[]|].
  2:{ intros [= <- <-] [= <-]. apply Hstop; try done. unfold VERDICTS; set_solver. }
  rewrite ret_step. case_decide.
  { intros [= <- <-] [= <-]. split; [done|]. exists [EReadToken]. cbn. rewrite Hv. split; [done|].
    split; [done|]. apply by_policy; [unfold VERDICTS; set_solver|done|set_solver]. }
  rewrite (bind_run (replay_conclusion _ _ _)), replay_run.
  assert (Hask : ∀ mode term, ask_daemon call config user (get_service_name (pk_handle call)) mode term s1 = (s', r) →
    answered r = Some code → ps_lock s' = ps_lock s ∧ ∃ l, ps_log s' = ps_log s ++ l ∧
    worker_scan false l = Some false ∧ concluded call s code (ps_verdict s') l).
  { intros mode term Hrun Hans. eapply ask_daemon_spec in Hrun as (HL & l & Hl & Hw & Hcc); [|done..].
    split; [done|]. exists l. split; [done|]. split; [done|]. by apply (concluded_ext call s1). }
  destruct (get_service_name _) as [service|] eqn:Es; [|by apply Hask].
  cbn [s1 ps_lock mbind option_bind].
  destruct (cached_from _ _ _ _) as [[c age]|] eqn:Ec; [|by apply Hask].
  intros [= <- <-] [= <-]. split; [done|]. exists []. cbn. rewrite app_nil_r. split; [done|]. split; [done|].
  unfold cached_from in Ec. destruct (ps_lock s) as [[prev|]|] eqn:El; simpl in Ec; try done.
  destruct (reusable_conclusion _ _ _ _) eqn:Er; simplify_eq/=. by eapply by_replay.
Qed.

Lemma authenticate_spec call s s' code :
  authenticate call s = (s', Some code) →
  ∃ verdict l, ps_log s' = ps_log s ++ l ∧ worker_scan false l = Some false ∧ concluded call s code verdict l ∧
    ps_lock s' = record_verdict verdict code (pk_return_at call) (ps_lock s).
Proof.
  unfold authenticate. set (s0 := mkPamState _ _ _ None _).
  destruct (authenticate_inner call s0) as [s1 r] eqn:Ei. destruct (answered r) as [c|] eqn:Ea; [|done].
  intros [= <- <-]. eapply inner_spec in Ei as (HL & l & Hl & Hw & Hc); [|done..].
  exists (ps_verdict s1), l. cbn. rewrite HL. split; [done|]. split; [done|]. split; [|done].
  by apply (concluded_ext call s0).
Qed.
End entry.

(** ** A process that calls the module again and again *)

Section process.
Context `{KI : !Codec IpcEnvelope} `{PT : PamToml} `{H : Hex}.

(** The answered calls of one process, in order, with the state each started in.
    Between calls, and in a call that panics, anything but the record may change; a
    panic can poison its mutex. *)
Inductive process : list (PamCall * PamState * Z) → PamState → Prop :=
| process_start s : ps_lock s = Some None → process [] s
| process_call h s call s' code :
    process h s → authenticate call s = (s', Some code) → process (h ++ [(call, s, code)]) s'
| process_world h s s' : process h s → (ps_lock s' = ps_lock s ∨ ps_lock s' = None) → process h s'.

(** A call that the daemon answered with a success. *)
Definition daemon_approved (call : PamCall) (s : PamState) (user : string) : Prop :=
  get_user (pk_handle call) = Ok user ∧
  ∃ input dials, ps_dials s = Some (input, None) :: dials ∧ approved (fresh_client input None).

(** What the record says of the past. *)
Definition record_ok (h : list (PamCall * PamState * Z)) (s : PamState) : Prop :=
  match ps_lock s with
  | Some (Some prev) =>
      lc_code prev ∈ VERDICTS ∧
      ∃ call s0, (call, s0, lc_code prev) ∈ h ∧ lc_concluded_at prev = pk_return_at call ∧
        get_service_name (pk_handle call) = Some (lc_service prev) ∧
        get_user (pk_handle call) = Ok (lc_username prev) ∧
        (lc_code prev = PAM_SUCCESS → daemon_approved call s0 (lc_username prev))
  | _ => True
  end.

Lemma record_ok_grows h e s : record_ok h s → record_ok (h ++ [e]) s.
Proof.
  unfold record_ok. destruct (ps_lock s) as [[prev|]|]; try done. intros (Hc & call & s0 & Hin & Hrest).
  split; [done|]. exists call, s0. split; [|done]. apply elem_of_app. by left.
Qed.

Lemma process_record h s : process h s → record_ok h s.
Proof.
  induction 1 as [s Hs|h s call s' code Hp IH Ha|h s s' Hp IH Hl].
  - unfold record_ok. by rewrite Hs.
  - apply authenticate_spec in Ha as (v & l & _ & _ & Hc & Hlock).
    assert (Hsame : ps_lock s' = ps_lock s → record_ok (h ++ [(call, s, code)]) s').
    { intros Hl. apply (record_ok_grows _ (call, s, code)) in IH. unfold record_ok in *. by rewrite Hl. }
    destruct Hc as [code l Hcv Hn Hs|user service prev code Hu Hs Hl Hr|user input dials tty secs code l l' Hu Hd Hcv Hap Hl Hsecs request];
      [by apply Hsame|by apply Hsame|].
    unfold record_verdict, record_conclusion in Hlock. cbn in Hlock.
    destruct (get_service_name (pk_handle call)) as [service|] eqn:Es; [|by apply Hsame].
    destruct (ps_lock s) as [o|]; [|by apply Hsame].
    unfold record_ok. rewrite Hlock. cbn. split; [done|]. exists call, s. split; [apply elem_of_app; right; set_solver|].
    split; [done|]. split; [done|]. split; [done|]. intros Hsucc. split; [done|]. eexists _, _. split; [done|].
    by apply Hap.
  - unfold record_ok in *. by destruct Hl as [->| ->].
Qed.
End process.

Lemma authenticate_verdict `{KI : !Codec IpcEnvelope} `{PT : PamToml} `{H : Hex} h s call s' code :
  process h s → authenticate call s = (s', Some code) → code ∈ VERDICTS.
Proof.
  intros Hp Ha. apply process_record in Hp. apply authenticate_spec in Ha as (v & l & _ & _ & Hc & _).
  destruct Hc as [code l1 Hcv Hn Hs|user service prev code Hu Hs Hl Hr|user input dials tty secs code l1 l' Hu Hd Hcv Hap Hl Hsecs request];
    [done| |done].
  unfold record_ok in Hp. rewrite Hl in Hp. unfold reusable_conclusion in Hr. case_decide; [|done]. simplify_eq.
  by destruct Hp.
Qed.

(** ** Claims *)

(** C5: Every [PAM_SUCCESS] is an approval by the daemon.  In a process that calls
    the module any number of times, a call that answers [PAM_SUCCESS] either received
    on its own connection a response frame with outcome SUCCESS, or repeats, for the
    same user and the same service and less than 500 ms after it returned, an earlier
    call of this process that did. *)
Theorem pam_success_traced `{KI : !Codec IpcEnvelope} `{PT : PamToml} `{H : Hex} h s call s' :
  process h s → authenticate call s = (s', Some PAM_SUCCESS) →
  ∃ user, daemon_approved call s user ∨
    ∃ call0 s0 service, (call0, s0, PAM_SUCCESS) ∈ h ∧ daemon_approved call0 s0 user ∧
      get_user (pk_handle call) = Ok user ∧
      get_service_name (pk_handle call) = Some service ∧ get_service_name (pk_handle call0) = Some service ∧
      pk_lookup_at call - pk_return_at call0 < VERDICT_REUSE_WINDOW.
Proof.
  intros Hp Ha. apply process_record in Hp. apply authenticate_spec in Ha as (v & l & _ & _ & Hc & _).
  inversion Hc as [code l1 Hcv Hn Hs|user service prev code Hu Hs Hl Hr|user input dials tty secs code l1 l' Hu Hd Hcv Hap Hl Hsecs request];
    subst; [done| |].
  - exists user. right. unfold record_ok in Hp. rewrite Hl in Hp. destruct Hp as (_ & call0 & s0 & Hin & Hat & Hsv & Hus & Hd).
    unfold reusable_conclusion in Hr. case_decide as Hw; [|done]. simplify_eq. destruct Hw as (<- & <- & Hw).
    rewrite Hr in *. exists call0, s0, (lc_service prev). split; [done|]. split; [by apply Hd|].
    repeat split; try done. unfold saturating_duration_since in Hw. rewrite Hat in Hw. lia.
  - exists user. left. split; [done|]. eexists _, _. split; [done|]. by apply Hap.
Qed.

(** C18: [PAM_IGNORE] is never returned.  In a process that calls the module any number of
    times, calls that panicked among them, the entry point answers one of SUCCESS,
    PERM_DENIED, AUTHINFO_UNAVAIL, AUTH_ERR and USER_UNKNOWN, replayed verdicts
    included; a call that panics answers AUTH_ERR. *)
Theorem pam_never_ignores `{KI : !Codec IpcEnvelope} `{PT : PamToml} `{H : Hex} h s panics call s' code :
  process h s → pam_sm_authenticate panics call s = (s', Some code) →
  code ∈ VERDICTS ∧ code ≠ PAM_IGNORE ∧ (is_Some panics → code = PAM_AUTH_ERR).
Proof.
  intros Hp. unfold pam_sm_authenticate, panic_guard. destruct panics as [sp|].
  { intros [= _ <-]. split; [unfold VERDICTS; set_solver|done]. }
  destruct (authenticate call s) as [s1 c] eqn:Ha. intros [= -> ->].
  pose proof (authenticate_verdict _ _ _ _ _ Hp Ha) as Hv. split; [done|]. split; [|by intros []].
  intros ->. revert Hv. unfold VERDICTS. set_solver.
Qed.

(** A duplicate is answered from the record.  When the last verdict of this
    process is for the same user and service and less than 500 ms old, a call that
    reaches the record answers that verdict, whatever it is; nothing is shown, no
    connection is made, and the record keeps its time, so the window does not slide. *)
Theorem duplicate_replayed `{KI : !Codec IpcEnvelope} `{PT : PamToml} `{H : Hex} call s prev user service code :
  let h := pk_handle call in
  guard_display_manager_bypass h (pk_reauth_env call) = None → get_user h = Ok user → get_conv h = Ok () →
  get_service_name h = Some service →
  conversation_mode service (process_identity (pk_exe call) (pk_comm call))
    (is_gdm_reauth (pk_reauth_env call) service) ≠ PreCollected →
  ps_lock s = Some (Some prev) → reusable_conclusion prev user service (pk_lookup_at call) = Some code →
  ∃ s', authenticate call s = (s', Some code) ∧ ps_lock s' = ps_lock s ∧ ps_log s' = ps_log s ∧
    ps_dials s' = ps_dials s.
Proof.
  intros h Hg Hu Hc Hs Hm Hl Hr. unfold authenticate, authenticate_inner. fold h.
  rewrite Hg, Hu, Hc, Hs. rewrite ret_step.
  match goal with |- context [(on_world pam_config_load ≫= ?k) ?s0] =>
    destruct (config_step k s0) as (config & w & Hrun & _) end.
  rewrite Hrun, !ret_step. cbn [default]. rewrite decide_False by done.
  rewrite (bind_run (replay_conclusion _ _ _)), replay_run. cbn [mbind option_bind ps_lock].
  unfold cached_from. rewrite Hl. cbn [mbind option_bind]. rewrite Hr. cbn. by eexists.
Qed.

(** A local failure is not a verdict.  When the daemon cannot be reached, or the
    request cannot be written, the record is left as it was, whatever is answered. *)
Theorem failed_start_not_recorded `{KI : !Codec IpcEnvelope} `{PT : PamToml} `{H : Hex} call s s' code :
  match ps_dials s with Some (_, None) :: _ => False | _ => True end →
  authenticate call s = (s', Some code) → ps_lock s' = ps_lock s.
Proof.
  intros Hd Ha. apply authenticate_spec in Ha as (v & l & _ & _ & Hc & ->).
  destruct Hc as [| |user input dials tty secs code l l' Hu Hdials]; [done|done|]. by rewrite Hdials in Hd.
Qed.

(** The password thread never overlaps the conversation.  In what an answered
    call did, the worker is started at most when none runs, nothing is shown to the
    user and no token is read while it runs, and it has been joined by the end. *)
Theorem worker_always_joined `{KI : !Codec IpcEnvelope} `{PT : PamToml} `{H : Hex} call s s' code :
  authenticate call s = (s', Some code) →
  ∃ l, ps_log s' = ps_log s ++ l ∧ worker_scan false l = Some false.
Proof. intros (v & l & Hl & Hw & _)%authenticate_spec. by exists l. Qed.

(** ** Deadlines *)

(** Some turn of the loop is at or past [deadline]. *)
Definition reaches (deadline : Z) (ticks : list Tick) : Prop := ∃ t, t ∈ ticks ∧ deadline ≤ tk_now t.

Lemma reaches_next deadline t ticks : ¬ deadline ≤ tk_now t → reaches deadline (t :: ticks) → reaches deadline ticks.
Proof. intros Ht (t' & [->|Hin]%elem_of_cons & Hd); [done|by exists t']. Qed.

Section deadlines.
Context `{KI : !Codec IpcEnvelope}.

Lemma sequential_loop_returns deadline ticks ipc :
  reaches deadline ticks → (run_sequential_event_loop deadline ticks ipc).2 ≠ None.
Proof.
  revert ipc. induction ticks as [|t ticks IH]; intros ipc Hr; [by destruct Hr as (t & Hin%elem_of_nil & _)|].
  simpl. case_decide; [done|]. apply reaches_next in Hr; [|done].
  destruct (tk_poll t) as [|e|[rev|] fd1]; try by apply IH.
  - destruct e; [by apply IH|done].
  - destruct (pollin rev); [|destruct (hup_or_err rev); [done|by apply IH]].
    destruct (try_read_response_nonblocking ipc) as [ipc1 [[resp1|]|]]; [done| |done].
    destruct (hup_or_err rev); [done|by apply IH].
Qed.

Lemma gui_loop_returns deadline id ticks ipc :
  reaches deadline ticks → (run_gui_event_loop deadline id ticks ipc).2 ≠ None.
Proof.
  revert ipc. induction ticks as [|t ticks IH]; intros ipc Hr; [by destruct Hr as (t & Hin%elem_of_nil & _)|].
  simpl. case_decide; [done|]. apply reaches_next in Hr; [|done].
  destruct (tk_poll t) as [|e|fd0 fd1]; [by apply IH|destruct e; [by apply IH|done]|].
  destruct (tk_password t); [done|].
  destruct fd0 as [rev|]; [destruct (pollin rev); [|destruct (hup_or_err rev); [done|]]|].
  - destruct (try_read_response_nonblocking ipc) as [ipc1 [[resp1|]|]]; [done| |done].
    destruct (hup_or_err rev); [done|by apply IH].
  - destruct fd1 as [rev1|]; [destruct (pollin rev1); [done|]|]; by apply IH.
  - destruct fd1 as [rev1|]; [destruct (pollin rev1); [done|]|]; by apply IH.
Qed.

(** A computation that does not end in waiting. *)
Definition settles {A} (k : PM A) : Prop := ∀ s, (k s).2 ≠ Err None.

Lemma settles_ret {A} (a : A) : settles (mret a).
Proof. done. Qed.
Lemma settles_answer {A} code : settles (answer_code (A := A) code).
Proof. done. Qed.
Lemma settles_bind {A B} (m : PM A) (k : A → PM B) : settles m → (∀ a, settles (k a)) → settles (m ≫= k).
Proof.
  intros Hm Hk s. rewrite (bind_run m). specialize (Hm s). destruct (m s) as [s1 [a|e]]; [apply Hk|simpl in *; congruence].
Qed.
Lemma settles_quiet {A} (k : PM A) : quiet k → settles k.
Proof. intros Hk s. destruct (Hk s) as (s' & a & l & Hr & _). by rewrite Hr. Qed.
Lemma settles_say e : settles (say e).
Proof. done. Qed.
Lemma settles_cancel reason id : settles (best_effort_cancel reason id).
Proof. apply settles_quiet, quiet_cancel. Qed.
Lemma settles_outcome resp : settles (map_pam_outcome resp).
Proof. intros s. unfold map_pam_outcome. by destruct (response_outcome resp). Qed.
End deadlines.

#[export] Hint Resolve settles_ret settles_answer settles_bind settles_say settles_cancel settles_outcome : tapauth.

Ltac settle := repeat first
  [ apply settles_ret | apply settles_answer | apply settles_say | apply settles_cancel | apply settles_outcome
  | apply settles_bind; [|intros ?] ].

Section returns.
Context `{KI : !Codec IpcEnvelope} `{PT : PamToml} `{H : Hex}.

Lemma terminal_settles deadline id ticks tty ipc :
  reaches deadline ticks → settles (terminal_loop deadline id ticks tty ipc).
Proof.
  revert tty ipc. induction ticks as [|t ticks IH]; intros tty ipc Hr; [by destruct Hr as (t & Hin%elem_of_nil & _)|].
  cbn [terminal_loop]. case_decide; [settle|]. apply reaches_next in Hr; [|done].
  destruct (tk_poll t) as [|e|fd0 fd1]; try by apply IH.
  assert (Htty : ∀ ipc0, settles (read_tty t fd1 tty id (λ b, terminal_loop deadline id ticks b ipc0))).
  { intros ipc0. unfold read_tty. repeat case_match; try (by apply IH); settle. }
  repeat case_match; try apply Htty; settle.
Qed.

Lemma wait_settles (call : PamCall) (mode : ConversationMode) (term : bool) secs id ipc :
  pk_joins call = true → reaches (pk_wait_at call + secs * 1000) (pk_ticks call) →
  settles (if negb term && bool_decide (mode = Sequential) then sequential_wait call secs id ipc else
           if negb term && bool_decide (mode = Threaded) then threaded_wait call secs id ipc else
           terminal_loop (pk_wait_at call + secs * 1000) id (pk_ticks call) true ipc).
Proof.
  intros Hj Hr. case_match; [|case_match; [|by apply terminal_settles]].
  - unfold sequential_wait. apply settles_bind; [apply settles_say|intros _].
    pose proof (sequential_loop_returns _ _ ipc Hr) as Hs.
    destruct (run_sequential_event_loop _ _ _) as [ipc' [[[] [resp|]]|]]; simpl in *; try done; settle.
  - unfold threaded_wait. rewrite Hj. do 2 (case_match; [settle|]). apply settles_bind; [apply settles_say|intros _].
    pose proof (gui_loop_returns _ id _ ipc Hr) as Hs.
    destruct (run_gui_event_loop _ _ _ _) as [ipc' [[[er [resp|]] [pe|]]|]]; simpl in *; try done; settle;
      destruct (decide (er = Timeout)); settle.
Qed.
End returns.


(** When a call returns.  Once the clock reaches the configured operation timeout
    after the wait began, the call has answered, provided that joining the password thread
    returns where there is one; the conversation's messages and the reading of a collected
    password are taken to return. *)
Theorem pam_returns `{KI : !Codec IpcEnvelope} `{PT : PamToml} `{H : Hex} call s config :
  (pam_config_load (E := option Z) (ps_world s)).2 = Ok config → pk_joins call = true →
  reaches (pk_wait_at call + clamp_u32 (pc_operation_timeout_secs config) * 1000) (pk_ticks call) →
  is_Some (authenticate call s).2.
Proof.
  intros Hcfg Hj Hr. unfold authenticate. set (s0 := mkPamState _ _ _ None _).
  enough (Hset : (authenticate_inner call s0).2 ≠ Err None).
  { destruct (authenticate_inner call s0) as [s1 [c|[c|]]]; simpl in *; try done; by eexists. }
  unfold authenticate_inner. destruct (guard_display_manager_bypass _ _); [done|]. rewrite ret_step.
  match goal with |- context [(on_world pam_config_load ≫= ?k) s0] =>
    destruct (config_step k s0) as (config' & w & Hrun & _ & Hc') end.
  rewrite Hrun. cbn [s0 ps_world] in Hc'. assert (config' = config) as -> by congruence. clear Hrun.
  generalize (mkPamState w (ps_lock s0) (ps_dials s0) (ps_verdict s0) (ps_log s0)).
  match goal with |- ∀ s1, (?k s1).2 ≠ _ => change (settles k) end.
  apply settles_bind; [by destruct (get_user _)|intros user].
  apply settles_bind; [by destruct (get_conv _)|intros _]. case_decide; [unfold pre_collected; settle|].
  apply settles_bind.
  { intros s1. rewrite replay_run. by destruct (_ ≫= _) as [[]|]. }
  intros _. unfold ask_daemon. apply settles_bind; [repeat case_match; settle|intros _].
  apply settles_bind.
  { intros s1. unfold on_world, mapM_err. by destruct (getrandom_fill 16 _) as [w' []]. }
  intros rid. apply settles_bind.
  { unfold start_authentication. apply settles_bind; [apply settles_quiet, quiet_connect|intros [c|]]; [|settle].
    destruct (send_authenticate_start _ _ _ _ _) as [c' []]; settle. }
  intros [ipc|[]]; settle. apply wait_settles; [done|]. destruct Hr as (t & Hin & Ht). exists t. split; [done|].
  etrans; [|exact Ht]. unfold clamp_u32. destruct (negb _ && _); repeat destruct (decide _); lia.
Qed.

(** ** A concrete host *)

#[export] Instance toy_pam_toml : PamToml := {| pam_from_toml _ := None |}.

Definition sudo_handle : PamHandle :=
  mkPamHandle false (PAM_SUCCESS, Item "sudo") (PAM_SUCCESS, Item "ann") (PAM_SUCCESS, NullItem) (PAM_SUCCESS, true).
Definition ready : poll_result := PollReady (Some (mkRevents true false false)) None.
(** A call at [at] whose host is [exe]; the daemon's answer is there at once. *)
Definition toy_call (exe : string) (at_ : Z) : PamCall :=
  mkPamCall sudo_handle (Some exe) None false false true true true at_ at_ (at_ + 100)
    [mkTick (at_ + 50) ready false TtyEof; mkTick (at_ + 200000) PollNone false TtyEof].
Definition approval : bytes :=
  response_frame (encode_to_vec (mkIpcEnvelope (Some (MsgPamResponse (mkPamAuthenticateResponse OUTCOME_SUCCESS "" []))))).
Definition toy_pam_state (dials : list (option (list sock_event * option io_kind))) : PamState :=
  mkPamState quiet_world (Some None) dials None [].

Lemma toy_pam_run call s code :
  (authenticate call s).2 = Some code → ∃ s', authenticate call s = (s', Some code).
Proof. destruct (authenticate call s) as [s' r]. intros [= ->]. by exists s'. Qed.

Lemma toy_first_call :
  (authenticate (toy_call "sudo" 1000) (toy_pam_state [Some ([Chunk approval], None)])).2 = Some PAM_SUCCESS.
Proof. by vm_compute. Qed.

Lemma pam_success_traced_witness :
  ∃ user, daemon_approved (toy_call "sudo" 1000) (toy_pam_state [Some ([Chunk approval], None)]) user.
Proof.
  destruct (toy_pam_run _ _ _ toy_first_call) as [s' Ha].
  destruct (pam_success_traced [] _ _ _ (process_start (toy_pam_state [Some ([Chunk approval], None)]) eq_refl) Ha) as (user & [Hd|(c & s0 & sv & Hin & _)]).
  - by exists user.
  - by apply elem_of_nil in Hin.
Defined.

Lemma pam_never_ignores_witness :
  (PAM_SUCCESS ∈ VERDICTS ∧ PAM_SUCCESS ≠ PAM_IGNORE) ∧ PAM_AUTH_ERR ∈ VERDICTS.
Proof.
  pose (s0 := toy_pam_state [Some ([Chunk approval], None)]).
  destruct (toy_pam_run _ _ _ toy_first_call) as [s' Ha].
  assert (Hr : pam_sm_authenticate None (toy_call "sudo" 1000) s0 = (s', Some PAM_SUCCESS))
    by (unfold pam_sm_authenticate, panic_guard, s0; by rewrite Ha).
  split.
  - destruct (pam_never_ignores [] s0 None _ _ _ (process_start s0 eq_refl) Hr) as (? & ? & _). done.
  - exact (proj1 (pam_never_ignores [] s0 (Some s0) (toy_call "sudo" 1000) s0 _ (process_start s0 eq_refl) eq_refl)).
Defined.

Lemma duplicate_replayed_witness :
  ∃ s', authenticate (toy_call "sudo" 1200)
      (mkPamState quiet_world (Some (Some (mkLastConclusion 1100 "ann" "sudo" PAM_PERM_DENIED))) [] None [])
    = (s', Some PAM_PERM_DENIED) ∧ ps_log s' = [].
Proof.
  destruct (duplicate_replayed (toy_call "sudo" 1200)
    (mkPamState quiet_world (Some (Some (mkLastConclusion 1100 "ann" "sudo" PAM_PERM_DENIED))) [] None [])
    (mkLastConclusion 1100 "ann" "sudo" PAM_PERM_DENIED) "ann" "sudo" PAM_PERM_DENIED)
    as (s' & Ha & _ & Hl & _); try by vm_compute.
  by exists s'.
Defined.

Lemma failed_start_not_recorded_witness :
  ∃ s' code, authenticate (toy_call "sudo" 1000) (toy_pam_state []) = (s', Some code) ∧ ps_lock s' = Some None.
Proof.
  destruct (toy_pam_run (toy_call "sudo" 1000) (toy_pam_state []) PAM_AUTHINFO_UNAVAIL) as [s' Ha]; [by vm_compute|].
  exists s', PAM_AUTHINFO_UNAVAIL. split; [exact Ha|]. exact (failed_start_not_recorded (toy_call "sudo" 1000) (toy_pam_state []) s' _ I Ha).
Defined.

Lemma worker_always_joined_witness :
  ∃ s' l, authenticate (toy_call "hyprlock" 1000) (toy_pam_state [Some ([Chunk approval], None)])
      = (s', Some PAM_SUCCESS) ∧ ps_log s' = l ∧ worker_scan false l = Some false.
Proof.
  destruct (toy_pam_run (toy_call "hyprlock" 1000) (toy_pam_state [Some ([Chunk approval], None)]) PAM_SUCCESS)
    as [s' Ha]; [by vm_compute|].
  destruct (worker_always_joined _ _ _ _ Ha) as (l & Hl & Hw). by exists s', l.
Defined.

Lemma pam_returns_witness :
  is_Some (authenticate (toy_call "sudo" 1000) (toy_pam_state [Some ([], None)])).2.
Proof.
  apply (pam_returns (toy_call "sudo" 1000) (toy_pam_state [Some ([], None)]) default_pam_config).
  - by vm_compute.
  - reflexivity.
  - exists (mkTick 201000 PollNone false TtyEof). split; [|by vm_compute].
    apply list_elem_of_further, list_elem_of_here.
Defined.

