(* ===== verification/PamSys.v ===== *)
(** * The conversation with the user: [client-pam/src/pam_sys.rs]

    Messages and prompts go through a function of the host, which allocates its answers
    with [malloc] and leaves their release to the module.  The memory they live in is
    explicit: releasing a block twice, or following a pointer to no block, is
    undefined. *)

From stdpp Require Import base gmap strings list.
From Stdlib Require Import Strings.Ascii Strings.Byte.
From S2P Require Import Prelude Os Text Crypto Protocol Config Ipc IpcClient Locale Pam.

Definition PAM_BUF_ERR : Z := 5.
Definition PAM_PROMPT_ECHO_OFF : Z := 1.
Definition PAM_PROMPT_ECHO_ON : Z := 2.
Definition PAM_ERROR_MSG : Z := 3.
Definition PAM_TEXT_INFO : Z := 4.

(** ** The memory of the answers *)

Inductive block :=
| BResponse (resp : option nat)   (* a [pam_response] with its pointer to the text *)
| BText (text : bytes).           (* a C string, up to its terminator *)
#[global] Instance block_eq_dec : EqDecision block.
Proof. solve_decision. Defined.

Abbreviation Heap := (gmap nat block).

(** What a conversation ends with besides a result: a PAM code, or the use of memory
    that is not there. *)
Inductive ConvError := Undefined | Code (c : Z).

(** The answers' memory, and what the user was shown, with its style. *)
Record Host := mkHost { h_heap : Heap; h_shown : list (Z * string) }.
Definition CM (A : Type) : Type := M Host ConvError A.

(** [libc::free] *)
Definition free (p : nat) : CM () := λ h,
  match h_heap h !! p with
  | Some _ => (mkHost (delete p (h_heap h)) (h_shown h), Ok ())
  | None => (h, Err Undefined)
  end.
Definition load (p : nat) : CM block := λ h,
  (h, match h_heap h !! p with Some b => Ok b | None => Err Undefined end).
(** The [resp] of a [pam_response]. *)
Definition response_text (p : nat) : CM (option nat) :=
  b ← load p;
  match b with BResponse q => mret q | BText _ => throw Undefined end.
Definition clear_text (p : nat) : CM () := λ h,
  (mkHost (<[p := BResponse None]> (h_heap h)) (h_shown h), Ok ()).
(** [CStr::from_ptr], [to_str] *)
Definition text_at (q : nat) : CM (option string) :=
  b ← load q;
  match b with
  | BText t => mret (match utf8_chars t with Some _ => Some (String.string_of_list_byte t) | None => None end)
  | BResponse _ => throw Undefined
  end.

(** ** The host's side *)

(** One message with its style, after what was shown before: the memory then, the
    answer and the code. *)
Definition conv_fn : Type := list (Z * string) → Z → string → Heap → Heap * option nat * Z.
Record pam_conv := mkPamConv { conv : option conv_fn }.

(** [CString::new] *)
Definition has_nul (s : string) : bool := existsb (λ b, bool_decide (b = x00)) (bytes_of_string s).

Definition of_code {A} (r : result Z A) : CM A := match r with Ok a => mret a | Err c => throw (Code c) end.

(** The call of the conversation function, shared by messages and prompts. *)
Definition converse (pamh : PamHandle) (c : pam_conv) (msg_style : Z) (msg : string) : CM (option nat * Z) :=
  _ ← of_code (get_conv pamh);
  match conv c with
  | None => throw (Code PAM_CONV_ERR)
  | Some f =>
      if has_nul msg then throw (Code PAM_BUF_ERR) else λ h,
      let '(heap, resp, ret) := f (h_shown h) msg_style msg (h_heap h) in
      (mkHost heap (h_shown h ++ [(msg_style, msg)]), Ok (resp, ret))
  end.

Definition free_response (resp : option nat) : CM () :=
  match resp with
  | None => mret ()
  | Some p =>
      q ← response_text p;
      _ ← (match q with Some q => free q | None => mret () end);
      free p
  end.

Definition send_message (pamh : PamHandle) (c : pam_conv) (msg_style : Z) (msg : string) : CM () :=
  '(resp, ret) ← converse pamh c msg_style msg;
  _ ← free_response resp;
  if decide (ret = PAM_SUCCESS) then mret () else throw (Code ret).

Definition prompt_user (pamh : PamHandle) (c : pam_conv) (msg_style : Z) (msg : string) : CM (option string) :=
  '(resp, ret) ← converse pamh c msg_style msg;
  if decide (ret ≠ PAM_SUCCESS) then _ ← free_response resp; throw (Code ret) else
  match resp with
  | None => mret None
  | Some p =>
      q ← response_text p;
      out ← (match q with
             | Some q => s ← text_at q; _ ← free q; _ ← clear_text p; mret s
             | None => mret None
             end);
      _ ← free p;
      mret out
  end.

(** *** [set_user]

    [pam_set_item] is the library's: it may refuse, and otherwise the user is set. *)
Section set_user.
Context (pam_set_user : PamHandle → string → PamHandle * Z).

Definition set_user (pamh : PamHandle) (username : string) : PamHandle * result Z () :=
  if ph_null pamh then (pamh, Err PAM_SYSTEM_ERR) else
  if has_nul username then (pamh, Err PAM_USER_UNKNOWN) else
  let '(pamh', ret) := pam_set_user pamh username in
  (pamh', if decide (ret = PAM_SUCCESS) then Ok () else Err ret).
End set_user.

(** *** [PamConversation] *)

Definition conversation_new (pamh : PamHandle) : result Z PamHandle :=
  match get_conv pamh with Ok _ => Ok pamh | Err c => Err c end.

Section conversation.
Context (pamh : PamHandle) (c : pam_conv).

Definition info : string → CM () := send_message pamh c PAM_TEXT_INFO.
Definition error : string → CM () := send_message pamh c PAM_ERROR_MSG.
Definition prompt_hidden : string → CM (option string) := prompt_user pamh c PAM_PROMPT_ECHO_OFF.
Definition prompt_visible : string → CM (option string) := prompt_user pamh c PAM_PROMPT_ECHO_ON.

(** A code is logged and dropped. *)
Definition try_send (m : CM ()) : CM () := λ h,
  match m h with
  | (h', Err (Code _)) => (h', Ok ())
  | r => r
  end.
Definition try_info (message : string) : CM () := try_send (info message).
Definition try_error (message : string) : CM () := try_send (error message).

(** The texts of [pam_messages.rs]. *)
Definition pam_text (m : PamMessages) (t : PamText) : string :=
  match t with
  | waiting_for_tap_skip => Locale.waiting_for_tap_skip m
  | waiting_for_tap => Locale.waiting_for_tap m
  | waiting_for_tap_password => Locale.waiting_for_tap_password m
  | cannot_connect => Locale.cannot_connect m
  | communication_error => Locale.communication_error m
  | connection_lost => Locale.connection_lost m
  | timed_out => Locale.timed_out m
  | skipped => Locale.skipped m
  | auth_successful => Locale.auth_successful m
  | auth_denied => Locale.auth_denied m
  | error_text detail => pam_error m detail
  end.

(** What the module does of its log on the conversation. *)
Definition play_effect (m : PamMessages) (e : PamEffect) : CM () :=
  match e with
  | EInfo t => try_info (pam_text m t)
  | EError t => try_error (pam_text m t)
  | _ => mret ()
  end.
Fixpoint play (m : PamMessages) (l : list PamEffect) : CM () :=
  match l with
  | [] => mret ()
  | e :: l' => _ ← play_effect m e; play m l'
  end.
End conversation.

(** ** What is documented of the host

    [pam_conv(3)]: the answer, if there is one, is one fresh block, with at most one
    fresh text; nothing else is touched. *)
Definition answer_memory (heap heap' : Heap) (resp : option nat) (text : option bytes) : Prop :=
  match resp with
  | None => heap' = heap ∧ text = None
  | Some p =>
      heap !! p = None ∧
      match text with
      | None => heap' = <[p := BResponse None]> heap
      | Some t => ∃ q, heap !! q = None ∧ p ≠ q ∧ heap' = <[p := BResponse (Some q)]> (<[q := BText t]> heap)
      end
  end.
Class HostConv (f : conv_fn) := {
  conv_memory shown style msg heap heap' resp ret :
    f shown style msg heap = (heap', resp, ret) → ∃ text, answer_memory heap heap' resp text;
}.

(** ** Theorems *)

#[local] Ltac run := unfold mbind, M_bind, mret, M_ret, throw; simpl.

Lemma free_answer heap heap' resp text shown :
  answer_memory heap heap' resp text → free_response resp (mkHost heap' shown) = (mkHost heap shown, Ok ()).
Proof.
  unfold free_response, response_text, load, free. run. destruct resp as [p|]; [|by intros [-> _]].
  intros [Hp Ht]. destruct text as [t|].
  - destruct Ht as (q & Hq & Hne & ->). run. rewrite lookup_insert_eq. run.
    rewrite lookup_insert_ne, lookup_insert_eq by done. run. rewrite lookup_delete_ne, lookup_insert_eq by done.
    rewrite delete_insert_ne by done. rewrite (delete_insert_id heap q) by done. by rewrite delete_insert_id.
  - subst. run. rewrite lookup_insert_eq. run. rewrite lookup_insert_eq. by rewrite delete_insert_id.
Qed.

(** The text of an answer, as the module hands it on. *)
Definition handed_on (text : option bytes) : option string :=
  t ← text; _ ← utf8_chars t; Some (String.string_of_list_byte t).

(** A call reaches the host, or fails before it with a code. *)
Inductive reaches_host (pamh : PamHandle) (c : pam_conv) (msg : string) : option conv_fn → Prop :=
| reached f : get_conv pamh = Ok () → conv c = Some f → has_nul msg = false → reaches_host pamh c msg (Some f)
| not_reached : (∀ f, get_conv pamh = Ok () → conv c = Some f → has_nul msg = true) → reaches_host pamh c msg None.

Lemma reaches_cases pamh c msg : ∃ o, reaches_host pamh c msg o.
Proof.
  destruct (get_conv pamh) as [[]|e] eqn:Eg; [|exists None; constructor; by rewrite Eg].
  destruct (conv c) as [f|] eqn:Ec; [|exists None; constructor; by rewrite Ec].
  destruct (has_nul msg) eqn:En; [exists None; by constructor|exists (Some f); by constructor].
Qed.

Lemma converse_fails pamh c style msg h :
  reaches_host pamh c msg None → ∃ code, converse pamh c style msg h = (h, Err (Code code)).
Proof.
  intros Hn. inversion Hn as [|Hn']; subst. unfold converse, of_code. run.
  destruct (get_conv pamh) as [[]|e]; [|by eexists]. run. destruct (conv c) as [f|]; [|by eexists].
  rewrite (Hn' f) by done. by eexists.
Qed.

Lemma converse_runs pamh c style msg f heap shown heap' resp ret :
  reaches_host pamh c msg (Some f) → f shown style msg heap = (heap', resp, ret) →
  converse pamh c style msg (mkHost heap shown) = (mkHost heap' (shown ++ [(style, msg)]), Ok (resp, ret)).
Proof.
  intros Hn Hf. inversion Hn as [? Eg Ec En|]; subst. unfold converse, of_code. run. rewrite Eg. run.
  rewrite Ec, En. simpl. by rewrite Hf.
Qed.

Lemma sent_message_run pamh c style msg f heap shown heap' resp ret text :
  reaches_host pamh c msg (Some f) → f shown style msg heap = (heap', resp, ret) → answer_memory heap heap' resp text →
  send_message pamh c style msg (mkHost heap shown)
  = (mkHost heap (shown ++ [(style, msg)]), if decide (ret = PAM_SUCCESS) then Ok () else Err (Code ret)).
Proof.
  intros Hn Hf Ha. unfold send_message. run. rewrite (converse_runs _ _ _ _ _ _ _ _ _ _ Hn Hf).
  rewrite (free_answer _ _ _ _ _ Ha). by case_decide.
Qed.

Lemma prompt_user_run pamh c style msg f heap shown heap' resp ret text :
  reaches_host pamh c msg (Some f) → f shown style msg heap = (heap', resp, ret) → answer_memory heap heap' resp text →
  prompt_user pamh c style msg (mkHost heap shown)
  = (mkHost heap (shown ++ [(style, msg)]), if decide (ret = PAM_SUCCESS) then Ok (handed_on text) else Err (Code ret)).
Proof.
  intros Hn Hf Ha. unfold prompt_user. run. rewrite (converse_runs _ _ _ _ _ _ _ _ _ _ Hn Hf).
  destruct (decide (ret = PAM_SUCCESS)) as [->|Hr].
  2: { rewrite decide_True by done. by rewrite (free_answer _ _ _ _ _ Ha). }
  rewrite decide_False by naive_solver. destruct resp as [p|]; [|by destruct Ha as [-> ->]].
  destruct Ha as [Hp Ht]. unfold response_text, text_at, load, free, clear_text. destruct text as [t|].
  - destruct Ht as (q & Hq & Hne & ->). run. rewrite lookup_insert_eq. run.
    rewrite lookup_insert_ne, lookup_insert_eq by done. run. rewrite lookup_insert_ne, lookup_insert_eq by done. run.
    rewrite lookup_insert_eq. run. rewrite (delete_insert_ne _ q p) by done. rewrite (delete_insert_id heap q) by done.
    rewrite insert_insert_eq, delete_insert_id by done. by destruct (utf8_chars t).
  - subst. run. rewrite lookup_insert_eq. run. rewrite lookup_insert_eq. by rewrite delete_insert_id.
Qed.

(** C19: The memory of the answers is released exactly once.  Over a host that allocates its
    answers as documented, a message and a prompt, on whatever handle, style and text and
    however the host answers, leave the memory as they found it and never release a
    block twice or follow a dangling pointer. *)
Theorem conversation_balanced pamh c style msg h :
  (∀ f, conv c = Some f → HostConv f) →
  let sent := send_message pamh c style msg h in
  let asked := prompt_user pamh c style msg h in
  (h_heap sent.1 = h_heap h ∧ sent.2 ≠ Err Undefined) ∧ (h_heap asked.1 = h_heap h ∧ asked.2 ≠ Err Undefined).
Proof.
  intros Hlaw sent asked. destruct (reaches_cases pamh c msg) as [[f|] Hr].
  - assert (Hc : conv c = Some f) by (by inversion Hr). destruct (Hlaw f Hc) as [Hmem], h as [heap shown].
    destruct (f shown style msg heap) as [[heap' resp] ret] eqn:Ef. destruct (Hmem _ _ _ _ _ _ _ Ef) as [text Ha].
    unfold sent, asked. erewrite sent_message_run, prompt_user_run by done. repeat case_decide; by simpl.
  - destruct (converse_fails pamh c style msg h Hr) as [code Hcode]. unfold sent, asked, send_message, prompt_user. run.
    by rewrite Hcode.
Qed.

(** A prompt hands on what the user typed.  When the conversation can be reached and the
    host answers a prompt with success, the result is the text of the answer, or nothing
    when there is none or it is not UTF-8; a failing host's code is passed on and its
    answer discarded. *)
Theorem prompt_exact pamh c f style msg heap shown heap' resp ret text :
  reaches_host pamh c msg (Some f) → f shown style msg heap = (heap', resp, ret) → answer_memory heap heap' resp text →
  (prompt_user pamh c style msg (mkHost heap shown)).2
  = if decide (ret = PAM_SUCCESS) then Ok (handed_on text) else Err (Code ret).
Proof. intros Hn Hf Ha. by rewrite (prompt_user_run _ _ _ _ _ _ _ _ _ _ _ Hn Hf Ha). Qed.

(** ** The module's texts *)

(** What an effect shows. *)
Definition shows (m : PamMessages) (e : PamEffect) : list (Z * string) :=
  let text style t := if has_nul (pam_text m t) then [] else [(style, pam_text m t)] in
  match e with
  | EInfo t => text PAM_TEXT_INFO t
  | EError t => text PAM_ERROR_MSG t
  | _ => []
  end.

Lemma try_send_run pamh c f `{!HostConv f} style msg heap shown :
  get_conv pamh = Ok () → conv c = Some f →
  try_send (send_message pamh c style msg) (mkHost heap shown)
  = (mkHost heap (shown ++ if has_nul msg then [] else [(style, msg)]), Ok ()).
Proof.
  intros Hg Hc. unfold try_send. destruct (has_nul msg) eqn:En.
  - destruct (converse_fails pamh c style msg (mkHost heap shown)) as [code Hcode]; [by constructor|].
    unfold send_message. run. rewrite Hcode. by rewrite app_nil_r.
  - destruct (f shown style msg heap) as [[heap' resp] ret] eqn:Ef. destruct (conv_memory _ _ _ _ _ _ _ Ef) as [text Ha].
    erewrite sent_message_run by (done || by constructor). by case_decide.
Qed.

(** Every text of the module reaches the user, and only those.  Playing any log of the
    module on a host with a conversation shows the localised texts of its messages in
    order, errors as errors, whatever codes the host answers with; only a text with a
    NUL in it, as a daemon's error detail may have, is dropped.  No memory is lost. *)
Theorem module_texts_delivered pamh c f `{HC : !HostConv f} m l heap shown :
  get_conv pamh = Ok () → conv c = Some f →
  play pamh c m l (mkHost heap shown) = (mkHost heap (shown ++ mjoin (shows m <$> l)), Ok ()).
Proof.
  intros Hg Hc. revert shown. induction l as [|e l IH]; intros shown; cbn [play].
  { by rewrite app_nil_r. }
  assert (He : play_effect pamh c m e (mkHost heap shown) = (mkHost heap (shown ++ shows m e), Ok ())).
  { destruct e as [t|t| | | | |]; cbn [play_effect shows]; [by apply (try_send_run pamh c f)..| | | | |]; by rewrite app_nil_r. }
  unfold mbind at 1, M_bind at 1. rewrite He, IH. cbn [fmap list_fmap mjoin list_join]. by rewrite app_assoc.
Qed.

(** The user that was set is the user that is read back, over a library that stores what
    it accepts. *)
Lemma set_user_get_user set pamh username pamh' :
  (∀ h u h', set h u = (h', PAM_SUCCESS) → ph_null h' = ph_null h ∧ ph_user h' = (PAM_SUCCESS, Item u)) →
  set_user set pamh username = (pamh', Ok ()) → get_user pamh' = Ok username.
Proof.
  intros Hset. unfold set_user, get_user. destruct (ph_null pamh) eqn:En; [done|]. destruct (has_nul username); [done|].
  destruct (set pamh username) as [h' ret] eqn:Es. case_decide as Hr; [|done]. intros [= <-]. subst ret.
  destruct (Hset _ _ _ Es) as [-> ->]. by rewrite En.
Qed.

(** ** A concrete host *)

(** It answers every message with [text] and [ret]. *)
Definition toy_conv (text : option bytes) (ret : Z) : conv_fn := λ _ _ _ heap,
  let p := fresh (dom heap) in
  let q := fresh ({[p]} ∪ dom heap) in
  match text with
  | None => (<[p := BResponse None]> heap, Some p, ret)
  | Some t => (<[p := BResponse (Some q)]> (<[q := BText t]> heap), Some p, ret)
  end.

Lemma toy_conv_memory text ret heap :
  let '(heap', resp, _) := toy_conv text ret [] 0 "" heap in answer_memory heap heap' resp text.
Proof.
  unfold toy_conv. assert (Hp := is_fresh (dom heap)). assert (Hq := is_fresh ({[fresh (dom heap)]} ∪ dom heap)).
  destruct text as [t|]; split; try done; try by apply not_elem_of_dom.
  apply not_elem_of_union in Hq as [Hq1 Hq2]. eexists. split; [by apply not_elem_of_dom|].
  split; [|done]. intros E. apply Hq1. rewrite <-E. by apply elem_of_singleton.
Qed.

#[export] Instance toy_conv_host text ret : HostConv (toy_conv text ret).
Proof.
  split. intros shown style msg heap heap' resp r Hf. exists text. pose proof (toy_conv_memory text ret heap) as Hm.
  unfold toy_conv in *. destruct text; by simplify_eq.
Qed.

Definition toy_handle : PamHandle :=
  mkPamHandle false (PAM_SUCCESS, Item "sudo") (PAM_SUCCESS, Item "ann") (PAM_SUCCESS, NullItem) (PAM_SUCCESS, true).
Definition toy_texts : PamMessages := mkPamMessages "a" "b" "c" "d" "e" "f" "g" "h" "i" "j" "k".

Lemma conversation_balanced_witness :
  h_heap (prompt_user toy_handle (mkPamConv (Some (toy_conv (Some (bytes_of_string "pw")) 0))) 1 "Password:"
            (mkHost ∅ [])).1 = ∅.
Proof.
  apply (conversation_balanced toy_handle (mkPamConv (Some (toy_conv (Some (bytes_of_string "pw")) 0))) 1 "Password:"
    (mkHost ∅ [])). intros f [= <-]. apply _.
Defined.

Lemma prompt_exact_witness :
  (prompt_user toy_handle (mkPamConv (Some (toy_conv (Some (bytes_of_string "pw")) 0))) 1 "Password:" (mkHost ∅ [])).2
  = Ok (Some "pw"%string).
Proof.
  pose (f := toy_conv (Some (bytes_of_string "pw")) 0).
  exact (prompt_exact toy_handle (mkPamConv (Some f)) f 1 "Password:" ∅ [] _ _ _ _
    (reached toy_handle (mkPamConv (Some f)) "Password:" f eq_refl eq_refl eq_refl) eq_refl
    (toy_conv_memory (Some (bytes_of_string "pw")) 0 ∅)).
Defined.

(** The host refuses every message; the module goes on. *)
Lemma module_texts_delivered_witness :
  h_shown (play toy_handle (mkPamConv (Some (toy_conv None PAM_CONV_ERR))) toy_texts
    [EInfo waiting_for_tap; ESpawnWorker; EError (error_text "boom")] (mkHost ∅ [])).1
  = [(PAM_TEXT_INFO, "b"%string); (PAM_ERROR_MSG, "k boom"%string)].
Proof.
  rewrite (module_texts_delivered toy_handle (mkPamConv (Some (toy_conv None PAM_CONV_ERR))) (toy_conv None PAM_CONV_ERR) toy_texts _ ∅ [] eq_refl eq_refl).
  reflexivity.
Defined.
