(* ===== verification/SourceScan.v ===== *)
(** * The source scan of [client-pam/src/pam_logic.rs]

    The module's own guard against returning [PAM_IGNORE]: [stripped_source] blanks
    comments, strings and characters of a source file, and two detectors look for the
    identifier and for numbers with its value.  Indices into the bytes are kept as in the
    code; a loop has as fuel the number of bytes, since each turn moves its index.
    [String::from_utf8_lossy] at the end is left out: it acts only on bytes that are not
    UTF-8, and puts in a character that is neither a newline nor part of a needle. *)

From stdpp Require Import base gmap strings list.
From Stdlib Require Import Strings.Byte Strings.Ascii.
From S2P Require Import Prelude Os Text.

Definition char_byte (c : ascii) : byte := byte_of_ascii c.
Definition NL : byte := x0a.
Definition isb (c : ascii) (o : option byte) : bool := bool_decide (o = Some (char_byte c)).
Definition tick : ascii := "'"%char.
Definition quote : ascii := Ascii.ascii_of_nat 34.
Definition backslash : ascii := Ascii.ascii_of_nat 92.

(** [&b[i..j]] *)
Definition slice (b : bytes) (i j : nat) : bytes := take (j - i) (drop i b).
Definition blank (b : bytes) (i j : nat) : bytes := (λ c, if decide (c = NL) then NL else x20) <$> slice b i j.

(** [while i < len && p(b[i]) { i += 1 }] *)
Fixpoint skip_while (fuel : nat) (p : byte → bool) (b : bytes) (i : nat) : nat :=
  match fuel with
  | O => i
  | S f => match b !! i with Some c => if p c then skip_while f p b (S i) else i | None => i end
  end.
Definition skip (p : byte → bool) (b : bytes) (i : nat) : nat := skip_while (length b) p b i.

(** ** [stripped_source] *)

(** The body of a block comment: its newlines, and where it ends. *)
Fixpoint block_comment (fuel : nat) (b : bytes) (i depth : nat) : bytes * nat :=
  match fuel with
  | O => ([], i)
  | S f =>
      match depth, b !! i with
      | O, _ | _, None => ([], i)
      | S d, Some c =>
          if isb "/" (Some c) && isb "*" (b !! (i + 1)%nat) then block_comment f b (i + 2) (S depth)
          else if isb "*" (Some c) && isb "/" (b !! (i + 1)%nat) then block_comment f b (i + 2) d
          else let '(o, j) := block_comment f b (S i) depth in ((if decide (c = NL) then [NL] else []) ++ o, j)
      end
  end.

(** The end of a raw string, from behind its opening quote. *)
Fixpoint raw_end (fuel : nat) (b : bytes) (hashes j : nat) : nat :=
  match fuel with
  | O => length b
  | S f =>
      match b !! j with
      | None => length b
      | Some c =>
          if isb quote (Some c) && forallb (λ k, isb "#" (b !! (j + 1 + k)%nat)) (seq 0 hashes)
          then (j + 1 + hashes)%nat else raw_end f b hashes (S j)
      end
  end.

(** The end of a string, from behind its opening quote. *)
Fixpoint string_end (fuel : nat) (b : bytes) (j : nat) : nat :=
  match fuel with
  | O => j
  | S f =>
      match b !! j with
      | None => j
      | Some c =>
          if isb backslash (Some c) then string_end f b (j + 2)
          else if isb quote (Some c) then S j else string_end f b (S j)
      end
  end.

(** The end of a character, from its tick. *)
Definition char_end (b : bytes) (t : nat) : nat :=
  let j := (t + 1)%nat in
  let j := if isb backslash (b !! j) then
             let j := (j + 2)%nat in
             if isb "u" (b !! (j - 1)%nat) && isb "{" (b !! j) then S (skip (λ c, negb (isb "}" (Some c))) b j) else j
           else S j in
  if isb tick (b !! j) then S j else j.

Definition prefixed (c : ascii) (b : bytes) (i : nat) : option nat :=
  if isb c (b !! i) then Some i else if isb "b" (b !! i) && isb c (b !! (i + 1)%nat) then Some (i + 1)%nat else None.

(** The end of the raw string that starts at [i], if one does. *)
Definition raw_string (b : bytes) (i : nat) (c : byte) : option nat :=
  let raw_at := if isb "r" (Some c) then Some (i + 1)%nat
                else if isb "b" (Some c) && isb "r" (b !! (i + 1)%nat) then Some (i + 2)%nat else None in
  match raw_at with
  | None => None
  | Some at_ =>
      let hashes := (skip (λ c, isb "#" (Some c)) b at_ - at_)%nat in
      if isb quote (b !! (at_ + hashes)%nat) then Some (raw_end (length b) b hashes (at_ + hashes + 1)) else None
  end.

(** One turn of the loop, at a byte [c]: what is put out, and the next index. *)
Definition scan_at (b : bytes) (i : nat) (c : byte) : bytes * nat :=
  if isb "/" (Some c) && isb "/" (b !! (i + 1)%nat) then ([], skip (λ c, negb (bool_decide (c = NL))) b i) else
  if isb "/" (Some c) && isb "*" (b !! (i + 1)%nat) then block_comment (length b) b (i + 2) 1 else
  match raw_string b i c with
  | Some e => (blank b i e, e)
  | None =>
      match prefixed quote b i with
      | Some q => let e := (string_end (length b) b (q + 1) `min` length b)%nat in (blank b i e, e)
      | None =>
          match prefixed tick b i with
          | Some t =>
              let opens_literal := isb backslash (b !! (t + 1)%nat) ||
                                   (bool_decide (is_Some (b !! (t + 1)%nat)) && isb tick (b !! (t + 2)%nat)) in
              if negb opens_literal then ([c], S i)
              else let e := (char_end b t `min` length b)%nat in (blank b i e, e)
          | None => ([c], S i)
          end
      end
  end.

Fixpoint strip (fuel : nat) (b : bytes) (i : nat) : bytes :=
  match fuel with
  | O => []
  | S f => match b !! i with Some c => let '(o, j) := scan_at b i c in o ++ strip f b j | None => [] end
  end.
Definition stripped_source (b : bytes) : bytes := strip (length b) b 0.

(** ** The detectors *)

Definition ascii_digit (c : byte) : bool := let n := Z_of_byte c in (48 <=? n) && (n <=? 57).
Definition ascii_alphanumeric (c : byte) : bool :=
  let n := Z_of_byte c in ascii_digit c || (65 <=? n) && (n <=? 90) || (97 <=? n) && (n <=? 122).
Definition ident_char (c : byte) : bool := ascii_alphanumeric c || isb "_" (Some c).

Definition newlines (b : bytes) : nat := length (filter (λ c, c = NL) b).

Definition NEEDLE : bytes := char_byte <$> String.list_ascii_of_string "PAM_IGNORE".

(** Spaces at both ends are dropped. *)
Definition white (c : byte) : bool := let n := Z_of_byte c in (n =? 32) || (9 <=? n) && (n <=? 13).
Fixpoint trim_front (b : bytes) : bytes := match b with c :: b' => if white c then trim_front b' else b | [] => [] end.
Definition trim_bytes (b : bytes) : bytes := reverse (trim_front (reverse (trim_front b))).
Definition line_at (b : bytes) (at_ : nat) : bytes :=
  let start := match list_find (λ c, c = NL) (reverse (take at_ b)) with Some (k, _) => (at_ - k)%nat | None => O end in
  let end_ := match list_find (λ c, c = NL) (drop at_ b) with Some (k, _) => (at_ + k)%nat | None => length b end in
  trim_bytes (slice b start end_).

(** The first place of the needle from [i] on. *)
Fixpoint find_needle (fuel : nat) (b : bytes) (i : nat) : option nat :=
  match fuel with
  | O => None
  | S f => if decide (take (length NEEDLE) (drop i b) = NEEDLE) then Some i else find_needle f b (S i)
  end.
Fixpoint identifiers (fuel : nat) (b : bytes) (from : nat) : list (nat * bytes) :=
  match fuel with
  | O => []
  | S f =>
      match find_needle (length b) b from with
      | None => []
      | Some start =>
          let e := (start + length NEEDLE)%nat in
          let whole_word := negb ((0 <? Z.of_nat start) && match b !! (start - 1)%nat with Some c => ident_char c | None => false end) &&
                            negb (match b !! e with Some c => ident_char c | None => false end) in
          (if whole_word then [((newlines (take start b) + 1)%nat, line_at b start)] else []) ++ identifiers f b e
      end
  end.
Definition pam_ignore_identifiers (b : bytes) : list (nat * bytes) := identifiers (length b) b 0.

(** *** Numbers *)

Definition digit_value (c : byte) : Z :=
  let n := Z_of_byte c in
  if ascii_digit c then n - 48 else if (97 <=? n) && (n <=? 102) then n - 87 else if (65 <=? n) && (n <=? 70) then n - 55 else 99.
(** [u128::from_str_radix]: at least one digit, no overflow. *)
Definition from_str_radix (radix : Z) (digits : bytes) : option Z :=
  let v := foldl (λ a c, a * radix + digit_value c) 0 digits in
  if decide (digits = [] ∨ 2 ^ 128 ≤ v) then None else Some v.

(** Digits with underscores between them: the digits, and where they end. *)
Fixpoint read_digits (fuel : nat) (p : byte → bool) (b : bytes) (i : nat) : bytes * nat :=
  match fuel with
  | O => ([], i)
  | S f =>
      match b !! i with
      | None => ([], i)
      | Some c =>
          if isb "_" (Some c) then read_digits f p b (S i)
          else if p c then let '(d, j) := read_digits f p b (S i) in (c :: d, j) else ([], i)
      end
  end.

Definition radix_at (b : bytes) (i : nat) : option Z :=
  if negb (isb "0" (b !! i)) then None else
  let c := b !! (i + 1)%nat in
  if isb "x" c || isb "X" c then Some 16 else if isb "o" c || isb "O" c then Some 8
  else if isb "b" c || isb "B" c then Some 2 else None.

Definition digit_or_underscore (c : byte) : bool := ascii_digit c || isb "_" (Some c).
Definition holds (p : byte → bool) (o : option byte) : bool := match o with Some c => p c | None => false end.

Definition read_numeric_literal (b : bytes) (start : nat) : option Z * nat :=
  match radix_at b start with
  | Some radix =>
      let '(digits, i) := read_digits (length b) (λ c, digit_value c <? radix) b (start + 2) in
      (from_str_radix radix digits, skip ascii_alphanumeric b i)
  | None =>
      let '(digits, i) := read_digits (length b) ascii_digit b start in
      let frac := isb "." (b !! i) && holds ascii_digit (b !! (i + 1)%nat) in
      let i := if frac then skip digit_or_underscore b (i + 1) else i in
      let exp := (isb "e" (b !! i) || isb "E" (b !! i)) &&
                 holds (λ c, ascii_digit c || isb "+" (Some c) || isb "-" (Some c)) (b !! (i + 1)%nat) in
      let i := if exp then skip digit_or_underscore b (i + 2) else i in
      let i := skip ascii_alphanumeric b i in
      (if frac || exp then None else from_str_radix 10 digits, i)
  end.

Fixpoint literals (fuel : nat) (b : bytes) (code : Z) (i : nat) : list (nat * bytes) :=
  match fuel with
  | O => []
  | S f =>
      match b !! i with
      | None => []
      | Some c =>
          let begins_literal := ascii_digit c && negb ((0 <? Z.of_nat i) && holds ident_char (b !! (i - 1)%nat)) in
          if negb begins_literal then literals f b code (S i) else
          let '(value, next) := read_numeric_literal b i in
          (if decide (value = Some code) then [((newlines (take i b) + 1)%nat, slice b i next)] else []) ++
          literals f b code (next `max` S i)
      end
  end.
Definition numeric_literals_equal_to (b : bytes) (code : Z) : list (nat * bytes) := literals (length b) b code 0.

(** ** Line numbers survive *)

Lemma newlines_app a b : newlines (a ++ b) = (newlines a + newlines b)%nat.
Proof. unfold newlines. by rewrite filter_app, length_app. Qed.
Lemma newlines_cons c b : newlines (c :: b) = ((if decide (c = NL) then 1 else 0) + newlines b)%nat.
Proof. unfold newlines. rewrite filter_cons. by case_decide. Qed.

Lemma drop_slice b i j : (i ≤ j)%nat → drop i b = slice b i j ++ drop j b.
Proof. intros Hle. unfold slice. rewrite <-(take_drop (j - i) (drop i b)) at 1. by rewrite drop_drop, Nat.add_sub_assoc, Nat.add_comm, Nat.add_sub. Qed.
Lemma slice_step b i j c : b !! i = Some c → (i < j)%nat → slice b i j = c :: slice b (S i) j.
Proof.
  intros Hc Hlt. unfold slice. rewrite (drop_S _ _ _ Hc). replace (j - i)%nat with (S (j - S i)) by lia. done.
Qed.
Lemma slice_empty b i : slice b i i = [].
Proof. unfold slice. by rewrite Nat.sub_diag. Qed.

Lemma newlines_blank b i j : newlines (blank b i j) = newlines (slice b i j).
Proof.
  unfold blank. induction (slice b i j) as [|c l IH]; [done|]. cbn [fmap list_fmap]. rewrite !newlines_cons, IH.
  repeat case_decide; done.
Qed.

Lemma skip_while_spec fuel p b i :
  (i ≤ skip_while fuel p b i)%nat ∧ (p NL = false → newlines (slice b i (skip_while fuel p b i)) = 0%nat).
Proof.
  revert i. induction fuel as [|f IH]; intros i; cbn [skip_while]; [by rewrite slice_empty|].
  destruct (b !! i) as [c|] eqn:Hc; [|by rewrite slice_empty]. destruct (p c) eqn:Hp; [|by rewrite slice_empty].
  destruct (IH (S i)) as [Hle Hn]. split; [lia|]. intros HNL. rewrite (slice_step _ _ _ c), newlines_cons, Hn, decide_False by (done || lia || congruence).
  done.
Qed.
Lemma skip_progress p b i c : b !! i = Some c → p c = true → (i < skip p b i)%nat.
Proof.
  intros Hc Hp. unfold skip. assert (length b ≠ 0)%nat by (intros ->%nil_length_inv; done).
  destruct (length b) as [|n]; [done|]. cbn [skip_while]. rewrite Hc, Hp. destruct (skip_while_spec n p b (S i)). lia.
Qed.

Lemma isb_Some a c : isb a (Some c) = true ↔ c = char_byte a.
Proof. unfold isb. rewrite bool_decide_eq_true. naive_solver. Qed.
Lemma isb_at a o : isb a o = true ↔ o = Some (char_byte a).
Proof. unfold isb. by rewrite bool_decide_eq_true. Qed.

Lemma block_comment_spec fuel b i depth :
  let '(o, j) := block_comment fuel b i depth in (i ≤ j)%nat ∧ newlines o = newlines (slice b i j).
Proof.
  revert i depth. induction fuel as [|f IH]; intros i depth; cbn [block_comment]; [by rewrite slice_empty|].
  destruct depth as [|d]; [by rewrite slice_empty|]. destruct (b !! i) as [c|] eqn:Hc; [|by rewrite slice_empty].
  assert (Htwo : ∀ x y j, c = char_byte x → b !! (i + 1)%nat = Some (char_byte y) → char_byte x ≠ NL → char_byte y ≠ NL →
    (i + 2 ≤ j)%nat → newlines (slice b i j) = newlines (slice b (i + 2) j)).
  { intros x y j -> Hy Hx1 Hy1 Hj. rewrite (slice_step _ _ _ _ Hc), newlines_cons, decide_False by (done || lia).
    rewrite Nat.add_1_r in Hy. rewrite (slice_step _ _ _ _ Hy), newlines_cons, decide_False by (done || lia).
    by replace (i + 2)%nat with (S (S i)) by lia. }
  destruct (isb "/" (Some c) && isb "*" (b !! (i + 1)%nat)) eqn:E1.
  { apply andb_true_iff in E1 as [H1%isb_Some H2%isb_at]. specialize (IH (i + 2)%nat (S (S d))).
    destruct (block_comment f b (i + 2) (S (S d))) as [o j]. destruct IH as [Hle Hn]. split; [lia|]. by rewrite (Htwo "/"%char "*"%char). }
  destruct (isb "*" (Some c) && isb "/" (b !! (i + 1)%nat)) eqn:E2.
  { apply andb_true_iff in E2 as [H1%isb_Some H2%isb_at]. specialize (IH (i + 2)%nat d).
    destruct (block_comment f b (i + 2) d) as [o j]. destruct IH as [Hle Hn]. split; [lia|]. by rewrite (Htwo "*"%char "/"%char). }
  specialize (IH (S i) (S d)). destruct (block_comment f b (S i) (S d)) as [o j]. destruct IH as [Hle Hn]. split; [lia|].
  rewrite (slice_step _ _ _ _ Hc), newlines_cons, <-Hn by lia. case_decide; by rewrite newlines_app.
Qed.

Lemma raw_end_ge fuel b h j i : (i < length b)%nat → (i < j)%nat → (i < raw_end fuel b h j)%nat.
Proof.
  revert j. induction fuel as [|f IH]; intros j Hi Hj; cbn [raw_end]; [done|]. destruct (b !! j); [|done]. case_match; [lia|].
  apply IH; lia.
Qed.
Lemma string_end_ge fuel b j : (j ≤ string_end fuel b j)%nat.
Proof.
  revert j. induction fuel as [|f IH]; intros j; cbn [string_end]; [done|]. destruct (b !! j); [|done].
  case_match; [specialize (IH (j + 2)%nat); lia|]. case_match; [lia|]. specialize (IH (S j)). lia.
Qed.
Lemma char_end_ge b t : (t < char_end b t)%nat.
Proof.
  unfold char_end. cbv zeta.
  assert (Hj : ∀ j, (t < j)%nat → (t < if isb tick (b !! j) then S j else j)%nat) by (intros j; case_match; lia).
  apply Hj. case_match; [|lia]. case_match; [|lia].
  destruct (skip_while_spec (length b) (λ c, negb (isb "}" (Some c))) b (t + 1 + 2)). unfold skip. lia.
Qed.
Lemma prefixed_ge c b i q : prefixed c b i = Some q → (i ≤ q)%nat.
Proof. unfold prefixed. repeat case_match; intros; simplify_eq; lia. Qed.

Lemma raw_string_ge b i c e : (i < length b)%nat → raw_string b i c = Some e → (i < e)%nat.
Proof.
  intros Hi. unfold raw_string. cbv zeta. destruct (if isb "r" (Some c) then _ else _) as [a|] eqn:Ea; [|done]. destruct (isb quote _); [|done].
  intros [= <-]. apply raw_end_ge; [done|]. repeat case_match; simplify_eq; lia.
Qed.

(** One turn moves on, and puts out the newlines of what it has read. *)
Lemma scan_at_spec b i c :
  b !! i = Some c → let '(o, j) := scan_at b i c in (i < j)%nat ∧ newlines o = newlines (slice b i j).
Proof.
  intros Hc. assert (Hlen : (i < length b)%nat) by (by eapply lookup_lt_Some).
  assert (Hone : (i < S i)%nat ∧ newlines [c] = newlines (slice b i (S i))).
  { split; [lia|]. by rewrite (slice_step _ _ _ _ Hc), slice_empty by lia. }
  assert (Hblank : ∀ e, (i < e)%nat → (i < e)%nat ∧ newlines (blank b i e) = newlines (slice b i e)).
  { intros e He. split; [done|apply newlines_blank]. }
  unfold scan_at. destruct (isb "/" (Some c) && isb "/" _) eqn:E1.
  { apply andb_true_iff in E1 as [->%isb_Some _]. split; [by eapply skip_progress|].
    symmetry. by apply skip_while_spec. }
  destruct (isb "/" (Some c) && isb "*" _) eqn:E2.
  { apply andb_true_iff in E2 as [->%isb_Some H2%isb_at]. pose proof (block_comment_spec (length b) b (i + 2) 1) as Hb.
    destruct (block_comment _ b (i + 2) 1) as [o j]. destruct Hb as [Hle Hn]. split; [lia|].
    rewrite Nat.add_1_r in H2. rewrite (slice_step _ _ _ _ Hc), (slice_step _ _ _ _ H2), !newlines_cons, !decide_False by (done || lia).
    by replace (S (S i)) with (i + 2)%nat by lia. }
  destruct (raw_string b i c) as [e|] eqn:Er; [by eapply Hblank, raw_string_ge|].
  destruct (prefixed quote b i) as [q|] eqn:Eq.
  { apply Hblank. apply prefixed_ge in Eq. pose proof (string_end_ge (length b) b (q + 1)). lia. }
  destruct (prefixed tick b i) as [t|] eqn:Et; [|exact Hone]. cbv zeta. destruct (negb _); [exact Hone|]. apply Hblank.
  apply prefixed_ge in Et. pose proof (char_end_ge b t). lia.
Qed.

Lemma strip_newlines fuel b i : (length b - i ≤ fuel)%nat → newlines (strip fuel b i) = newlines (drop i b).
Proof.
  revert i. induction fuel as [|f IH]; intros i Hf; cbn [strip].
  { by rewrite drop_ge by lia. }
  destruct (b !! i) as [c|] eqn:Hc; [|by rewrite drop_ge by (by apply lookup_ge_None)].
  pose proof (scan_at_spec b i c Hc) as Hs. destruct (scan_at b i c) as [o j]. destruct Hs as [Hlt Hn].
  assert (i < length b)%nat by (by eapply lookup_lt_Some).
  rewrite newlines_app, Hn, IH, (drop_slice b i j), newlines_app by lia. done.
Qed.

(** The reported line numbers are those of the file on disk.  Whatever a source file contains, well-formed or not, stripping it reads it to its end and keeps the number of newlines; so does every beginning up to which a turn of the loop has come. *)
Theorem stripping_keeps_lines b :
  newlines (stripped_source b) = newlines b ∧
  ∀ i c, b !! i = Some c → let '(o, j) := scan_at b i c in (i < j)%nat ∧ newlines o = newlines (slice b i j).
Proof. split; [unfold stripped_source; by rewrite strip_newlines by lia|exact (scan_at_spec b)]. Qed.

(** ** The repository's tests of the scan *)

Definition src (s : string) : bytes := char_byte <$> String.list_ascii_of_string s.
Definition nl : string := String.String (Ascii.ascii_of_nat 10) "".
Definition dq : string := String.String quote "".

(** [test_pam_ignore_scan_detects_a_real_return] *)
Definition scan_test_source : bytes :=
  src ("// PAM_IGNORE in a comment is prose, not a return." +:+ nl +:+
       "/* PAM_IGNORE and 25 in a block comment, too. */" +:+ nl +:+
       "let prose = " +:+ dq +:+ "return pam_sys::PAM_IGNORE; return 25;" +:+ dq +:+ ";" +:+ nl +:+
       "let code = { let x = pam_sys::PAM_IGNORE; x };" +:+ nl +:+
       "return 25u32;" +:+ nl).
Theorem scan_detects_a_real_return :
  let cleaned := stripped_source scan_test_source in
  pam_ignore_identifiers cleaned = [(4%nat, src "let code = { let x = pam_sys::PAM_IGNORE; x };")] ∧
  numeric_literals_equal_to cleaned 25 = [(5%nat, src "25u32")] ∧
  pam_ignore_identifiers (stripped_source (src ("// PAM_IGNORE" +:+ nl))) = [].
Proof. by vm_compute. Qed.

(** A character outside ASCII can put the scan out of step.  In a list of two characters, an accented letter and a quote, followed by a string that names the code, the tick that closes the first character is taken for one that opens the comma, the quote of the second for the start of a string, and the text of the string for code: a needle is reported that is none. *)
Definition out_of_step : bytes :=
  src "['" ++ [xc3; xa9] ++ src ("','" +:+ dq +:+ "'] " +:+ dq +:+ "PAM_IGNORE" +:+ dq).
Theorem scan_invents_a_needle : pam_ignore_identifiers (stripped_source out_of_step) ≠ [].
Proof. by vm_compute. Qed.
