(* ===== verification/SharedTests.v ===== *)
(** * The unit tests of [shared]

    The tests of the crypto, protocol, pairing-URL, network and configuration modules, each
    a definition with the test's name, inputs and expected values: [unwrap] on an error
    fails the test, an assertion is its answer.  They are generic in the cryptographic
    library; several assert that another key, context or byte is noticed, which the laws do
    not promise, so the run uses [mix_crypto], a library whose tags and signatures are
    checksums of everything they cover.  Tests of the serialisers are in [WireTests]; tests
    of what the machine has (interfaces, sockets, a TPM) are not repeated. *)

From stdpp Require Import base gmap strings list countable.
From Stdlib Require Import Strings.Byte Strings.Ascii.
From S2P Require Import Prelude Os Text Crypto Concrete Protocol ConcreteCodec Config PairingUrl Pairing PairingTheorems Network.

(** ** A library that mixes

    FNV-1a over 32 bits, expanded with a counter. *)
Definition fnv_step (h c : Z) : Z := Z.land (Z.lxor h c * 16777619) (Z.ones 32).
Definition fnv (b : bytes) : Z := foldl (λ h c, fnv_step h (Z_of_byte c)) 2166136261 b.
Definition expand (n : nat) (b : bytes) : bytes :=
  let h := fnv b in pad n (mjoin ((λ i, to_be_bytes 4 (fnv_step h (Z.of_nat i))) <$> seq 0 (n / 4 + 1))).

Lemma length_expand n b : length (expand n b) = n.
Proof. apply length_pad. Qed.

Definition mix_tag (k n m a : bytes) : bytes := expand 16 (k ++ n ++ m ++ a).
Definition mix_decrypt (k n c a : bytes) : option bytes :=
  let l := (length c - 16)%nat in
  if bool_decide (16 ≤ length c)%nat && bool_decide (drop l c = mix_tag k n (take l c) a) then Some (take l c) else None.

Definition mix_crypto : CryptoOps := {|
  hmac_sha256 k m := Some (expand 32 (k ++ m));
  sha256 m := expand 32 m;
  hkdf_sha256 ikm info n := if bool_decide (n ≤ 255 * 32)%nat then Some (expand n (ikm ++ info)) else None;
  aes256gcm_encrypt k n m a := Some (m ++ mix_tag k n m a);
  aes256gcm_decrypt k n c a := mix_decrypt k n c a;
  ed25519_public sk := expand 32 sk;
  ed25519_key_valid pk := bool_decide (length pk = 32%nat);
  ed25519_sign sk m := expand 64 (expand 32 sk ++ m);
  ed25519_verify pk m s := bool_decide (s = expand 64 (pk ++ m));
  x25519_public sk := sk;
  x25519_dh a b := zip_with toy_add a b;
|}.

Lemma mix_decrypt_encrypt k n m a : mix_decrypt k n (m ++ mix_tag k n m a) a = Some m.
Proof.
  assert (Ht : length (mix_tag k n m a) = 16%nat) by apply length_expand.
  unfold mix_decrypt. rewrite length_app, Ht.
  replace (length m + 16 - 16)%nat with (length m) by lia.
  rewrite drop_app_length, take_app_length.
  rewrite !bool_decide_eq_true_2 by (done || lia). done.
Qed.

Lemma mix_laws : CryptoLaws mix_crypto.
Proof.
  split; simpl; intros; rewrite ?length_expand; try done.
  - eexists. split; [done|]. apply length_expand.
  - rewrite bool_decide_eq_true_2 by done. eexists. split; [done|]. apply length_expand.
  - simplify_eq. unfold mix_tag. by rewrite length_app, length_expand.
  - simplify_eq. apply mix_decrypt_encrypt.
  - by rewrite bool_decide_eq_true_2.
  - rewrite length_zip_with. lia.
  - apply toy_dh_comm.
Qed.

(** ** A test *)

Definition Test : Type := M World () bool.
Definition unwrap {E A} (r : result E A) : M World () A := lift (map_err (λ _, ()) r).
Definition unwrapped {E A} (k : M World E A) : M World () A := mapM_err (λ _, ()) k.
Definition refused {E A} (r : result E A) : bool := negb (is_ok r).
Definition same {A} `{EqDecision A} (a b : A) : bool := bool_decide (a = b).
Definition all_hold (l : list bool) : bool := forallb id l.
Definition text (s : string) : bytes := bytes_of_string s.
(** [v[i] ^= 0xFF], [v[i].wrapping_add(1)] *)
Definition tamper (f : Z → Z) (i : nat) (b : bytes) : bytes := alter (λ c, byte_of_Z (f (Z_of_byte c))) i b.
Definition flip_byte : nat → bytes → bytes := tamper (λ c, Z.lxor c 255).

(** 512 bytes that do not repeat, and the time of the day the tests ask for. *)
Definition test_world : World := set_entropy (mjoin ((λ i, to_be_bytes 4 (2654435761 * (Z.of_nat i + 1))) <$> seq 0 128)) quiet_world.
Definition passes (t : Test) : bool := match (t test_world).2 with Ok b => b | Err _ => false end.

Section tests.
Context `{C : CryptoOps}.

(** ** [crypto/keys.rs], [crypto/signing.rs], [crypto/kdf.rs] *)

Definition test_ed25519_key_generation : Test :=
  keypair ← unwrapped ed25519_generate;
  let restored := from_signing_key_bytes (signing_key_bytes keypair) in
  mret (same (verifying_key_bytes keypair) (verifying_key_bytes restored)).
Definition test_x25519_key_exchange : Test :=
  alice ← unwrapped x25519_generate;
  bob ← unwrapped x25519_generate;
  alice_shared ← unwrap (diffie_hellman alice (x25519_public_bytes bob));
  bob_shared ← unwrap (diffie_hellman bob (x25519_public_bytes alice));
  mret (same alice_shared bob_shared).
Definition test_csk_generation : Test :=
  csk1 ← unwrapped csk_generate;
  csk2 ← unwrapped csk_generate;
  mret (negb (same (csk_bytes csk1) (csk_bytes csk2))).

Definition test_signing_and_verification : Test :=
  keypair ← unwrapped ed25519_generate;
  let message := text "Test message for signing" in
  let signature := sign_ed25519 keypair message in
  other_keypair ← unwrapped ed25519_generate;
  mret (all_hold
    [is_ok (verify_ed25519 (verifying_key_bytes keypair) message signature);
     refused (verify_ed25519 (verifying_key_bytes keypair) (text "Wrong message") signature);
     refused (verify_ed25519 (verifying_key_bytes other_keypair) message signature)]).

Definition test_psk_derivation : Test :=
  psk ← unwrap (derive_psk_from_x25519 (rep 32 1));
  psk2 ← unwrap (derive_psk_from_x25519 (rep 32 1));
  mret (same (psk_bytes psk) (psk_bytes psk2)).
Definition ascii_digit_char (c : ascii) : bool := let n := Z.of_N (N_of_ascii c) in (48 <=? n) && (n <=? 57).
Definition test_sas_derivation : Test :=
  sas ← unwrap (derive_sas (mkPsk (rep 32 2)) (rep 32 3) (rep 32 4));
  sas2 ← unwrap (derive_sas (mkPsk (rep 32 2)) (rep 32 3) (rep 32 4));
  mret (all_hold [same (String.length sas) 6%nat; forallb ascii_digit_char (String.list_ascii_of_string sas); same sas sas2]).
Definition test_sas_formatting : Test := mret (same (format_sas "123456") "123-456"%string).

(** ** [crypto/encryption.rs] *)

Definition test_aes_gcm_encryption : Test :=
  key ← unwrapped (getrandom_fill 32);
  nonce ← unwrapped (getrandom_fill 12);
  let plaintext := text "Hello, World!" in
  ciphertext ← unwrap (encrypt_aes_gcm key nonce plaintext (text "additional data"));
  decrypted ← unwrap (decrypt_aes_gcm key nonce ciphertext (text "additional data"));
  mret (same plaintext decrypted).
Definition test_nonce_derivation : Test :=
  nonce1 ← unwrap (derive_nonce (rep 32 1) (text "context1"));
  nonce2 ← unwrap (derive_nonce (rep 32 1) (text "context2"));
  nonce1_again ← unwrap (derive_nonce (rep 32 1) (text "context1"));
  mret (all_hold [negb (same nonce1 nonce2); same nonce1 nonce1_again]).

Definition csk_round_trip (challenge context plaintext : bytes) : Test :=
  csk ← unwrapped csk_generate;
  ciphertext ← unwrap (encrypt_with_csk csk challenge context plaintext);
  decrypted ← unwrap (decrypt_with_csk csk challenge context ciphertext);
  mret (same plaintext decrypted).
Definition test_csk_encryption : Test := csk_round_trip (rep 32 2) (text "test_context") (text "Secret message").
Definition test_empty_plaintext_encryption : Test := csk_round_trip (rep 32 6) (text "test") [].
Definition test_large_plaintext_encryption : Test := csk_round_trip (rep 32 7) (text "test") (rep 10000 42).

Definition test_wrong_key_decryption_fails : Test :=
  csk1 ← unwrapped csk_generate;
  csk2 ← unwrapped csk_generate;
  ciphertext ← unwrap (encrypt_with_csk csk1 (rep 32 3) (text "test") (text "data"));
  mret (refused (decrypt_with_csk csk2 (rep 32 3) (text "test") ciphertext)).
Definition test_wrong_context_decryption_fails : Test :=
  csk ← unwrapped csk_generate;
  ciphertext ← unwrap (encrypt_with_csk csk (rep 32 4) (text "context1") (text "data"));
  mret (refused (decrypt_with_csk csk (rep 32 4) (text "context2") ciphertext)).
Definition test_tampered_ciphertext_fails : Test :=
  csk ← unwrapped csk_generate;
  ciphertext ← unwrap (encrypt_with_csk csk (rep 32 5) (text "test") (text "data"));
  mret (refused (decrypt_with_csk csk (rep 32 5) (text "test") (flip_byte 0 ciphertext))).

Definition test_psk_random_nonce_uniqueness_and_roundtrip : Test :=
  bytes ← unwrapped (getrandom_fill 32);
  let psk := mkPsk bytes in
  let plaintext := text "hello psk" in
  c1 ← unwrapped (encrypt_with_psk psk plaintext);
  c2 ← unwrapped (encrypt_with_psk psk plaintext);
  p1 ← unwrap (decrypt_with_psk psk c1);
  p2 ← unwrap (decrypt_with_psk psk c2);
  mret (all_hold [negb (same c1 c2); same p1 plaintext; same p2 plaintext]).
Definition test_csk_random_nonce_roundtrip : Test :=
  csk ← unwrapped csk_generate;
  let plaintext := text "hello csk random nonce" in
  ciphertext ← unwrapped (encrypt_with_csk_and_random_nonce csk plaintext);
  decrypted ← unwrap (decrypt_with_csk_and_prepended_nonce csk ciphertext);
  mret (same plaintext decrypted).
Definition test_csk_random_nonce_uniqueness : Test :=
  csk ← unwrapped csk_generate;
  let plaintext := text "same plaintext, different nonces" in
  c1 ← unwrapped (encrypt_with_csk_and_random_nonce csk plaintext);
  c2 ← unwrapped (encrypt_with_csk_and_random_nonce csk plaintext);
  p1 ← unwrap (decrypt_with_csk_and_prepended_nonce csk c1);
  p2 ← unwrap (decrypt_with_csk_and_prepended_nonce csk c2);
  mret (all_hold [negb (same c1 c2); same p1 plaintext; same p2 plaintext]).
Definition test_csk_random_nonce_small_ciphertext_rejected : Test :=
  csk ← unwrapped csk_generate;
  mret (refused (decrypt_with_csk_and_prepended_nonce csk [x01; x02; x03])).
Definition test_decrypt_prepended_nonce_tampered : Test :=
  csk ← unwrapped csk_generate;
  ciphertext ← unwrapped (encrypt_with_csk_and_random_nonce csk (text "tamper test"));
  mret (refused (decrypt_with_csk_and_prepended_nonce csk (flip_byte 13 ciphertext))).

(** ** [crypto/temporal.rs] *)

Definition test_time_window_calculation : Test :=
  window ← unwrapped current_time_window;
  mret (26000000 <? window).
Definition test_temporal_identifier_generation : Test :=
  csk ← unwrapped csk_generate;
  window ← unwrapped current_time_window;
  id1 ← unwrap (generate_temporal_identifier csk window);
  id2 ← unwrap (generate_temporal_identifier csk window);
  id3 ← unwrap (generate_temporal_identifier csk (window + 1));
  mret (all_hold [same id1 id2; negb (same id1 id3)]).
Definition test_temporal_identifier_verification : Test :=
  csk ← unwrapped csk_generate;
  current_id ← unwrapped (generate_current_temporal_identifier csk);
  current ← unwrapped (verify_temporal_identifier csk current_id);
  random ← unwrapped (verify_temporal_identifier csk (rep 16 0));
  mret (all_hold [current; negb random]).
Definition test_previous_identifier_verification : Test :=
  csk ← unwrapped csk_generate;
  window ← unwrapped current_time_window;
  previous_id ← unwrapped (generate_previous_temporal_identifier csk);
  previous ← unwrapped (verify_temporal_identifier csk previous_id);
  mret (all_hold [0 <? window; previous]).
Definition test_different_csk_produces_different_identifier : Test :=
  csk1 ← unwrapped csk_generate;
  csk2 ← unwrapped csk_generate;
  window ← unwrapped current_time_window;
  id1 ← unwrap (generate_temporal_identifier csk1 window);
  id2 ← unwrap (generate_temporal_identifier csk2 window);
  mret (negb (same id1 id2)).
Definition test_temporal_identifier_length : Test :=
  csk ← unwrapped csk_generate;
  id ← unwrapped (generate_current_temporal_identifier csk);
  mret (same (length id) 16%nat).
Definition test_verify_wrong_key_fails : Test :=
  csk1 ← unwrapped csk_generate;
  csk2 ← unwrapped csk_generate;
  id ← unwrapped (generate_current_temporal_identifier csk1);
  verified ← unwrapped (verify_temporal_identifier csk2 id);
  mret (negb verified).
Definition test_old_identifier_does_not_verify : Test :=
  csk ← unwrapped csk_generate;
  current_window ← unwrapped current_time_window;
  if decide (1 < current_window) then
    old_id ← unwrap (generate_temporal_identifier csk (current_window - 2));
    verified ← unwrapped (verify_temporal_identifier csk old_id);
    mret (negb verified)
  else mret true.

(** ** [protocol/messages.rs] *)

(** The message, signed by one key pair and verified with its key and another's. *)
Definition signed_for (wrapper : WrapperMessage) (more : Ed25519KeyPair → WrapperMessage → bytes → list bool)
    (verify : WrapperMessage → bytes → result ProtocolError ()) (keypair : Ed25519KeyPair) : Test :=
  wrapper ← unwrap (sign_wrapper_message wrapper keypair);
  other_keypair ← unwrapped ed25519_generate;
  mret (all_hold
    (is_ok (verify wrapper (verifying_key_bytes keypair)) ::
     refused (verify wrapper (verifying_key_bytes other_keypair)) ::
     more keypair wrapper (verifying_key_bytes keypair))).

Definition test_wrapper_signature_creation_and_verification : Test :=
  keypair ← unwrapped ed25519_generate;
  request ← unwrapped (create_auth_request "user" "host");
  signed_for (wrap_auth_request request) (λ _ _ _, []) verify_wrapper_signature keypair.
Definition test_auth_request_creation_and_verification : Test :=
  keypair ← unwrapped ed25519_generate;
  request ← unwrapped (create_auth_request_with_challenge "testuser" "testhost" (rep 32 1));
  signed_for (wrap_auth_request request) (λ _ w _, [same (length (wm_signature w)) 64%nat]) verify_wrapper_signature keypair.
Definition test_tampered_signature_detection : Test :=
  keypair ← unwrapped ed25519_generate;
  request ← unwrapped (create_auth_request_with_challenge "user" "host" (rep 32 2));
  wrapper ← unwrap (sign_wrapper_message (wrap_auth_request request) keypair);
  let tampered := mkWrapperMessage (wm_version wrapper) (wm_signature_algorithm wrapper)
                    (tamper (λ c, (c + 1) mod 256) 0 (wm_signature wrapper)) (wm_payload wrapper) in
  mret (refused (verify_wrapper_signature tampered (verifying_key_bytes keypair))).
Definition test_auth_grant_creation_and_verification : Test :=
  keypair ← unwrapped ed25519_generate;
  grant ← unwrap (create_auth_grant keypair (rep 32 3));
  signed_for (wrap_auth_grant grant) (λ _ _ _, [negb (same (ag_signed_challenge grant) [])])
    (λ w, verify_auth_grant w (rep 32 3)) keypair.
Definition test_auth_denial_creation_and_verification : Test :=
  keypair ← unwrapped ed25519_generate;
  denial ← unwrap (create_auth_denial (rep 32 5));
  signed_for (wrap_auth_denial denial) (λ _ _ _, [same (length (ad_challenge denial)) 32%nat]) verify_wrapper_signature keypair.
Definition test_grant_confirmation_creation_and_verification : Test :=
  keypair ← unwrapped ed25519_generate;
  confirmation ← unwrap (create_grant_confirmation (rep 32 7));
  signed_for (wrap_grant_confirmation confirmation) (λ _ _ _, [same (length (gc_challenge confirmation)) 32%nat])
    verify_wrapper_signature keypair.
Definition test_auth_cancel_creation_and_verification : Test :=
  keypair ← unwrapped ed25519_generate;
  cancel ← unwrap (create_auth_cancel (rep 32 9));
  signed_for (wrap_auth_cancel cancel) (λ _ _ _, [same (length (ac_challenge cancel)) 32%nat]) verify_wrapper_signature keypair.
Definition test_invalid_challenge_length : Test :=
  request ← attempt (create_auth_request_with_challenge "user" "host" (rep 16 1));
  mret (all_hold
    [refused request; refused (create_auth_denial (rep 16 1)); refused (create_grant_confirmation (rep 16 1));
     refused (create_auth_cancel (rep 16 1))]).

Definition dated (timestamp : Z) (r : AuthenticationRequest) : AuthenticationRequest :=
  mkAuthenticationRequest (ar_challenge r) (ar_username r) (ar_hostname r) timestamp.
Definition test_timestamp_validation : Test :=
  request ← unwrapped (create_auth_request_with_challenge "user" "host" (rep 32 1));
  gets (λ w, all_hold [is_request_timestamp_valid request w; negb (is_request_timestamp_valid (dated 1000 request) w)]).
Definition test_timestamp_validation_at_boundary : Test :=
  request ← unwrapped (create_auth_request_with_challenge "user" "host" (rep 32 1));
  now ← unwrapped unix_now;
  gets (λ w, all_hold
    [is_request_timestamp_valid (dated (now + 60) request) w; negb (is_request_timestamp_valid (dated (now + 61) request) w);
     is_request_timestamp_valid (dated (now - 60) request) w; negb (is_request_timestamp_valid (dated (now - 61) request) w)]).

(** ** [protocol/packet.rs] *)

Definition test_packet_encryption_decryption : Test :=
  csk ← unwrapped csk_generate;
  keypair ← unwrapped ed25519_generate;
  request ← unwrapped (create_auth_request "user" "host");
  wrapper ← unwrap (sign_wrapper_message (wrap_auth_request request) keypair);
  packet ← unwrapped (create_encrypted_packet csk (rep 32 1) (text "test_context") wrapper);
  decrypted_wrapper ← unwrap (decrypt_encrypted_packet csk (rep 32 1) (text "test_context") packet);
  mret (match wm_payload decrypted_wrapper with Some (PAuthRequest _) => true | _ => false end).
Definition test_extract_challenge : Test :=
  request ← unwrapped (create_auth_request "user" "host");
  mret (same (extract_challenge (wrap_auth_request request)) (Some (ar_challenge request))).
Definition test_extract_challenge_from_auth_grant : Test :=
  keypair ← unwrapped ed25519_generate;
  grant ← unwrap (create_auth_grant keypair (rep 32 5));
  mret (same (extract_challenge (wrap_auth_grant grant)) None).
Definition test_extract_challenge_empty_wrapper : Test :=
  mret (same (extract_challenge (mkWrapperMessage 1 SIGNATURE_ED25519 [] None)) None).

(** ** [protocol/pairing.rs] *)

Definition test_client_session_public_keys : Test :=
  keypair ← unwrapped ed25519_generate;
  session ← unwrapped (client_new (ed25519_clone keypair));
  mret (all_hold [same (length (x25519_public_key session)) 32%nat; same (ed25519_public_key session) (verifying_key_bytes keypair)]).
Definition test_server_session_creation : Test :=
  session ← unwrapped (server_new (rep 32 42));
  mret (same (sv_ed25519_public_key session) (rep 32 42)).
(** Two programs talking over a connection: each runs on what the other has written so far;
    a program that lacks input stops, and is run again on more. *)
Fixpoint talk {A B} (rounds : nat) (client : bytes → bytes * A) (server : bytes → bytes * B) (to_client : bytes) : A * B :=
  let '(to_server, a) := client to_client in
  let '(to_client', b) := server to_server in
  match rounds with O => (a, b) | S n => talk n client server to_client' end.

Definition pairing_client (name user : string) (w : World) (input : bytes)
    : bytes * option (ClientSymmetricKey * bytes * string * string) :=
  match (keypair ← unwrapped ed25519_generate; csk ← unwrapped csk_generate; session ← unwrapped (client_new keypair); mret (csk, session)) w with
  | (w1, Ok (csk, session)) =>
      let '(p1, r) := initiate_pairing name (mkPeer w1 (mkStream input [] []) session) in
      match r with
      | Ok (server_pub, server_name, sas) =>
          let '(p2, r2) := finish_pairing csk user p1 in
          (s_out (p_stream p2), if is_ok r2 then Some (csk, server_pub, server_name, sas) else None)
      | Err _ => (s_out (p_stream p1), None)
      end
  | (_, Err _) => ([], None)
  end.
Definition pairing_server (name : string) (w : World) (input : bytes)
    : bytes * option (ClientSymmetricKey * bytes * string * string) :=
  match (keypair ← unwrapped ed25519_generate; unwrapped (server_new (verifying_key_bytes keypair))) w with
  | (w1, Ok session) =>
      let '(p, r) := complete_pairing name (mkPeer w1 (mkStream input [] []) session) in (s_out (p_stream p), ok r)
  | (_, Err _) => ([], None)
  end.
(** Four messages, so four rounds. *)
Definition handshake (server_name client_name : string) (w : World) :=
  talk 4 (pairing_client client_name "testuser" w) (pairing_server server_name (set_entropy (drop 256 (w_entropy w)) w)) [].

Definition test_pairing_handshake : Test :=
  gets (λ w, match handshake "TestServer" "TestClient" w with
             | (Some (client_csk, _, _, client_sas), Some (server_csk, _, _, server_sas)) =>
                 all_hold [same server_sas client_sas; same (csk_bytes server_csk) (csk_bytes client_csk)]
             | _ => false
             end).
Definition test_pairing_device_names : Test :=
  gets (λ w, match handshake "MyAndroidPhone" "LinuxDesktop" w with
             | (Some (_, _, server_device_name, _), Some (_, _, client_device_name, _)) =>
                 all_hold [same client_device_name "LinuxDesktop"%string; same server_device_name "MyAndroidPhone"%string]
             | _ => false
             end).
Definition test_pairing_with_empty_device_names : Test :=
  gets (λ w, match handshake "" "" w with (Some _, Some _) => true | _ => false end).
End tests.

(** ** [models.rs]: the pairing URL *)

Definition begins_with (p l : list ascii) : bool := same (take (length p) l) p.
Fixpoint contains (p l : list ascii) : bool :=
  begins_with p l || match l with [] => false | _ :: l' => contains p l' end.
Definition ip (a b c d : N) : N := (((a * 256 + b) * 256 + c) * 256 + d)%N.
Definition parsed (url : string) (f : PairingInfo → list bool) : bool :=
  match parse_pairing_url (chars url) with Ok info => all_hold (f info) | Err _ => false end.
Definition unparsable (url : string) : bool := refused (parse_pairing_url (chars url)).

Definition test_pairing_url_generation : bool :=
  let url := generate_pairing_url (chars "aabbccdd") 12345 (Some (ip 192 168 1 100)) (Some (65152 * 2 ^ 112 + 1)%N) in
  all_hold [begins_with (chars "tapauth://pair?") url; contains (chars "pk=aabbccdd") url; contains (chars "p=12345") url;
            contains (chars "ip4=192.168.1.100") url].
Definition test_pairing_url_parsing : bool :=
  parsed "tapauth://pair?v=1&pk=aabbccdd&p=12345&ip4=192.168.1.100" (λ info,
    [same (pi_version info) 1%N; same (pi_public_key_hex info) (chars "aabbccdd"); same (pi_port info) 12345%N;
     negb (same (pi_ipv4 info) None)]).
Definition test_pairing_url_missing_required_fields : bool :=
  all_hold (unparsable <$> ["tapauth://pair?v=1&p=12345"; "tapauth://pair?v=1&pk=aabbccdd"; "tapauth://pair?pk=aabbccdd&p=12345"]%string).
Definition test_pairing_url_with_ipv6 : bool :=
  let url := generate_pairing_url (chars "test123") 8080 None (Some ((8193 * 65536 + 3512) * 2 ^ 96 + 1)%N) in
  all_hold [contains (chars "pk=test123") url; contains (chars "p=8080") url; contains (chars "ip6=") url].
Definition test_pairing_url_round_trip : bool :=
  match parse_pairing_url (generate_pairing_url (chars "fedcba9876543210") 9999 (Some (ip 10 0 0 1)) None) with
  | Ok info => all_hold [same (pi_public_key_hex info) (chars "fedcba9876543210"); same (pi_port info) 9999%N;
                         same (pi_ipv4 info) (Some (ip 10 0 0 1))]
  | Err _ => false
  end.
Definition test_pairing_url_invalid_scheme : bool := unparsable "http://pair?v=1&pk=aabbccdd&p=12345".
Definition test_pairing_url_duplicate_parameters : bool :=
  parsed "tapauth://pair?v=1&pk=first_key&p=12345&pk=second_key" (λ info, [same (pi_public_key_hex info) (chars "second_key")]).
Definition test_pairing_url_unknown_parameters_ignored : bool :=
  parsed "tapauth://pair?v=1&pk=abc&p=12345&extra=ignored&random=stuff" (λ info,
    [same (pi_public_key_hex info) (chars "abc"); same (pi_port info) 12345%N]).
Definition test_pairing_url_malformed_ipv4 : bool := unparsable "tapauth://pair?v=1&pk=abc&p=12345&ip4=not_an_ip".
Definition test_pairing_url_malformed_ipv6 : bool := unparsable "tapauth://pair?v=1&pk=abc&p=12345&ip6=not_an_ip".

(** ** [network/discovery.rs], [network/udp.rs] *)

Definition retries (l : list (Z * Z)) : bool := all_hold ((λ '(attempt, ms), same (get_client_retry_interval attempt) ms) <$> l).
Definition test_retry_intervals : bool := retries [(0, 200); (1, 400); (2, 800)].
Definition test_server_retry : bool := same get_server_retry_interval 500.
Definition test_session_timeout : bool := same get_session_timeout (120 * 1000).
Definition test_retry_interval_max_backoff : bool := retries [(5, 6400); (6, 6400); (10, 6400); (100, 6400)].
Definition test_retry_interval_exponential_growth : bool := retries [(0, 200); (1, 400); (2, 800); (3, 1600); (4, 3200)].

Definition octet (a : Z) (k : Z) : Z := Z.land (Z.shiftr a (8 * k)) 255.
Definition test_multicast_group_constants : bool :=
  let second_byte := octet IPV6_MULTICAST_ADDR 14 in
  let low32 := IPV6_MULTICAST_ADDR mod 2 ^ 32 in
  all_hold
    [Z.shiftr (octet IPV4_MULTICAST_ADDR 3) 4 =? 14; octet IPV4_MULTICAST_ADDR 3 =? 239; octet IPV4_MULTICAST_ADDR 2 =? 255;
     octet IPV6_MULTICAST_ADDR 15 =? 255; Z.shiftr second_byte 4 =? 1; Z.land second_byte 15 =? 2;
     (4244635648 <=? low32) && (low32 <=? 4261412863)].
Definition test_select_ipv4_prefers_routable_over_apipa : bool :=
  let apipa := Z.of_N (ip 169 254 1 2) in
  let routable_a := Z.of_N (ip 192 168 1 10) in
  let routable_b := Z.of_N (ip 10 0 0 5) in
  all_hold ((λ '(addrs, chosen), same (select_ipv4 addrs) chosen) <$>
    [([apipa; routable_a], Some routable_a); ([routable_a; apipa], Some routable_a); ([routable_a; routable_b], Some routable_b);
     ([routable_b; routable_a], Some routable_b); ([apipa], Some apipa); ([], None)]).

(** ** [config.rs], [config/toml_config.rs] *)

Definition test_paired_server_user_authorization : bool :=
  let server := mkPairedServer "TestServer" "abc123" ["alice"; "bob"]%string 0 in
  all_hold [is_user_allowed server "alice"; is_user_allowed server "bob"; negb (is_user_allowed server "charlie");
            negb (is_user_allowed server "")].
Definition test_paired_server_empty_allowed_users : bool :=
  let server := mkPairedServer "TestServer" "abc123" [] 0 in
  all_hold ((λ u, negb (is_user_allowed server u)) <$> ["alice"; "root"; ""]%string).
Definition client_test_default_config : Test :=
  config ← default_client_config;
  mret (negb (same (hostname config) ""%string)).
Definition toml_test_default_config : bool :=
  let config := default_tapauth_config in
  all_hold [same (pam_operation_timeout_secs config) 120; same (pam_gui_timeout_secs config) 30; same (udp_port config) 36692;
            enable_network config; enable_ble config; negb (use_tpm config);
            match tpm_pcr_policy config with Standard => true | _ => false end; same (operation_timeout config) 120].

(** ** The run *)

Definition world_tests `{CryptoOps} : list Test :=
  [test_ed25519_key_generation; test_x25519_key_exchange; test_csk_generation; test_signing_and_verification;
   test_psk_derivation; test_sas_derivation; test_sas_formatting; test_aes_gcm_encryption; test_nonce_derivation;
   test_csk_encryption; test_empty_plaintext_encryption; test_large_plaintext_encryption;
   test_wrong_key_decryption_fails; test_wrong_context_decryption_fails; test_tampered_ciphertext_fails;
   test_psk_random_nonce_uniqueness_and_roundtrip; test_csk_random_nonce_roundtrip; test_csk_random_nonce_uniqueness;
   test_csk_random_nonce_small_ciphertext_rejected; test_decrypt_prepended_nonce_tampered;
   test_time_window_calculation; test_temporal_identifier_generation; test_temporal_identifier_verification;
   test_previous_identifier_verification; test_different_csk_produces_different_identifier;
   test_temporal_identifier_length; test_verify_wrong_key_fails; test_old_identifier_does_not_verify;
   test_wrapper_signature_creation_and_verification; test_auth_request_creation_and_verification;
   test_tampered_signature_detection; test_auth_grant_creation_and_verification;
   test_auth_denial_creation_and_verification; test_grant_confirmation_creation_and_verification;
   test_auth_cancel_creation_and_verification; test_invalid_challenge_length; test_timestamp_validation;
   test_timestamp_validation_at_boundary; test_packet_encryption_decryption; test_extract_challenge;
   test_extract_challenge_from_auth_grant; test_extract_challenge_empty_wrapper; test_client_session_public_keys;
   test_server_session_creation; test_pairing_handshake; test_pairing_device_names;
   test_pairing_with_empty_device_names; client_test_default_config].
Definition pure_tests : list bool :=
  [test_pairing_url_generation; test_pairing_url_parsing; test_pairing_url_missing_required_fields;
   test_pairing_url_with_ipv6; test_pairing_url_round_trip; test_pairing_url_invalid_scheme;
   test_pairing_url_duplicate_parameters; test_pairing_url_unknown_parameters_ignored;
   test_pairing_url_malformed_ipv4; test_pairing_url_malformed_ipv6; test_retry_intervals; test_server_retry;
   test_session_timeout; test_retry_interval_max_backoff; test_retry_interval_exponential_growth;
   test_multicast_group_constants; test_select_ipv4_prefers_routable_over_apipa;
   test_paired_server_user_authorization; test_paired_server_empty_allowed_users; toml_test_default_config].

(** The model passes the unit tests of [shared], with the tests' own inputs and expected values: keys, sealing with derived and random nonces, temporal identifiers, key derivation, messages and their signatures, packets, a whole pairing over a connection, pairing URLs, retry intervals, address selection and the configuration records. *)
Theorem shared_tests_pass : forallb passes (world_tests (H := mix_crypto)) = true ∧ all_hold pure_tests = true.
Proof. split; vm_compute; reflexivity. Qed.
