(* ===== verification/WireTests.v ===== *)
(** * The tests of the serialisers

    prost, serde_json and toml are parameters of the models, with their round-trip laws as
    hypotheses.  The repository tests the same: here its tests of the serialisers are
    definitions over any such library, and [wire_tests_pass] says that the laws are enough
    for all of them.  Tests that parse a literal text are left out. *)

From stdpp Require Import base gmap strings list.
From S2P Require Import Prelude Os Text Crypto Concrete Protocol Config SharedTests.

Section tests.
Context `{KE : !Codec EncryptedPacket} `{KW : !Codec WrapperMessage} `{T : Toml}.
Context `{JC : !Json ClientConfig} `{JP : !Json PairedClient}.

(** ** [protocol/packet.rs] *)

Definition reread {A} `{Codec A} (m : A) (f : A → list bool) : bool :=
  match decode (encode_to_vec m) with Some decoded => all_hold (f decoded) | None => false end.
Definition packet_of (temporal_id ciphertext : bytes) : EncryptedPacket := mkEncryptedPacket temporal_id SYMMETRIC_AES_256_GCM ciphertext.
Definition counting : bytes := byte_of_Z <$> [1; 2; 3; 4; 5; 6; 7; 8; 9; 10; 11; 12; 13; 14; 15; 16].

Definition test_encrypted_packet_temporal_identifier_correct_length : bool :=
  reread (packet_of counting (byte_of_Z <$> [170; 187; 204; 221])) (λ decoded,
    [same (ep_temporal_identifier decoded) counting; same (length (ep_temporal_identifier decoded)) 16%nat]).
Definition test_encrypted_packet_short_temporal_identifier_is_preserved : bool :=
  reread (packet_of (take 5 counting) (byte_of_Z <$> [170; 187])) (λ decoded, [same (length (ep_temporal_identifier decoded)) 5%nat]).
Definition test_encrypted_packet_field_order_independent : bool :=
  let ciphertext := byte_of_Z <$> [222; 173; 190; 239] in
  reread (packet_of (rep 16 255) ciphertext) (λ decoded,
    [same (ep_temporal_identifier decoded) (rep 16 255); same (ep_encryption_algorithm decoded) SYMMETRIC_AES_256_GCM;
     same (ep_ciphertext decoded) ciphertext]).
Definition test_encrypted_packet_with_various_ciphertext_lengths : bool :=
  all_hold ((λ ciphertext_len, reread (packet_of (rep 16 66) (rep (Z.to_nat ciphertext_len) 171)) (λ decoded,
    [same (ep_temporal_identifier decoded) (rep 16 66)])) <$> [0; 1; 100; 1000; 10000]).
Definition test_encrypted_packet_all_byte_values : bool :=
  all_hold ((λ byte_val, reread (packet_of (rep 16 byte_val) (rep 1 0)) (λ decoded,
    [same (ep_temporal_identifier decoded) (rep 16 byte_val)])) <$> [0; 1; 127; 128; 255]).

Definition is_request (p : option Payload) : bool := match p with Some (PAuthRequest _) => true | _ => false end.
Definition is_confirmation (p : option Payload) : bool := match p with Some (PGrantConfirmation _) => true | _ => false end.
Definition is_cancel (p : option Payload) : bool := match p with Some (PAuthCancel _) => true | _ => false end.

Definition test_wrapper_message_auth_request_type : bool :=
  reread (mkWrapperMessage 1 SIGNATURE_ED25519 (rep 64 187)
    (Some (PAuthRequest (mkAuthenticationRequest (rep 32 170) "testuser" "testhost" 1234567890))))
    (λ parsed, [is_request (wm_payload parsed)]).
Definition test_wrapper_message_grant_confirmation_type : bool :=
  reread (mkWrapperMessage 1 SIGNATURE_ED25519 (rep 64 187) (Some (PGrantConfirmation (mkGrantConfirmation (rep 32 204)))))
    (λ parsed, [is_confirmation (wm_payload parsed)]).
Definition test_wrapper_message_auth_cancel_type : bool :=
  reread (mkWrapperMessage 1 SIGNATURE_ED25519 (rep 64 204) (Some (PAuthCancel (mkAuthenticationCancel (rep 32 221)))))
    (λ parsed, [is_cancel (wm_payload parsed)]).
Definition test_wrapper_message_with_version : bool :=
  reread (mkWrapperMessage 42 SIGNATURE_ED25519 (rep 64 255)
    (Some (PAuthRequest (mkAuthenticationRequest (rep 32 238) "user" "host" 1234567890))))
    (λ parsed, [same (wm_version parsed) 42; is_request (wm_payload parsed)]).
Definition test_wrapper_message_unknown_type : bool :=
  reread (mkWrapperMessage 1 SIGNATURE_ED25519 [] None) (λ parsed, [match wm_payload parsed with None => true | Some _ => false end]).

(** ** [config.rs], [config/toml_config.rs] *)

Definition json_reread {A} `{Json A} (a : A) (f : A → list bool) : bool :=
  match to_json a ≫= from_json with Some deserialized => all_hold (f deserialized) | None => false end.
Definition test_config_serialization : bool :=
  json_reread (mkClientConfig "test-host") (λ deserialized, [same (hostname deserialized) "test-host"%string]).
Definition test_paired_client_serialization : bool :=
  json_reread (mkPairedClient "client-laptop" "def456" "encrypted_key_data" ["user1"%string] 0) (λ deserialized,
    [same (pcl_hostname deserialized) "client-laptop"%string; same (pcl_public_key deserialized) "def456"%string;
     same (pcl_csk deserialized) "encrypted_key_data"%string; same (pcl_allowed_users deserialized) ["user1"%string]]).
Definition same_policy (a b : TpmPcrPolicy) : bool := match a, b with Standard, Standard | Paranoid, Paranoid => true | _, _ => false end.
Definition test_roundtrip : bool :=
  let config := mkTapAuthConfig 10 20 54321 false true true Paranoid in
  match to_toml config ≫= from_toml with
  | Some parsed =>
      all_hold [same (pam_operation_timeout_secs parsed) (pam_operation_timeout_secs config);
                same (pam_gui_timeout_secs parsed) (pam_gui_timeout_secs config); same (udp_port parsed) (udp_port config);
                same (enable_network parsed) (enable_network config); same (enable_ble parsed) (enable_ble config);
                same (use_tpm parsed) (use_tpm config); same_policy (tpm_pcr_policy parsed) (tpm_pcr_policy config)]
  | None => false
  end.

Definition wire_tests : list bool :=
  [test_encrypted_packet_temporal_identifier_correct_length; test_encrypted_packet_short_temporal_identifier_is_preserved;
   test_encrypted_packet_field_order_independent; test_encrypted_packet_with_various_ciphertext_lengths;
   test_encrypted_packet_all_byte_values; test_wrapper_message_auth_request_type;
   test_wrapper_message_grant_confirmation_type; test_wrapper_message_auth_cancel_type; test_wrapper_message_with_version;
   test_wrapper_message_unknown_type; test_config_serialization; test_paired_client_serialization; test_roundtrip].

Context `{!CodecLaws EncryptedPacket KE packet_wire} `{!CodecLaws WrapperMessage KW wrapper_wire} `{!TomlLaws T}.
Context `{!JsonLaws ClientConfig JC} `{!JsonLaws PairedClient JP}.

Lemma reread_lawful {A} (K : Codec A) (W : WireValue A) `{!CodecLaws A K W} (m : A) f :
  wire_ok m → all_hold (f m) = true → reread m f = true.
Proof. intros Hw Hf. unfold reread. by rewrite decode_encode. Qed.
Lemma json_reread_lawful {A} (J : Json A) `{!JsonLaws A J} (a : A) f : all_hold (f a) = true → json_reread a f = true.
Proof. intros Hf. unfold json_reread. destruct (json_roundtrip a) as (b & -> & Hb). cbn. by rewrite Hb. Qed.

(** Every lawful serialiser passes the repository's tests of the serialisers. *)
Theorem wire_tests_pass : Forall (λ passed, passed = true) wire_tests.
Proof.
  assert (Hp : ∀ t c f, all_hold (f (packet_of t c)) = true → reread (packet_of t c) f = true).
  { intros t c f. apply (reread_lawful KE packet_wire). by vm_compute. }
  assert (Hall : ∀ t (l : list Z) g, Forall (λ z, reread (packet_of (t z) (g z)) (λ decoded, [same (ep_temporal_identifier decoded) (t z)]) = true) l).
  { intros t l g. apply Forall_forall. intros z _. apply Hp. cbn. unfold same. by rewrite bool_decide_eq_true_2. }
  assert (Hmap : ∀ (l : list Z) h, Forall (λ z, h z = true) l → all_hold (h <$> l) = true).
  { intros l h. unfold all_hold. induction 1 as [|z l Hz _ IH]; [done|]. cbn. by rewrite Hz. }
  repeat apply Forall_cons_2; [by apply Hp..|apply Hmap, (Hall (λ _, rep 16 66))|apply Hmap, (Hall (rep 16))| | | | | | | | |done].
  all: try by apply (reread_lawful KW wrapper_wire); vm_compute.
  1,2: by apply json_reread_lawful.
  unfold test_roundtrip. destruct (toml_roundtrip (mkTapAuthConfig 10 20 54321 false true true Paranoid)) as (b & -> & Hb);
    [by vm_compute|]. cbn. by rewrite Hb.
Qed.
End tests.
