(* ===== verification/PamTests.v ===== *)
(** * The PAM module's unit tests, run on its model

    Each test of [client-pam/src] that calls the code of the module is a definition
    with the same inputs; its value says whether all its assertions hold of the model.
    [pam_tests_pass] is the test run.  What a test prepares with sockets and pipes (a mock
    reader, a byte in the pipe) is what [poll] reports and the client reads. *)

From stdpp Require Import base gmap strings list.
From Stdlib Require Import Strings.Byte.
From S2P Require Import Prelude Os Text Crypto Concrete Protocol ConcreteCodec Config ConfigFacts ConcreteConfig.
From S2P Require Import Auth ConcreteAuth Ipc ConcreteIpc Daemon IpcClient IpcClientTheorems Pam PamTheorems.

Definition all_true (l : list bool) : bool := forallb id l.
Definition eqb {A} `{EqDecision A} (a b : A) : bool := bool_decide (a = b).

#[local] Instance mode_eq : EqDecision ConversationMode.
Proof. solve_decision. Defined.
#[local] Instance outcome_eq : EqDecision PamOutcome.
Proof. solve_decision. Defined.
#[local] Instance text_eq : EqDecision PamText.
Proof. solve_decision. Defined.

(** ** Outcomes *)

Definition silent : PamState := toy_pam_state [].
Definition mapped (outcome : Z) (detail : string) : option Z :=
  ok (map_pam_outcome (mkPamAuthenticateResponse outcome detail []) silent).2.

Definition test_map_pam_outcome_matrix : bool :=
  all_true
    [eqb (mapped OUTCOME_SUCCESS "Success") (Some PAM_SUCCESS);
     eqb (mapped OUTCOME_DENIED "Denied") (Some PAM_PERM_DENIED);
     eqb (mapped OUTCOME_TIMEOUT "detail") (Some PAM_AUTHINFO_UNAVAIL);
     eqb (mapped OUTCOME_IGNORE "detail") (Some PAM_AUTHINFO_UNAVAIL);
     eqb (mapped OUTCOME_ERROR "boom") (Some PAM_AUTH_ERR)].

Definition test_unknown_outcome_raw_values_fail_closed : bool :=
  all_true ((λ raw, eqb (outcome_from_raw raw) OError) <$> [-1; 5; 99; 255; 2 ^ 31 - 1; - 2 ^ 31]) &&
  all_true ((λ '(raw, expected), eqb (outcome_from_raw raw) expected) <$>
    [(0, OSuccess); (1, ODenied); (2, OTimeout); (3, OIgnore); (4, OError)]).

Definition test_no_pam_outcome_maps_to_pam_ignore : bool :=
  all_true ((λ outcome, match mapped outcome "detail" with
                        | Some code => bool_decide (code ∈ [PAM_SUCCESS; PAM_PERM_DENIED; PAM_AUTHINFO_UNAVAIL; PAM_AUTH_ERR])
                        | None => false
                        end) <$> [OUTCOME_SUCCESS; OUTCOME_DENIED; OUTCOME_TIMEOUT; OUTCOME_IGNORE; OUTCOME_ERROR]).

(** ** The loops *)

(** The peer is there and silent, has answered, or is gone. *)
Definition quiet_reader : IpcClient := fresh_client [] None.
Definition answering_reader : IpcClient := fresh_client [Chunk approval] None.
Definition ipc_readable : poll_result := PollReady (Some (mkRevents true false false)) None.
Definition ipc_hung_up : poll_result := PollReady (Some (mkRevents true true false)) None.
Definition pipe_byte : poll_result := PollReady None (Some (mkRevents true false false)).

Definition gui_loop (deadline : Z) (ticks : list Tick) (reader : IpcClient)
    : option (ExitReason * option PamOutcome * option PamText) :=
  match (run_gui_event_loop deadline "req-123" ticks reader).2 with
  | Some (reason, resp, err) => Some (reason, response_outcome <$> resp, err)
  | None => None
  end.
Definition sequential_loop (deadline : Z) (ticks : list Tick) (reader : IpcClient) : option (ExitReason * option PamOutcome) :=
  match (run_sequential_event_loop deadline ticks reader).2 with
  | Some (reason, resp) => Some (reason, response_outcome <$> resp)
  | None => None
  end.

Definition test_gui_loop_immediate_timeout : bool :=
  eqb (gui_loop (-1000) [mkTick 0 PollNone false TtyEof] quiet_reader) (Some (Timeout, None, None)).
Definition test_gui_loop_password_entered_breakout : bool :=
  eqb (gui_loop 5000 [mkTick 0 pipe_byte true TtyEof] quiet_reader) (Some (PasswordEntered, None, None)).
Definition test_gui_loop_password_dialog_failed_breakout : bool :=
  eqb (gui_loop 5000 [mkTick 0 pipe_byte false TtyEof] quiet_reader) (Some (PasswordFailed, None, None)).
Definition test_gui_loop_successful_phone_tap : bool :=
  eqb (gui_loop 5000 [mkTick 0 ipc_readable false TtyEof] answering_reader) (Some (IpcResponseReceived, Some OSuccess, None)).
Definition test_gui_loop_daemon_hangup : bool :=
  eqb (gui_loop 5000 [mkTick 0 ipc_hung_up false TtyEof] quiet_reader) (Some (IpcErrorExit, None, Some connection_lost)).
Definition test_sequential_loop_immediate_timeout : bool :=
  eqb (sequential_loop (-1000) [mkTick 0 PollNone false TtyEof] quiet_reader) (Some (Timeout, None)).
Definition test_sequential_loop_receives_response : bool :=
  eqb (sequential_loop 5000 [mkTick 0 ipc_readable false TtyEof] answering_reader) (Some (IpcResponseReceived, Some OSuccess)).
Definition test_sequential_loop_daemon_hangup : bool :=
  eqb (sequential_loop 5000 [mkTick 0 ipc_hung_up false TtyEof] quiet_reader) (Some (IpcErrorExit, None)).

(** ** Conversation modes *)

Definition conversation_mode_is_an_allowlist_with_a_sequential_default : bool :=
  all_true ((λ '(service, process, reauth, expected), eqb (conversation_mode service process reauth) expected) <$>
    [("polkit-1", Some "polkit-agent-helper-1", false, Threaded);
     ("polkit-1", Some "polkit-agent-he", false, Threaded);
     ("kde", Some "kscreenlocker_worker", false, Threaded);
     ("kde", Some "kscreenlocker_w", false, Threaded);
     ("kde", Some "kscreenlocker_greet", false, Sequential);
     ("kde", Some "kscreenlocker_g", false, Sequential);
     ("sudo", Some "sudo", false, Sequential);
     ("su", Some "su", false, Sequential);
     ("hyprlock", Some "hyprlock", false, Threaded);
     ("xsecurelock", Some "authproto_pam", false, Threaded);
     ("xfce4-screensaver", Some "xfce4-screensaver-dialog", false, Sequential);
     ("xfce4-screensaver", Some "xfce4-screensav", false, Sequential);
     ("mate-screensaver", Some "mate-screensaver-dialog", false, Sequential);
     ("mate-screensaver", Some "mate-screensave", false, Sequential);
     ("swaylock", Some "swaylock", false, PreCollected);
     ("gtklock", Some "gtklock", false, PreCollected);
     ("i3lock", Some "i3lock", false, PreCollected);
     ("gdm-password", Some "gdm-session-worker", true, Threaded);
     ("gdm-password", Some "gdm-session-wor", true, Threaded);
     ("gdm-password", Some "gdm-session-worker", false, Sequential);
     ("sudo", Some "gdm-session-worker", true, Sequential);
     ("GDM-Password", Some "gdm-session-worker", true, Threaded);
     ("whatever", Some "whatever", false, Sequential);
     ("polkit-1", None, false, Threaded);
     ("sudo", None, false, Sequential);
     ("", None, false, Sequential)]%string).

Definition display_manager_prefix_matching : bool :=
  all_true (is_dm_service <$>
    ["gdm"; "gdm3"; "gdm-password"; "GDM-Password"; "gdm-tapauth-host"; "sddm"; "sddm-helper"; "lightdm"; "greetd"; "plasmalogin"]%string) &&
  all_true ((negb ∘ is_dm_service) <$> ["gdmfoo"; "sddmfoo"; "sudo"; "su"; "polkit-1"; "tapauth-conv-sufficient"; ""]%string).

(** ** Verdict reuse *)

Definition SERVICE : string := "tapauth-test".
Definition test_now : Z := 100000.
Definition conclusion (ms_ago : Z) (user service : string) (code : Z) : LastConclusion :=
  mkLastConclusion (test_now - ms_ago) user service code.
Definition reused (prev : LastConclusion) (user service : string) : option Z := reusable_conclusion prev user service test_now.

Definition a_success_inside_the_window_is_reused : bool :=
  eqb (reused (conclusion 400 "alice" SERVICE PAM_SUCCESS) "alice" SERVICE) (Some PAM_SUCCESS).
Definition a_success_after_the_window_is_not_reused : bool :=
  eqb (reused (conclusion 600 "alice" SERVICE PAM_SUCCESS) "alice" SERVICE) None.
Definition an_unavailability_inside_the_window_is_reused : bool :=
  eqb (reused (conclusion 400 "alice" SERVICE PAM_AUTHINFO_UNAVAIL) "alice" SERVICE) (Some PAM_AUTHINFO_UNAVAIL).
Definition a_denial_inside_the_window_is_reused : bool :=
  eqb (reused (conclusion 400 "alice" SERVICE PAM_PERM_DENIED) "alice" SERVICE) (Some PAM_PERM_DENIED).
Definition an_unavailability_after_the_window_is_not_reused : bool :=
  eqb (reused (conclusion 600 "alice" SERVICE PAM_AUTHINFO_UNAVAIL) "alice" SERVICE) None.
Definition another_users_conclusion_is_never_reused : bool :=
  all_true ((λ code, eqb (reused (conclusion 1 "alice" SERVICE code) "bob" SERVICE) None) <$>
    [PAM_SUCCESS; PAM_AUTHINFO_UNAVAIL; PAM_PERM_DENIED]).
Definition another_services_conclusion_is_never_reused : bool :=
  all_true ((λ code, eqb (reused (conclusion 1 "alice" "kscreenlocker" code) "alice" "polkit-1") None) <$>
    [PAM_SUCCESS; PAM_AUTHINFO_UNAVAIL; PAM_PERM_DENIED]).

Definition recording_a_failure_replaces_the_cached_success : bool :=
  let first := record_conclusion "alice" SERVICE PAM_SUCCESS test_now (Some None) in
  let second := record_conclusion "alice" SERVICE PAM_AUTHINFO_UNAVAIL test_now first in
  eqb (cached_from first "alice" SERVICE test_now) (Some (PAM_SUCCESS, 0)) &&
  eqb (cached_from second "alice" SERVICE test_now) (Some (PAM_AUTHINFO_UNAVAIL, 0)).

(** The connection is refused, then made. *)
Definition a_failed_connect_records_nothing_and_the_retry_dials_again : bool :=
  let attempt := start_authentication "failed-connect-user" (Some "failed-connect-service"%string) (mret ()) in
  let '(s1, first) := attempt (toy_pam_state [None; Some ([], None)]) in
  let lock := record_verdict (ps_verdict s1) PAM_AUTHINFO_UNAVAIL test_now (ps_lock s1) in
  let '(s2, second) := attempt s1 in
  all_true
    [match first with Ok (Err SE_Connect) => true | _ => false end;
     match ps_verdict s1 with None => true | Some _ => false end;
     eqb (cached_from lock "failed-connect-user" "failed-connect-service" test_now) None;
     match second with Ok (Ok _) => true | _ => false end;
     match ps_verdict s2 with
     | Some v => eqb (vd_username v) "failed-connect-user"%string && eqb (vd_service v) (Some "failed-connect-service"%string) &&
                 negb (vd_from_cache v)
     | None => false
     end].

Definition a_from_cache_verdict_is_not_recorded : bool :=
  let lock := record_conclusion "from-cache-user" "from-cache-service" PAM_PERM_DENIED test_now (Some None) in
  let verdict := Some (mkVerdict "from-cache-user" (Some "from-cache-service"%string) true) in
  eqb (cached_from (record_verdict verdict PAM_SUCCESS test_now lock) "from-cache-user" "from-cache-service" test_now)
    (Some (PAM_PERM_DENIED, 0)).
Definition an_unresolved_service_is_not_recorded : bool :=
  let verdict := Some (mkVerdict "unresolved-service-user" None false) in
  eqb (cached_from (record_verdict verdict PAM_AUTHINFO_UNAVAIL test_now (Some None)) "unresolved-service-user" "" test_now) None.
Definition a_poisoned_lock_reads_as_a_cache_miss : bool := eqb (cached_from None "alice" SERVICE test_now) None.
Definition a_future_timestamp_does_not_panic : bool :=
  eqb (reused (conclusion (-50) "alice" SERVICE PAM_AUTHINFO_UNAVAIL) "alice" SERVICE) (Some PAM_AUTHINFO_UNAVAIL).

(** ** The client, the settings and the entry points *)

Definition oversized : IpcClient := fresh_client [Chunk (to_be_bytes 4 (1024 * 1024 + 1))] None.
Definition too_large {A} (r : result IpcError A) : bool := match r with Err (IE_FrameTooLarge n) => 1024 * 1024 <? n | _ => false end.
Definition frame_too_large_blocking : bool := too_large (recv_response oversized).2.
Definition frame_too_large_nonblocking : bool := too_large (try_read_response_nonblocking oversized).2.
Definition pam_test_default_config : bool :=
  eqb (pc_operation_timeout_secs default_pam_config) 120%N && eqb (pc_gui_timeout_secs default_pam_config) 30%N.
Definition guard_returns_auth_err_on_panic : bool := eqb (panic_guard (λ s, (s, Panicked)) silent).2 (Some PAM_AUTH_ERR).

(** ** The run *)

Definition pam_logic_tests : list bool :=
  [test_map_pam_outcome_matrix; test_unknown_outcome_raw_values_fail_closed; test_no_pam_outcome_maps_to_pam_ignore;
   test_gui_loop_immediate_timeout; test_gui_loop_password_entered_breakout; test_gui_loop_password_dialog_failed_breakout;
   test_gui_loop_successful_phone_tap; test_gui_loop_daemon_hangup; test_sequential_loop_immediate_timeout;
   test_sequential_loop_receives_response; test_sequential_loop_daemon_hangup;
   conversation_mode_is_an_allowlist_with_a_sequential_default; display_manager_prefix_matching;
   a_success_inside_the_window_is_reused; a_success_after_the_window_is_not_reused;
   an_unavailability_inside_the_window_is_reused; a_denial_inside_the_window_is_reused;
   an_unavailability_after_the_window_is_not_reused; another_users_conclusion_is_never_reused;
   another_services_conclusion_is_never_reused; recording_a_failure_replaces_the_cached_success;
   a_failed_connect_records_nothing_and_the_retry_dials_again; a_from_cache_verdict_is_not_recorded;
   an_unresolved_service_is_not_recorded; a_poisoned_lock_reads_as_a_cache_miss; a_future_timestamp_does_not_panic;
   frame_too_large_blocking; frame_too_large_nonblocking; pam_test_default_config; guard_returns_auth_err_on_panic].

(** The model passes the module's unit tests, with the tests' own inputs and expected values: all that call the module's decision code, so not those that read its source text, the locale files or the wire format. *)
Theorem pam_tests_pass : Forall (λ passed, passed = true) pam_logic_tests.
Proof. repeat constructor. Qed.
