(* ===== verification/PamWorker.v ===== *)
(** * The password thread: [client-pam/src/pam_logic.rs], [native_password_worker],
    [cancel_and_join] and the threaded branch of [authenticate_inner]

    Two threads share a frame of the calling thread ([ThreadContext]), a pipe and the
    PAM library.  The worker asks for the password; the calling thread polls the daemon
    and the pipe, cancels and joins the worker, closes the pipe and goes on.  Their
    steps interleave freely.  What the calling thread sees in a turn of its loop is
    recorded as the [Tick]s of [Pam]. *)

From stdpp Require Import base gmap strings list relations.
From Stdlib Require Import Strings.Byte.
From S2P Require Import Prelude Os Text Crypto Protocol Config Auth Ipc IpcClient Pam.

(** ** One turn of [run_gui_event_loop] *)

Section turn.
Context `{KI : !Codec IpcEnvelope}.

Definition Exit : Type := ExitReason * option PamAuthenticateResponse * option PamText.

(** [None]: the loop goes on. *)
Definition gui_turn (deadline : Z) (request_id : string) (t : Tick) (ipc : IpcClient) : IpcClient * option Exit :=
  if decide (deadline ≤ tk_now t) then (ipc, Some (Timeout, None, None)) else
  match tk_poll t with
  | PollNone => (ipc, None)
  | PollErr eintr => (ipc, if eintr then None else Some (IpcErrorExit, None, Some communication_error))
  | PollReady fd0 fd1 =>
      if tk_password t then
        ((send_cancel "gui-password-skip" request_id ipc).1, Some (PasswordEntered, None, None))
      else
        let self_pipe ipc :=
          match fd1 with
          | Some rev =>
              if pollin rev
              then ((send_cancel "gui-password-failed" request_id ipc).1, Some (PasswordFailed, None, None))
              else (ipc, None)
          | None => (ipc, None)
          end in
        match fd0 with
        | Some rev =>
            if pollin rev then
              let '(ipc', r) := try_read_response_nonblocking ipc in
              (ipc', match r with
                     | Ok (Some resp) => Some (IpcResponseReceived, Some resp, None)
                     | Ok None => if hup_or_err rev then Some (IpcErrorExit, None, Some connection_lost) else None
                     | Err _ => Some (IpcErrorExit, None, Some communication_error)
                     end)
            else if hup_or_err rev then (ipc, Some (IpcErrorExit, None, Some connection_lost))
            else self_pipe ipc
        | None => self_pipe ipc
        end
  end.
End turn.

(** ** The threads *)

(** [pam_get_authtok] runs in [WAsking], the only place where a cancellation is acted
    upon: the write is a bare system call. *)
Inductive WorkerPc :=
| WStart
| WAsking
| WStoring (got_token : bool)
| WWriting
| WDone
| WCancelled.
#[global] Instance WorkerPc_eq_dec : EqDecision WorkerPc.
Proof. solve_decision. Defined.

Definition finished (w : WorkerPc) : bool := match w with WDone | WCancelled => true | _ => false end.

(** The calling thread: at the top of its loop, after [poll], after the loop, and on
    the way out. *)
Inductive MainPc :=
| MPoll
| MPolled (now : Z) (p : poll_result)
| MCancel (e : Exit)
| MJoin (e : Exit)
| MClose (e : Exit)
| MTell (e : Exit)             (* uses the conversation *)
| MReturned (e : Exit)
| MAborted
| MPanicked.                   (* unwound to [guard], which answers for the module *)

(** What both threads see. *)
Record Shared := mkShared {
  sh_password : bool;            (* [password_entered] *)
  sh_pipe : nat;                 (* bytes in the pipe *)
  sh_pipe_open : bool;
  sh_frame : bool;               (* the frame that holds the [ThreadContext] is alive *)
  sh_cancel : bool;              (* a cancellation is pending *)
  sh_lock : bool;                (* the worker died holding a lock of the C library *)
}.

Record Threads := mkThreads {
  th_main : MainPc;
  th_worker : WorkerPc;
  th_shared : Shared;
  th_ipc : IpcClient;
  th_ticks : list Tick;          (* the turns of the loop so far *)
  th_token : option bool;        (* what [pam_get_authtok] returned, once it has *)
}.

Definition set_password (sh : Shared) : Shared :=
  mkShared true (sh_pipe sh) (sh_pipe_open sh) (sh_frame sh) (sh_cancel sh) (sh_lock sh).
Definition add_byte (sh : Shared) : Shared :=
  mkShared (sh_password sh) (S (sh_pipe sh)) (sh_pipe_open sh) (sh_frame sh) (sh_cancel sh) (sh_lock sh).
Definition close_pipe (sh : Shared) : Shared :=
  mkShared (sh_password sh) (sh_pipe sh) false (sh_frame sh) (sh_cancel sh) (sh_lock sh).
Definition drop_frame (sh : Shared) : Shared :=
  mkShared (sh_password sh) (sh_pipe sh) (sh_pipe_open sh) false (sh_cancel sh) (sh_lock sh).
Definition request_cancel (sh : Shared) : Shared :=
  mkShared (sh_password sh) (sh_pipe sh) (sh_pipe_open sh) (sh_frame sh) true (sh_lock sh).
Definition leave_lock (sh : Shared) : Shared :=
  mkShared (sh_password sh) (sh_pipe sh) (sh_pipe_open sh) (sh_frame sh) (sh_cancel sh) true.

(** [poll] reports the pipe readable exactly when there is something in it. *)
Definition poll_sees (sh : Shared) (p : poll_result) : Prop :=
  match p with
  | PollNone => sh_pipe sh = 0%nat
  | PollErr _ => True
  | PollReady _ fd1 => (∃ rev, fd1 = Some rev ∧ pollin rev = true) ↔ sh_pipe sh ≠ 0%nat
  end.

(** A password ends the worker, or the dialog was dismissed: no cancel is needed. *)
Definition must_cancel (e : Exit) : bool :=
  let r := e.1.1 in bool_decide (r ≠ PasswordEntered ∧ r ≠ PasswordFailed).

(** What the bare [write] of one byte gives. *)
Inductive write_result := Written | WriteEintr | WriteError.

Section threads.
Context `{KI : !Codec IpcEnvelope} (deadline : Z) (request_id : string).

(** After the check of a turn: on with the loop, or out of it. *)
Definition after_turn (t : Tick) (s : Threads) : Threads :=
  let '(ipc, e) := gui_turn deadline request_id t (th_ipc s) in
  mkThreads (match e with Some e => MCancel e | None => MPoll end) (th_worker s) (th_shared s) ipc
    (th_ticks s ++ [t]) (th_token s).

Definition set_main (m : MainPc) (s : Threads) : Threads :=
  mkThreads m (th_worker s) (th_shared s) (th_ipc s) (th_ticks s) (th_token s).
Definition set_worker (w : WorkerPc) (s : Threads) : Threads :=
  mkThreads (th_main s) w (th_shared s) (th_ipc s) (th_ticks s) (th_token s).
Definition set_shared (sh : Shared) (s : Threads) : Threads :=
  mkThreads (th_main s) (th_worker s) sh (th_ipc s) (th_ticks s) (th_token s).

(** Between [pthread_create] and the join. *)
Definition before_join (m : MainPc) : bool :=
  match m with MPoll | MPolled _ _ | MCancel _ => true | _ => false end.

(** The calling thread.  [pthread_cancel] may fail, which is only logged; a failing
    [pthread_join] ends the process.  A panic before the join unwinds past the frame and
    reaps nobody, and leaves the pipe open.  What comes after the join needs the locks of
    the C library. *)
Inductive main_step : Threads → Threads → Prop :=
| main_timeout s now tty :
    th_main s = MPoll → deadline ≤ now →
    main_step s (after_turn (mkTick now PollNone false tty) s)
| main_poll s now p :
    th_main s = MPoll → now < deadline → poll_sees (th_shared s) p →
    main_step s (set_main (MPolled now p) s)
| main_check s now p tty :
    th_main s = MPolled now p →
    main_step s (after_turn (mkTick now p (sh_password (th_shared s)) tty) s)
| main_cancel s e (cancelled : bool) :
    th_main s = MCancel e → (cancelled = true → must_cancel e = true) →
    main_step s (set_main (MJoin e)
      (if cancelled then set_shared (request_cancel (th_shared s)) s else s))
| main_join s e :
    th_main s = MJoin e → finished (th_worker s) = true → main_step s (set_main (MClose e) s)
| main_join_fails s e :
    th_main s = MJoin e → main_step s (set_main MAborted s)
| main_close s e :
    th_main s = MClose e → main_step s (set_main (MTell e) (set_shared (close_pipe (th_shared s)) s))
| main_return s e :
    th_main s = MTell e → sh_lock (th_shared s) = false →
    main_step s (set_main (MReturned e) (set_shared (drop_frame (th_shared s)) s))
| main_panic s :
    before_join (th_main s) = true →
    main_step s (set_main MPanicked (set_shared (drop_frame (th_shared s)) s)).

(** [native_password_worker].  A cancellation may hit the dialog while a lock is held. *)
Inductive worker_step : Threads → Threads → Prop :=
| worker_begin s : th_worker s = WStart → worker_step s (set_worker WAsking s)
| worker_unwound s (locked : bool) :
    th_worker s = WAsking → sh_cancel (th_shared s) = true →
    worker_step s (set_worker WCancelled (if locked then set_shared (leave_lock (th_shared s)) s else s))
| worker_store s got :
    th_worker s = WStoring got →
    worker_step s (set_worker WWriting (if got then set_shared (set_password (th_shared s)) s else s))
| worker_write s r :
    th_worker s = WWriting →
    worker_step s (match r with
                   | Written => set_worker WDone (set_shared (add_byte (th_shared s)) s)
                   | WriteEintr => s
                   | WriteError => set_worker WDone s
                   end).

(** The dialog: [pam_get_authtok] returns, with [PAM_SUCCESS] and a token or without. *)
Inductive user_step : Threads → Threads → Prop :=
| user_answers s got :
    th_worker s = WAsking →
    user_step s (mkThreads (th_main s) (WStoring got) (th_shared s) (th_ipc s) (th_ticks s) (Some got)).

Inductive thread_step (s s' : Threads) : Prop :=
| by_main : main_step s s' → thread_step s s'
| by_worker : worker_step s s' → thread_step s s'
| by_user : user_step s s' → thread_step s s'.

(** After [pthread_create]. *)
Definition spawned (ipc : IpcClient) : Threads :=
  mkThreads MPoll WStart (mkShared false 0 true true false false) ipc [] None.

Definition threads_reachable (ipc : IpcClient) : Threads → Prop := rtc thread_step (spawned ipc).
End threads.

(** ** What must never happen *)

(** The worker uses the frame for the handle, the flag and the pipe. *)
Definition uses_frame (w : WorkerPc) : bool := negb (finished w).
(** The PAM library is used by one thread at a time. *)
Definition worker_in_pam (w : WorkerPc) : bool := match w with WStart | WAsking => true | _ => false end.
Definition main_in_pam (m : MainPc) : bool := match m with MTell _ | MReturned _ | MPanicked => true | _ => false end.

Definition race (s : Threads) : Prop :=
  uses_frame (th_worker s) = true ∧ (sh_frame (th_shared s) = false ∨ sh_pipe_open (th_shared s) = false) ∨
  worker_in_pam (th_worker s) = true ∧ main_in_pam (th_main s) = true.
