(* ===== verification/PamWorkerTheorems.v ===== *)
(** * Theorems about the password thread

    No access to a dead frame or a closed pipe and no race on the PAM library unless the
    calling thread panics, and the loop of [Pam] is what the calling thread runs. *)

From stdpp Require Import base gmap strings list relations.
From Stdlib Require Import Strings.Byte.
From S2P Require Import Prelude Os Text Crypto Protocol Config Auth Ipc IpcClient Pam PamWorker.
From S2P Require Import Concrete ConcreteCodec ConcreteIpc.

Section proofs.
Context `{KI : !Codec IpcEnvelope} (deadline : Z) (request_id : string).

#[local] Abbreviation step := (thread_step deadline request_id).
#[local] Abbreviation reachable := (threads_reachable deadline request_id).

(** ** The loop by turns *)

Lemma loop_turn t ticks ipc :
  run_gui_event_loop deadline request_id (t :: ticks) ipc
  = match gui_turn deadline request_id t ipc with
    | (ipc', Some e) => (ipc', Some e)
    | (ipc', None) => run_gui_event_loop deadline request_id ticks ipc'
    end.
Proof.
  cbn [run_gui_event_loop]. unfold gui_turn. case_decide; [done|].
  destruct (tk_poll t) as [|[]|fd0 fd1]; try done. destruct (tk_password t); [done|].
  destruct fd0 as [rev|]; [|by destruct fd1 as [rev|]; [destruct (pollin rev)|]].
  destruct (pollin rev).
  - destruct (try_read_response_nonblocking ipc) as [ipc' [[resp|]|]]; try done. by destruct (hup_or_err rev).
  - destruct (hup_or_err rev); [done|]. by destruct fd1 as [r|]; [destruct (pollin r)|].
Qed.

(** A run of turns none of which ends the loop. *)
Fixpoint turns (ticks : list Tick) (ipc ipc' : IpcClient) : Prop :=
  match ticks with
  | [] => ipc' = ipc
  | t :: ticks' => ∃ mid, gui_turn deadline request_id t ipc = (mid, None) ∧ turns ticks' mid ipc'
  end.

Lemma turns_run ticks ipc ipc' rest :
  turns ticks ipc ipc' →
  run_gui_event_loop deadline request_id (ticks ++ rest) ipc = run_gui_event_loop deadline request_id rest ipc'.
Proof.
  revert ipc. induction ticks as [|t ticks IH]; intros ipc; cbn [turns app]; [by intros ->|].
  intros (mid & Ht & Hr). rewrite loop_turn, Ht. by apply IH.
Qed.

Lemma turns_snoc ticks t ipc mid ipc' :
  turns ticks ipc mid → gui_turn deadline request_id t mid = (ipc', None) → turns (ticks ++ [t]) ipc ipc'.
Proof.
  revert ipc. induction ticks as [|u ticks IH]; intros ipc; cbn [turns app].
  - intros -> Ht. by exists ipc'.
  - intros (m & Hu & Hr) Ht. exists m. split; [done|by apply IH].
Qed.

(** When a turn ends for the password or for the dialog. *)
Lemma turn_password t ipc ipc' e :
  gui_turn deadline request_id t ipc = (ipc', Some e) →
  (e.1.1 = PasswordEntered → tk_password t = true) ∧
  (e.1.1 = PasswordFailed → tk_password t = false ∧
    ∃ fd0 rev, tk_poll t = PollReady fd0 (Some rev) ∧ pollin rev = true).
Proof.
  unfold gui_turn. case_decide; [intros; by simplify_eq|].
  destruct (tk_poll t) as [|[]|fd0 fd1]; [done|intros; by simplify_eq..|].
  destruct (tk_password t); [intros; by simplify_eq|].
  destruct fd0 as [rev|]; [destruct (pollin rev)|].
  - destruct (try_read_response_nonblocking ipc) as [i [[resp|]|]]; [|destruct (hup_or_err rev)|]; intros; by simplify_eq.
  - destruct (hup_or_err rev); [intros; by simplify_eq|].
    destruct fd1 as [r|]; [|done]. destruct (pollin r) eqn:?; intros; simplify_eq; split; [done|by eauto].
  - destruct fd1 as [r|]; [|done]. destruct (pollin r) eqn:?; intros; simplify_eq; split; [done|by eauto].
Qed.

(** ** The invariant *)

Definition exit_of (m : MainPc) : option Exit :=
  match m with MCancel e | MJoin e | MClose e | MTell e | MReturned e => Some e | _ => None end.
Definition joined (m : MainPc) : bool := match m with MClose _ | MTell _ | MReturned _ => true | _ => false end.
Definition frame_gone (m : MainPc) : bool := match m with MReturned _ | MPanicked => true | _ => false end.
Definition pipe_gone (m : MainPc) : bool := match m with MTell _ | MReturned _ => true | _ => false end.

Record threads_ok (ipc : IpcClient) (s : Threads) : Prop := {
  (** resources *)
  to_frame : sh_frame (th_shared s) = negb (frame_gone (th_main s));
  to_pipe_open : sh_pipe_open (th_shared s) = negb (pipe_gone (th_main s));
  to_joined : joined (th_main s) = true → finished (th_worker s) = true;
  (** the flag and the byte *)
  to_token : th_token s = match th_worker s with
                          | WStart | WAsking | WCancelled => None
                          | WStoring got => Some got
                          | _ => th_token s
                          end;
  to_some : match th_worker s with WWriting | WDone => is_Some (th_token s) | _ => True end;
  to_flag : sh_password (th_shared s) = match th_worker s with
                                        | WWriting | WDone => default false (th_token s)
                                        | _ => false
                                        end;
  to_byte : sh_pipe (th_shared s) ≠ 0%nat → th_worker s = WDone;
  (** the loop *)
  to_polled now fd0 rev : th_main s = MPolled now (PollReady fd0 (Some rev)) → pollin rev = true → th_worker s = WDone;
  to_loop : match exit_of (th_main s) with
            | Some e => run_gui_event_loop deadline request_id (th_ticks s) ipc = (th_ipc s, Some e) ∧
                (e.1.1 = PasswordEntered → th_token s = Some true) ∧
                (e.1.1 = PasswordFailed → th_token s = Some false ∧ th_worker s = WDone)
            | None => th_main s = MAborted ∨ th_main s = MPanicked ∨ turns (th_ticks s) ipc (th_ipc s)
            end;
}.

Lemma not_joined m : joined m = false → m ≠ MPanicked → frame_gone m = false.
Proof. by destruct m. Qed.
Lemma pipe_joined m : pipe_gone m = true → joined m = true.
Proof. by destruct m. Qed.

Lemma after_turn_ok ipc t s :
  threads_ok ipc s → before_join (th_main s) = true → turns (th_ticks s) ipc (th_ipc s) →
  (tk_password t = true → th_token s = Some true) →
  (tk_password t = false → ∀ fd0 rev, tk_poll t = PollReady fd0 (Some rev) → pollin rev = true →
     th_token s = Some false ∧ th_worker s = WDone) →
  threads_ok ipc (after_turn deadline request_id t s).
Proof.
  intros [Hf Hp Hj Ht Hs Hfl Hb Hpo Hl] Hnj Hturns Hpw Hdis. unfold after_turn.
  assert (Hfg : frame_gone (th_main s) = false ∧ pipe_gone (th_main s) = false) by (by destruct (th_main s)).
  destruct Hfg as [Hfg Hpg]. rewrite Hfg in Hf. rewrite Hpg in Hp.
  destruct (gui_turn deadline request_id t (th_ipc s)) as [i [e|]] eqn:E.
  - destruct (turn_password _ _ _ _ E) as [He1 He2].
    assert (Hrun : run_gui_event_loop deadline request_id (th_ticks s ++ [t]) ipc = (i, Some e)).
    { rewrite (turns_run _ _ _ _ Hturns), loop_turn. by rewrite E. }
    split; simpl; try done.
    split; [done|]. split; [by intros ?%He1%Hpw|]. intros H. destruct (He2 H) as (? & fd0 & rev & ? & ?). by eapply Hdis.
  - split; simpl; try done. right; right. by eapply turns_snoc.
Qed.

Lemma main_step_ok ipc s s' : main_step deadline request_id s s' → threads_ok ipc s → threads_ok ipc s'.
Proof.
  intros Hstep Hok. pose proof Hok as [Hf Hp Hj Ht Hs Hfl Hb Hpo Hl].
  destruct Hstep as [s now tty Hm Hd|s now p Hm Hd Hsee|s now p tty Hm|s e c Hm Hc|s e Hm Hw|s e Hm|s e Hm|s e Hm Hk|s Hm];
    [rewrite Hm in *; simpl in *..|].
  - destruct Hl as [|[|Hl]]; [done..|]. apply after_turn_ok; simpl; try done. by rewrite Hm.
  - destruct Hl as [|[|Hl]]; [done..|]. split; simpl; try done; [|by right; right].
    intros ? fd0 rev [= -> ->] Hr. apply Hb, Hsee. by exists rev.
  - destruct Hl as [|[|Hl]]; [done..|]. apply after_turn_ok; simpl; try done; [by rewrite Hm|..].
    + intros Hflag. rewrite Hflag in Hfl. destruct (th_worker s); try done; destruct (th_token s) as [[]|]; done.
    + intros Hflag fd0 rev -> Hr. pose proof (Hpo now fd0 rev eq_refl Hr) as Hw. split; [|done].
      rewrite Hw in Hs, Hfl. destruct Hs as [[] Hs]; [|done]. rewrite Hs in Hfl. simpl in Hfl. congruence.
  - destruct c; split; simpl; done.
  - split; simpl; done.
  - by split; simpl; try left.
  - split; simpl; done.
  - split; simpl; done.
  - assert (Hpg : pipe_gone (th_main s) = false) by (by destruct (th_main s)). rewrite Hpg in Hp.
    split; simpl; try done. by right; left.
Qed.

(** A step of the worker or of the user leaves the calling thread where it is. *)
Lemma other_step_ok ipc s w sh token :
  threads_ok ipc s → finished (th_worker s) = false →
  sh_frame sh = sh_frame (th_shared s) → sh_pipe_open sh = sh_pipe_open (th_shared s) →
  (th_token s = Some true → token = Some true) →
  token = match w with WStart | WAsking | WCancelled => None | WStoring got => Some got | _ => token end →
  match w with WWriting | WDone => is_Some token | _ => True end →
  sh_password sh = match w with WWriting | WDone => default false token | _ => false end →
  (sh_pipe sh ≠ 0%nat → w = WDone) →
  threads_ok ipc (mkThreads (th_main s) w sh (th_ipc s) (th_ticks s) token).
Proof.
  intros [Hf Hp Hj Ht Hs Hfl Hb Hpo Hl] Hw Hsf Hsp Htok Ht' Hs' Hfl' Hb'.
  assert (Hnd : th_worker s ≠ WDone) by (by intros E; rewrite E in Hw).
  assert (Hnj : joined (th_main s) = false) by (destruct (joined (th_main s)); [by rewrite Hj in Hw|done]).
  split; simpl; try congruence; [done|..].
  - intros ? ? ? Hm Hr. by destruct Hnd; eapply Hpo.
  - destruct (exit_of (th_main s)) as [e|]; [|done]. destruct Hl as (Hr & Hen & Hfa). split; [done|]. split; [by auto|].
    intros He. by destruct (Hfa He).
Qed.

Lemma worker_step_ok ipc s s' : worker_step s s' → threads_ok ipc s → threads_ok ipc s'.
Proof.
  intros Hstep Hok. pose proof Hok as [_ _ _ Ht Hs Hfl Hb _ _].
  assert (Hp0 : th_worker s ≠ WDone → sh_pipe (th_shared s) = 0%nat).
  { intros Hn. destruct (sh_pipe (th_shared s)); [done|]. by destruct Hn; apply Hb. }
  destruct Hstep as [s Hw|s lk Hw Hc|s got Hw|s r Hw]; rewrite Hw in *; simpl in *; specialize (Hp0 ltac:(done)).
  - apply (other_step_ok ipc s); simpl; try done; try congruence. by rewrite Hw.
  - destruct lk; apply (other_step_ok ipc s); simpl; try done; try congruence; by rewrite Hw.
  - destruct got; apply (other_step_ok ipc s); simpl; rewrite ?Hw, ?Ht; try done; congruence.
  - destruct r; [|done|]; apply (other_step_ok ipc s); simpl; try done; try congruence; by rewrite Hw.
Qed.

Lemma user_step_ok ipc s s' : user_step s s' → threads_ok ipc s → threads_ok ipc s'.
Proof.
  intros [s0 got Hw] Hok. pose proof Hok as [_ _ _ Ht _ Hfl Hb _ _]. rewrite Hw in *.
  apply (other_step_ok ipc s0); simpl; try done; [by rewrite Hw|by rewrite Ht|]. intros Hn. by apply Hb in Hn.
Qed.

Lemma threads_reachable_ok ipc s : reachable ipc s → threads_ok ipc s.
Proof.
  intros Hr. assert (H0 : threads_ok ipc (spawned ipc)) by (split; simpl; try done; by right; right).
  revert H0. unfold threads_reachable in Hr. generalize dependent (spawned ipc).
  induction 1 as [|x y z Hxy _ IH]; [done|]. intros H0. apply IH.
  destruct Hxy; eauto using main_step_ok, worker_step_ok, user_step_ok.
Qed.
End proofs.

(** ** Claims *)

Definition outcome_code (o : PamOutcome) : Z :=
  match o with
  | OSuccess => PAM_SUCCESS
  | ODenied => PAM_PERM_DENIED
  | OTimeout | OIgnore => PAM_AUTHINFO_UNAVAIL
  | OError => PAM_AUTH_ERR
  end.
Definition exit_code (e : Exit) : Z :=
  match e.1.2 with Some resp => outcome_code (response_outcome resp) | None => PAM_AUTHINFO_UNAVAIL end.

(** What the calling thread does with an exit gives its code. *)
Lemma finish_wait ps exit_reason auth_response pending_error (sent joined : PamEffect) :
  ∃ ps',
    (_ ← say sent; _ ← say joined;
     _ ← (match pending_error with Some e => say (EInfo e) | None => mret () end);
     final_outcome ← (match auth_response with
                      | Some resp => map_pam_outcome resp
                      | None => mret PAM_AUTHINFO_UNAVAIL
                      end);
     _ ← (if decide (exit_reason = Timeout) then say (EInfo timed_out) else mret ());
     mret final_outcome : PM Z) ps
    = (ps', Ok (exit_code (exit_reason, auth_response, pending_error))).
Proof.
  unfold exit_code, map_pam_outcome, outcome_code. simpl.
  destruct pending_error, auth_response as [r|]; [destruct (response_outcome r)| |destruct (response_outcome r)|];
    case_decide; by eexists.
Qed.

(** C6: The password thread is memory-safe unless the calling thread panics.  In no
    interleaving of the two threads, with any behaviour of the user, the daemon and
    [poll], with failing cancellations and writes, with a lock left behind by a cancelled
    worker, does the worker use the pipe after it is closed; and it uses the frame of the
    calling thread after it is gone, or the PAM library while the calling thread or the
    host does, only after the calling thread panicked between creating and joining it. *)
Theorem password_thread_safe `{KI : !Codec IpcEnvelope} deadline request_id ipc s :
  threads_reachable deadline request_id ipc s →
  (race s → th_main s = MPanicked) ∧
  (uses_frame (th_worker s) = true → sh_pipe_open (th_shared s) = true).
Proof.
  intros [Hf Hp Hj _ _ _ _ _ _]%threads_reachable_ok.
  assert (Hnj : uses_frame (th_worker s) = true → joined (th_main s) = false).
  { intros Hu. destruct (joined (th_main s)); [|done]. unfold uses_frame in Hu. by rewrite Hj in Hu. }
  assert (Hopen : uses_frame (th_worker s) = true → sh_pipe_open (th_shared s) = true).
  { intros Hu. rewrite Hp. destruct (pipe_gone (th_main s)) eqn:Hg; [|done].
    apply pipe_joined in Hg. by rewrite Hnj in Hg. }
  split; [|done]. intros Hrace. assert (Hu : uses_frame (th_worker s) = true).
  { destruct Hrace as [[Hu _]|[Hw _]]; [done|by destruct (th_worker s)]. }
  assert (Hdec : th_main s = MPanicked ∨ th_main s ≠ MPanicked) by (destruct (th_main s); auto).
  destruct Hdec as [|Hnp]; [done|]. exfalso. specialize (Hnj Hu). specialize (Hopen Hu).
  pose proof (not_joined _ Hnj Hnp) as Hfg. rewrite Hfg in Hf. simpl in Hf.
  destruct Hrace as [[_ [?|?]]|[_ Hm]]; [congruence..|]. by destruct (th_main s).
Qed.

(** C7: The threads implement the wait of the module.  Whenever the calling thread has left
    its loop, [threaded_wait] run on the turns it saw, with a join that returns, answers the
    code of that exit; an
    exit for an entered password means the library holds a token, and an exit for a
    dismissed dialog means it does not. *)
Theorem password_thread_refines `{KI : !Codec IpcEnvelope} call timeout_secs request_id ipc s e ps :
  threads_reachable (pk_wait_at call + timeout_secs * 1000) request_id ipc s → exit_of (th_main s) = Some e →
  pk_pipe_ok call = true → pk_thread_ok call = true → pk_joins call = true → pk_ticks call = th_ticks s →
  (∃ ps', threaded_wait call timeout_secs request_id ipc ps = (ps', Ok (exit_code e))) ∧
  (e.1.1 = PasswordEntered → th_token s = Some true) ∧ (e.1.1 = PasswordFailed → th_token s = Some false).
Proof.
  intros [_ _ _ _ _ _ _ _ Hl]%threads_reachable_ok He Hp Ht Hjn Htk. rewrite He in Hl. destruct Hl as (Hr & Hen & Hfa).
  split; [|split; [done|by intros H; destruct (Hfa H)]]. destruct e as [[reason resp] err].
  unfold threaded_wait. rewrite Hp, Ht, Hjn, Htk. cbn [negb]. rewrite Hr. unfold mbind at 1, M_bind at 1, say at 1, modify at 1.
  by apply finish_wait.
Qed.

(** ** Two runs *)

Definition idle_ipc : IpcClient := mkIpcClient [] None [] [] None.

(** The user types a password while the daemon is silent. *)
Definition pipe_ready : poll_result := PollReady None (Some (mkRevents true false false)).
Definition typing : Threads :=
  mkThreads (MPolled 50 pipe_ready) WDone (mkShared true 1 true true false false) idle_ipc [] (Some true).
Definition typed : Threads := after_turn 10000 "r" (mkTick 50 pipe_ready true TtyEof) typing.

Lemma typed_reachable : threads_reachable 10000 "r" idle_ipc typed.
Proof.
  unfold threads_reachable.
  eapply rtc_l; [by apply by_worker, worker_begin|]. eapply rtc_l; [by apply by_user, (user_answers _ true)|].
  eapply rtc_l; [by apply by_worker, worker_store|]. eapply rtc_l; [by apply by_worker, (worker_write _ Written)|].
  eapply rtc_l.
  { apply by_main, (main_poll _ _ _ 50 pipe_ready); [done|lia|].
    split; [done|]. intros _. by eexists. }
  apply rtc_once, by_main. exact (main_check 10000 "r" typing 50 pipe_ready TtyEof eq_refl).
Qed.

(** The calling thread panics in its loop while the worker is in the dialog. *)
Definition panicked : Threads :=
  mkThreads MPanicked WAsking (mkShared false 0 true false false false) idle_ipc [] None.

(** A panic before the join does leave a worker that uses the frame that is gone, and the
    PAM library while the host goes on. *)
Theorem panic_races :
  threads_reachable 10000 "r" idle_ipc panicked ∧ uses_frame (th_worker panicked) = true ∧
  sh_frame (th_shared panicked) = false ∧ worker_in_pam (th_worker panicked) = true ∧ main_in_pam (th_main panicked) = true.
Proof.
  split; [|done]. unfold threads_reachable. eapply rtc_l; [by apply by_worker, worker_begin|].
  apply rtc_once, by_main. exact (main_panic 10000 "r" (set_worker WAsking (spawned idle_ipc)) eq_refl).
Qed.

(** A cancellation can leave the calling thread stuck behind a lock: nobody can take a step
    once the worker died with it and the call is about to use the conversation. *)
Definition stuck : Threads :=
  mkThreads (MTell (Timeout, None, None)) WCancelled (mkShared false 0 false true true true) idle_ipc
    [mkTick 10000 PollNone false TtyEof] None.

Theorem cancel_can_deadlock :
  threads_reachable 10000 "r" idle_ipc stuck ∧ ∀ s', ¬ thread_step 10000 "r" stuck s'.
Proof.
  split.
  - unfold threads_reachable. eapply rtc_l; [by apply by_worker, worker_begin|].
    eapply rtc_l; [by apply by_main, (main_timeout _ _ _ 10000 TtyEof)|].
    eapply rtc_l.
    { apply by_main. exact (main_cancel 10000 "r" (set_main (MCancel (Timeout, None, None)) (mkThreads MPoll WAsking
        (mkShared false 0 true true false false) idle_ipc [mkTick 10000 PollNone false TtyEof] None)) _ true eq_refl
        (λ _, eq_refl)). }
    eapply rtc_l; [by apply by_worker, (worker_unwound _ true)|].
    eapply rtc_l; [by apply by_main, (main_join _ _ _ (Timeout, None, None))|].
    apply rtc_once, by_main. exact (main_close 10000 "r" (mkThreads (MClose (Timeout, None, None)) WCancelled
      (mkShared false 0 true true true true) idle_ipc [mkTick 10000 PollNone false TtyEof] None) _ eq_refl).
  - intros s' [Hs|Hs|Hs]; inversion Hs; subst; done.
Qed.

Lemma password_thread_safe_witness : threads_reachable 10000 "r" idle_ipc typed ∧ (race typed → th_main typed = MPanicked).
Proof. split; [exact typed_reachable|]. apply (password_thread_safe 10000 "r" idle_ipc typed typed_reachable). Defined.

Lemma password_thread_refines_witness :
  exit_of (th_main typed) = Some (PasswordEntered, None, None) ∧ th_token typed = Some true.
Proof.
  pose (call := mkPamCall (mkPamHandle false (PAM_SUCCESS, Item "gdm-password") (PAM_SUCCESS, Item "ann")
                  (PAM_SUCCESS, NullItem) (PAM_SUCCESS, true))
                None None false false true true true 0 0 50 (th_ticks typed)).
  assert (He : exit_of (th_main typed) = Some (PasswordEntered, None, None)) by (by vm_compute).
  split; [exact He|].
  apply (password_thread_refines call 10 "r" idle_ipc typed (PasswordEntered, None, None)
    (mkPamState quiet_world None [] None []) typed_reachable He eq_refl eq_refl eq_refl eq_refl). reflexivity.
Defined.
