(* ===== verification/EndToEnd.v ===== *)
(** * From the phone to the PAM host

    The PAM module and the daemon composed: what a [PAM_SUCCESS] means when the
    other end of the module's connection is the daemon. *)

From stdpp Require Import base gmap strings list.
From S2P Require Import Prelude Os Text Crypto Concrete Protocol ConcreteCodec Config ConfigFacts.
From S2P Require Import ConcreteConfig PairingUrl Network Auth ConcreteAuth AuthTheorems PeerIdentity Ble Reception Ipc Session.
From S2P Require Import SessionTheorems ConcreteIpc Daemon DaemonTheorems IpcClient.
From S2P Require Import IpcClientTheorems Pam PamTheorems.

#[local] Opaque to_be_bytes.

(** Outcomes the daemon uses. *)
Definition known_outcome (o : Z) : Prop := 0 ≤ o ≤ 4.

Section outcomes.
Context `{C : CryptoOps} `{H : Hex} `{T : Toml} `{KW : !Codec WrapperMessage} `{KE : !Codec EncryptedPacket}.

Lemma run_attempt_outcome fb show env to s tr kp csk rid sw sw' resp :
  run_attempt fb show env to s tr kp csk rid sw = (sw', Ok (Some resp)) → known_outcome (resp_outcome resp).
Proof.
  unfold run_attempt. intros Hr. inv_bind. unfold known_outcome.
  clear Hrun3. destruct a3 as [[[[]|er]| |]|er]; try (destruct er); inv_bind; unfold mret, M_ret in Hr; simplify_eq/=;
    unfold OUTCOME_SUCCESS, OUTCOME_DENIED, OUTCOME_IGNORE, OUTCOME_TIMEOUT; lia.
Qed.

Lemma handle_authenticate_outcome fb show env s to rid sw sw' resp :
  handle_authenticate fb show env s to rid sw = (sw', Ok (Some resp)) → known_outcome (resp_outcome resp).
Proof.
  unfold handle_authenticate. intros Hh. inv_bind. clear Hrun.
  assert (Hk : ∀ o d, known_outcome o → known_outcome (resp_outcome (answer s o d))) by done.
  destruct (negb _); [by munfold; simplify_eq|]. destruct (decide _); [by munfold; simplify_eq|].
  destruct (ds_keypair (as_state s)) as [kp|], (ds_csk (as_state s)) as [csk|]; try by munfold; simplify_eq.
  destruct (decide _) as [|Ha] in Hh; [by munfold; simplify_eq|]. inv_bind. clear Hrun.
  unfold with_firewall in Hh. destruct (te_network a); simpl in Hh; [|by eapply run_attempt_outcome].
  destruct (se_firewall env) as [[]|]; [|by eapply run_attempt_outcome|done].
  inv_bind. unfold attempt in Hrun0. destruct (run_attempt _ _ _ _ _ _ _ _ _ _) as [sx rx] eqn:Er. simplify_eq.
  unfold lift in Hh. simplify_eq. by eapply run_attempt_outcome.
Qed.

Lemma pam_authenticate_outcome fb show rnd env req daemon s s' resp :
  handle_pam_authenticate fb show rnd env req daemon s = (s', Some resp) → known_outcome (resp_outcome resp).
Proof.
  unfold handle_pam_authenticate. intros Hh. destruct (match _ with Some t => _ | None => _ end); [by simplify_eq|].
  destruct (session_new _ _ _) as [w [sess|]]; [|by simplify_eq].
  destruct (handle_authenticate _ _ _ _ _ _ _) as [sw' [[r|]|]] eqn:Ha; simplify_eq; [|done].
  by eapply handle_authenticate_outcome.
Qed.
End outcomes.

(** A response that arrives among the bytes of one frame is that frame's message. *)
Lemma carries_frame `{KI : !Codec IpcEnvelope} b resp enc :
  carries b resp → b `prefix_of` to_be_bytes 4 (Z.of_nat (length enc) mod 2 ^ 32) ++ enc →
  Z.of_nat (length enc) < 2 ^ 32 → decode enc = Some (mkIpcEnvelope (Some (MsgPamResponse resp))).
Proof.
  intros (payload & rest & -> & Hmax & Hd) [k Hk] Hlen. unfold MAX_RESPONSE in *.
  rewrite Z.mod_small in Hk by lia. rewrite <-!(assoc_L (++)) in Hk.
  apply app_inj_1 in Hk as [Hh Hp]; [|by rewrite !length_to_be_bytes].
  apply (f_equal from_be_bytes) in Hh. rewrite !from_to_be_bytes_small in Hh by lia.
  assert (rest ++ k = []) as Hnil.
  { apply (f_equal length) in Hp. rewrite !length_app in Hp. apply nil_length_inv. rewrite length_app. lia. }
  rewrite Hnil, app_nil_r in Hp. by rewrite Hp.
Qed.

Section composed.
Context `{C : CryptoOps} `{H : Hex} `{T : Toml} `{KW : !Codec WrapperMessage} `{KE : !Codec EncryptedPacket}.
Context `{KI : !Codec IpcEnvelope} `{LI : !CodecLaws IpcEnvelope KI envelope_wire}.
Context (fb : bool) (show : AuthHandlerError → string) (rnd : string).
Context (admin : AdminRequest → Z → Z → SM AdminResponse).

(** The daemon's reply to one authentication request is the handler's answer. *)
Lemma handle_conn_authenticate env cred req eof daemon sv sv' conn resp :
  let m := mkIpcEnvelope (Some (MsgPamAuthenticate req)) in
  u32 (par_timeout_seconds req) → Z.of_nat (length (encode_to_vec m)) ≤ MAX_FRAME →
  handle_conn fb show rnd admin env (conn_of (Some cred) (response_frame (encode_to_vec m)) eof) daemon sv
    = (sv', Some (Ok conn)) →
  Z.of_nat (length (cn_out conn)) < 2 ^ 32 →
  ∀ b, b `prefix_of` cn_out conn → carries b resp →
  ∃ sv1, handle_pam_authenticate fb show rnd env req daemon sv = (sv1, Some resp).
Proof.
  intros m Hto Hmax Hh Hout b Hb Hcar. unfold handle_conn, conn_of in Hh. cbn [cn_cred] in Hh.
  destruct cred as [pid uid].
  pose proof (read_framed_frame (Some (pid, uid)) (encode_to_vec m) [] eof None [] Hmax) as Hread.
  rewrite app_nil_r in Hread. unfold response_frame in Hh. rewrite Hread in Hh.
  assert (Hnil : b ≠ []).
  { intros ->. destruct Hcar as (pl & rest & H0 & _). apply (f_equal length) in H0.
    by rewrite length_app, length_to_be_bytes in H0. }
  case_decide as He; [simplify_eq; cbn in Hb; by apply prefix_nil_inv in Hb|].
  rewrite (decode_encode m Hto) in Hh. unfold m in Hh.
  destruct (handle_pam_authenticate _ _ _ _ _ _ _) as [sv1 [resp'|]] eqn:Ep; [|done].
  injection Hh as <- <-. cbn [cn_out app] in *. rewrite length_app in Hout.
  apply (carries_frame _ _ _ Hcar) in Hb; [|lia].
  assert (Hwire : wire_ok (envelope_pam_response resp')).
  { apply pam_authenticate_outcome in Ep. unfold known_outcome in Ep. cbn. unfold i32. lia. }
  rewrite (decode_encode _ Hwire) in Hb. unfold envelope_pam_response in Hb. simplify_eq. by exists sv1.
Qed.
End composed.

(** ** Claims *)

(** C1: From [PAM_SUCCESS] to the phone.  Take a first call of the module in its
    process, with a daemon at the other end of its connection: what the module
    receives is (a prefix of) what the daemon writes on reading what the module sent.
    If the module answers [PAM_SUCCESS], then it sent a request for the user PAM named,
    some paired server is authorised for that user, and a packet that reached the daemon
    (in a datagram on its socket, or written by a Bluetooth device) before the deadline
    the request sets decrypts under the daemon's CSK to a grant that signs, under a paired
    server's key, the 32 fresh random bytes the daemon drew for this very request. *)
Theorem end_to_end_success `{C : CryptoOps} `{H : Hex} `{T : Toml} `{KW : !Codec WrapperMessage}
    `{KE : !Codec EncryptedPacket} `{KI : !Codec IpcEnvelope} `{LI : !CodecLaws IpcEnvelope KI envelope_wire}
    `{PT : PamToml} fb show rnd admin env cred daemon sv sv' conn call s s' input dials :
  let world := sw_world (sv_session sv) in
  let challenge := take 32 (w_entropy world) in
  ps_lock s = Some None → ps_log s = [] → ps_dials s = Some (input, None) :: dials →
  authenticate call s = (s', Some PAM_SUCCESS) →
  (∀ m, ESent (response_frame (encode_to_vec m)) ∈ ps_log s' →
     Z.of_nat (length (encode_to_vec m)) ≤ MAX_FRAME ∧
     handle_conn fb show rnd admin env (conn_of (Some cred) (response_frame (encode_to_vec m)) false) daemon sv
       = (sv', Some (Ok conn))) →
  incoming input `prefix_of` cn_out conn → Z.of_nat (length (cn_out conn)) < 2 ^ 32 →
  ∃ user tty seconds id csk, get_user (pk_handle call) = Ok user ∧
    ESent (response_frame (encode_to_vec (authenticate_envelope user tty seconds id))) ∈ ps_log s' ∧
    ds_csk daemon = Some csk ∧ user_authorized (ds_paired_servers daemon) user ∧ length challenge = 32%nat ∧
    granted (received env (w_clock world + seconds * 1000)) csk challenge (ds_paired_servers daemon).
Proof.
  intros world challenge Hlock Hlog Hdial Ha Hserved Hin Hlen.
  apply authenticate_spec in Ha as (v & l & Hl & _ & Hc & _).
  inversion Hc as [code l1 Hcv Hn Hs|user service prev code Hu Hs Hpl Hr
    |user input' dials' tty secs code l1 l' Hu Hd Hcv Hap Hns Hsecs request]; subst; [done|congruence|].
  rewrite Hdial in Hd. injection Hd as <- <-. destruct (Hap eq_refl) as (resp & Hcar & Ho).
  unfold unread in Hcar. cbn in Hcar.
  assert (Hsent : ESent (response_frame (encode_to_vec request)) ∈ ps_log s').
  { rewrite Hl, Hlog. apply elem_of_app. right. apply elem_of_app. right. apply list_elem_of_here. }
  destruct (Hserved request Hsent) as [Hmax Hh]. unfold request, authenticate_envelope in Hh, Hmax.
  eapply handle_conn_authenticate in Hh as [sv1 Hp]; [|done|done|done|exact Hin|exact Hcar].
  destruct (pam_authenticate_granted _ _ _ _ _ _ _ _ _ Hp Ho) as (csk & Hcsk & Hua & H32 & Hg).
  eexists user, tty, secs, _, csk. repeat split; [done|exact Hsent|done..].
Qed.

(** ** A concrete run: a phone, the daemon and a host *)

Definition toy_request : IpcEnvelope := authenticate_envelope "ann" false 30 (hex_encode (rep 16 7)).
Definition toy_serve : Server * option (result DaemonError Conn) :=
  handle_conn true no_text "" toy_admin granting_env
    (conn_of (Some (7, 0)) (response_frame (encode_to_vec toy_request)) false) toy_daemon toy_server.
Definition toy_conn : Conn :=
  match toy_serve.2 with Some (Ok c) => c | _ => conn_of None [] false end.
Definition served_state : PamState := toy_pam_state [Some ([Chunk (cn_out toy_conn)], None)].

Lemma toy_serve_result : toy_serve = (toy_serve.1, Some (Ok toy_conn)).
Proof.
  assert (Hr : toy_serve.2 = Some (Ok toy_conn)) by by vm_compute.
  destruct toy_serve as [sv' r]. simpl in *. by rewrite Hr.
Qed.

Lemma served_code : (authenticate (toy_call "sudo" 1000) served_state).2 = Some PAM_SUCCESS.
Proof. by vm_compute. Qed.
Lemma served_log :
  ps_log (authenticate (toy_call "sudo" 1000) served_state).1
  = [ESent (response_frame (encode_to_vec toy_request)); EInfo waiting_for_tap_password; EInfo auth_successful].
Proof. by vm_compute. Qed.

Lemma frame_inj a b : response_frame a = response_frame b → a = b.
Proof. unfold response_frame. intros Hf. apply app_inj_1 in Hf as [_ Hf]; [done|by rewrite !length_to_be_bytes]. Qed.

Lemma only_sent b f t u : ESent b ∈ [ESent f; EInfo t; EInfo u] → b = f.
Proof. set_solver. Qed.

Lemma end_to_end_success_witness :
  ∃ by_time, granted (received granting_env by_time) toy_csk toy_challenge toy_servers.
Proof.
  pose proof served_log as Hlog. destruct (toy_pam_run _ _ _ served_code) as [s' Ha]. rewrite Ha in Hlog.
  destruct (end_to_end_success true no_text EmptyString toy_admin granting_env (7, 0)
    toy_daemon toy_server toy_serve.1 toy_conn (toy_call "sudo" 1000) served_state s'
    [Chunk (cn_out toy_conn)] [] eq_refl eq_refl eq_refl Ha) as (user & tty & secs & id & csk & _ & _ & Hc & _ & _ & Hg).
  - intros m Hin. simpl in Hlog. rewrite Hlog in Hin.
    assert (encode_to_vec m = encode_to_vec toy_request) as ->.
    { apply only_sent in Hin. by apply frame_inj. }
    split; [by vm_compute|]. exact toy_serve_result.
  - simpl. by rewrite app_nil_r.
  - by vm_compute.
  - injection Hc as <-. eexists. exact Hg.
Defined.
